(* ===== verification/_CoqProject ===== *)
-Q . S2P
Prelude.v
GoLib.v
GoStrings.v
GoCodec.v
GoFloat.v
GoScan.v
GoNet.v
GoJSON.v
GoUnmarshal.v
GoUnmarshalSpec.v
GoTime.v
Sched.v
Auth.v
Bolt.v
KV.v
KVSpec.v
KVList.v
KVStore.v
ApiHttp.v
ApiKV.v
KVWitness.v
Volume.v
VolumeMeta.v
VolumeSpec.v
VolumeFiles.v
VolumeDurable.v
ApiVolumes.v
Executor.v
ExecutorJSON.v
ExecutorSpec.v
Pumps.v
WarmPool.v
Registry.v
ApiExec.v
ExecBounds.v
Kernel.v
KernelSpec.v
Session.v
SessionSlots.v
SessionSpec.v
ApiSessions.v
ApiBodies.v
Sse.v
ApiReplies.v
Reaper.v
SessionVolumes.v
ApiSessionsSpec.v
SessionFrame.v
VolumeFrame.v
ApiFrame.v
Workspace.v
WorkspaceFrame.v
Queue.v
QueueWire.v
QueueSpec.v
QueueEquiv.v
RateLimit.v
RateLimitSpec.v
Router.v
Web.v
Health.v
Main.v
Daemon.v
MainSpec.v
DaemonFrame.v
DaemonSpec.v
DaemonPrivacy.v
