(* ===== verification/Prelude.v ===== *)
(** * isobox: a verification development of the control plane

    isobox is a sandbox service.  The daemon [isoboxd] takes programs over HTTP
    and runs them in gVisor containers, one-shot ([/execute]) or in sessions with a
    workspace, an optional persistent volume and an optional resident Python kernel, and
    keeps a key/value memory per tenant.  The development models the Go code of the
    daemon as pure functions on explicit states, and proves the properties that make each
    component, and their composition, correct.

    ** Shape of the models

    A mutable component is a record; an operation is a function from the record, the
    arguments and what the call observes of the outside (clock, file system, docker,
    the moment a context expires) to a result and the new record.  Go's errors are
    [result]; a panic, or a loop that has not returned, is [None].  Calls to docker and
    the file system are recorded as lists of events.  Shared pointers (sessions,
    volumes, kernels) are locations in a heap.  Where the code gives up a lock in the middle
    of a call, the critical sections are separate definitions, the call is their
    composition, and an inductive step relation interleaves the critical sections of any
    number of calls; theorems named [..._refine(s)] show that the whole calls are runs of
    those steps.  Integers are [Z], with [wrap64] where Go's arithmetic can overflow;
    strings are byte strings; float64 is the [spec_float] of the Standard Library.

    ** Files

    - [Prelude]: results and their notation, tactics, sums over finite maps.
    - [GoLib], [GoStrings], [GoCodec], [GoFloat], [GoScan], [GoNet], [GoJSON], [GoUnmarshal],
      [GoUnmarshalSpec], [GoTime]: the parts of Go's standard library that the code uses: int64 and bytes, [strings] and
      [path/filepath], hex, base64 and SHA-256, [strconv] and float64, [fmt.Sscan], host:port and
      IP addresses, [json.Marshal] and UTF-8, and [json.Unmarshal]: the scanner as a state machine
      on bytes, the matching of members to fields, one decoder per type, what it can yield
      (UTF-8, int64), and the RFC 3339 text of a time.
    - [Sched] (internal/sched): the admission limiter.
    - [Auth] (internal/auth, parts of api/router.go and cmd/isoboxd): modules [KeyStore],
      [Middleware], [Config].
    - [Bolt] (the interface of bbolt), [KV] (internal/memory/kv.go), [KVSpec] (counters,
      expiry index, sweeps), [KVList] (pagination), [KVStore] (the store: isolation, quotas,
      histories), [KVWitness] (concrete instances).
    - [Volume] (internal/memory/volume.go), [VolumeMeta] (the JSON of meta.json), [VolumeSpec] (isolation,
      single writer, sweeps, start-up); [VolumeFiles] (the files of a volume directory, the system calls of a creation
      and a deletion, crashes), [VolumeDurable] (the index as a copy of the tree).
    - [Executor] (internal/executor: executor.go, gvisor.go, select.go), [ExecutorSpec];
      [ExecutorJSON] (its structs as JSON); [Pumps] (a run while it runs: the client, the goroutines
      that read its pipes and [cmd.Wait] as interleaved steps); [WarmPool] (warmpool.go).
    - [Registry] (internal/registry): the catalogue, modules [Catalogue].
    - [ApiHttp], [ApiExec] (api/execute.go, the in-process queue), [ExecBounds] (what one request may start), [ApiKV] (api/memory.go),
      [ApiVolumes] (api/volumes.go), [ApiSessions] (api/sessions.go): the handlers; [ApiBodies]: their
      request structs, decoded from the bytes of a body; [ApiReplies]: the bytes
      of their replies and what a client reads in them; [Sse]: the bytes of their event streams.
    - [Reaper] (internal/reaper): the sweep of exited containers, the executor's inspection, and
      the removal of old kernels at start-up (internal/session/kernel.go).
    - [Kernel], [KernelSpec] (internal/session/kernel.go): resident kernels and the step
      protocol.
    - [Session] (internal/session/manager.go); [SessionSpec] (access, files, sweeps);
      [SessionSlots] (kernel slots under interleaving); [SessionVolumes] (sessions and
      volumes together under interleaving); [ApiSessionsSpec] (the handlers and sweeps as
      runs of those steps); [SessionFrame], [VolumeFrame], [ApiFrame] (what the calls of a tenant leave
      alone of the others); [Workspace] (the tree of the workspaces, and what the calls of package os do to it),
      [WorkspaceFrame] (each call of /v1/sessions stays in the directory of its session).
    - [Queue], [QueueSpec], [QueueEquiv] (internal/queue): the Valkey driver, its world of
      submitters and workers, the comparison with the in-process driver; [QueueWire]: jobs and
      results as the JSON that crosses the broker.
    - [RateLimit], [RateLimitSpec] (api/ratelimit.go); [Router] (api/router.go); [Web] (internal/web);
      [Health] (api/health.go, api/metrics.go, internal/obs).
    - [Main], [MainSpec] (cmd/isoboxd/main.go): the daemon as one state, its start-up, ticker
      and shutdown; [Daemon]: a request end to end, and a life of the daemon; [DaemonFrame]
      (its invariant), [DaemonSpec] (it serves, and isolates tenants), [DaemonPrivacy] (what a tenant
      reads).

    ** How the parts interact

    A request passes the chain of its route ([Router.through]: body limit, rate limit,
    authentication, tenant gate) and reaches a handler with a tenant in its context.
    [ApiExec.handleExecute] goes through the queue seam (the class [ApiExec.Queue], with its
    contract [QueueSpec]) to the executor, holding a slot of [Sched].  Behind the
    seam is the in-process runner, or [Queue.RemoteQueue], the caller's side of the Valkey driver, whose workers
    ([Daemon.work]) use the same limiter and executor.  The session
    handlers drive [Session.Manager], which shares that limiter, owns a [Kernel] engine with
    a limiter of its own, and calls back into the volumes when a session goes
    ([ApiSessions.on_drop]).  The ticker ([Main.tick]) drives the sweeps of sessions,
    kernels, volumes and the store.  [Main.boot] builds all of it, and [Daemon.handle] is the way of
    one request through all of it: the table, the chain, the handler, the component, and the
    shared pointers written back ([Daemon.share]).  The files of the workspaces
    ([Daemon.p_files]) are part of the state: the file calls, the creations, teardowns and sweeps act on them, and so do programs
    between two calls.  [Daemon.life] is a sequence of requests, turns of queue workers, beats of
    the ticker, reloads, container boots and writes of programs.

    ** What the theorems show

    - The daemon: after any start-up and in any life it answers every request, and afterwards no
      slot or lock is lost ([DaemonSpec.daemon_serves]); a request changes nothing of a tenant but the one its
      key resolves to, files included, and nothing at all when it reaches no guarded handler
      ([DaemonSpec.daemon_isolation]); and what a tenant reads does not depend on
      what the others and their programs do ([DaemonPrivacy.reads_private]).  What the outside grants is
      [DaemonSpec.fits]: new uuids, a clock at or after 1970, kernels that end when killed, a broker that blocks as told.
    - Composition: volume locks are owned by live sessions and no volume has two writers
      ([SessionVolumes.volume_locks_owned]); kernel slots never leak and are never released
      twice ([SessionSlots.kernel_slots_exact]); the API calls, the ticker and the queue's
      workers are runs of the interleaved steps ([ApiSessionsSpec.session_api_refines],
      [MainSpec.tick_refines], [QueueEquiv.queue_calls_refine]); start-up gives every component
      the state its theorems assume ([MainSpec.boot_ready]); no route goes round the gates
      ([Router.routes_guarded]).
    - Tenants and access, per component: [KVStore.tenant_isolation], [VolumeSpec.volume_isolation],
      [SessionSpec.session_access], [SessionSpec.session_files_contained],
      [Auth.Config.loadKeyStore_fails_closed].
    - Bounds: one sandbox per request within the ceilings ([ExecBounds.execute_bounded]), quotas
      ([KVStore.put_quota_exact], [SessionSpec.sweep_bounds]), the rate limit in any window
      ([RateLimitSpec.rate_window]), the output of a kernel step and its deadline ([KernelSpec.step_deadline]).
    - Sandbox: user input is inert in the docker command line, network only behind a fresh
      firewall, containers are reaped and warm ones used once, frames forged inside a kernel
      are ignored; what a run reports is the start of what the program wrote, in every interleaving
      ([Pumps.run_observed]), and no interleaving hangs it ([Pumps.run_terminates]).
    - Data: the store's counters and expiry index are exact in every history, pages of a
      listing are complete, sweeps spare what is live, values survive HTTP
      ([ApiKV.kv_http_roundtrip]), an event stream says what the run did and no output forges an
      event ([Sse.sse_faithful]), a POSIX shell reads quoted words back; what is written as JSON is
      read back: requests ([ApiBodies.requests_read_back]), jobs and
      results ([QueueWire.accepted_job_crosses], [QueueWire.wire_faithful]), the requests to a kernel ([KernelSpec.frames_read_back]), the bodies
      of replies ([ApiReplies.replies_read_back]).
    - Durability: a restart of the volume manager is invisible but for the locks, and for deletions that failed
      ([VolumeDurable.restart_transparent]); a crash in a creation leaves a whole volume or none
      ([VolumeFiles.create_crash_atomic]); a deletion that stops in the middle may come back
      ([VolumeFiles.interrupted_delete]).
    - Queue: [Submit] returns within a minute, no job is lost, and the Valkey driver answers
      as the in-process one but for one error.
    - Negative results, stated as theorems: a write outlives its lock when a session is
      destroyed during a step, attach races with delete, a deletion that fails is undone by a restart, a job that imitates a failed
      start runs twice, a long TTL wraps, reclaimed jobs are run for nobody, a sweep of the reaper
      loses an out-of-memory verdict, the tail of the output can be lost ([Pumps.tail_lost]).

    ** Fuel and bounds

    Recursion is structural almost everywhere.  A listing is followed for the number of keys
    plus one pages, which [KVList.list_pages_complete] proves enough; the loop of [Submit]
    is given its polls, of which 61 are enough ([QueueSpec.submit_terminates]); the text of a JSON
    string is unescaped with its length as fuel, each step taking at least a byte; the loop over the
    groups of an IPv6 address has its own bound of eight; the loop of a kernel step
    consumes the frames that arrive and returns exactly at a terminal one, which the kill of the hard timer
    brings at the latest ([Kernel.channel]).

    ** Parameters

    Code that is not part of the repository is a class with laws, each with a concrete
    instance on which the theorems are instantiated: x/sync/semaphore
    ([Sched.Weighted]), bbolt ([Bolt.Bolt]) and gob ([KV.RecordCodec]), the Redis-Streams
    broker ([Queue.Broker]), the codec of meta.json ([VolumeMeta.MetaCodec]), x/time/rate
    ([RateLimit.Bucket]), chi's matching ([Router.Mux]), the docker command line
    ([Reaper.Docker]).  The backend of a run is a function
    from a specification to an outcome wherever only its result matters; Unicode lower-casing
    beyond ASCII, and the text of a float64 ([%g] of one that is no integer, and in JSON), are
    functions.  The coding of jobs is a class as well ([Queue.Wire]), so that the driver's theorems
    hold of any, and is implemented by [QueueWire.json_wire]; that of meta.json is implemented by
    [VolumeMeta.json_meta].  The text of a time in the zone of the host is a function ([ApiReplies]).

    ** Not modelled

    The loops of the tickers (internal/reaper, the rate limiter's janitor), the content of the
    embedded files, the log lines, the HTTP server and signal handling of cmd/isoboxd, the Python
    harness inside the kernel container, clients, deployment files and documents. Texts of a time
    that are not strict RFC 3339 but that Go's parser still accepts are refused by [GoTime]. A crash
    is that of the process: what a power failure leaves of files that are not synced is shown by an
    example only ([VolumeFiles.unsynced_meta]). Memory models weaker than interleaving of critical
    sections are out of scope.  A workspace holds files and directories, no symbolic links.  A life of the daemon is a sequence:
    calls that overlap are the subject of the step relations. *)

From stdpp Require Export base gmap strings list sorting pretty.
From Stdlib Require Export ZArith Ascii String Lia.

#[global] Open Scope Z_scope.
#[global] Open Scope list_scope.
#[global] Set Default Goal Selector "!".
#[global] Arguments String.append !_ _ / : simpl nomatch.

(** ** Results

    Go's [(value, error)] pairs: a call either returns a value or a non-nil
    error.  [E] is the component's own error type. *)
Inductive result (E A : Type) : Type :=
| Ok (a : A)
| Err (e : E).
Arguments Ok {E A} a.
Arguments Err {E A} e.

#[export] Instance result_eq_dec {E A} `{EqDecision E, EqDecision A} :
  EqDecision (result E A).
Proof. solve_decision. Defined.

Declare Scope isobox_scope.
Delimit Scope isobox_scope with isobox.

(** [x <-? c ; k]: Go's [x, err := c; if err != nil { return err }; k]. *)
Notation "x <-? c ; k" :=
  (match c with Ok x => k | Err e => Err e end)
  (at level 100, c at next level, right associativity) : isobox_scope.
(** [check b else e ; k]: an early return [if !b { return e }]. *)
Notation "'check' b 'else' e ; k" :=
  (if b then k else Err e)
  (at level 100, b at next level, e at next level, right associativity) : isobox_scope.

#[global] Open Scope isobox_scope.

Definition is_ok {E A} (r : result E A) : bool :=
  match r with Ok _ => true | Err _ => false end.

(** ** Automation *)

(** Case analysis on the scrutinee of a [match] or [if] of the goal or of a
    hypothesis, keeping the equation. *)
Ltac case_goal :=
  match goal with
  | |- context [match ?x with _ => _ end] => destruct x eqn:?
  end.
Ltac case_in H :=
  match type of H with
  | context [match ?x with _ => _ end] => destruct x eqn:?
  end.

(** Turn boolean tests into propositions that [lia] reads. *)
Ltac boolp :=
  repeat match goal with
  | H : andb _ _ = true |- _ => apply andb_true_iff in H; destruct H
  | H : orb _ _ = false |- _ => apply orb_false_iff in H; destruct H
  | H : negb _ = true |- _ => apply negb_true_iff in H
  | H : negb _ = false |- _ => apply negb_false_iff in H
  | H : bool_decide _ = true |- _ => apply bool_decide_eq_true in H
  | H : bool_decide _ = false |- _ => apply bool_decide_eq_false in H
  | H : (_ <? _)%Z = true |- _ => apply Z.ltb_lt in H
  | H : (_ <? _)%Z = false |- _ => apply Z.ltb_ge in H
  | H : (_ <=? _)%Z = true |- _ => apply Z.leb_le in H
  | H : (_ <=? _)%Z = false |- _ => apply Z.leb_gt in H
  | H : (_ =? _)%Z = true |- _ => apply Z.eqb_eq in H
  | H : (_ =? _)%Z = false |- _ => apply Z.eqb_neq in H
  | H : String.eqb _ _ = true |- _ => apply String.eqb_eq in H
  | H : String.eqb _ _ = false |- _ => apply String.eqb_neq in H
  | H : Ascii.eqb _ _ = true |- _ => apply Ascii.eqb_eq in H
  | H : Ascii.eqb _ _ = false |- _ => apply Ascii.eqb_neq in H
  end.

(** Split every test of the goal, then close arithmetic or contradictory cases. *)
Ltac split_ifs := repeat case_goal; boolp.
Ltac split_ifs_in H := repeat case_in H; boolp.

(** ** Lists *)
Lemma rev_ne {A} (l : list A) : l ≠ [] → rev l ≠ [].
Proof. intros H E. apply H. by rewrite <- (rev_involutive l), E. Qed.

Lemma elem_of_rev {A} (x : A) (l : list A) : x ∈ rev l ↔ x ∈ l.
Proof. rewrite !list_elem_of_In. symmetry. apply in_rev. Qed.

(** A boolean fact checked on every integer of an interval. *)
Lemma seqZ_check (p : Z → bool) lo n :
  forallb p (seqZ lo n) = true → ∀ x, lo ≤ x < lo + n → p x = true.
Proof.
  rewrite forallb_forall. intros H x Hx. apply H, list_elem_of_In, elem_of_seqZ. done.
Qed.

(** ** Sums over finite maps *)
Section map_sum.
Context `{Countable K} {A : Type}.
Implicit Types (f : K → A → Z) (m : gmap K A).

(** The sum of [f] over the entries of a map: what a counter kept next to a
    store is meant to equal. *)
Definition map_sum f m : Z := map_fold (λ k v acc, f k v + acc) 0 m.

Lemma map_sum_empty f : map_sum f ∅ = 0.
Proof. apply map_fold_empty. Qed.

Lemma map_sum_insert_fresh f m k v :
  m !! k = None → map_sum f (<[k:=v]> m) = f k v + map_sum f m.
Proof.
  intros Hk. unfold map_sum. rewrite map_fold_insert_L; [done| |done].
  intros. lia.
Qed.

Lemma map_sum_delete f m k v :
  m !! k = Some v → map_sum f m = f k v + map_sum f (delete k m).
Proof.
  intros Hk. unfold map_sum. rewrite (map_fold_delete_L _ _ k v); [done| |done].
  intros. lia.
Qed.

Lemma map_sum_insert f m k v :
  map_sum f (<[k:=v]> m) =
    map_sum f m - from_option (f k) 0 (m !! k) + f k v.
Proof.
  destruct (m !! k) as [w|] eqn:Hk; simpl.
  - rewrite <- insert_delete_eq, map_sum_insert_fresh by apply lookup_delete_eq.
    rewrite (map_sum_delete f m k w Hk). lia.
  - rewrite map_sum_insert_fresh by done. lia.
Qed.

Lemma map_sum_nonneg f m :
  (∀ k v, m !! k = Some v → 0 ≤ f k v) → 0 ≤ map_sum f m.
Proof.
  induction m as [|k v m Hk IH] using map_ind; intros Hf.
  - rewrite map_sum_empty. lia.
  - rewrite map_sum_insert_fresh by done.
    assert (0 ≤ f k v) by (apply Hf; apply lookup_insert_eq).
    assert (0 ≤ map_sum f m); [|lia].
    apply IH. intros k' v' Hk'. apply Hf. rewrite lookup_insert_ne; congruence.
Qed.

Lemma map_sum_ge_elem f m k v :
  (∀ k v, m !! k = Some v → 0 ≤ f k v) → m !! k = Some v → f k v ≤ map_sum f m.
Proof.
  intros Hf Hk. rewrite (map_sum_delete f m k v Hk).
  assert (0 ≤ map_sum f (delete k m)); [|lia].
  apply map_sum_nonneg. intros k' v' [_ Hk']%lookup_delete_Some. eauto.
Qed.

Lemma map_sum_ext f g m :
  (∀ k v, m !! k = Some v → f k v = g k v) → map_sum f m = map_sum g m.
Proof.
  induction m as [|k v m Hk IH] using map_ind; intros Hf; [by rewrite !map_sum_empty|].
  rewrite !map_sum_insert_fresh by done.
  rewrite (Hf k v) by apply lookup_insert_eq. f_equal. apply IH.
  intros k' v' Hk'. apply Hf. rewrite lookup_insert_ne; congruence.
Qed.

Lemma map_sum_subseteq f m1 m2 :
  (∀ k v, 0 ≤ f k v) → m1 ⊆ m2 → map_sum f m1 ≤ map_sum f m2.
Proof.
  intros Hf. revert m2. induction m1 as [|k v m1 Hk IH] using map_ind; intros m2 Hsub.
  { rewrite map_sum_empty. by apply map_sum_nonneg. }
  rewrite map_sum_insert_fresh by done.
  assert (Hv : m2 !! k = Some v) by (eapply lookup_weaken; [apply lookup_insert_eq|done]).
  rewrite (map_sum_delete f m2 k v Hv). apply Z.add_le_mono_l, IH.
  apply map_subseteq_spec. intros k' v' Hk'. destruct (decide (k' = k)) as [->|Hne]; [congruence|].
  rewrite lookup_delete_ne by done. eapply lookup_weaken; [|done]. by rewrite lookup_insert_ne.
Qed.

Lemma map_sum_foldr f m : map_sum f m = foldr (λ kv acc, f kv.1 kv.2 + acc) 0 (map_to_list m).
Proof.
  unfold map_sum. rewrite map_fold_foldr. induction (map_to_list m) as [|[k v] l IH]; [done|].
  cbn [foldr uncurry fst snd]. by rewrite IH.
Qed.

Lemma map_sum_const_size m : map_sum (λ _ _, 1) m = Z.of_nat (size m).
Proof.
  induction m as [|k v m Hk IH] using map_ind; [done|].
  rewrite map_sum_insert_fresh, IH, map_size_insert_None by done. lia.
Qed.
End map_sum.

Create HintDb isobox.
Create Rewrite HintDb isobox.
#[export] Hint Rewrite @map_sum_empty : isobox.
