(* ===== verification/GoLib.v ===== *)
(** * The parts of Go's language and standard library the program relies on

    Fixed-width integers ([Int64]), byte strings with big-endian integers
    ([Bytes]), package [strings] ([Strings]) and package [path/filepath] on a
    Unix host ([Filepath]).  A Go [string] and a [[]byte] are both [string]
    here: a sequence of 8-bit characters. *)

From S2P Require Import Prelude.

(** ** Fixed-width integers *)
Module Int64.
(** [int64] arithmetic: the two's complement representative of [z]. *)
Definition wrap64 (z : Z) : Z := (z + 2 ^ 63) mod 2 ^ 64 - 2 ^ 63.
(** The conversion [uint64(x)]. *)
Definition u64 (z : Z) : Z := z mod 2 ^ 64.
Definition in64 (z : Z) : Prop := - 2 ^ 63 ≤ z < 2 ^ 63.

Lemma wrap64_id z : in64 z → wrap64 z = z.
Proof. unfold in64, wrap64. intros. rewrite Z.mod_small; lia. Qed.

Lemma wrap64_in64 z : in64 (wrap64 z).
Proof.
  unfold in64, wrap64.
  pose proof (Z.mod_pos_bound (z + 2 ^ 63) (2 ^ 64) eq_refl). lia.
Qed.

(** [int64(uint64(z)) = z] for every [int64]. *)
Lemma wrap64_u64 z : wrap64 (u64 z) = wrap64 z.
Proof. unfold wrap64, u64. by rewrite Zplus_mod_idemp_l. Qed.

Lemma u64_wrap64 z : u64 (wrap64 z) = u64 z.
Proof.
  unfold wrap64, u64. rewrite Zminus_mod_idemp_l. f_equal. lia.
Qed.

Lemma u64_id z : 0 ≤ z < 2 ^ 64 → u64 z = z.
Proof. apply Z.mod_small. Qed.

Lemma u64_bound z : 0 ≤ u64 z < 2 ^ 64.
Proof. by apply Z.mod_pos_bound. Qed.
End Int64.
Export Int64.

(** ** Byte strings *)
Module Bytes.
Definition byte_of_Z (z : Z) : ascii := ascii_of_N (Z.to_N (z mod 256)).
Definition Z_of_byte (c : ascii) : Z := Z.of_N (N_of_ascii c).

Lemma Z_of_byte_bound c : 0 ≤ Z_of_byte c < 256.
Proof. unfold Z_of_byte. pose proof (N_ascii_bounded c). lia. Qed.

Lemma Z_of_byte_of_Z z : Z_of_byte (byte_of_Z z) = z mod 256.
Proof.
  unfold Z_of_byte, byte_of_Z. pose proof (Z.mod_pos_bound z 256 eq_refl).
  rewrite N_ascii_embedding; lia.
Qed.

Lemma byte_of_Z_of_byte c : byte_of_Z (Z_of_byte c) = c.
Proof.
  unfold byte_of_Z. rewrite Z.mod_small by apply Z_of_byte_bound.
  unfold Z_of_byte. by rewrite N2Z.id, ascii_N_embedding.
Qed.

Lemma Z_of_byte_inj c d : Z_of_byte c = Z_of_byte d → c = d.
Proof.
  intros H. by rewrite <- (byte_of_Z_of_byte c), H, byte_of_Z_of_byte.
Qed.

Lemma ascii_compare_Z c d : Ascii.compare c d = (Z_of_byte c ?= Z_of_byte d).
Proof. unfold Ascii.compare, Z_of_byte. by rewrite N2Z.inj_compare. Qed.

(** Go's [len(s)]. *)
Definition len (s : string) : Z := Z.of_nat (String.length s).
(** The slices [s[:n]] and [s[n:]]. *)
Fixpoint str_take (n : nat) (s : string) : string :=
  match n, s with
  | O, _ | _, EmptyString => EmptyString
  | S n, String c s => String c (str_take n s)
  end.
Fixpoint str_drop (n : nat) (s : string) : string :=
  match n, s with
  | O, _ => s
  | _, EmptyString => EmptyString
  | S n, String _ s => str_drop n s
  end.

Lemma len_nonneg s : 0 ≤ len s.
Proof. unfold len. lia. Qed.

Lemma slength_app s t : String.length (s +:+ t) = (String.length s + String.length t)%nat.
Proof. induction s as [|c s IH]; [done|]. simpl. by rewrite IH. Qed.

Lemma sapp_assoc (s t u : string) : s +:+ (t +:+ u) = (s +:+ t) +:+ u.
Proof. induction s as [|c s IH]; [done|]. simpl. by rewrite IH. Qed.

Lemma sapp_nil_r (s : string) : s +:+ "" = s.
Proof. induction s as [|c s IH]; [done|]. simpl. by rewrite IH. Qed.

Lemma str_take_app s t : str_take (String.length s) (s +:+ t) = s.
Proof.
  induction s as [|c s IH]; [by destruct t|].
  simpl. by rewrite IH.
Qed.

Lemma str_drop_app s t : str_drop (String.length s) (s +:+ t) = t.
Proof.
  induction s as [|c s IH]; [by destruct t|].
  simpl. done.
Qed.

Lemma str_take_app_eq n s t : String.length s = n → str_take n (s +:+ t) = s.
Proof. intros <-. apply str_take_app. Qed.
Lemma str_drop_app_eq n s t : String.length s = n → str_drop n (s +:+ t) = t.
Proof. intros <-. apply str_drop_app. Qed.

Lemma str_take_app_more (s t : string) k : (String.length s ≤ k)%nat →
  str_take k (s +:+ t) = s +:+ str_take (k - String.length s) t.
Proof.
  revert k. induction s as [|c s IH]; intros k Hk; [by rewrite Nat.sub_0_r|].
  destruct k as [|k]; cbn in Hk; [lia|]. cbn. rewrite IH by lia. done.
Qed.
Lemma str_take_app_less (s t : string) k : (k ≤ String.length s)%nat → str_take k (s +:+ t) = str_take k s.
Proof.
  revert k. induction s as [|c s IH]; intros k Hk; cbn in Hk.
  { assert (k = 0%nat) as -> by lia. by destruct t. }
  destruct k as [|k]; [done|]. cbn. rewrite IH by lia. done.
Qed.

Lemma str_take_drop n s : str_take n s +:+ str_drop n s = s.
Proof.
  revert s. induction n as [|n IH]; intros [|c s]; try done.
  simpl. by rewrite IH.
Qed.

Lemma length_str_take n s :
  String.length (str_take n s) = Nat.min n (String.length s).
Proof. revert s. induction n as [|n IH]; intros [|c s]; simpl; auto. Qed.

Lemma length_str_drop n s :
  String.length (str_drop n s) = (String.length s - n)%nat.
Proof. revert s. induction n as [|n IH]; intros [|c s]; simpl; auto. Qed.

Lemma str_drop_drop n m s : str_drop m (str_drop n s) = str_drop (n + m) s.
Proof. revert s. induction n as [|n IH]; intros [|c s]; simpl; auto. by destruct m. Qed.

Lemma str_take_all n s : (String.length s ≤ n)%nat → str_take n s = s.
Proof.
  revert s. induction n as [|n IH]; intros [|c s]; simpl; try done; [lia|].
  intros. rewrite IH; [done|lia].
Qed.

Lemma app_inj_l (s t u : string) : s +:+ t = s +:+ u → t = u.
Proof. induction s as [|c s IH]; [done|]. simpl. intros [=]. auto. Qed.

Lemma app_inj_length (s s' t t' : string) :
  String.length s = String.length s' → s +:+ t = s' +:+ t' → s = s' ∧ t = t'.
Proof.
  revert s'. induction s as [|c s IH]; intros [|c' s']; simpl; try done.
  intros [= Hl]. simpl. intros [= -> He].
  destruct (IH s' Hl He) as [-> ->]. done.
Qed.

(** *** Big-endian integers (encoding/binary.BigEndian) *)

(** [PutUint64] for [n = 8], [PutUint16] for [n = 2]. *)
Fixpoint be_put (n : nat) (z : Z) : string :=
  match n with
  | O => ""
  | S m => String (byte_of_Z (z / 256 ^ Z.of_nat m)) (be_put m z)
  end.
Fixpoint be_get_acc (acc : Z) (s : string) : Z :=
  match s with
  | EmptyString => acc
  | String c s => be_get_acc (acc * 256 + Z_of_byte c) s
  end.
(** [Uint64] / [Uint16] of the whole string. *)
Definition be_get (s : string) : Z := be_get_acc 0 s.

Lemma length_be_put n z : String.length (be_put n z) = n.
Proof. induction n as [|n IH]; simpl; auto. Qed.

Lemma be_mod_step n z :
  z mod 256 ^ Z.of_nat (S n) =
    (z / 256 ^ Z.of_nat n) mod 256 * 256 ^ Z.of_nat n + z mod 256 ^ Z.of_nat n.
Proof.
  rewrite Nat2Z.inj_succ, Z.pow_succ_r by lia. rewrite (Z.mul_comm 256).
  rewrite Z.rem_mul_r by (first [apply Z.pow_nonzero; lia | lia]). lia.
Qed.

Lemma be_get_acc_put acc n z :
  be_get_acc acc (be_put n z) = acc * 256 ^ Z.of_nat n + z mod 256 ^ Z.of_nat n.
Proof.
  revert acc. induction n as [|n IH]; intros acc.
  - simpl be_put. simpl be_get_acc. change (256 ^ Z.of_nat 0) with 1.
    rewrite Z.mod_1_r. lia.
  - cbn [be_put be_get_acc]. rewrite IH, Z_of_byte_of_Z, be_mod_step.
    rewrite Nat2Z.inj_succ, Z.pow_succ_r by lia. ring.
Qed.

Lemma be_get_put n z : be_get (be_put n z) = z mod 256 ^ Z.of_nat n.
Proof. unfold be_get. rewrite be_get_acc_put. lia. Qed.

Lemma be_put_mod n m z : (m ≤ n)%nat → be_put m (z mod 256 ^ Z.of_nat n) = be_put m z.
Proof.
  induction m as [|m IH]; intros Hle; [done|]. cbn [be_put].
  rewrite IH by lia. f_equal. unfold byte_of_Z. f_equal. f_equal.
  replace (Z.of_nat n) with (Z.of_nat m + 1 + Z.of_nat (n - m - 1)) by lia.
  rewrite !Z.pow_add_r by lia. change (256 ^ 1) with 256.
  rewrite <- Z.mul_assoc.
  rewrite Z.rem_mul_r by (first [apply Z.pow_nonzero; lia
                  | apply Z.mul_pos_pos; [lia|apply Z.pow_pos_nonneg; lia]]).
  rewrite (Z.add_comm (z mod _)), Z.mul_comm, Z.div_add_l by (apply Z.pow_nonzero; lia).
  rewrite (Z.div_small (z mod _)) by (apply Z.mod_pos_bound, Z.pow_pos_nonneg; lia).
  rewrite Z.add_0_r.
  rewrite Z.rem_mul_r by (first [lia | apply Z.pow_pos_nonneg; lia | apply Z.pow_nonzero; lia]).
  rewrite (Z.mul_comm 256), Z.mod_add by lia. apply Z.mod_mod. lia.
Qed.

Lemma be_get_acc_split acc s :
  be_get_acc acc s = acc * 256 ^ len s + be_get s ∧ 0 ≤ be_get s < 256 ^ len s.
Proof.
  revert acc. induction s as [|c s IH]; intros acc.
  { unfold be_get, len. simpl. change (256 ^ Z.of_nat 0) with 1. lia. }
  unfold be_get. cbn [be_get_acc].
  destruct (IH (acc * 256 + Z_of_byte c)) as [-> Hb].
  destruct (IH (0 * 256 + Z_of_byte c)) as [-> _].
  assert (256 ^ len (String c s) = 256 * 256 ^ len s) as ->.
  { unfold len. simpl String.length. rewrite Nat2Z.inj_succ, Z.pow_succ_r; lia. }
  pose proof (Z_of_byte_bound c). nia.
Qed.

Lemma be_put_get s : be_put (String.length s) (be_get s) = s.
Proof.
  induction s as [|c s IH]; [done|]. cbn [String.length be_put].
  unfold be_get. cbn [be_get_acc].
  destruct (be_get_acc_split (0 * 256 + Z_of_byte c) s) as [-> Hb].
  fold (len s). assert (0 < 256 ^ len s) by (apply Z.pow_pos_nonneg; [lia|apply len_nonneg]).
  f_equal.
  - rewrite Z.div_add_l, Z.div_small by lia.
    replace (0 * 256 + Z_of_byte c + 0) with (Z_of_byte c) by lia. apply byte_of_Z_of_byte.
  - rewrite <- (be_put_mod (String.length s)) by done. fold (len s).
    rewrite Z.add_comm, Z_mod_plus_full, Z.mod_small by done. apply IH.
Qed.

(** Byte order of big-endian encodings is numeric order: an index whose keys
    start with a big-endian timestamp is walked soonest first. *)
Lemma be_put_leb n a b x y :
  0 ≤ a < 256 ^ Z.of_nat n → 0 ≤ b < 256 ^ Z.of_nat n →
  String.leb (be_put n a +:+ x) (be_put n b +:+ y) = true → a ≤ b.
Proof.
  revert a b. induction n as [|n IH]; intros a b Ha Hb.
  { change (256 ^ Z.of_nat 0) with 1 in *. lia. }
  set (P := 256 ^ Z.of_nat n). assert (0 < P) by (apply Z.pow_pos_nonneg; lia).
  assert (HS : 256 ^ Z.of_nat (S n) = 256 * P).
  { unfold P. rewrite Nat2Z.inj_succ, Z.pow_succ_r; lia. }
  rewrite HS in Ha, Hb. simpl be_put. simpl append. fold P.
  unfold String.leb. simpl String.compare. rewrite ascii_compare_Z, !Z_of_byte_of_Z.
  assert (0 ≤ a / P < 256) by (split; [apply Z.div_pos|apply Z.div_lt_upper_bound]; lia).
  assert (0 ≤ b / P < 256) by (split; [apply Z.div_pos|apply Z.div_lt_upper_bound]; lia).
  rewrite !(Z.mod_small (_ / P)) by done.
  pose proof (Z.div_mod a P ltac:(lia)). pose proof (Z.div_mod b P ltac:(lia)).
  pose proof (Z.mod_pos_bound a P ltac:(lia)). pose proof (Z.mod_pos_bound b P ltac:(lia)).
  destruct (a / P ?= b / P) eqn:Hc.
  - apply Z.compare_eq in Hc. intros Hleb.
    assert (a mod P ≤ b mod P); [|nia].
    apply IH; [done..|]. unfold P. by rewrite !be_put_mod.
  - rewrite Z.compare_lt_iff in Hc. nia.
  - done.
Qed.
End Bytes.
Export Bytes.
