(* ===== verification/GoStrings.v ===== *)
(** * Packages [strings] and [path/filepath]

    Byte-exact models of the functions the program calls.  [ToLower] agrees
    with Go on ASCII strings; on other strings it defers to the Unicode case
    table, which is the argument [uni_lower]. *)

From S2P Require Import Prelude GoLib.

(** ** Characters and character classes *)
Definition code (c : ascii) : Z := Z_of_byte c.
Definition char_between (lo hi c : ascii) : bool :=
  (code lo <=? code c) && (code c <=? code hi).
Definition is_digit : ascii → bool := char_between "0" "9".
Definition is_lower : ascii → bool := char_between "a" "z".
Definition is_upper : ascii → bool := char_between "A" "Z".
Definition is_hex_lower (c : ascii) : bool := is_digit c || char_between "a" "f" c.
Definition is_ascii (c : ascii) : bool := code c <? 128.

Fixpoint str_forall (p : ascii → bool) (s : string) : bool :=
  match s with EmptyString => true | String c s => p c && str_forall p s end.
Fixpoint str_map (f : ascii → ascii) (s : string) : string :=
  match s with EmptyString => EmptyString | String c s => String (f c) (str_map f s) end.
Fixpoint contains_char (a : ascii) (s : string) : bool :=
  match s with EmptyString => false | String c s => Ascii.eqb a c || contains_char a s end.
Fixpoint str_rev_acc (acc s : string) : string :=
  match s with EmptyString => acc | String c s => str_rev_acc (String c acc) s end.
Definition str_rev : string → string := str_rev_acc "".

Lemma str_forall_app p s t : str_forall p (s +:+ t) = str_forall p s && str_forall p t.
Proof. induction s as [|c s IH]; simpl; [done|]. by rewrite IH, andb_assoc. Qed.

Lemma str_forall_impl (p q : ascii → bool) s :
  (∀ c, p c = true → q c = true) → str_forall p s = true → str_forall q s = true.
Proof.
  intros Hpq. induction s as [|c s IH]; simpl; [done|].
  intros [Hc Hs]%andb_true_iff. rewrite Hpq, IH; done.
Qed.

Lemma str_forall_take p n s : str_forall p s = true → str_forall p (str_take n s) = true.
Proof.
  revert s. induction n as [|n IH]; intros [|c s]; simpl; try done.
  intros [Hc Hs]%andb_true_iff. by rewrite Hc, IH.
Qed.

Lemma str_forall_drop p n s : str_forall p s = true → str_forall p (str_drop n s) = true.
Proof.
  revert s. induction n as [|n IH]; intros [|c s]; simpl; try done.
  intros [Hc Hs]%andb_true_iff. auto.
Qed.

Lemma contains_char_app a s t : contains_char a (s +:+ t) = contains_char a s || contains_char a t.
Proof. induction s as [|c s IH]; simpl; [done|]. by rewrite IH, orb_assoc. Qed.

Lemma forall_no_char (p : ascii → bool) a s :
  p a = false → str_forall p s = true → contains_char a s = false.
Proof.
  intros Ha. induction s as [|c s IH]; simpl; [done|].
  intros [Hc Hs]%andb_true_iff. rewrite IH by done.
  destruct (Ascii.eqb a c) eqn:E; [|done]. apply Ascii.eqb_eq in E. congruence.
Qed.

Lemma str_rev_acc_forall p s acc :
  str_forall p (str_rev_acc acc s) = str_forall p s && str_forall p acc.
Proof.
  revert acc. induction s as [|c s IH]; intros acc; simpl; [done|].
  rewrite IH. simpl. destruct (p c), (str_forall p s); done.
Qed.

Lemma str_rev_forall p s : str_forall p (str_rev s) = str_forall p s.
Proof. unfold str_rev. rewrite str_rev_acc_forall. simpl. apply andb_true_r. Qed.

(** ** Package strings *)
Module Strings.
(** [strings.HasPrefix], [TrimPrefix], [HasSuffix]. *)
Fixpoint HasPrefix (s p : string) {struct p} : bool :=
  match p, s with
  | EmptyString, _ => true
  | String a p, String c s => Ascii.eqb a c && HasPrefix s p
  | String _ _, EmptyString => false
  end.
Definition TrimPrefix (s p : string) : string :=
  if HasPrefix s p then str_drop (String.length p) s else s.
Definition HasSuffix (s p : string) : bool := HasPrefix (str_rev s) (str_rev p).
(** [strings.Contains]. *)
Fixpoint Contains (s sub : string) {struct s} : bool :=
  HasPrefix s sub ||
  match s with EmptyString => false | String _ s => Contains s sub end.

(** [strings.Split] by a one-byte separator and [strings.Join]. *)
Fixpoint split_on (a : ascii) (s : string) : list string :=
  match s with
  | EmptyString => [""]
  | String c s =>
      match split_on a s with
      | h :: t => if Ascii.eqb a c then "" :: h :: t else String c h :: t
      | [] => []
      end
  end.
Fixpoint Join (l : list string) (sep : string) : string :=
  match l with
  | [] => ""
  | [x] => x
  | x :: l => x +:+ sep +:+ Join l sep
  end.
(** [strings.ReplaceAll] of a one-byte pattern. *)
Fixpoint replace_char (a : ascii) (r s : string) : string :=
  match s with
  | EmptyString => ""
  | String c s => (if Ascii.eqb a c then r else String c "") +:+ replace_char a r s
  end.
(** [strings.FieldsFunc]: the maximal runs of characters outside [f]. *)
Fixpoint fields_func (f : ascii → bool) (cur s : string) : list string :=
  match s with
  | EmptyString => if String.eqb cur "" then [] else [cur]
  | String c s =>
      if f c then (if String.eqb cur "" then [] else [cur]) ++ fields_func f "" s
      else fields_func f (cur +:+ String c "") s
  end.

(** White space as [unicode.IsSpace] sees it in UTF-8: the ASCII blanks, the
    two-byte U+0085 and U+00A0, and the three-byte separators. *)
Definition space1 (c : ascii) : bool :=
  (code c =? 32) || ((9 <=? code c) && (code c <=? 13)).
Definition space2 (c d : ascii) : bool :=
  (code c =? 194) && ((code d =? 133) || (code d =? 160)).
Definition space3 (c d e : ascii) : bool :=
  ((code c =? 225) && (code d =? 154) && (code e =? 128)) ||
  ((code c =? 226) && (code d =? 128) &&
     (((128 <=? code e) && (code e <=? 138)) || (code e =? 168) || (code e =? 169) ||
      (code e =? 175))) ||
  ((code c =? 226) && (code d =? 129) && (code e =? 159)) ||
  ((code c =? 227) && (code d =? 128) && (code e =? 128)).
Fixpoint trim_front (s2 : ascii → ascii → bool) (s3 : ascii → ascii → ascii → bool)
    (s : string) : string :=
  match s with
  | EmptyString => ""
  | String c t1 =>
      if space1 c then trim_front s2 s3 t1 else
      match t1 with
      | String d t2 =>
          if s2 c d then trim_front s2 s3 t2 else
          match t2 with
          | String e t3 => if s3 c d e then trim_front s2 s3 t3 else s
          | EmptyString => s
          end
      | EmptyString => s
      end
  end.
(** [strings.TrimSpace]. *)
Definition TrimSpace (s : string) : string :=
  str_rev (trim_front (λ c d, space2 d c) (λ c d e, space3 e d c)
    (str_rev (trim_front space2 space3 s))).

(** [strings.ToLower]. *)
Definition lower_char (c : ascii) : ascii :=
  if is_upper c then byte_of_Z (code c + 32) else c.
Definition ToLower (uni_lower : string → string) (s : string) : string :=
  if str_forall is_ascii s then str_map lower_char s else uni_lower s.

(** [strings.EqualFold s t] for an ASCII [t]: besides the ASCII letters, only
    U+212A (Kelvin, bytes E2 84 AA) and U+017F (long s, bytes C5 BF) fold to
    an ASCII character. *)
Fixpoint fold_ascii (s : string) : string :=
  match s with
  | EmptyString => ""
  | String c t1 =>
      match t1 with
      | String d t2 =>
          if (code c =? 197) && (code d =? 191) then String "s" (fold_ascii t2) else
          match t2 with
          | String e t3 =>
              if (code c =? 226) && (code d =? 132) && (code e =? 170)
              then String "k" (fold_ascii t3)
              else String (lower_char c) (fold_ascii t1)
          | EmptyString => String (lower_char c) (fold_ascii t1)
          end
      | EmptyString => String (lower_char c) (fold_ascii t1)
      end
  end.
Definition EqualFold (s t : string) : bool := String.eqb (fold_ascii s) (fold_ascii t).

Lemma HasPrefix_spec s p : HasPrefix s p = true ↔ ∃ r, s = p +:+ r.
Proof.
  revert s. induction p as [|a p IH]; intros s; simpl.
  - split; [by exists s|done].
  - destruct s as [|c s]; [split; [done|by intros [r Hr]]|].
    rewrite andb_true_iff, Ascii.eqb_eq, IH. split.
    + intros [-> [r ->]]. by exists r.
    + intros [r [= -> ->]]. eauto.
Qed.

Lemma HasPrefix_app p r : HasPrefix (p +:+ r) p = true.
Proof. apply HasPrefix_spec. eauto. Qed.

Lemma TrimPrefix_app p r : TrimPrefix (p +:+ r) p = r.
Proof. unfold TrimPrefix. by rewrite HasPrefix_app, str_drop_app. Qed.

Lemma split_on_ne a s : split_on a s ≠ [].
Proof.
  induction s as [|c s IH]; simpl; [done|].
  destruct (split_on a s); [done|]. by destruct (Ascii.eqb a c).
Qed.

Lemma split_on_none a s : contains_char a s = false → split_on a s = [s].
Proof.
  induction s as [|c s IH]; simpl; [done|].
  intros [Hc Hs]%orb_false_iff. by rewrite (IH Hs), Hc.
Qed.

Lemma split_on_sep a s t :
  split_on a (s +:+ String a t) = split_on a s ++ split_on a t.
Proof.
  induction s as [|c s IH]; simpl.
  - rewrite Ascii.eqb_refl. pose proof (split_on_ne a t).
    by destruct (split_on a t).
  - rewrite IH. pose proof (split_on_ne a s).
    destruct (split_on a s) as [|h l]; [done|]. simpl. by destruct (Ascii.eqb a c).
Qed.

Lemma split_on_elems a s : Forall (λ x, contains_char a x = false) (split_on a s).
Proof.
  induction s as [|c s IH]; simpl; [by repeat constructor|].
  destruct (split_on a s) as [|h l]; [done|].
  apply Forall_cons in IH as [Hh Hl].
  destruct (Ascii.eqb a c) eqn:E; repeat constructor; simpl; try done.
  by rewrite E.
Qed.

Lemma split_on_join a l :
  l ≠ [] → Forall (λ x, contains_char a x = false) l →
  split_on a (Join l (String a "")) = l.
Proof.
  induction l as [|x l IH]; [done|]. intros _ [Hx Hl]%Forall_cons.
  destruct l as [|y l]; [by apply split_on_none|].
  change (Join (x :: y :: l) (String a ""))
    with (x +:+ String a (Join (y :: l) (String a ""))).
  rewrite split_on_sep, split_on_none, IH; done.
Qed.

Lemma trim_front_suffix s2 s3 s : ∃ n, trim_front s2 s3 s = str_drop n s.
Proof.
  induction s as [s IH] using (induction_ltof1 _ String.length).
  assert (Hstep : ∀ n, (0 < n ≤ String.length s)%nat →
    trim_front s2 s3 s = trim_front s2 s3 (str_drop n s) →
    ∃ n, trim_front s2 s3 s = str_drop n s).
  { intros n Hn He. destruct (IH (str_drop n s)) as [m Hm].
    { unfold ltof. rewrite length_str_drop. lia. }
    exists (n + m)%nat. by rewrite He, Hm, str_drop_drop. }
  destruct s as [|c [|d [|e s]]]; [by exists 0%nat|..].
  - simpl. destruct (space1 c); [by exists 1%nat|by exists 0%nat].
  - destruct (space1 c) eqn:E1; [apply (Hstep 1%nat); simpl; [lia|by rewrite E1]|].
    destruct (s2 c d) eqn:E2; [apply (Hstep 2%nat); simpl; [lia|by rewrite E1, E2]|].
    exists 0%nat. simpl. by rewrite E1, E2.
  - destruct (space1 c) eqn:E1; [apply (Hstep 1%nat); simpl; [lia|by rewrite E1]|].
    destruct (s2 c d) eqn:E2; [apply (Hstep 2%nat); simpl; [lia|by rewrite E1, E2]|].
    destruct (s3 c d e) eqn:E3; [apply (Hstep 3%nat); simpl; [lia|by rewrite E1, E2, E3]|].
    exists 0%nat. simpl. by rewrite E1, E2, E3.
Qed.

Lemma trim_front_forall p s2 s3 s :
  str_forall p s = true → str_forall p (trim_front s2 s3 s) = true.
Proof. destruct (trim_front_suffix s2 s3 s) as [n ->]. apply str_forall_drop. Qed.

Lemma TrimSpace_forall p s : str_forall p s = true → str_forall p (TrimSpace s) = true.
Proof.
  intros H. unfold TrimSpace. rewrite str_rev_forall.
  apply trim_front_forall. rewrite str_rev_forall. by apply trim_front_forall.
Qed.
End Strings.

(** ** Package path/filepath (Unix) *)
Module Filepath.
Import Strings.

Definition slash : ascii := "/"%char.
Definition is_rooted (p : string) : bool := HasPrefix p "/".

(** One element of [Clean]: [out] is the stack of elements kept so far, the
    last one first. *)
Definition clean_step (rooted : bool) (out : list string) (c : string) : list string :=
  if String.eqb c "" || String.eqb c "." then out
  else if String.eqb c ".." then
    match out with
    | top :: rest => if String.eqb top ".." then ".." :: out else rest
    | [] => if rooted then [] else [".."]
    end
  else c :: out.
Definition clean_elems (rooted : bool) (cs : list string) : list string :=
  foldl (clean_step rooted) [] cs.
Definition render (rooted : bool) (out : list string) : string :=
  (if rooted then "/" else "") +:+ Strings.Join (rev out) "/".
(** [filepath.Clean]. *)
Definition Clean (p : string) : string :=
  let r := render (is_rooted p) (clean_elems (is_rooted p) (split_on slash p)) in
  if String.eqb r "" then "." else r.

(** [filepath.Join]: leading empty elements are dropped. *)
Fixpoint Join (elems : list string) : string :=
  match elems with
  | [] => ""
  | e :: es => if String.eqb e "" then Join es else Clean (Strings.Join elems "/")
  end.

Fixpoint upto_last_slash (s : string) : string :=
  match s with
  | EmptyString => ""
  | String c s' => if contains_char slash s then String c (upto_last_slash s') else ""
  end.
Fixpoint after_last_slash (s : string) : string :=
  match s with
  | EmptyString => ""
  | String c s' => if contains_char slash s then after_last_slash s' else s
  end.
Fixpoint drop_slashes (s : string) : string :=
  match s with
  | String c s' => if Ascii.eqb slash c then drop_slashes s' else s
  | EmptyString => ""
  end.
(** [filepath.Dir] and [filepath.Base]. *)
Definition Dir (p : string) : string := Clean (upto_last_slash p).
Definition Base (p : string) : string :=
  if String.eqb p "" then "." else
  let b := after_last_slash (str_rev (drop_slashes (str_rev p))) in
  if String.eqb b "" then "/" else b.

(** A path element that [Clean] keeps. *)
Definition simple (c : string) : Prop :=
  c ≠ "" ∧ c ≠ "." ∧ c ≠ ".." ∧ contains_char slash c = false.

(** The stacks [clean_step] builds: simple elements above, for a relative
    path, a run of [..]. *)
Inductive normal (rooted : bool) : list string → Prop :=
| normal_nil : normal rooted []
| normal_dots l : rooted = false → Forall (.= "..") l → normal rooted (".." :: l)
| normal_cons c l : simple c → normal rooted l → normal rooted (c :: l).

Lemma clean_step_simple r out c : simple c → clean_step r out c = c :: out.
Proof.
  intros (H1 & H2 & H3 & _). unfold clean_step.
  apply String.eqb_neq in H1, H2, H3. by rewrite H1, H2, H3.
Qed.

Lemma normal_dots_inv r l : normal r (".." :: l) → r = false ∧ Forall (.= "..") l.
Proof. inversion 1; [done|]. by destruct H2 as (_ & _ & ? & _). Qed.

Lemma clean_step_normal r out c :
  contains_char slash c = false → normal r out → normal r (clean_step r out c).
Proof.
  intros Hc Hn. unfold clean_step.
  destruct (String.eqb c "") eqn:E1; [done|].
  destruct (String.eqb c ".") eqn:E2; [done|]. simpl.
  destruct (String.eqb c "..") eqn:E3.
  - destruct Hn as [|l Hr Hl|d l Hd Hl]; simpl.
    + destruct r; [constructor|by repeat constructor].
    + constructor; [done|]. by constructor.
    + destruct Hd as (_ & _ & Hd & _). apply String.eqb_neq in Hd. by rewrite Hd.
  - boolp. constructor; done.
Qed.

Lemma clean_elems_normal r cs : Forall (λ x, contains_char slash x = false) cs →
  normal r (clean_elems r cs).
Proof.
  unfold clean_elems. generalize (normal_nil r). generalize (@nil string) as out.
  induction cs as [|c cs IH]; intros out Hn Hcs; [done|].
  apply Forall_cons in Hcs as [Hc Hcs]. simpl. apply IH; [|done].
  by apply clean_step_normal.
Qed.

Lemma clean_dots l : Forall (.= "..") l → foldl (clean_step false) [] l = rev l.
Proof.
  assert (H : ∀ l out, Forall (.= "..") l → Forall (.= "..") out →
            foldl (clean_step false) out l = rev l ++ out).
  { clear l. induction l as [|c l IH]; intros out Hl Ho; [done|].
    apply Forall_cons in Hl as [-> Hl]. simpl.
    assert (clean_step false out ".." = ".." :: out) as ->.
    { unfold clean_step; simpl. destruct out as [|t out]; [done|].
      apply Forall_cons in Ho as [-> _]. done. }
    rewrite IH; [|done|by constructor]. by rewrite <- List.app_assoc. }
  intros. rewrite H by (done || constructor). apply List.app_nil_r.
Qed.

Lemma clean_normal r out : normal r out → foldl (clean_step r) [] (rev out) = out.
Proof.
  induction 1 as [|l -> Hl|c l Hc Hn IH]; [done| |].
  - rewrite clean_dots; [by rewrite rev_involutive|].
    apply Forall_rev. by constructor.
  - simpl. by rewrite foldl_app, IH; simpl; rewrite clean_step_simple.
Qed.

Lemma normal_no_slash r out : normal r out → Forall (λ x, contains_char slash x = false) out.
Proof.
  induction 1 as [|l Hr Hl|c l Hc Hn IH]; constructor; try done.
  - eapply Forall_impl; [exact Hl|]. by intros ? ->.
  - by destruct Hc as (_ & _ & _ & ?).
Qed.
Lemma normal_no_empty r out : normal r out → Forall (.≠ "") out.
Proof.
  induction 1 as [|l Hr Hl|c l Hc Hn IH]; constructor; try done.
  - eapply Forall_impl; [exact Hl|]. by intros ? ->.
  - by destruct Hc as (? & _).
Qed.

Definition dot_if_empty (r : string) : string := if String.eqb r "" then "." else r.

Lemma join_snoc l (c : string) : l ≠ [] →
  Strings.Join (l ++ [c]) "/" = Strings.Join l "/" +:+ "/" +:+ c.
Proof.
  induction l as [|x [|y l] IH]; [done|done|]. intros _.
  change (Strings.Join ((x :: y :: l) ++ [c]) "/")
    with (x +:+ "/" +:+ Strings.Join ((y :: l) ++ [c]) "/").
  rewrite IH by done. simpl. by rewrite <- sapp_assoc.
Qed.

Lemma render_cons r c out :
  render r (c :: out) = (if decide (out = []) then render r [] else render r out +:+ "/") +:+ c.
Proof.
  unfold render. simpl rev. case_decide as E; [by subst; destruct r|].
  rewrite join_snoc by (by apply rev_ne).
  by rewrite <- !sapp_assoc.
Qed.

Lemma split_render r out : normal r out →
  foldl (clean_step r) [] (split_on slash (render r out)) = out.
Proof.
  intros Hn. unfold render. destruct (decide (out = [])) as [->|Hne]; [by destruct r|].
  assert (Hs : split_on slash (Strings.Join (rev out) "/") = rev out).
  { apply (split_on_join slash).
    - by apply rev_ne.
    - by apply Forall_rev, (normal_no_slash r). }
  destruct r; simpl append.
  - change (String "/" ?x) with ("" +:+ String slash x).
    rewrite split_on_sep, Hs. simpl. by apply clean_normal.
  - rewrite Hs. by apply clean_normal.
Qed.

Lemma rooted_render r out : normal r out → is_rooted (render r out) = r.
Proof.
  intros Hn. destruct r; [done|]. unfold render, is_rooted. simpl append.
  destruct (rev out) as [|x l] eqn:E; [done|].
  assert (Hx : x ≠ "" ∧ contains_char slash x = false).
  { assert (x ∈ out) by (apply elem_of_rev; rewrite E; constructor).
    pose proof (normal_no_slash _ _ Hn) as H1. pose proof (normal_no_empty _ _ Hn) as H2.
    rewrite Forall_forall in H1, H2. auto. }
  destruct Hx as [Hx1 Hx2]. destruct x as [|a x]; [done|]. simpl in Hx2.
  apply orb_false_iff in Hx2 as [Hx2 _].
  destruct l; simpl; by rewrite Hx2.
Qed.

Lemma Clean_render p : ∃ out, normal (is_rooted p) out ∧
  Clean p = dot_if_empty (render (is_rooted p) out).
Proof.
  eexists. split; [|reflexivity]. apply clean_elems_normal, split_on_elems.
Qed.

Lemma render_nonempty r out : normal r out → r = true ∨ out ≠ [] → render r out ≠ "".
Proof.
  intros Hn H. destruct r; [done|]. destruct H as [|H]; [done|].
  unfold render. simpl append. pose proof (normal_no_empty _ _ Hn) as He.
  destruct (rev out) as [|x l] eqn:E.
  { by apply rev_ne in H. }
  assert (x ≠ "").
  { rewrite Forall_forall in He. apply He, elem_of_rev.
    rewrite E. constructor. }
  destruct l; simpl; by destruct x.
Qed.

(** [Clean] of a clean path, with or without a trailing slash. *)
Lemma Clean_of_render r out : normal r out →
  Clean (render r out) = dot_if_empty (render r out) ∧
  (r = true ∨ out ≠ [] → Clean (render r out +:+ "/") = dot_if_empty (render r out)).
Proof.
  intros Hn. split.
  - unfold Clean, clean_elems. rewrite rooted_render, split_render by done. done.
  - intros Hne. unfold Clean, clean_elems.
    assert (is_rooted (render r out +:+ "/") = r) as ->.
    { pose proof (rooted_render r out Hn) as E. unfold is_rooted in *. simpl in *.
      pose proof (render_nonempty r out Hn Hne). by destruct (render r out). }
    change (render r out +:+ "/") with (render r out +:+ String slash "").
    rewrite split_on_sep, foldl_app, split_render by done. done.
Qed.

Lemma Clean_idem p : Clean (Clean p) = Clean p.
Proof.
  destruct (Clean_render p) as (out & Hn & ->). unfold dot_if_empty.
  destruct (String.eqb (render _ out) "") eqn:E; [done|].
  destruct (Clean_of_render _ _ Hn) as [-> _]. unfold dot_if_empty. by rewrite E.
Qed.

Lemma upto_last_slash_app s c : contains_char slash c = false →
  upto_last_slash (s +:+ String slash c) = s +:+ "/".
Proof.
  intros Hc. induction s as [|a s IH].
  - simpl. destruct c as [|b c]; [done|]. simpl in *. by rewrite Hc.
  - simpl. rewrite contains_char_app. simpl.
    rewrite orb_true_r, orb_true_r, IH. done.
Qed.

Lemma upto_last_slash_none c : contains_char slash c = false → upto_last_slash c = "".
Proof. destruct c as [|a c]; [done|]. simpl. by intros ->. Qed.

Lemma Join_simple dir c : dir ≠ "" → simple c →
  let r := is_rooted dir in let out := clean_elems r (split_on slash dir) in
  normal r out ∧ Join [dir; c] = render r (c :: out).
Proof.
  intros Hd Hc r out. unfold Join.
  assert (String.eqb dir "" = false) as -> by by apply String.eqb_neq.
  change (Strings.Join [dir; c] "/") with (dir +:+ String slash c).
  assert (Hr : is_rooted (dir +:+ String slash c) = r) by by destruct dir.
  assert (Hn : normal r out) by (apply clean_elems_normal, split_on_elems). split; [done|].
  assert (Hel : clean_elems r (split_on slash (dir +:+ String slash c)) = c :: out).
  { unfold clean_elems. rewrite split_on_sep, foldl_app. fold (clean_elems r (split_on slash dir)).
    fold out. rewrite (split_on_none slash c) by apply Hc. simpl.
    by apply clean_step_simple. }
  unfold Clean. rewrite Hr, Hel.
  assert (String.eqb (render r (c :: out)) "" = false) as ->; [|done].
  apply String.eqb_neq, render_nonempty; [by constructor|by right].
Qed.

(** A one-element file name joined to any non-empty directory stays directly
    under that directory. *)
Lemma Dir_Join_simple dir c : dir ≠ "" → simple c →
  Dir (Join [dir; c]) = Clean dir.
Proof.
  intros Hd Hc. destruct (Join_simple dir c Hd Hc) as [Hn ->].
  set (r := is_rooted dir) in *. set (out := clean_elems r (split_on slash dir)) in *.
  destruct Hc as (_ & _ & _ & Hc). assert (HC : Clean dir = dot_if_empty (render r out)) by done.
  rewrite HC, render_cons. unfold Dir. case_decide as E.
  - rewrite E. destruct r; simpl append.
    + change (String "/" c) with ("" +:+ String slash c).
      by rewrite upto_last_slash_app.
    + change (String.append (render false []) c) with c. by rewrite upto_last_slash_none.
  - rewrite <- sapp_assoc. change ("/" +:+ c) with (String slash c).
    rewrite upto_last_slash_app by done.
    apply Clean_of_render; auto.
Qed.

(** Different names in one directory are different files. *)
Lemma Join_simple_inj dir c c' : dir ≠ "" → simple c → simple c' →
  Join [dir; c] = Join [dir; c'] → c = c'.
Proof.
  intros Hd Hc Hc'. destruct (Join_simple dir c Hd Hc) as [_ ->].
  destruct (Join_simple dir c' Hd Hc') as [_ ->]. rewrite !render_cons. apply app_inj_l.
Qed.

Lemma render_longer out : normal true out → out ≠ [] → render true out ≠ "/".
Proof.
  intros Hn Hne. unfold render. simpl append. intros [= E].
  pose proof (normal_no_empty _ _ Hn) as He.
  destruct out as [|y out]; [done|]. apply Forall_cons in He as [Hy _].
  simpl rev in E. destruct (decide (rev out = [])) as [Er|Er].
  { by rewrite Er in E. }
  rewrite join_snoc in E by done. by destruct (Strings.Join (rev out) "/").
Qed.

(** Joining a rooted clean path below a clean absolute directory. *)
Lemma Join_rooted ws x : is_rooted ws = true → Clean ws = ws →
  ∃ l, Forall simple l ∧
    Join [ws; Clean (String slash x)] =
      if decide (l = []) then ws
      else (if decide (ws = "/") then "" else ws) +:+ "/" +:+ Strings.Join l "/".
Proof.
  intros Hr Hc. destruct (Clean_render ws) as (wo & Hw & He).
  rewrite Hr in Hw, He. rewrite Hc in He.
  assert (Hws : ws = render true wo).
  { unfold dot_if_empty in He. pose proof (render_nonempty true wo Hw (or_introl eq_refl)).
    apply String.eqb_neq in H. by rewrite H in He. }
  destruct (Clean_render (String slash x)) as (xo & Hx & Hxe).
  change (is_rooted (String slash x)) with true in *.
  assert (Hsx : Forall simple xo).
  { clear -Hx. remember true as r. induction Hx; subst; try done. constructor; auto. }
  exists (rev xo). split; [by apply Forall_rev|].
  rewrite Hxe. unfold dot_if_empty.
  pose proof (render_nonempty true xo Hx (or_introl eq_refl)) as Hxn.
  apply String.eqb_neq in Hxn. rewrite Hxn.
  assert (Hwn : String.eqb ws "" = false).
  { rewrite Hws. apply String.eqb_neq, render_nonempty; auto. }
  unfold Join. rewrite Hwn.
  change (Strings.Join [ws; ?y] "/") with (ws +:+ String slash y).
  unfold Clean, clean_elems.
  assert (is_rooted (ws +:+ String slash (render true xo)) = true) as ->.
  { rewrite Hws. done. }
  assert (Hsp : foldl (clean_step true) [] (split_on slash ws) = wo).
  { rewrite Hws. by apply split_render. }
  rewrite split_on_sep, foldl_app, Hsp.
  assert (Hfold : foldl (clean_step true) wo (split_on slash (render true xo)) = xo ++ wo).
  { assert (Hg : ∀ l, Forall simple l → foldl (clean_step true) wo (rev l) = l ++ wo).
    { induction l as [|c l IH]; [done|]. intros [Hcs Hl]%Forall_cons. simpl.
      rewrite foldl_app, IH by done. simpl. by apply clean_step_simple. }
    unfold render. destruct (decide (xo = [])) as [->|Hne]; [done|]. simpl append.
    change (String "/" ?y) with ("" +:+ String slash y).
    rewrite split_on_sep. simpl. rewrite (split_on_join slash); [by apply Hg| |].
    - by apply rev_ne.
    - by apply Forall_rev, (normal_no_slash true). }
  rewrite Hfold. rewrite Hws.
  assert (Hj : render true (xo ++ wo) =
    if decide (rev xo = []) then render true wo
    else (if decide (render true wo = "/") then "" else render true wo) +:+ "/" +:+
         Strings.Join (rev xo) "/").
  { clear -Hw Hsx. induction xo as [|c xo IH]; [done|].
    apply Forall_cons in Hsx as [Hcs Hsx]. simpl rev.
    rewrite (decide_False (P := rev xo ++ [c] = [])) by (by destruct (rev xo)).
    rewrite <- app_comm_cons, render_cons. specialize (IH Hsx).
    destruct (decide (xo = [])) as [->|Hne].
    - rewrite List.app_nil_l. change (rev [] ++ [c]) with [c].
      destruct (decide (wo = [])) as [->|Hwn]; [done|].
      rewrite decide_False by (by apply render_longer).
      by rewrite <- sapp_assoc.
    - rewrite (decide_False (P := xo ++ wo = [])) by (by destruct xo).
      rewrite IH, (decide_False (P := rev xo = [])) by (by apply rev_ne).
      rewrite join_snoc by (by apply rev_ne).
      by rewrite <- !sapp_assoc. }
  change (String.eqb (render true (xo ++ wo)) "") with false. exact Hj.
Qed.
End Filepath.
