(* ===== verification/GoCodec.v ===== *)
(** * Packages [encoding/hex], [encoding/base64] and [crypto/sha256]

    Executable models of the codecs and of the digest the program calls, with
    the round trip of the cursor codec and the shape of a hex digest. *)

From S2P Require Import Prelude GoLib GoStrings.

(** ** encoding/hex *)
Module Hex.
Definition digit (n : Z) : ascii :=
  byte_of_Z (if n <? 10 then 48 + n else 87 + n).
Fixpoint EncodeToString (s : string) : string :=
  match s with
  | EmptyString => ""
  | String c s =>
      String (digit (code c / 16)) (String (digit (code c mod 16)) (EncodeToString s))
  end.
Definition value (c : ascii) : option Z :=
  if is_digit c then Some (code c - 48)
  else if char_between "a" "f" c then Some (code c - 87)
  else if char_between "A" "F" c then Some (code c - 55)
  else None.
Fixpoint DecodeString (s : string) : option string :=
  match s with
  | EmptyString => Some ""
  | String c (String d s) =>
      match value c, value d, DecodeString s with
      | Some x, Some y, Some r => Some (String (byte_of_Z (16 * x + y)) r)
      | _, _, _ => None
      end
  | String _ EmptyString => None
  end.

Lemma digit_hex n : 0 ≤ n < 16 → is_hex_lower (digit n) = true.
Proof.
  apply (seqZ_check (λ n, is_hex_lower (digit n)) 0 16). vm_compute. reflexivity.
Qed.

Lemma EncodeToString_hex s : str_forall is_hex_lower (EncodeToString s) = true.
Proof.
  induction s as [|c s IH]; [done|]. cbn [EncodeToString str_forall].
  pose proof (Z_of_byte_bound c). unfold code.
  rewrite !digit_hex, IH; [done|apply Z.mod_pos_bound; lia|].
  split; [apply Z.div_pos|apply Z.div_lt_upper_bound]; lia.
Qed.

Lemma EncodeToString_length s :
  String.length (EncodeToString s) = (2 * String.length s)%nat.
Proof. induction s as [|c s IH]; [done|]. cbn [EncodeToString String.length]. lia. Qed.

Lemma digit_value n : 0 ≤ n < 16 → value (digit n) = Some n.
Proof.
  intros Hn. eapply bool_decide_eq_true_1. revert n Hn.
  apply (seqZ_check (λ n, bool_decide (value (digit n) = Some n)) 0 16).
  vm_compute. reflexivity.
Qed.

Lemma Decode_Encode s : DecodeString (EncodeToString s) = Some s.
Proof.
  induction s as [|c s IH]; [done|]. cbn [EncodeToString DecodeString].
  pose proof (Z_of_byte_bound c). unfold code.
  rewrite !digit_value, IH;
    [|apply Z.mod_pos_bound; lia
     |split; [apply Z.div_pos|apply Z.div_lt_upper_bound]; lia].
  rewrite <- Z.div_mod by lia. by rewrite byte_of_Z_of_byte.
Qed.

Lemma EncodeToString_inj s t : EncodeToString s = EncodeToString t → s = t.
Proof.
  intros H. apply (f_equal DecodeString) in H. rewrite !Decode_Encode in H. congruence.
Qed.
End Hex.

(** ** encoding/base64 *)
Module Base64.
(** The two alphabets; they differ in the characters for 62 and 63. *)
Record encoding := { c62 : ascii; c63 : ascii; padded : bool }.
Definition StdEncoding := {| c62 := "+"; c63 := "/"; padded := true |}.
Definition RawURLEncoding := {| c62 := "-"; c63 := "_"; padded := false |}.

Definition enc_char (e : encoding) (n : Z) : ascii :=
  if n <? 26 then byte_of_Z (65 + n)
  else if n <? 52 then byte_of_Z (71 + n)
  else if n <? 62 then byte_of_Z (n - 4)
  else if n =? 62 then c62 e else c63 e.
Definition dec_char (e : encoding) (c : ascii) : option Z :=
  if is_upper c then Some (code c - 65)
  else if is_lower c then Some (code c - 71)
  else if is_digit c then Some (code c + 4)
  else if Ascii.eqb c (c62 e) then Some 62
  else if Ascii.eqb c (c63 e) then Some 63
  else None.

Definition pad (e : encoding) (n : nat) : string :=
  if padded e then (if Nat.eqb n 2 then "==" else "=") else "".
Fixpoint EncodeToString (e : encoding) (s : string) : string :=
  match s with
  | EmptyString => ""
  | String a EmptyString =>
      let v := code a * 65536 in
      String (enc_char e (v / 262144)) (String (enc_char e (v / 4096 mod 64)) (pad e 2))
  | String a (String b EmptyString) =>
      let v := code a * 65536 + code b * 256 in
      String (enc_char e (v / 262144)) (String (enc_char e (v / 4096 mod 64))
        (String (enc_char e (v / 64 mod 64)) (pad e 1)))
  | String a (String b (String c s)) =>
      let v := code a * 65536 + code b * 256 + code c in
      String (enc_char e (v / 262144)) (String (enc_char e (v / 4096 mod 64))
        (String (enc_char e (v / 64 mod 64)) (String (enc_char e (v mod 64))
          (EncodeToString e s))))
  end.

(** The decoder drops CR and LF, then reads quanta of four characters; the
    unused low bits of a final partial quantum are not checked. *)
Fixpoint drop_newlines (s : string) : string :=
  match s with
  | EmptyString => ""
  | String c s =>
      if (code c =? 10) || (code c =? 13) then drop_newlines s
      else String c (drop_newlines s)
  end.
Definition out2 (x y : Z) : string := String (byte_of_Z ((x * 262144 + y * 4096) / 65536)) "".
Definition out3 (x y z : Z) : string :=
  let v := x * 262144 + y * 4096 + z * 64 in
  String (byte_of_Z (v / 65536)) (String (byte_of_Z (v / 256)) "").
Definition is_pad (c : ascii) : bool := Ascii.eqb c "=".
Fixpoint decode (e : encoding) (s : string) : option string :=
  match s with
  | EmptyString => Some ""
  | String c1 (String c2 EmptyString) =>
      if padded e then None else
      match dec_char e c1, dec_char e c2 with
      | Some x, Some y => Some (out2 x y)
      | _, _ => None
      end
  | String c1 (String c2 (String c3 EmptyString)) =>
      if padded e then None else
      match dec_char e c1, dec_char e c2, dec_char e c3 with
      | Some x, Some y, Some z => Some (out3 x y z)
      | _, _, _ => None
      end
  | String c1 (String c2 (String c3 (String c4 s))) =>
      match dec_char e c1, dec_char e c2, dec_char e c3, dec_char e c4 with
      | Some x, Some y, Some z, Some w =>
          let v := x * 262144 + y * 4096 + z * 64 + w in
          match decode e s with
          | Some r => Some (String (byte_of_Z (v / 65536)) (String (byte_of_Z (v / 256))
                        (String (byte_of_Z v) r)))
          | None => None
          end
      | Some x, Some y, Some z, None =>
          if padded e && is_pad c4 && String.eqb s "" then Some (out3 x y z) else None
      | Some x, Some y, None, None =>
          if padded e && is_pad c3 && is_pad c4 && String.eqb s "" then Some (out2 x y) else None
      | _, _, _, _ => None
      end
  | String _ EmptyString => None
  end.
Definition DecodeString (e : encoding) (s : string) : option string :=
  decode e (drop_newlines s).

Section url.
Local Abbreviation E := RawURLEncoding.

Lemma dec_enc n : 0 ≤ n < 64 → dec_char E (enc_char E n) = Some n.
Proof.
  intros Hn. eapply bool_decide_eq_true_1. revert n Hn.
  apply (seqZ_check (λ n, bool_decide (dec_char E (enc_char E n) = Some n)) 0 64).
  vm_compute. reflexivity.
Qed.
Lemma enc_not_newline n : 0 ≤ n < 64 →
  (code (enc_char E n) =? 10) || (code (enc_char E n) =? 13) = false.
Proof.
  intros Hn. apply negb_true_iff. revert n Hn.
  apply (seqZ_check (λ n, negb ((code (enc_char E n) =? 10) || (code (enc_char E n) =? 13))) 0 64).
  vm_compute. reflexivity.
Qed.

(** Quotients and remainders of bytes stay below 64 and put the bytes back
    together. *)
Ltac bytes_lia :=
  unfold code; repeat match goal with
  | |- context [Z_of_byte ?c] =>
      lazymatch goal with
      | H : 0 ≤ Z_of_byte c < 256 |- _ => fail
      | _ => pose proof (Z_of_byte_bound c)
      end
  end; Z.to_euclidean_division_equations; lia.

Lemma byte_back c z : z mod 256 = Z_of_byte c → byte_of_Z z = c.
Proof. intros H. apply Z_of_byte_inj. by rewrite Z_of_byte_of_Z. Qed.

Lemma drop_newlines_enc n s : 0 ≤ n < 64 →
  drop_newlines (String (enc_char E n) s) = String (enc_char E n) (drop_newlines s).
Proof. intros Hn. simpl. by rewrite enc_not_newline. Qed.

Lemma drop_newlines_encode s : drop_newlines (EncodeToString E s) = EncodeToString E s.
Proof.
  induction s as [s IH] using (induction_ltof1 _ String.length).
  destruct s as [|a [|b [|c s]]]; [done|..]; cbn [EncodeToString]; cbv zeta.
  1,2: rewrite !drop_newlines_enc by bytes_lia; done.
  rewrite !drop_newlines_enc by bytes_lia. rewrite IH; [done|].
  unfold ltof. simpl. lia.
Qed.

Lemma decode_encode s : decode E (EncodeToString E s) = Some s.
Proof.
  induction s as [s IH] using (induction_ltof1 _ String.length).
  destruct s as [|a [|b [|c s]]]; [done|..];
    cbn [EncodeToString]; cbv zeta; cbn [decode padded E pad];
    rewrite !dec_enc by bytes_lia.
  - unfold out2. by rewrite (byte_back a) by bytes_lia.
  - unfold out3. cbv zeta.
    by rewrite (byte_back a), (byte_back b) by bytes_lia.
  - rewrite IH by (unfold ltof; simpl; lia). cbv zeta.
    by rewrite (byte_back a), (byte_back b), (byte_back c) by bytes_lia.
Qed.

Lemma url_roundtrip s : DecodeString E (EncodeToString E s) = Some s.
Proof. unfold DecodeString. by rewrite drop_newlines_encode, decode_encode. Qed.

Lemma enc_ascii n : 0 ≤ n < 64 → is_ascii (enc_char E n) = true.
Proof. revert n. apply (seqZ_check (λ n, is_ascii (enc_char E n)) 0 64). vm_compute. reflexivity. Qed.
Lemma encode_ascii s : str_forall is_ascii (EncodeToString E s) = true.
Proof.
  induction s as [s IH] using (induction_ltof1 _ String.length).
  destruct s as [|a [|b [|c s]]]; [done|..]; cbn [EncodeToString]; cbv zeta; cbn [str_forall pad padded E]; rewrite !enc_ascii by bytes_lia; [done..|].
  apply IH. unfold ltof. simpl. lia.
Qed.
Lemma encode_nonempty s : s ≠ "" → EncodeToString E s ≠ "".
Proof. by destruct s as [|a [|b [|c s]]]. Qed.
End url.
End Base64.

(** ** crypto/sha256

    FIPS 180-4, on 32-bit words kept as integers modulo 2^32. *)
Module Sha256.
Definition w32 (z : Z) : Z := z mod 2 ^ 32.
Definition rotr (x n : Z) : Z :=
  Z.lor (Z.shiftr x n) (w32 (Z.shiftl x (32 - n))).
(** The constants: the first 32 bits of the fractional parts of the cube roots
    of the first 64 primes, and of the square roots of the first eight. *)
Definition is_prime (p : Z) : bool := forallb (λ d, negb (p mod d =? 0)) (seqZ 2 (p - 2)).
Definition primes : list Z := List.filter is_prime (seqZ 2 310).
Fixpoint cbrt_from (b : nat) (n acc : Z) : Z :=
  let try := acc + 2 ^ Z.of_nat b in
  let acc := if try * try * try <=? n then try else acc in
  match b with O => acc | S b => cbrt_from b n acc end.
Definition K : list Z := Eval vm_compute in map (λ p, w32 (cbrt_from 40 (p * 2 ^ 96) 0)) primes.
Record hstate := HS { ha : Z; hb : Z; hc : Z; hd : Z; he : Z; hf : Z; hg : Z; hh : Z }.
Definition H0 : hstate := Eval vm_compute in
  let h := λ i, w32 (Z.sqrt (nth i primes 0 * 2 ^ 64)) in
  HS (h 0%nat) (h 1%nat) (h 2%nat) (h 3%nat) (h 4%nat) (h 5%nat) (h 6%nat) (h 7%nat).

(** One round; [win] is the sliding window of sixteen schedule words. *)
Definition next_word (win : list Z) : Z :=
  let w := λ i, nth i win 0 in
  let s0 := Z.lxor (Z.lxor (rotr (w 1%nat) 7) (rotr (w 1%nat) 18)) (Z.shiftr (w 1%nat) 3) in
  let s1 := Z.lxor (Z.lxor (rotr (w 14%nat) 17) (rotr (w 14%nat) 19)) (Z.shiftr (w 14%nat) 10) in
  w32 (w 0%nat + s0 + w 9%nat + s1).
Definition round (k : Z) (win : list Z) (s : hstate) : hstate :=
  let S1 := Z.lxor (Z.lxor (rotr (he s) 6) (rotr (he s) 11)) (rotr (he s) 25) in
  let ch := Z.lxor (Z.land (he s) (hf s)) (Z.land (Z.lxor (he s) (2 ^ 32 - 1)) (hg s)) in
  let t1 := hh s + S1 + ch + k + nth 0 win 0 in
  let S0 := Z.lxor (Z.lxor (rotr (ha s) 2) (rotr (ha s) 13)) (rotr (ha s) 22) in
  let maj := Z.lxor (Z.lxor (Z.land (ha s) (hb s)) (Z.land (ha s) (hc s))) (Z.land (hb s) (hc s)) in
  HS (w32 (t1 + S0 + maj)) (ha s) (hb s) (hc s) (w32 (hd s + t1)) (he s) (hf s) (hg s).
Fixpoint rounds (ks win : list Z) (s : hstate) : hstate :=
  match ks with
  | [] => s
  | k :: ks => rounds ks (tail win ++ [next_word win]) (round k win s)
  end.
Definition compress (s : hstate) (block : list Z) : hstate :=
  let r := rounds K block s in
  HS (w32 (ha s + ha r)) (w32 (hb s + hb r)) (w32 (hc s + hc r)) (w32 (hd s + hd r))
     (w32 (he s + he r)) (w32 (hf s + hf r)) (w32 (hg s + hg r)) (w32 (hh s + hh r)).

Fixpoint zeros (n : nat) : string :=
  match n with O => "" | S n => String (byte_of_Z 0) (zeros n) end.
Definition padding (n : nat) : string :=
  let rest := ((n + 9) mod 64)%nat in
  String (byte_of_Z 128) (zeros ((64 - rest) mod 64)%nat) +:+ be_put 8 (8 * Z.of_nat n).
Fixpoint words (s : string) : list Z :=
  match s with
  | String a (String b (String c (String d s))) =>
      (code a * 2 ^ 24 + code b * 2 ^ 16 + code c * 2 ^ 8 + code d) :: words s
  | _ => []
  end.
Fixpoint blocks (fuel : nat) (ws : list Z) (s : hstate) : hstate :=
  match fuel, ws with
  | S fuel, _ :: _ => blocks fuel (drop 16 ws) (compress s (take 16 ws))
  | _, _ => s
  end.
(** [sha256.Sum256]: the number of words bounds the number of blocks. *)
Definition Sum256 (s : string) : string :=
  let ws := words (s +:+ padding (String.length s)) in
  let r := blocks (List.length ws) ws H0 in
  be_put 4 (ha r) +:+ be_put 4 (hb r) +:+ be_put 4 (hc r) +:+ be_put 4 (hd r) +:+
  be_put 4 (he r) +:+ be_put 4 (hf r) +:+ be_put 4 (hg r) +:+ be_put 4 (hh r).

#[global] Arguments Sum256 : simpl never.

Lemma Sum256_length s : String.length (Sum256 s) = 32%nat.
Proof. unfold Sum256. cbv zeta. by rewrite !slength_app, !length_be_put. Qed.

(** The standard test vectors of the digest. *)
Example Sum256_abc : Hex.EncodeToString (Sum256 "abc") =
  "ba7816bf8f01cfea414140de5dae2223b00361a396177a9cb410ff61f20015ad".
Proof. vm_compute. reflexivity. Qed.
Example Sum256_empty : Hex.EncodeToString (Sum256 "") =
  "e3b0c44298fc1c149afbf4c8996fb92427ae41e4649b934ca495991b7852b855".
Proof. vm_compute. reflexivity. Qed.
End Sha256.
