(* ===== verification/GoFloat.v ===== *)
(** * float64 and package strconv

    float64 values are the [spec_float]s of the Standard Library with 53 bits of
    precision: finite values, zeros, infinities and NaN, compared as Go compares
    them.  [FormatFloat f 'f' 2 64] rounds the exact value to two decimals, half
    to even.  [ParseFloat] rounds the exact value of the literal, decimal or
    hexadecimal, to nearest even; the underscores Go allows in a hexadecimal
    literal are not read. *)

From S2P Require Import Prelude GoLib GoStrings.
From Stdlib Require Import Floats.SpecFloat.

(** ** Integers *)
Definition Itoa (z : Z) : string := pretty z.

Definition digit_value (c : ascii) : Z := code c - 48.
Fixpoint digits_acc (acc : Z) (s : string) : option Z :=
  match s with
  | EmptyString => Some acc
  | String c s => if is_digit c then digits_acc (acc * 10 + digit_value c) s else None
  end.
Definition digits (s : string) : option Z := if String.eqb s "" then None else digits_acc 0 s.
(** [strconv.Atoi]: the value and whether there was no error.  A syntax error
    gives 0, a value out of range the nearest int64. *)
Definition Atoi (s : string) : Z * bool :=
  let '(neg, s) := match s with
                   | String "-" s => (true, s)
                   | String "+" s => (false, s)
                   | _ => (false, s)
                   end in
  match digits s with
  | None => (0, false)
  | Some n =>
      let v := if neg : bool then - n else n in
      if v <? - 2 ^ 63 then (- 2 ^ 63, false)
      else if 2 ^ 63 - 1 <? v then (2 ^ 63 - 1, false)
      else (v, true)
  end.

(** ** float64 *)
Definition float := spec_float.
Definition prec : Z := 53.
Definition emax : Z := 1024.
(** [m * 2^e], rounded to nearest even. *)
Definition of_dyadic (m e : Z) : float := binary_normalize prec emax m e false.
Definition of_Z (z : Z) : float := of_dyadic z 0.
(** [n / d] for [n >= 0] and [d > 0]: 66 bits of the quotient and a sticky bit
    decide the rounding. *)
Definition of_ratio (n d : Z) : float :=
  let s := Z.max 0 (66 + Z.log2 d - Z.log2 n) in
  let m := n * 2 ^ s in
  of_dyadic (2 * (m / d) + (if m mod d =? 0 then 0 else 1)) (- s - 1).
(** The decimals [n * 10^e] and [n / 10^k]. *)
Definition of_scaled (n e : Z) : float := if 0 <=? e then of_Z (n * 10 ^ e) else of_ratio n (10 ^ (- e)).
Definition of_decimal (n : Z) (k : nat) : float := of_ratio n (10 ^ Z.of_nat k).
Definition fltb : float → float → bool := SFltb.
Definition fleb : float → float → bool := SFleb.
Definition is_nan (f : float) : bool := match f with S754_nan => true | _ => false end.

(** The nearest multiple of 1/100 of [m * 2^e], ties to even, for [m >= 0]. *)
Definition hundredths (m : Z) (e : Z) : Z :=
  if 0 <=? e then m * 2 ^ e * 100 else
  let d := 2 ^ (- e) in
  let q := (m * 100) / d in
  let r := (m * 100) mod d in
  if (d <? 2 * r) || ((2 * r =? d) && Z.odd q) then q + 1 else q.
Definition two_digits (n : Z) : string := Itoa (n / 10) +:+ Itoa (n mod 10).
Definition fixed2 (n : Z) : string := Itoa (n / 100) +:+ "." +:+ two_digits (n mod 100).
(** [strconv.FormatFloat(f, 'f', 2, 64)]. *)
Definition FormatFloat2 (f : float) : string :=
  match f with
  | S754_nan => "NaN"
  | S754_infinity s => if s then "-Inf" else "+Inf"
  | S754_zero s => if s then "-0.00" else "0.00"
  | S754_finite s m e =>
      (if s then "-" else "") +:+ fixed2 (hundredths (Z.pos m) e)
  end.

(** [strconv.ParseFloat(s, 64)]: the value; a syntax error gives 0 and a value out
    of range an infinity. *)
Fixpoint split_exp (is_exp : ascii → bool) (s : string) : string * option string :=
  match s with
  | EmptyString => ("", None)
  | String c s => if is_exp c then ("", Some s)
                  else let '(m, e) := split_exp is_exp s in (String c m, e)
  end.
Definition signed (s : string) : option Z :=
  match s with
  | String "-" s => Z.opp <$> digits s
  | String "+" s => digits s
  | _ => digits s
  end.
(** A mantissa [i], [i.f], [i.] or [.f], with the length of [f]. *)
Definition mantissa (digits : string → option Z) (s : string) : option (Z * Z) :=
  match Strings.split_on "." s with
  | [i] => n ← digits i; Some (n, 0)
  | [i; f] => n ← digits (i +:+ f); Some (n, Z.of_nat (String.length f))
  | _ => None
  end.
Definition hex_value (c : ascii) : Z :=
  if is_digit c then digit_value c else if char_between "a" "f" c then code c - 87 else code c - 55.
Fixpoint hex_digits_acc (acc : Z) (s : string) : option Z :=
  match s with
  | EmptyString => Some acc
  | String c s => if is_digit c || char_between "a" "f" c || char_between "A" "F" c
                  then hex_digits_acc (acc * 16 + hex_value c) s else None
  end.
Definition hex_digits (s : string) : option Z := if String.eqb s "" then None else hex_digits_acc 0 s.
Definition is_char (x y : ascii) (c : ascii) : bool := Ascii.eqb c x || Ascii.eqb c y.

Definition unsigned_decimal (s : string) : option float :=
  let '(m, e) := split_exp (is_char "e" "E") s in
  '(n, k) ← mantissa digits m;
  x ← match e with Some e => signed e | None => Some 0 end;
  Some (of_scaled n (x - k)).
Definition unsigned_hex (s : string) : option float :=
  match split_exp (is_char "p" "P") s with
  | (m, Some e) => '(n, k) ← mantissa hex_digits m; x ← signed e; Some (of_dyadic n (x - 4 * k))
  | _ => None
  end.
Definition unsigned_float (s : string) : option float :=
  let l := str_map Strings.lower_char s in
  if String.eqb l "inf" || String.eqb l "infinity" then Some (S754_infinity false)
  else match l with
       | String "0" (String "x" h) => unsigned_hex h
       | _ => unsigned_decimal s
       end.
Definition ParseFloat (s : string) : float :=
  match s with
  | String "-" s => from_option SFopp (S754_zero false) (unsigned_float s)
  | String "+" s => default (S754_zero false) (unsigned_float s)
  | _ => if String.eqb (str_map Strings.lower_char s) "nan" then S754_nan
         else default (S754_zero false) (unsigned_float s)
  end.

Example parse_forms : map ParseFloat ["2"; ".5"; "15e-1"; "0x1p-1"; "1e400"; "2e"; ""; "-1"] =
  [of_Z 2; of_dyadic 1 (-1); of_dyadic 3 (-1); of_dyadic 1 (-1); S754_infinity false;
   S754_zero false; S754_zero false; SFopp (of_Z 1)].
Proof. vm_compute. reflexivity. Qed.
Example format_1_5 : FormatFloat2 (ParseFloat "1.5") = "1.50".
Proof. vm_compute. reflexivity. Qed.
Example format_0_1 : FormatFloat2 (of_decimal 1 1) = "0.10".
Proof. vm_compute. reflexivity. Qed.
Example format_half_even : FormatFloat2 (of_dyadic 1 (-3)) = "0.12".
Proof. vm_compute. reflexivity. Qed.
Example parse_0_1 : ParseFloat "0.1" = of_dyadic 3602879701896397 (-55).
Proof. vm_compute. reflexivity. Qed.
Example atoi_values : (Atoi "137", Atoi "-1", Atoi "", Atoi "9223372036854775808") =
  ((137, true), (-1, true), (0, false), (9223372036854775807, false)).
Proof. vm_compute. reflexivity. Qed.

(** Comparisons of values that are not NaN. *)
Lemma SFcompare_nan x y : SFcompare x y = None → is_nan x = true ∨ is_nan y = true.
Proof.
  destruct x as [s|s| |s m e], y as [s'|s'| |s' m' e']; cbn; auto;
    repeat match goal with |- context [if ?b then _ else _] => destruct b end; auto;
    repeat match goal with |- context [match ?c with Eq => _ | Lt => _ | Gt => _ end] => destruct c end;
    discriminate.
Qed.
Lemma SFcompare_antisym x y : SFcompare y x = option_map CompOpp (SFcompare x y).
Proof.
  destruct x as [s|s| |s m e], y as [s'|s'| |s' m' e']; try (by destruct s); try (by destruct s');
    try (by destruct s, s'); cbn; try done.
  destruct s, s'; try done; rewrite (Z.compare_antisym e e');
    destruct (e ?= e')%Z eqn:E; cbn; try done; rewrite (Pos.compare_cont_antisym _ _ Eq) || idtac;
    rewrite ?CompOpp_involutive; try done.
Qed.
Lemma fltb_false x y : is_nan x = false → is_nan y = false → fltb x y = false → fleb y x = true.
Proof.
  intros Hx Hy. unfold fltb, fleb, SFltb, SFleb. rewrite (SFcompare_antisym x y).
  destruct (SFcompare x y) as [[]|] eqn:E; cbn; try done.
  apply SFcompare_nan in E as [E|E]; congruence.
Qed.
