(* ===== verification/GoScan.v ===== *)
(** * fmt.Sscan of an int64

    The scanner takes the longest text that looks like an integer literal, with a sign, a
    base prefix and underscores, and [strconv.ParseInt] with base 0 decides. *)

From S2P Require Import Prelude GoLib GoStrings GoFloat.
Import Strings.

Definition underscore : ascii := "_"%char.
(** The value of a digit below [base], as [ParseUint] computes it. *)
Definition digit_in (base : Z) (c : ascii) : option Z :=
  let d := if is_digit c then code c - 48
           else if char_between "a" "z" (lower_char c) then code (lower_char c) - 87 else base in
  if d <? base then Some d else None.
Fixpoint base_digits (base acc : Z) (s : string) : option Z :=
  match s with
  | EmptyString => Some acc
  | String c s =>
      if Ascii.eqb c underscore then base_digits base acc s else
      match digit_in base c with Some d => base_digits base (acc * base + d) s | None => None end
  end.
(** [underscoreOK] of what follows sign and prefix; [prev]: whether a digit (or the prefix)
    came just before, [None] at the start. *)
Fixpoint underscores_ok (hex : bool) (prev : option bool) (s : string) : bool :=
  match s with
  | EmptyString => match prev with Some false => false | _ => true end
  | String c s =>
      if Ascii.eqb c underscore then
        match prev with Some true => underscores_ok hex (Some false) s | _ => false end
      else if is_digit c || (hex && char_between "a" "f" (lower_char c)) then underscores_ok hex (Some true) s
      else match prev with Some false => false | _ => underscores_ok hex None s end
  end.
(** The base and the digits of a literal without its sign; [true] for a lettered prefix. *)
Definition literal (s : string) : Z * string * bool :=
  match s with
  | String "0" (String c (String c2 r)) =>
      let r := String c2 r in
      if is_char "b" "B" c then (2, r, true) else if is_char "o" "O" c then (8, r, true)
      else if is_char "x" "X" c then (16, r, true) else (8, String c r, false)
  | String "0" r => (8, r, false)
  | _ => (10, s, false)
  end.
Definition unsigned0 (s : string) : option Z :=
  if String.eqb s "" then None else
  let '(base, ds, prefixed) := literal s in
  n ← base_digits base 0 ds;
  if contains_char underscore s &&
     negb (if prefixed : bool then underscores_ok (base =? 16) (Some true) ds else underscores_ok false None s)
  then None else Some n.
(** [strconv.ParseInt(s, 0, 64)]. *)
Definition ParseInt0 (s : string) : option Z :=
  let '(neg, u) := match s with String "-" u => (true, u) | String "+" u => (false, u) | _ => (false, s) end in
  n ← unsigned0 u;
  let v := if neg : bool then - n else n in
  if (- 2 ^ 63 <=? v) && (v <=? 2 ^ 63 - 1) then Some v else None.

Fixpoint span (p : ascii → bool) (s : string) : string :=
  match s with String c s => if p c then String c (span p s) else "" | EmptyString => "" end.
Definition or_underscore (base : Z) (c : ascii) : bool :=
  Ascii.eqb c underscore || match digit_in base c with Some _ => true | None => false end.
(** The token of [ss.scanInt] with the verb [v]. *)
Definition scan_token (s : string) : option string :=
  match s with
  | String "0" (String c r) => Some
      (if is_char "b" "B" c then String "0" (String c (span (or_underscore 2) r))
       else if is_char "o" "O" c then String "0" (String c (span (or_underscore 8) r))
       else if is_char "x" "X" c then String "0" (String c (span (or_underscore 16) r))
       else String "0" (span (or_underscore 8) (String c r)))
  | String "0" EmptyString => Some "0"
  | _ => let t := span (or_underscore 10) s in if String.eqb t "" then None else Some t
  end.
(** [fmt.Sscan(s, &n)] of a text without leading space; [None] is an error. *)
Definition Sscan_int64 (s : string) : option Z :=
  match s with
  | String "-" u => t ← scan_token u; ParseInt0 (String "-" t)
  | String "+" u => t ← scan_token u; ParseInt0 (String "+" t)
  | _ => t ← scan_token s; ParseInt0 t
  end.

Example scan_forms :
  map Sscan_int64 ["536870912"; "12 34"; "-7"; "0x1fz"; "0b12"; "017"; "08"; "1_000"; "_1"; "1__0"; "max"; "-"; "9223372036854775808"; "0"] =
  [Some 536870912; Some 12; Some (-7); Some 31; Some 1; Some 15; Some 0; Some 1000; None; None; None; None; None; Some 0].
Proof. vm_compute. reflexivity. Qed.

(** A plain decimal is read as [Atoi] reads it. *)
Lemma digit_in_10 c : is_digit c = true → digit_in 10 c = Some (digit_value c).
Proof.
  unfold digit_in, digit_value. intros H. rewrite H. unfold is_digit, char_between in H. apply andb_true_iff in H as [H1 H2].
  change (code "9") with 57 in H2. replace (code c - 48 <? 10) with true by (symmetry; apply Z.ltb_lt; boolp; lia). done.
Qed.
Lemma digit_not_underscore c : is_digit c = true → Ascii.eqb c underscore = false.
Proof. destruct c as [[] [] [] [] [] [] [] []]; vm_compute; done. Qed.
Lemma span_digits s : str_forall is_digit s = true → span (or_underscore 10) s = s.
Proof.
  induction s as [|c s IH]; [done|]. cbn [str_forall span]. intros [Hc Hs]%andb_true_iff.
  assert (or_underscore 10 c = true) as ->; [|by rewrite (IH Hs)].
  unfold or_underscore. by rewrite digit_in_10, orb_true_r.
Qed.
Lemma base_digits_10 s acc : str_forall is_digit s = true → base_digits 10 acc s = digits_acc acc s.
Proof.
  revert acc. induction s as [|c s IH]; intros acc; [done|]. cbn [str_forall base_digits digits_acc]. intros [Hc Hs]%andb_true_iff.
  rewrite digit_not_underscore, digit_in_10, Hc by done. by apply IH.
Qed.
Lemma digits_no_underscore s : str_forall is_digit s = true → contains_char underscore s = false.
Proof. apply forall_no_char. reflexivity. Qed.
Theorem Sscan_decimal c s n : str_forall is_digit (String c s) = true → c ≠ "0"%char →
  Atoi (String c s) = (n, true) → Sscan_int64 (String c s) = Some n.
Proof.
  intros Hd H0 Ha.
  assert (Hlead : Sscan_int64 (String c s) = (t ← scan_token (String c s); ParseInt0 t) ∧
    scan_token (String c s) = Some (String c s) ∧ literal (String c s) = (10, String c s, false) ∧
    ParseInt0 (String c s) = (n ← unsigned0 (String c s); if (- 2 ^ 63 <=? n) && (n <=? 2 ^ 63 - 1) then Some n else None) ∧
    Atoi (String c s) = match digits (String c s) with None => (0, false) | Some n =>
      if n <? - 2 ^ 63 then (- 2 ^ 63, false) else if 2 ^ 63 - 1 <? n then (2 ^ 63 - 1, false) else (n, true) end).
  { assert (Hc : is_digit c = true) by (by apply andb_true_iff in Hd as [? _]).
    assert (Ht : scan_token (String c s) = (let t := span (or_underscore 10) (String c s) in if String.eqb t "" then None else Some t)).
    { destruct c as [[] [] [] [] [] [] [] []]; try reflexivity; try (exfalso; by apply H0); (exfalso; revert Hc; vm_compute; done). }
    split; [|split; [rewrite Ht, span_digits by done; reflexivity|]]; clear Ht Hd Ha.
    all: destruct c as [[] [] [] [] [] [] [] []]; try (exfalso; by apply H0); try (exfalso; revert Hc; vm_compute; done).
    all: clear; done. }
  destruct Hlead as (-> & -> & Hl & E & EA). cbn [mbind option_bind]. rewrite E. clear E. unfold unsigned0.
  change (String.eqb (String c s) "") with false. cbv iota. rewrite Hl, base_digits_10, digits_no_underscore by done.
  rewrite EA in Ha. unfold digits in Ha. change (String.eqb (String c s) "") with false in Ha. cbv iota in Ha.
  destruct (digits_acc 0 (String c s)) as [z|]; [|done]. cbn [mbind option_bind andb].
  destruct (z <? - 2 ^ 63) eqn:E1; [done|]. destruct (2 ^ 63 - 1 <? z) eqn:E2; [done|]. injection Ha as ->. boolp.
  by replace ((- 2 ^ 63 <=? n) && (n <=? 2 ^ 63 - 1)) with true by (symmetry; apply andb_true_iff; split; apply Z.leb_le; lia).
Qed.
