(* ===== verification/GoNet.v ===== *)
(** * Package net: host:port and IP addresses

    [SplitHostPort], [ParseIP] (of [net/netip.ParseAddr], which it wraps) and
    [IP.IsLoopback], as the Standard Library of Go defines them.  An address is its
    sixteen bytes. *)

From S2P Require Import Prelude GoLib GoStrings.

(** ** Positions in a string *)
Fixpoint IndexByte (c : ascii) (s : string) : option nat :=
  match s with
  | EmptyString => None
  | String d s => if Ascii.eqb c d then Some 0%nat else S <$> IndexByte c s
  end.
Fixpoint LastIndexByte (c : ascii) (s : string) : option nat :=
  match s with
  | EmptyString => None
  | String d s =>
      match LastIndexByte c s with
      | Some n => Some (S n)
      | None => if Ascii.eqb c d then Some 0%nat else None
      end
  end.
Definition slice (i j : nat) (s : string) : string := str_take (j - i) (str_drop i s).

(** ** SplitHostPort *)
Definition SplitHostPort (hostport : string) : option (string * string) :=
  i ← LastIndexByte ":" hostport;
  '(host, j, k) ← match hostport with
    | String "[" _ =>
        e ← IndexByte "]" hostport;
        if (S e =? i)%nat then Some (slice 1 e hostport, 1%nat, S e) else None
    | _ =>
        let host := str_take i hostport in
        match IndexByte ":" host with Some _ => None | None => Some (host, 0%nat, 0%nat) end
    end;
  match IndexByte "[" (str_drop j hostport), IndexByte "]" (str_drop k hostport) with
  | None, None => Some (host, str_drop (S i) hostport)
  | _, _ => None
  end.

(** ** ParseIP *)

(** [netip.parseIPv4Fields]: [start] at the first byte or just after a dot. *)
Fixpoint fields4 (s : string) (start : bool) (fs : list Z) (val digLen : Z) : option (list Z) :=
  match s with
  | EmptyString => if (List.length fs <? 3)%nat then None else Some (fs ++ [val])
  | String c s =>
      if is_digit c then
        if (digLen =? 1) && (val =? 0) then None else
        let val := val * 10 + (code c - 48) in
        if 255 <? val then None else fields4 s false fs val (digLen + 1)
      else if Ascii.eqb c "." then
        if start || String.eqb s "" then None else
        if (List.length fs =? 3)%nat then None else fields4 s true (fs ++ [val]) 0 0
      else None
  end.
Definition parseIPv4 (s : string) : option (list Z) :=
  f ← fields4 s true [] 0 0; Some (replicate 10 0 ++ [255; 255] ++ f).

Definition hexval (c : ascii) : option Z :=
  if is_digit c then Some (code c - 48)
  else if char_between "a" "f" c then Some (code c - 97 + 10)
  else if char_between "A" "F" c then Some (code c - 65 + 10)
  else None.
(** A group of hexadecimal digits: its value, their number and what follows. *)
Fixpoint hex_group (s : string) (off : nat) (acc : Z) : option (Z * nat * string) :=
  match s with
  | EmptyString => Some (acc, off, "")
  | String c s' =>
      match hexval c with
      | None => Some (acc, off, s)
      | Some v => if (3 <? off)%nat then None else hex_group s' (S off) (acc * 16 + v)
      end
  end.
(** The loop of [parseIPv6]: at most eight groups; [ell] is the place of the ellipsis. *)
Fixpoint groups (fuel : nat) (s : string) (ip : list Z) (ell : option nat) : option (list Z * option nat * string) :=
  match fuel with
  | O => Some (ip, ell, s)
  | S fuel =>
      '(acc, off, rest) ← hex_group s 0 0;
      if (off =? 0)%nat then None else
      let ip' := ip ++ [acc / 256; acc mod 256] in
      match rest with
      | EmptyString => Some (ip', ell, "")
      | String "." _ =>
          if bool_decide (ell = None) && negb (List.length ip =? 12)%nat || (16 <? List.length ip + 4)%nat then None
          else f ← fields4 s true [] 0 0; Some (ip ++ f, ell, "")
      | String ":" "" => None
      | String ":" (String ":" rest) =>
          match ell with
          | Some _ => None
          | None =>
              if String.eqb rest "" then Some (ip', Some (List.length ip'), "")
              else groups fuel rest ip' (Some (List.length ip'))
          end
      | String ":" rest => groups fuel rest ip' ell
      | _ => None
      end
  end.
Definition parseIPv6 (s : string) : option (list Z) :=
  '(ip, ell, s) ← match s with
    | String ":" (String ":" s) => if String.eqb s "" then Some ([], Some 0%nat, "") else groups 8 s [] (Some 0%nat)
    | _ => groups 8 s [] None
    end;
  if negb (String.eqb s "") then None else
  if (List.length ip <? 16)%nat then
    e ← ell; Some (take e ip ++ replicate (16 - List.length ip) 0 ++ drop e ip)
  else match ell with Some _ => None | None => Some ip end.

(** The first of these bytes decides; [ParseIP] has no zones. *)
Fixpoint addr_kind (s : string) : option ascii :=
  match s with
  | EmptyString => None
  | String c s => if Ascii.eqb c "." || Ascii.eqb c ":" || Ascii.eqb c "%" then Some c else addr_kind s
  end.
Definition ParseIP (s : string) : option (list Z) :=
  match IndexByte "%" s, addr_kind s with
  | None, Some "."%char => parseIPv4 s
  | None, Some ":"%char => parseIPv6 s
  | _, _ => None
  end.

Definition To4 (ip : list Z) : option (list Z) :=
  if bool_decide (take 12 ip = replicate 10 0 ++ [255; 255]) then Some (drop 12 ip) else None.
Definition IsLoopback (ip : list Z) : bool :=
  match To4 ip with
  | Some ip4 => match ip4 with b :: _ => b =? 127 | [] => false end
  | None => bool_decide (ip = replicate 15 0 ++ [1])
  end.

Example split_examples :
  map SplitHostPort ["127.0.0.1:80"; "[::1]:8080"; "::1:80"; "host"; "[::1]"; "[a]b:1"; ":9"] =
  [Some ("127.0.0.1", "80"); Some ("::1", "8080"); None; None; None; None; Some ("", "9")].
Proof. reflexivity. Qed.
Example loopback_examples :
  map (λ s, IsLoopback <$> ParseIP s)
    ["127.0.0.1"; "127.9.9.9"; "::1"; "0:0:0:0:0:0:0:1"; "::ffff:127.0.0.1"; "::ffff:7f00:1"; "10.0.0.1"; "2001:db8::1"; "::"] =
  [Some true; Some true; Some true; Some true; Some true; Some true; Some false; Some false; Some false].
Proof. reflexivity. Qed.
Example parse_rejects :
  map ParseIP ["localhost"; "127.0.0.01"; "127.0.0"; "1.2.3.4.5"; "256.1.1.1"; "1.2.3."; "fe80::1%eth0"; "1:2"; "::1::"; "12345::";
    "1:2:3:4:5:6:7:8:9"; "1:2:3:4:5:6:7::8"; "::1.2.3"; ":1"; ""] =
  [None; None; None; None; None; None; None; None; None; None; None; None; None; None; None].
Proof. reflexivity. Qed.
