(* ===== verification/GoJSON.v ===== *)
(** * encoding/json: marshalling

    [json.Marshal] of strings, integers, booleans and objects.  A string is escaped
    as the package does by default: control characters, the quote, the backslash and
    the HTML characters, U+2028 and U+2029; a byte that is not part of valid UTF-8 becomes
    U+FFFD.  [unquote] is a reader of JSON strings. *)

From S2P Require Import Prelude GoLib GoStrings GoFloat.

Definition chr (n : nat) : ascii := ascii_of_nat n.
Definition dquote : ascii := chr 34.
Definition newline : ascii := chr 10.
Definition backslash : ascii := chr 92.

(** ** UTF-8 *)
Definition between (lo hi : Z) (c : ascii) : bool := (lo <=? code c) && (code c <=? hi).
Definition cont : ascii → bool := between 128 191.
Definition two (a b : ascii) : bool := between 194 223 a && cont b.
Definition three (a b c : ascii) : bool :=
  (if code a =? 224 then between 160 191 b
   else if code a =? 237 then between 128 159 b
   else between 225 239 a && cont b) && cont c.
Definition four (a b c d : ascii) : bool :=
  (if code a =? 240 then between 144 191 b
   else if code a =? 244 then between 128 143 b
   else between 241 243 a && cont b) && cont c && cont d.
Fixpoint valid_utf8 (s : string) : bool :=
  match s with
  | EmptyString => true
  | String a r =>
      if code a <? 128 then valid_utf8 r else
      match r with
      | String b r2 =>
          if two a b then valid_utf8 r2 else
          match r2 with
          | String c r3 =>
              if three a b c then valid_utf8 r3 else
              match r3 with
              | String d r4 => four a b c d && valid_utf8 r4
              | EmptyString => false
              end
          | EmptyString => false
          end
      | EmptyString => false
      end
  end.

(** ** Strings *)
Definition hexd (n : Z) : ascii := if n <? 10 then chr (Z.to_nat (48 + n)) else chr (Z.to_nat (87 + n)).
Definition u_escape (n : Z) : string :=
  String backslash (String "u" (String (hexd (n / 4096 mod 16)) (String (hexd (n / 256 mod 16))
    (String (hexd (n / 16 mod 16)) (String (hexd (n mod 16)) ""))))).
Definition esc_ascii (a : ascii) : string :=
  let short c := String backslash (String c "") in
  if Ascii.eqb a backslash || Ascii.eqb a dquote then short a
  else if code a =? 8 then short "b"%char
  else if code a =? 12 then short "f"%char
  else if code a =? 10 then short "n"%char
  else if code a =? 13 then short "r"%char
  else if code a =? 9 then short "t"%char
  else if (code a <? 32) || Ascii.eqb a "<" || Ascii.eqb a ">" || Ascii.eqb a "&" then u_escape (code a)
  else String a "".
(** U+2028 and U+2029. *)
Definition separator (a b c : ascii) : bool := (code a =? 226) && (code b =? 128) && between 168 169 c.
Definition bad_byte : string := u_escape 65533.
Fixpoint escape (s : string) : string :=
  match s with
  | EmptyString => ""
  | String a r =>
      if code a <? 128 then esc_ascii a +:+ escape r else
      match r with
      | String b r2 =>
          if two a b then String a (String b (escape r2)) else
          match r2 with
          | String c r3 =>
              if three a b c then
                (if separator a b c then u_escape (8192 + 40 + (code c - 168)) else String a (String b (String c ""))) +:+ escape r3
              else
              match r3 with
              | String d r4 =>
                  if four a b c d then String a (String b (String c (String d (escape r4)))) else bad_byte +:+ escape r
              | EmptyString => bad_byte +:+ escape r
              end
          | EmptyString => bad_byte +:+ escape r
          end
      | EmptyString => bad_byte +:+ escape r
      end
  end.
Definition jquote (s : string) : string := String dquote (escape s +:+ String dquote "").

(** ** Values *)

(** [JNum]: a number other than an integer, by its text. *)
Inductive json :=
| JNull | JStr (s : string) | JInt (z : Z) | JNum (lit : string) | JBool (b : bool) | JArr (vs : list json) | JObj (fields : list (string * json)).
Fixpoint marshal (j : json) : string :=
  match j with
  | JNull => "null"
  | JStr s => jquote s
  | JInt z => Itoa z
  | JNum lit => lit
  | JBool b => if b then "true" else "false"
  | JArr vs => "[" +:+ Strings.Join (map marshal vs) "," +:+ "]"
  | JObj fs =>
      let member (kv : string * json) := jquote kv.1 +:+ ":" +:+ marshal kv.2 in
      "{" +:+ Strings.Join (map member fs) "," +:+ "}"
  end.

(** ** A reader of strings *)
Definition unhex (c : ascii) : option Z :=
  if is_digit c then Some (code c - 48) else if char_between "a" "f" c then Some (code c - 87) else None.
Definition byte (z : Z) : ascii := byte_of_Z z.
(** The UTF-8 form of a code point of the basic plane. *)
Definition utf8 (n : Z) : string :=
  if n <? 128 then String (byte n) ""
  else if n <? 2048 then String (byte (192 + n / 64)) (String (byte (128 + n mod 64)) "")
  else String (byte (224 + n / 4096)) (String (byte (128 + n / 64 mod 64)) (String (byte (128 + n mod 64)) "")).
Definition unescape_char (e : ascii) : option ascii :=
  if Ascii.eqb e "n" then Some (chr 10) else if Ascii.eqb e "r" then Some (chr 13)
  else if Ascii.eqb e "t" then Some (chr 9) else if Ascii.eqb e "b" then Some (chr 8)
  else if Ascii.eqb e "f" then Some (chr 12)
  else if Ascii.eqb e backslash || Ascii.eqb e dquote || Ascii.eqb e "/" then Some e else None.
Definition before (p : string) (r : option (string * string)) : option (string * string) :=
  (λ x, (p +:+ x.1, x.2)) <$> r.
(** What a string denotes, up to its closing quote, and what follows. *)
Fixpoint unquote (s : string) : option (string * string) :=
  match s with
  | EmptyString => None
  | String a r =>
      if Ascii.eqb a dquote then Some ("", r)
      else if Ascii.eqb a backslash then
        match r with
        | String "u" (String h1 (String h2 (String h3 (String h4 r)))) =>
            match unhex h1, unhex h2, unhex h3, unhex h4 with
            | Some x1, Some x2, Some x3, Some x4 => before (utf8 (x1 * 4096 + x2 * 256 + x3 * 16 + x4)) (unquote r)
            | _, _, _, _ => None
            end
        | String e r => match unescape_char e with Some c => before (String c "") (unquote r) | None => None end
        | EmptyString => None
        end
      else before (String a "") (unquote r)
  end.

(** ** Marshalled text is printable *)
Definition printable (c : ascii) : bool := 32 <=? code c.
Lemma all_ascii (P : ascii → bool) : forallb (λ n, P (ascii_of_nat n)) (seq 0 256) = true → ∀ c, P c = true.
Proof.
  intros H c. rewrite <- (ascii_nat_embedding c). apply (proj1 (forallb_forall _ _) H).
  apply in_seq. split; [lia|]. cbn. apply nat_ascii_bounded.
Qed.
Lemma esc_ascii_printable a : str_forall printable (esc_ascii a) = true.
Proof. revert a. apply all_ascii. vm_compute. reflexivity. Qed.
Lemma high_printable a : code a <? 128 = false → printable a = true.
Proof. unfold printable. intros H. boolp. lia. Qed.
Lemma hexd_printable n : printable (hexd (n mod 16)) = true.
Proof.
  assert (H : forallb (λ k, printable (hexd k)) (seqZ 0 16) = true) by (vm_compute; reflexivity).
  apply (proj1 (forallb_forall _ _) H). apply list_elem_of_In, elem_of_seqZ. pose proof (Z.mod_pos_bound n 16). lia.
Qed.
Lemma u_escape_printable n : str_forall printable (u_escape n) = true.
Proof. unfold u_escape. cbn [str_forall]. by rewrite !hexd_printable. Qed.
Lemma cont_high c : cont c = true → code c <? 128 = false.
Proof. unfold cont, between. intros H. boolp. lia. Qed.
Lemma two_high a b : two a b = true → code b <? 128 = false.
Proof. unfold two. intros H. boolp. by apply cont_high. Qed.
Lemma three_high a b c : three a b c = true → code b <? 128 = false ∧ code c <? 128 = false.
Proof.
  unfold three. intros H. apply andb_true_iff in H as [H Hc]. split; [|by apply cont_high].
  destruct (code a =? 224); [|destruct (code a =? 237)]; unfold between, cont in *; boolp; unfold between in *; boolp; lia.
Qed.
Lemma four_high a b c d : four a b c d = true → code b <? 128 = false ∧ code c <? 128 = false ∧ code d <? 128 = false.
Proof.
  unfold four. intros H. apply andb_true_iff in H as [H Hd]. apply andb_true_iff in H as [H Hc].
  split; [|split; by apply cont_high].
  destruct (code a =? 240); [|destruct (code a =? 244)]; unfold between, cont in *; boolp; unfold between in *; boolp; lia.
Qed.

(** U+FFFD for every byte that is not part of valid UTF-8: [strings.ToValidUTF8]
    byte by byte, which is what survives [json.Marshal]. *)
Definition fffd : string := utf8 65533.
Fixpoint sanitize (s : string) : string :=
  match s with
  | EmptyString => ""
  | String a r =>
      if code a <? 128 then String a (sanitize r) else
      match r with
      | String b r2 =>
          if two a b then String a (String b (sanitize r2)) else
          match r2 with
          | String c r3 =>
              if three a b c then String a (String b (String c (sanitize r3))) else
              match r3 with
              | String d r4 =>
                  if four a b c d then String a (String b (String c (String d (sanitize r4)))) else fffd +:+ sanitize r
              | EmptyString => fffd +:+ sanitize r
              end
          | EmptyString => fffd +:+ sanitize r
          end
      | EmptyString => fffd +:+ sanitize r
      end
  end.

(** Induction on strings as [escape] reads them. *)
Lemma utf8_ind (P : string → Prop) : P "" →
  (∀ a r, code a <? 128 = true → P r → P (String a r)) →
  (∀ a b r, code a <? 128 = false → two a b = true → P r → P (String a (String b r))) →
  (∀ a b c r, code a <? 128 = false → two a b = false → three a b c = true → P r → P (String a (String b (String c r)))) →
  (∀ a b c d r, code a <? 128 = false → two a b = false → three a b c = false → four a b c d = true → P r →
     P (String a (String b (String c (String d r))))) →
  (∀ a r, code a <? 128 = false → valid_utf8 (String a r) = false → escape (String a r) = bad_byte +:+ escape r →
     sanitize (String a r) = fffd +:+ sanitize r → P r → P (String a r)) →
  ∀ s, P s.
Proof.
  intros H0 H1 H2 H3 H4 H5. assert (Hn : ∀ n s, (String.length s ≤ n)%nat → P s); [|intros s; by apply (Hn (String.length s))].
  induction n as [|n IH]; intros [|a r] Hl; cbn [String.length] in Hl; try (exact H0 || lia).
  assert (Hr : P r) by (apply IH; lia).
  destruct (code a <? 128) eqn:Ea; [by apply H1|].
  destruct r as [|b r2]; [apply H5; [done|cbn [valid_utf8]; by rewrite Ea|cbn [escape]; by rewrite Ea|cbn [sanitize]; by rewrite Ea|done]|].
  destruct (two a b) eqn:E2; [apply H2; [done|done|apply IH; cbn [String.length] in Hl; lia]|].
  destruct r2 as [|c r3]; [apply H5; [done|cbn [valid_utf8]; by rewrite Ea, E2|cbn [escape]; by rewrite Ea, E2|cbn [sanitize]; by rewrite Ea, E2|done]|].
  destruct (three a b c) eqn:E3; [apply H3; [done|done|done|apply IH; cbn [String.length] in Hl; lia]|].
  destruct r3 as [|d r4]; [apply H5; [done|cbn [valid_utf8]; by rewrite Ea, E2, E3|cbn [escape]; by rewrite Ea, E2, E3|cbn [sanitize]; by rewrite Ea, E2, E3|done]|].
  destruct (four a b c d) eqn:E4; [apply H4; [done|done|done|done|apply IH; cbn [String.length] in Hl; lia]|].
  apply H5; [done|cbn [valid_utf8]; by rewrite Ea, E2, E3, E4|cbn [escape]; by rewrite Ea, E2, E3, E4|cbn [sanitize]; by rewrite Ea, E2, E3, E4|done].
Qed.

Lemma escape_printable s : str_forall printable (escape s) = true.
Proof.
  induction s as [|a r Ea IH|a b r Ea E2 IH|a b c r Ea E2 E3 IH|a b c d r Ea E2 E3 E4 IH|a r Ea _ E _ IH] using utf8_ind; [done|..].
  - cbn [escape]. rewrite Ea, str_forall_app, esc_ascii_printable. exact IH.
  - cbn [escape]. rewrite Ea, E2. cbn [str_forall]. rewrite IH, (high_printable a Ea), (high_printable b (two_high _ _ E2)). done.
  - cbn [escape]. rewrite Ea, E2, E3, str_forall_app, IH. destruct (three_high _ _ _ E3) as [Hb Hc].
    destruct (separator a b c); [by rewrite u_escape_printable|].
    cbn [str_forall]. by rewrite (high_printable a Ea), (high_printable b Hb), (high_printable c Hc).
  - cbn [escape]. rewrite Ea, E2, E3, E4. cbn [str_forall]. destruct (four_high _ _ _ _ E4) as (Hb & Hc & Hd).
    by rewrite IH, (high_printable a Ea), (high_printable b Hb), (high_printable c Hc), (high_printable d Hd).
  - rewrite E, str_forall_app, IH. reflexivity.
Qed.

(** ** Valid UTF-8 is read back *)
Lemma before_before p q r : before p (before q r) = before (p +:+ q) r.
Proof. destruct r as [[x y]|]; [|done]. cbn. by rewrite sapp_assoc. Qed.
Lemma unquote_ascii a t : code a <? 128 = true → unquote (esc_ascii a +:+ t) = before (String a "") (unquote t).
Proof. destruct a as [[] [] [] [] [] [] [] []]; try discriminate; intros _; reflexivity. Qed.
Lemma unquote_high a t : code a <? 128 = false → unquote (String a t) = before (String a "") (unquote t).
Proof.
  intros Ha. cbn [unquote]. destruct (Ascii.eqb a dquote) eqn:E1; [apply Ascii.eqb_eq in E1 as ->; discriminate Ha|].
  destruct (Ascii.eqb a backslash) eqn:E2; [apply Ascii.eqb_eq in E2 as ->; discriminate Ha|done].
Qed.
Lemma unquote_separator a b c t : separator a b c = true →
  unquote (u_escape (8192 + 40 + (code c - 168)) +:+ t) = before (String a (String b (String c ""))) (unquote t).
Proof.
  unfold separator, between. intros H. boolp.
  assert (Ea : a = chr 226) by (apply Z_of_byte_inj; done). assert (Eb : b = chr 128) by (apply Z_of_byte_inj; done).
  assert (Ec : c = chr 168 ∨ c = chr 169).
  { assert (code c = 168 ∨ code c = 169) as [E|E] by lia; [left|right]; apply Z_of_byte_inj; done. }
  subst a b. destruct Ec as [-> | ->]; reflexivity.
Qed.
Lemma unquote_bad t : unquote (bad_byte +:+ t) = before fffd (unquote t).
Proof. reflexivity. Qed.
Lemma unquote_escape s t : unquote (escape s +:+ String dquote t) = Some (sanitize s, t).
Proof.
  induction s as [|a r Ea IH|a b r Ea E2 IH|a b c r Ea E2 E3 IH|a b c d r Ea E2 E3 E4 IH|a r Ea _ E Es IH] using utf8_ind.
  - done.
  - cbn [sanitize escape]. rewrite Ea. rewrite <- sapp_assoc, unquote_ascii, IH by done. done.
  - cbn [sanitize escape]. rewrite Ea, E2. cbn [String.append]. rewrite unquote_high, unquote_high by (done || by eapply two_high).
    by rewrite IH.
  - cbn [sanitize escape]. rewrite Ea, E2, E3. rewrite <- sapp_assoc. destruct (three_high _ _ _ E3) as [Hb Hc].
    destruct (separator a b c) eqn:Es; [by rewrite (unquote_separator a b c), IH|].
    cbn [String.append]. by rewrite !unquote_high, IH.
  - cbn [sanitize escape]. rewrite Ea, E2, E3, E4. destruct (four_high _ _ _ _ E4) as (Hb & Hc & Hd).
    cbn [String.append]. by rewrite !unquote_high, IH.
  - rewrite E, Es, <- sapp_assoc, unquote_bad, IH. done.
Qed.
Lemma sanitize_valid s : valid_utf8 s = true → sanitize s = s.
Proof.
  induction s as [|a r Ea IH|a b r Ea E2 IH|a b c r Ea E2 E3 IH|a b c d r Ea E2 E3 E4 IH|a r Ea E _ _ IH] using utf8_ind;
    [done|..|congruence]; cbn [valid_utf8 sanitize]; rewrite Ea, ?E2, ?E3, ?E4; cbn [andb]; intros Hv; by rewrite (IH Hv).
Qed.
Lemma sanitize_is_valid s : valid_utf8 (sanitize s) = true.
Proof.
  induction s as [|a r Ea IH|a b r Ea E2 IH|a b c r Ea E2 E3 IH|a b c d r Ea E2 E3 E4 IH|a r Ea _ _ Es IH] using utf8_ind;
    [done|..|by rewrite Es]; cbn [sanitize]; rewrite Ea, ?E2, ?E3, ?E4; cbn [valid_utf8]; by rewrite Ea, ?E2, ?E3, ?E4.
Qed.
Lemma sanitize_twice s : sanitize (sanitize s) = sanitize s.
Proof. apply sanitize_valid, sanitize_is_valid. Qed.
Lemma sanitize_empty s : sanitize s = "" → s = "".
Proof.
  induction s as [|a r Ea _|a b r Ea E2 _|a b c r Ea E2 E3 _|a b c d r Ea E2 E3 E4 _|a r Ea _ _ Es _] using utf8_ind;
    [done|..|by rewrite Es]; cbn [sanitize]; by rewrite Ea, ?E2, ?E3, ?E4.
Qed.

(** ** Marshalled values are printable *)
Lemma pretty_go_printable x s : str_forall printable s = true → str_forall printable (pretty_N_go x s) = true.
Proof.
  revert s. induction (N.lt_wf_0 x) as [x _ IH]; intros s Hs.
  destruct (decide (0 < x)%N) as [Hx|]; [|by replace x with 0%N by lia].
  rewrite pretty_N_go_step by done. apply IH; [by apply N.div_lt|]. cbn [str_forall]. rewrite Hs, andb_true_r.
  unfold pretty_N_char. by repeat case_match.
Qed.
Lemma pretty_N_printable n : str_forall printable (pretty (n : N)) = true.
Proof. unfold pretty, pretty_N. case_decide; [done|]. by apply pretty_go_printable. Qed.
Lemma Itoa_printable z : str_forall printable (Itoa z) = true.
Proof. destruct z; [done|apply pretty_N_printable|]. apply (pretty_N_printable (Npos p)). Qed.
Lemma jquote_printable s : str_forall printable (jquote s) = true.
Proof. unfold jquote. cbn [str_forall]. by rewrite str_forall_app, escape_printable. Qed.
Lemma Join_forall p sep l : str_forall p sep = true → Forall (λ s, str_forall p s = true) l →
  str_forall p (Strings.Join l sep) = true.
Proof.
  intros Hs. induction 1 as [|x l Hx _ IH]; [done|]. destruct l as [|y l]; [exact Hx|].
  change (Strings.Join (x :: y :: l) sep) with (x +:+ sep +:+ Strings.Join (y :: l) sep).
  by rewrite !str_forall_app, Hx, Hs, IH.
Qed.
(** The texts of the numbers in a value satisfy [p]. *)
Fixpoint numbers (p : string → bool) (j : json) : bool :=
  match j with
  | JNum lit => p lit
  | JArr vs => forallb (numbers p) vs
  | JObj fs => forallb (λ kv, numbers p kv.2) fs
  | _ => true
  end.
Lemma marshal_printable : ∀ j, numbers (str_forall printable) j = true → str_forall printable (marshal j) = true.
Proof.
  fix IH 1. intros [|s|z|lit|[]|vs|fs]; intros Hn;
    [done|apply jquote_printable|apply Itoa_printable|exact Hn|done|done|..];
    cbn [marshal numbers] in *; rewrite !str_forall_app; cbn [str_forall andb]; (rewrite Join_forall; [done|done|]).
  { induction vs as [|v vs IHvs]; constructor; apply andb_true_iff in Hn as [Hv Hn]; [by apply IH|by apply IHvs]. }
  induction fs as [|[k v] fs IHfs]; constructor; apply andb_true_iff in Hn as [Hv Hn]; [|by apply IHfs]. cbn [fst snd] in *.
  rewrite !str_forall_app. by rewrite jquote_printable, (IH v).
Qed.
