(* ===== verification/GoUnmarshal.v ===== *)
(** * encoding/json: reading

    The scanner of the package as the state machine it is, one character at a time with a
    stack of the open arrays and objects; it builds the value it reads.  [Decode] is
    [json.NewDecoder(r).Decode] on a body that may be cut by [http.MaxBytesReader],
    [Unmarshal] is [json.Unmarshal].  The [dec_...] functions store a value into a Go variable
    that already has one, so that a key that occurs twice does what it does in Go. *)

From S2P Require Import Prelude GoLib GoStrings GoFloat GoJSON.

(** [json.NewDecoder(body).Decode]: a value, [io.EOF] for an empty body, any
    other error (including a body over the limit of the route). *)
Inductive body (A : Type) : Type := Body (a : A) | NoBody | BadBody.
Arguments Body {A} a.
Arguments NoBody {A}.
Arguments BadBody {A}.

Module JSON.
(** ** Values *)
Inductive jval :=
| VNull | VBool (b : bool) | VNum (lit : string) | VStr (s : string)
| VArr (vs : list jval) | VObj (fs : list (string * jval)).

(** ** Strings *)

(** [getu4]: the four digits after [\u]. *)
Definition is_hex (c : ascii) : bool := is_digit c || char_between "a" "f" c || char_between "A" "F" c.
Definition getu4 (s : string) : option (Z * string) :=
  match s with
  | String b (String u r) =>
      if Ascii.eqb b backslash && Ascii.eqb u "u" then
        match r with
        | String h1 (String h2 (String h3 (String h4 r))) =>
            if is_hex h1 && is_hex h2 && is_hex h3 && is_hex h4
            then Some (hex_value h1 * 4096 + hex_value h2 * 256 + hex_value h3 * 16 + hex_value h4, r) else None
        | _ => None
        end
      else None
  | _ => None
  end.
(** The UTF-8 form of any code point. *)
Definition encode_rune (n : Z) : string :=
  if n <? 65536 then utf8 n
  else String (byte (240 + n / 262144)) (String (byte (128 + n / 4096 mod 64))
        (String (byte (128 + n / 64 mod 64)) (String (byte (128 + n mod 64)) ""))).
Definition is_surrogate (n : Z) : bool := (55296 <=? n) && (n <? 57344).
(** [utf16.DecodeRune]. *)
Definition surrogate_pair (hi lo : Z) : option Z :=
  if (55296 <=? hi) && (hi <? 56320) && (56320 <=? lo) && (lo <? 57344)
  then Some ((hi - 55296) * 1024 + (lo - 56320) + 65536) else None.
(** [unquoteBytes] of a literal the scanner accepted, without its quotes. *)
Fixpoint unquote_bytes (fuel : nat) (s : string) : string :=
  match fuel with
  | O => ""
  | S fuel =>
      match s with
      | EmptyString => ""
      | String a r =>
          if Ascii.eqb a backslash then
            match getu4 s with
            | Some (n, r) =>
                if is_surrogate n then
                  match getu4 r with
                  | Some (n', r') =>
                      match surrogate_pair n n' with
                      | Some p => encode_rune p +:+ unquote_bytes fuel r'
                      | None => fffd +:+ unquote_bytes fuel r
                      end
                  | None => fffd +:+ unquote_bytes fuel r
                  end
                else encode_rune n +:+ unquote_bytes fuel r
            | None =>
                match r with
                | String e r => match unescape_char e with Some c => String c (unquote_bytes fuel r) | None => "" end
                | EmptyString => ""
                end
            end
          else if code a <? 128 then String a (unquote_bytes fuel r)
          else match r with
               | String b r2 =>
                   if two a b then String a (String b (unquote_bytes fuel r2)) else
                   match r2 with
                   | String c r3 =>
                       if three a b c then String a (String b (String c (unquote_bytes fuel r3))) else
                       match r3 with
                       | String d r4 =>
                           if four a b c d then String a (String b (String c (String d (unquote_bytes fuel r4))))
                           else fffd +:+ unquote_bytes fuel r
                       | EmptyString => fffd +:+ unquote_bytes fuel r
                       end
                   | EmptyString => fffd +:+ unquote_bytes fuel r
                   end
               | EmptyString => fffd +:+ unquote_bytes fuel r
               end
      end
  end.
Definition unquoted (s : string) : string := unquote_bytes (String.length s) s.

(** ** The scanner *)
Inductive instring := InString | InEsc | InU (k : nat).       (* [k] more hexadecimal digits *)
Inductive innumber := Neg | Zero | Int1 | Dot | Dot0 | Exp | ExpSign | Exp0.
(** An open array with the values read, newest first; an object before and after the
    colon of a member. *)
Inductive frame := FArr (vs : list jval) | FKey (fs : list (string * jval)) | FVal (fs : list (string * jval)) (k : string).
Inductive mode :=
| MBegin                                    (* stateBeginValue *)
| MBeginOrEnd                               (* stateBeginValueOrEmpty *)
| MKey | MKeyOrEnd                          (* stateBeginString, stateBeginStringOrEmpty *)
| MStr (q : instring) (raw : string)        (* the text read so far *)
| MNum (q : innumber) (lit : string)
| MLit (todo : string) (v : jval)           (* the rest of true, false or null *)
| MEnd (v : jval).                          (* stateEndValue *)
Definition cfg : Type := mode * list frame.
(** [End]: the value was complete before this character. *)
Inductive stepped := Next (c : cfg) | Close (v : jval) | End (v : jval) | Fail.

Definition is_space (c : ascii) : bool :=
  Ascii.eqb c " " || (code c =? 9) || (code c =? 10) || (code c =? 13).
Definition maxNestingDepth : Z := 10000.
(** [pushParseState], [popParseState]. *)
Definition push (m : mode) (f : frame) (st : list frame) : stepped :=
  if Z.of_nat (List.length (f :: st)) <=? maxNestingDepth then Next (m, f :: st) else Fail.
Definition closed (v : jval) (st : list frame) : stepped :=
  match st with [] => Close v | _ => Next (MEnd v, st) end.

Definition snoc (s : string) (c : ascii) : string := s +:+ String c "".
Definition begin_value (c : ascii) (st : list frame) : stepped :=
  if is_space c then Next (MBegin, st)
  else if Ascii.eqb c "{" then push MKeyOrEnd (FKey []) st
  else if Ascii.eqb c "[" then push MBeginOrEnd (FArr []) st
  else if Ascii.eqb c dquote then Next (MStr InString "", st)
  else if Ascii.eqb c "-" then Next (MNum Neg "-", st)
  else if Ascii.eqb c "0" then Next (MNum Zero "0", st)
  else if Ascii.eqb c "t" then Next (MLit "rue" (VBool true), st)
  else if Ascii.eqb c "f" then Next (MLit "alse" (VBool false), st)
  else if Ascii.eqb c "n" then Next (MLit "ull" VNull, st)
  else if char_between "1" "9" c then Next (MNum Int1 (String c ""), st)
  else Fail.
Definition begin_key (c : ascii) (st : list frame) : stepped :=
  if is_space c then Next (MKey, st)
  else if Ascii.eqb c dquote then Next (MStr InString "", st) else Fail.
Definition end_value (v : jval) (c : ascii) (st : list frame) : stepped :=
  match st with
  | [] => End v
  | f :: st' =>
      if is_space c then Next (MEnd v, st) else
      match f, v with
      | FArr vs, _ =>
          if Ascii.eqb c "," then Next (MBegin, FArr (v :: vs) :: st')
          else if Ascii.eqb c "]" then closed (VArr (rev (v :: vs))) st' else Fail
      | FKey fs, VStr k => if Ascii.eqb c ":" then Next (MBegin, FVal fs k :: st') else Fail
      | FKey _, _ => Fail
      | FVal fs k, _ =>
          if Ascii.eqb c "," then Next (MKey, FKey ((k, v) :: fs) :: st')
          else if Ascii.eqb c "}" then closed (VObj (rev ((k, v) :: fs))) st' else Fail
      end
  end.
Definition in_string (q : instring) (raw : string) (c : ascii) (st : list frame) : stepped :=
  let go q := Next (MStr q (snoc raw c), st) in
  match q with
  | InString =>
      if Ascii.eqb c dquote then Next (MEnd (VStr (unquoted raw)), st)
      else if Ascii.eqb c backslash then go InEsc
      else if code c <? 32 then Fail else go InString
  | InEsc => if Ascii.eqb c "u" then go (InU 3) else match unescape_char c with Some _ => go InString | None => Fail end
  | InU k => if is_hex c then go (match k with O => InString | S k => InU k end) else Fail
  end.
Definition in_number (q : innumber) (lit : string) (c : ascii) (st : list frame) : stepped :=
  let go q := Next (MNum q (snoc lit c), st) in
  let stop := end_value (VNum lit) c st in
  let is_e := Ascii.eqb c "e" || Ascii.eqb c "E" in
  match q with
  | Neg => if Ascii.eqb c "0" then go Zero else if char_between "1" "9" c then go Int1 else Fail
  | Int1 => if is_digit c then go Int1 else if Ascii.eqb c "." then go Dot else if is_e then go Exp else stop
  | Zero => if Ascii.eqb c "." then go Dot else if is_e then go Exp else stop
  | Dot => if is_digit c then go Dot0 else Fail
  | Dot0 => if is_digit c then go Dot0 else if is_e then go Exp else stop
  | Exp => if Ascii.eqb c "+" || Ascii.eqb c "-" then go ExpSign else if is_digit c then go Exp0 else Fail
  | ExpSign => if is_digit c then go Exp0 else Fail
  | Exp0 => if is_digit c then go Exp0 else stop
  end.
Definition step (x : cfg) (c : ascii) : stepped :=
  let '(m, st) := x in
  match m with
  | MBegin => begin_value c st
  | MBeginOrEnd =>
      if is_space c then Next (MBeginOrEnd, st)
      else if Ascii.eqb c "]" then match st with _ :: st => closed (VArr []) st | [] => Fail end
      else begin_value c st
  | MKey => begin_key c st
  | MKeyOrEnd =>
      if is_space c then Next (MKeyOrEnd, st)
      else if Ascii.eqb c "}" then match st with _ :: st => closed (VObj []) st | [] => Fail end
      else begin_key c st
  | MStr q raw => in_string q raw c st
  | MNum q lit => in_number q lit c st
  | MLit todo v =>
      match todo with
      | String d todo => if Ascii.eqb c d then Next (match todo with "" => MEnd v | _ => MLit todo v end, st) else Fail
      | EmptyString => Fail
      end
  | MEnd v => end_value v c st
  end.

(** A value and what follows it, or the state at the end of the input. *)
Inductive scanned := Done (v : jval) (rest : string) | More (x : cfg) | Bad.
Fixpoint run (x : cfg) (s : string) : scanned :=
  match s with
  | EmptyString => More x
  | String c r =>
      match step x c with
      | Next x => run x r
      | Close v => Done v r
      | End v => Done v s
      | Fail => Bad
      end
  end.
Definition scan (s : string) : scanned := run (MBegin, []) s.
(** What the end of the input completes: the scanner is stepped with a space. *)
Definition at_eof (x : cfg) : option jval := match step x " " with End v => Some v | _ => None end.
Definition all_space (s : string) : bool := str_forall is_space s.

Definition Unmarshal {A} (dec : jval → option A) (s : string) : option A :=
  match scan s with
  | Done v rest => if all_space rest then dec v else None
  | More x => v ← at_eof x; dec v
  | Bad => None
  end.

(** ** Bodies *)

Definition decoded {A} (dec : jval → option A) (v : jval) : body A := match dec v with Some a => Body a | None => BadBody end.
(** [limit]: that of [http.MaxBytesReader], whose error is seen once the bytes before
    it are used up. *)
Definition Decode {A} (dec : jval → option A) (limit : option Z) (b : string) : body A :=
  let '(data, cut) := match limit with
                      | Some n => (str_take (Z.to_nat n) b, n <? len b)
                      | None => (b, false)
                      end in
  match scan data with
  | Done v _ => decoded dec v
  | Bad => BadBody
  | More x =>
      if cut : bool then BadBody else
      match at_eof x with
      | Some v => decoded dec v
      | None => if all_space data then NoBody else BadBody
      end
  end.

(** ** Storing a value *)

(** The field a key names: by its exact name, else up to case. *)
Definition field_of (names : list string) (key : string) : option string :=
  if existsb (String.eqb key) names then Some key
  else find (Strings.EqualFold key) names.
Definition names_field (names : list string) (n key : string) : bool :=
  match field_of names key with Some m => String.eqb m n | None => false end.
(** The member [n] of an object: every key that names it stores its value in turn.  The
    members are independent, and keys that name none are skipped. *)
Fixpoint field {A} (names : list string) (dec : A → jval → option A) (n : string) (old : A) (fs : list (string * jval)) : option A :=
  match fs with
  | [] => Some old
  | (k, v) :: fs =>
      a ← (if names_field names n k then dec old v else Some old);
      field names dec n a fs
  end.
(** The members of the objects stored into the struct [n], in turn. *)
Fixpoint submembers (names : list string) (n : string) (fs : list (string * jval)) : option (list (string * jval)) :=
  match fs with
  | [] => Some []
  | (k, v) :: fs =>
      ms ← (if names_field names n k then match v with VNull => Some [] | VObj ms => Some ms | _ => None end else Some []);
      app ms <$> submembers names n fs
  end.
(** A struct: [null] leaves it as it was. *)
Definition dec_struct {A} (dec : A → list (string * jval) → option A) (old : A) (v : jval) : option A :=
  match v with VNull => Some old | VObj fs => dec old fs | _ => None end.
Definition dec_string (old : string) (v : jval) : option string :=
  match v with VNull => Some old | VStr s => Some s | _ => None end.
Definition dec_bool (old : bool) (v : jval) : option bool :=
  match v with VNull => Some old | VBool b => Some b | _ => None end.
(** [strconv.ParseInt] in base 10 of a number. *)
Definition dec_int (old : Z) (v : jval) : option Z :=
  match v with VNull => Some old | VNum l => let '(z, ok) := Atoi l in if ok then Some z else None | _ => None end.
Definition dec_float (old : float) (v : jval) : option float :=
  match v with
  | VNull => Some old
  | VNum l => match ParseFloat l with SpecFloat.S754_infinity _ => None | f => Some f end
  | _ => None
  end.
Definition dec_ptr {A} (zero : A) (dec : A → jval → option A) (old : option A) (v : jval) : option (option A) :=
  match v with VNull => Some None | _ => Some <$> dec (default zero old) v end.

(** A slice with the elements its array keeps beyond its length, which come back when it
    grows again. *)
Record slice (A : Type) := { backing : list A; slen : nat }.
Arguments backing {A} s.
Arguments slen {A} s.
Definition nil_slice {A} : slice A := {| backing := []; slen := 0 |}.
Definition elems {A} (s : slice A) : list A := take (slen s) (backing s).
Fixpoint dec_elems {A} (zero : A) (dec : A → jval → option A) (old : list A) (vs : list jval) : option (list A) :=
  match vs with
  | [] => Some old
  | v :: vs =>
      a ← dec (default zero (head old)) v;
      cons a <$> dec_elems zero dec (tail old) vs
  end.
Definition dec_slice {A} (zero : A) (dec : A → jval → option A) (old : slice A) (v : jval) : option (slice A) :=
  match v with
  | VNull | VArr [] => Some nil_slice
  | VArr vs => l ← dec_elems zero dec (backing old) vs; Some {| backing := l; slen := List.length vs |}
  | _ => None
  end.

(** Looks up the members of an object whose keys are known. *)
Ltac find_fields :=
  cbn [field submembers];
  repeat match goal with
    |- context [names_field ?l ?n ?k] => let b := eval vm_compute in (names_field l n k) in change (names_field l n k) with b
  end; cbv iota; cbn [mbind option_bind].

(** ** The scanner reads a text once *)
Lemma run_app x s t : run x (s +:+ t) =
  match run x s with Done v r => Done v (r +:+ t) | More x' => run x' t | Bad => Bad end.
Proof.
  revert x. induction s as [|c s IH]; intros x; [done|]. cbn [run String.append].
  destruct (step x c) as [x'|v|v|]; [apply IH|done|done|done].
Qed.
(** A value that is complete in the bytes before the limit is the one the whole body starts
    with: a body over the limit is refused or read as if it were under it, never cut. *)
Lemma Decode_limit {A} (dec : jval → option A) n b a : Decode dec (Some n) b = Body a → Decode dec None b = Body a.
Proof.
  unfold Decode, scan. pose proof (str_take_drop (Z.to_nat n) b) as Hb.
  destruct (run _ (str_take _ b)) as [v r|x|] eqn:E; [|destruct (n <? len b) eqn:Hn; [done|]|done].
  - rewrite <- Hb, run_app, E. done.
  - assert (str_drop (Z.to_nat n) b = "") as Hd.
    { destruct (str_drop (Z.to_nat n) b) as [|c r] eqn:Hd; [done|]. apply (f_equal String.length) in Hd.
      rewrite length_str_drop in Hd. unfold len in Hn. boolp. cbn in Hd. lia. }
    rewrite Hd, sapp_nil_r in Hb. rewrite Hb in *. by rewrite E.
Qed.
(** What the end of the bytes completes is complete whatever follows, unless it is a number. *)
Lemma at_eof_next x v c : at_eof x = Some v → (∃ l, v = VNum l) ∨ step x c = End v.
Proof.
  unfold at_eof. destruct x as [[] st]; cbn [step].
  - unfold begin_value. by cbn.
  - by cbn.
  - unfold begin_key. by cbn.
  - by cbn.
  - unfold in_string. destruct q; cbn; try done; repeat case_match; done.
  - unfold in_number, end_value. destruct q; cbn; try done; destruct st; cbn; (intros [= <-] || done); left; by eexists.
  - destruct todo as [|d todo]; [done|]. destruct (Ascii.eqb " " d); done.
  - unfold end_value. destruct st as [|f st]; cbn; [|done]. intros [= <-]. by right.
Qed.
(** The same under [io.LimitReader], which ends the input at the limit instead; only a body whose
    first bytes are blank is then taken for an empty one. *)
Lemma Decode_take {A} (dec : jval → option A) n b : (∀ l, dec (VNum l) = None) →
  (∀ a, Decode dec None (str_take n b) = Body a → Decode dec None b = Body a) ∧
  (Decode dec None (str_take n b) = NoBody → all_space (str_take n b) = true).
Proof.
  intros Hn. unfold Decode, scan. pose proof (str_take_drop n b) as Hb.
  assert (R : run (MBegin, []) b = run (MBegin, []) (str_take n b +:+ str_drop n b)) by (by rewrite Hb).
  rewrite R, run_app. clear R. destruct (run _ (str_take n b)) as [v r|x|] eqn:E; [| |done].
  - split; [done|]. unfold decoded. by destruct (dec v).
  - split.
    + intros a. destruct (at_eof x) as [v|] eqn:Ex; [|by destruct (all_space _)]. intros Ha.
      destruct (str_drop n b) as [|c t] eqn:Hd; cbn [run]; [by rewrite Ex|].
      destruct (at_eof_next x v c Ex) as [[l ->]|Hx]; [unfold decoded in Ha; by rewrite Hn in Ha|by rewrite Hx].
    + destruct (at_eof x) as [v|]; [unfold decoded; by destruct (dec v)|]. by destruct (all_space _).
Qed.

(** ** Decimals *)
Lemma digits_acc_app a s t : digits_acc a (s +:+ t) = z ← digits_acc a s; digits_acc z t.
Proof. revert a. induction s as [|c s IH]; intros a; [done|]. cbn. by destruct (is_digit c). Qed.
Lemma pretty_N_char_digit x : (x < 10)%N →
  is_digit (pretty_N_char x) = true ∧ digit_value (pretty_N_char x) = Z.of_N x ∧
  (x ≠ 0%N → char_between "1" "9" (pretty_N_char x) = true).
Proof.
  intros H. assert (Hin : x ∈ [0;1;2;3;4;5;6;7;8;9]%N) by (rewrite !elem_of_cons; lia).
  repeat (apply elem_of_cons in Hin as [->|Hin]; [by vm_compute|]). by apply elem_of_nil in Hin.
Qed.
(** Digits without a leading zero. *)
Lemma pretty_N_go_digits x s : (0 < x)%N → ∃ d u, pretty_N_go x s = String d (u +:+ s) ∧
  char_between "1" "9" d = true ∧ str_forall is_digit u = true ∧ digits_acc 0 (String d u) = Some (Z.of_N x).
Proof.
  revert s. induction (N.lt_wf_0 x) as [x _ IH]; intros s Hx. rewrite pretty_N_go_step by done.
  destruct (pretty_N_char_digit (x `mod` 10)) as (Hd & Hv & Hn); [by apply N.mod_lt|].
  pose proof (N.div_mod x 10 ltac:(done)) as Hdm. destruct (decide (x `div` 10 = 0)%N) as [E|E].
  - assert (x `mod` 10 = x)%N as Ex by lia. rewrite E, pretty_N_go_0. exists (pretty_N_char (x `mod` 10)), "".
    split; [done|]. split; [apply Hn; lia|]. split; [done|]. cbn [digits_acc]. rewrite Hd, Hv, Ex. done.
  - assert (0 < x `div` 10)%N as E' by (by apply N.neq_0_lt_0).
    destruct (IH (x `div` 10)%N (N.div_lt x 10 Hx ltac:(done)) (String (pretty_N_char (x `mod` 10)) s) E') as (d & u & H1 & H2 & H3 & H4).
    exists d, (u +:+ String (pretty_N_char (x `mod` 10)) ""). split; [|split; [done|split]].
    + rewrite H1, <- sapp_assoc. done.
    + rewrite str_forall_app, H3. cbn. by rewrite Hd.
    + change (String d (u +:+ ?t)) with (String d u +:+ t). rewrite digits_acc_app, H4. cbn [mbind option_bind digits_acc].
      rewrite Hd, Hv. f_equal. lia.
Qed.
(** The text of an integer: 0, or digits without a leading zero, behind a minus sign. *)
Lemma Itoa_shape z : ∃ sign d u, Itoa z = sign +:+ String d u ∧
  sign = (if z <? 0 then "-" else "") ∧ str_forall is_digit u = true ∧
  (d = "0"%char ∧ u = "" ∨ char_between "1" "9" d = true) ∧ digits_acc 0 (String d u) = Some (Z.abs z).
Proof.
  assert (Hpos : ∀ p, ∃ d u, pretty (N.pos p) = String d u ∧ char_between "1" "9" d = true ∧
    str_forall is_digit u = true ∧ digits_acc 0 (String d u) = Some (Z.pos p)).
  { intros p. destruct (pretty_N_go_digits (N.pos p) "") as (d & u & H1 & H2 & H3 & H4); [done|]. exists d, u.
    split; [|done]. by rewrite sapp_nil_r in H1. }
  destruct z as [|p|p].
  - exists "", "0"%char, "". repeat split. by left.
  - destruct (Hpos p) as (d & u & H1 & H2 & H3 & H4). exists "", d, u. repeat split; [exact H1|done|by right|done].
  - destruct (Hpos p) as (d & u & H1 & H2 & H3 & H4). exists "-", d, u. repeat split; [|done|by right|done].
    change (Itoa (Z.neg p)) with ("-" +:+ pretty (N.pos p)). by rewrite H1.
Qed.
Lemma Atoi_Itoa z : in64 z → Atoi (Itoa z) = (z, true).
Proof.
  intros [H1 H2]. destruct (Itoa_shape z) as (sign & d & u & -> & -> & _ & Hd & Hv).
  assert (Ha : Atoi ((if z <? 0 then "-" else "") +:+ String d u) =
    match digits_acc 0 (String d u) with None => (0, false) | Some n =>
      let v := if z <? 0 then - n else n in
      if v <? - 2 ^ 63 then (- 2 ^ 63, false) else if 2 ^ 63 - 1 <? v then (2 ^ 63 - 1, false) else (v, true) end).
  { destruct (z <? 0); cbn [String.append]; [done|]. clear Hv.
    destruct d as [[] [] [] [] [] [] [] []]; try done; exfalso; destruct Hd as [[Hd _]|Hd]; revert Hd; vm_compute; done. }
  rewrite Ha, Hv. cbv zeta. replace (if z <? 0 then - Z.abs z else Z.abs z) with z by (destruct (z <? 0) eqn:E; boolp; lia).
  destruct (z <? - 2 ^ 63) eqn:E1; boolp; [lia|]. destruct (2 ^ 63 - 1 <? z) eqn:E2; boolp; [lia|]. done.
Qed.

(** ** What [json.Marshal] wrote is read back *)
Fixpoint snocs (raw u : string) : string := match u with EmptyString => raw | String c u => snocs (snoc raw c) u end.
Lemma snocs_app raw u : snocs raw u = raw +:+ u.
Proof.
  revert raw. induction u as [|c u IH]; intros raw; cbn; [by rewrite sapp_nil_r|]. rewrite IH. unfold snoc. by rewrite <- sapp_assoc.
Qed.
Lemma run_ascii raw st a t : code a <? 128 = true →
  run (MStr InString raw, st) (esc_ascii a +:+ t) = run (MStr InString (raw +:+ esc_ascii a), st) t.
Proof. rewrite <- (snocs_app raw). destruct a as [[] [] [] [] [] [] [] []]; try discriminate; intros _; reflexivity. Qed.
Lemma run_high raw st a t : code a <? 128 = false →
  run (MStr InString raw, st) (String a t) = run (MStr InString (snoc raw a), st) t.
Proof.
  intros Ha. cbn [run step in_string]. destruct (Ascii.eqb a dquote) eqn:E1; [apply Ascii.eqb_eq in E1 as ->; discriminate Ha|].
  destruct (Ascii.eqb a backslash) eqn:E2; [apply Ascii.eqb_eq in E2 as ->; discriminate Ha|].
  destruct (code a <? 32) eqn:E3; [boolp; lia|done].
Qed.
Lemma run_bad raw st t : run (MStr InString raw, st) (bad_byte +:+ t) = run (MStr InString (raw +:+ bad_byte), st) t.
Proof. by rewrite <- (snocs_app raw). Qed.
(** The three bytes of a separator, by value. *)
Lemma separator_cases a b c : separator a b c = true → a = chr 226 ∧ b = chr 128 ∧ (c = chr 168 ∨ c = chr 169).
Proof.
  unfold separator, between. intros H. boolp. split; [by apply Z_of_byte_inj|]. split; [by apply Z_of_byte_inj|].
  assert (code c = 168 ∨ code c = 169) as [E|E] by lia; [left|right]; by apply Z_of_byte_inj.
Qed.
Lemma run_separator raw st c t : c = chr 168 ∨ c = chr 169 →
  run (MStr InString raw, st) (u_escape (8192 + 40 + (code c - 168)) +:+ t) =
  run (MStr InString (raw +:+ u_escape (8192 + 40 + (code c - 168))), st) t.
Proof. rewrite <- (snocs_app raw). by intros [-> | ->]. Qed.

Lemma run_escape raw st s t : run (MStr InString raw, st) (escape s +:+ t) = run (MStr InString (raw +:+ escape s), st) t.
Proof.
  revert raw. induction s as [|a r Ea IH|a b r Ea E2 IH|a b c r Ea E2 E3 IH|a b c d r Ea E2 E3 E4 IH|a r Ea _ E _ IH] using utf8_ind;
    intros raw.
  - cbn. by rewrite sapp_nil_r.
  - cbn [escape]. rewrite Ea, <- sapp_assoc, run_ascii, IH by done. by rewrite sapp_assoc.
  - cbn [escape]. rewrite Ea, E2. cbn [String.append]. rewrite run_high, run_high, IH by (done || by eapply two_high).
    unfold snoc. by rewrite <- !sapp_assoc.
  - cbn [escape]. rewrite Ea, E2, E3. destruct (three_high _ _ _ E3) as [Hb Hc]. rewrite <- sapp_assoc.
    destruct (separator a b c) eqn:Es.
    + destruct (separator_cases _ _ _ Es) as (_ & _ & Hc'). rewrite run_separator, IH by done. by rewrite sapp_assoc.
    + cbn [String.append]. rewrite !run_high, IH by done. unfold snoc. by rewrite <- !sapp_assoc.
  - cbn [escape]. rewrite Ea, E2, E3, E4. destruct (four_high _ _ _ _ E4) as (Hb & Hc & Hd).
    cbn [String.append]. rewrite !run_high, IH by done. unfold snoc. by rewrite <- !sapp_assoc.
  - rewrite E, <- sapp_assoc, run_bad, IH. by rewrite sapp_assoc.
Qed.

Lemma unquote_bytes_ascii n a t : code a <? 128 = true →
  unquote_bytes (S n) (esc_ascii a +:+ t) = String a (unquote_bytes n t).
Proof. destruct a as [[] [] [] [] [] [] [] []]; try discriminate; intros _; reflexivity. Qed.
Lemma unquote_bytes_separator n c t : c = chr 168 ∨ c = chr 169 →
  unquote_bytes (S n) (u_escape (8192 + 40 + (code c - 168)) +:+ t) =
  String (chr 226) (String (chr 128) (String c (unquote_bytes n t))).
Proof. by intros [-> | ->]. Qed.
Lemma unquote_bytes_bad n t : unquote_bytes (S n) (bad_byte +:+ t) = fffd +:+ unquote_bytes n t.
Proof. reflexivity. Qed.
Lemma unquote_bytes_escape s n : (String.length (escape s) ≤ n)%nat → unquote_bytes n (escape s) = sanitize s.
Proof.
  revert n. induction s as [|a r Ea IH|a b r Ea E2 IH|a b c r Ea E2 E3 IH|a b c d r Ea E2 E3 E4 IH|a r Ea _ E Es IH] using utf8_ind;
    intros n Hn.
  - by destruct n.
  - cbn [sanitize escape] in *. rewrite Ea in *. assert (1 ≤ String.length (esc_ascii a))%nat as H1.
    { clear. destruct a as [[] [] [] [] [] [] [] []]; vm_compute; lia. }
    rewrite slength_app in Hn. destruct n as [|n]; [lia|]. rewrite unquote_bytes_ascii, IH by (done || lia). done.
  - cbn [sanitize escape] in *. rewrite Ea, E2 in *. destruct n as [|n]; [cbn in Hn; lia|]. cbn [unquote_bytes].
    rewrite Ea, E2, IH by (cbn in Hn; lia). by destruct (Ascii.eqb_spec a backslash) as [->|].
  - cbn [sanitize escape] in *. rewrite Ea, E2, E3 in *. rewrite slength_app in Hn. destruct (separator a b c) eqn:Es.
    + destruct (separator_cases _ _ _ Es) as (-> & -> & Hc).
      change (String.length (u_escape _)) with 6%nat in Hn. destruct n as [|n]; [lia|].
      rewrite unquote_bytes_separator, IH by (done || lia). done.
    + destruct n as [|n]; [cbn in Hn; lia|]. cbn [String.append unquote_bytes].
      rewrite Ea, E2, E3, IH by (cbn in Hn; lia). by destruct (Ascii.eqb_spec a backslash) as [->|].
  - cbn [sanitize escape] in *. rewrite Ea, E2, E3, E4 in *. destruct n as [|n]; [cbn in Hn; lia|]. cbn [unquote_bytes].
    rewrite Ea, E2, E3, E4, IH by (cbn in Hn; lia). by destruct (Ascii.eqb_spec a backslash) as [->|].
  - rewrite E, Es in *. rewrite slength_app in Hn. change (String.length bad_byte) with 6%nat in Hn.
    destruct n as [|n]; [lia|]. rewrite unquote_bytes_bad, IH by lia. done.
Qed.
Lemma run_jquote raw st s t : raw = "" → run (MStr InString raw, st) (escape s +:+ String dquote t) =
  match t with EmptyString => More (MEnd (VStr (sanitize s)), st) | _ => run (MEnd (VStr (sanitize s)), st) t end.
Proof.
  intros ->. rewrite run_escape. cbn [String.append run step in_string]. change (Ascii.eqb dquote dquote) with true. cbv iota.
  unfold unquoted. rewrite unquote_bytes_escape by done. by destruct t.
Qed.

Fixpoint value_of (j : json) : jval :=
  match j with
  | JNull => VNull
  | JStr s => VStr (sanitize s)
  | JInt z => VNum (Itoa z)
  | JNum lit => VNum lit
  | JBool b => VBool b
  | JArr vs => VArr (map value_of vs)
  | JObj fs => VObj (map (λ kv, (sanitize kv.1, value_of kv.2)) fs)
  end.
Fixpoint nesting (j : json) : Z :=
  match j with
  | JArr vs => 1 + foldr Z.max 0 (map nesting vs)
  | JObj fs => 1 + foldr Z.max 0 (map (λ kv, nesting kv.2) fs)
  | _ => 0
  end.
Section json_induction.
Context (P : json → Prop) (Pnull : P JNull) (Pstr : ∀ s, P (JStr s)) (Pint : ∀ z, P (JInt z)) (Pnum : ∀ l, P (JNum l)) (Pbool : ∀ b, P (JBool b)).
Context (Parr : ∀ vs, Forall P vs → P (JArr vs)) (Pobj : ∀ fs, Forall (λ kv : string * json, P kv.2) fs → P (JObj fs)).
Lemma json_nested_ind : ∀ j, P j.
Proof.
  fix IH 1. intros [|s|z|l|b|vs|fs]; [exact Pnull|apply Pstr|apply Pint|apply Pnum|apply Pbool|apply Parr|apply Pobj].
  - induction vs as [|v vs IHvs]; constructor; [apply IH|exact IHvs].
  - induction fs as [|[k v] fs IHfs]; constructor; [apply IH|exact IHfs].
Qed.
End json_induction.

(** What follows a value inside a container. *)
Definition delim (c : ascii) : Prop := c = ","%char ∨ c = "]"%char ∨ c = "}"%char.
Lemma run_digits lit st u t : str_forall is_digit u = true → run (MNum Int1 lit, st) (u +:+ t) = run (MNum Int1 (lit +:+ u), st) t.
Proof.
  revert lit. induction u as [|c u IH]; intros lit; [by rewrite sapp_nil_r|]. cbn [str_forall String.append run step in_number].
  intros [-> Hu]%andb_true_iff. rewrite (IH _ Hu). unfold snoc. by rewrite <- sapp_assoc.
Qed.
Lemma run_number_end q lit st c t : q = Int1 ∨ q = Zero → delim c →
  run (MNum q lit, st) (String c t) = run (MEnd (VNum lit), st) (String c t).
Proof. intros [-> | ->] [-> |[-> | ->]]; reflexivity. Qed.
Lemma run_number z st c t : delim c → run (MBegin, st) (Itoa z +:+ String c t) = run (MEnd (VNum (Itoa z)), st) (String c t).
Proof.
  intros Hc. destruct (Itoa_shape z) as (sign & d & u & -> & -> & Hu & Hd & _).
  destruct Hd as [[-> ->]|Hd].
  - destruct (z <? 0).
    + exact (run_number_end Zero "-0" st c t (or_intror eq_refl) Hc).
    + exact (run_number_end Zero "0" st c t (or_intror eq_refl) Hc).
  - assert (H : ∀ x : mode, x = MNum Neg "-" ∨ x = MBegin → run (x, st) (String d (u +:+ String c t)) =
      run (MNum Int1 (match x with MBegin => String d "" | _ => snoc "-" d end), st) (u +:+ String c t)).
    { intros x Hx. destruct d as [[] [] [] [] [] [] [] []]; try discriminate Hd; destruct Hx as [-> | ->]; reflexivity. }
    destruct (z <? 0); cbn [String.append].
    + change (run (MBegin, st) (String "-" (String d (u +:+ String c t)))) with (run (MNum Neg "-", st) (String d (u +:+ String c t))).
      rewrite H, run_digits, run_number_end by auto. done.
    + rewrite H, run_digits, run_number_end by auto. done.
Qed.
(** A number by its text: what the scanner reads from its first to its last character. *)
Definition complete (q : innumber) : bool := match q with Int1 | Zero | Dot0 | Exp0 => true | _ => false end.
Definition number_text (lit : string) : bool :=
  match lit with
  | EmptyString => false
  | String c r =>
      match begin_value c [] with
      | Next (MNum q l, _) =>
          match run (MNum q l, []) r with More (MNum q l, []) => complete q && String.eqb l lit | _ => false end
      | _ => false
      end
  end.
Lemma run_number_stack st s q l q' l' : run (MNum q l, []) s = More (MNum q' l', []) → run (MNum q l, st) s = More (MNum q' l', st).
Proof.
  revert q l. induction s as [|c s IH]; intros q l; [by intros [= <- <-]|].
  cbn [run]. destruct (step (MNum q l, []) c) as [[m st1]|v|v|] eqn:E; [|done..].
  assert (∃ q1, m = MNum q1 (snoc l c) ∧ st1 = [] ∧ step (MNum q l, st) c = Next (MNum q1 (snoc l c), st)) as (q1 & -> & -> & ->).
  { revert E. cbn [step]. unfold in_number. cbn [end_value]. destruct q; repeat case_match; intros [= <- <-]; eauto. }
  apply IH.
Qed.
Lemma complete_end q lit st c t : complete q = true → delim c → run (MNum q lit, st) (String c t) = run (MEnd (VNum lit), st) (String c t).
Proof. intros Hq [-> |[-> | ->]]; destruct q; try discriminate Hq; reflexivity. Qed.
Lemma begin_number c x q l : begin_value c [] = Next (MNum q l, x) →
  is_space c = false ∧ Ascii.eqb c "]" = false ∧ ∀ st, begin_value c st = Next (MNum q l, st).
Proof.
  unfold begin_value, push. intros H. destruct (is_space c); [done|]. split; [done|].
  assert (Ascii.eqb c "]" = false) as ->.
  { destruct (Ascii.eqb_spec c "]") as [->|]; [discriminate H|done]. }
  split; [done|]. intros st. revert H. repeat (destruct (Ascii.eqb c _); [by intros [= <- <-]|]).
  by destruct (char_between "1" "9" c); [intros [= <- <-]|].
Qed.
Lemma number_cases lit : number_text lit = true → ∃ c r q l q', lit = String c r ∧ is_space c = false ∧ Ascii.eqb c "]" = false ∧
  (∀ st, begin_value c st = Next (MNum q l, st)) ∧ run (MNum q l, []) r = More (MNum q' lit, []) ∧ complete q' = true.
Proof.
  unfold number_text. destruct lit as [|c r]; [done|]. destruct (begin_value c []) as [[m x]|v|v|] eqn:E; [|done..].
  destruct m; try done. destruct (begin_number _ _ _ _ E) as (H1 & H2 & H3).
  destruct (run _ r) as [v t|[m st]|] eqn:Er; [done| |done]. destruct m; try done. destruct st; [|done].
  intros [Hq ->%String.eqb_eq]%andb_true_iff. by eexists _, _, _, _, _.
Qed.
Lemma run_literal lit st c t : number_text lit = true → delim c →
  run (MBegin, st) (lit +:+ String c t) = run (MEnd (VNum lit), st) (String c t).
Proof.
  intros (d & r & q & l & q' & Hl & _ & _ & Hb & Hr & Hq)%number_cases Hc. rewrite Hl at 1. cbn [String.append run step].
  rewrite Hb, run_app, (run_number_stack st _ _ _ _ _ Hr). by apply complete_end.
Qed.
Definition readable : json → bool := numbers number_text.
Lemma run_begin_or_end j st t : readable j = true → run (MBeginOrEnd, st) (marshal j +:+ t) = run (MBegin, st) (marshal j +:+ t).
Proof.
  destruct j as [|s|z|lit|[]|vs|fs]; try reflexivity; intros Hj; cbn [marshal].
  - destruct (Itoa_shape z) as (sign & d & u & -> & -> & _ & Hd & _). destruct (z <? 0); [reflexivity|].
    destruct d as [[] [] [] [] [] [] [] []]; try reflexivity; exfalso; destruct Hd as [[Hd _]|Hd]; revert Hd; vm_compute; done.
  - destruct (number_cases _ Hj) as (c & r & _ & _ & _ & -> & H1 & H2 & _). cbn [String.append run step]. by rewrite H1, H2.
Qed.
(** A container is complete with its last character. *)
Definition finish (v : jval) (st : list frame) (t : string) : scanned :=
  match st with [] => Done v t | _ => run (MEnd v, st) t end.
Lemma finish_more v st c t : finish v st (String c t) = run (MEnd v, st) (String c t).
Proof. by destruct st. Qed.

Definition reads (j : json) : Prop := ∀ st c t, delim c → Z.of_nat (List.length st) + nesting j ≤ maxNestingDepth →
  run (MBegin, st) (marshal j +:+ String c t) = run (MEnd (value_of j), st) (String c t).
(** After a value inside an array or an object. *)
Lemma run_array_more v vs st t : run (MEnd v, FArr vs :: st) (String "," t) = run (MBegin, FArr (v :: vs) :: st) t.
Proof. reflexivity. Qed.
Lemma run_array_end v vs st t : run (MEnd v, FArr vs :: st) (String "]" t) = finish (VArr (rev (v :: vs))) st t.
Proof. by destruct st. Qed.
Lemma run_object_more v fs k st t : run (MEnd v, FVal fs k :: st) (String "," t) = run (MKey, FKey ((k, v) :: fs) :: st) t.
Proof. reflexivity. Qed.
Lemma run_object_end v fs k st t : run (MEnd v, FVal fs k :: st) (String "}" t) = finish (VObj (rev ((k, v) :: fs))) st t.
Proof. by destruct st. Qed.
Lemma run_key m fs st k t : m = MKey ∨ m = MKeyOrEnd →
  run (m, FKey fs :: st) (jquote k +:+ String ":" t) = run (MBegin, FVal fs (sanitize k) :: st) t.
Proof.
  intros Hm. unfold jquote. cbn [String.append]. rewrite <- sapp_assoc.
  transitivity (run (MStr InString "", FKey fs :: st) (escape k +:+ String dquote (String ":" t))); [by destruct Hm as [-> | ->]|].
  by rewrite run_jquote.
Qed.

(** The room [st] leaves for values nested in a container. *)
Definition room (st : list frame) (ns : list Z) : Prop := Z.of_nat (List.length st) + 1 + foldr Z.max 0 ns ≤ maxNestingDepth.
Lemma room_cons st f n ns : room st (n :: ns) → Z.of_nat (List.length (f :: st)) + n ≤ maxNestingDepth ∧ room st ns.
Proof. unfold room. cbn [foldr List.length]. lia. Qed.
Lemma run_elements vs v acc st t : Forall reads (v :: vs) → room st (map nesting (v :: vs)) →
  run (MBegin, FArr acc :: st) (Strings.Join (map marshal (v :: vs)) "," +:+ String "]" t) =
  finish (VArr (rev acc ++ map value_of (v :: vs))) st t.
Proof.
  revert v acc. induction vs as [|v' vs IH]; intros v acc [Hv Hf]%Forall_cons [Hn Hr]%(room_cons _ (FArr acc)).
  - cbn [map Strings.Join]. rewrite Hv by (unfold delim; auto). by rewrite run_array_end.
  - change (Strings.Join (map marshal (v :: v' :: vs)) ",") with (marshal v +:+ "," +:+ Strings.Join (map marshal (v' :: vs)) ",").
    rewrite <- !sapp_assoc. change ("," +:+ ?x) with (String "," x).
    rewrite Hv, run_array_more, IH by (done || unfold delim; auto). cbn [rev map]. by rewrite <- app_assoc.
Qed.
Definition member_text (kv : string * json) : string := jquote kv.1 +:+ ":" +:+ marshal kv.2.
Definition member_value (kv : string * json) : string * jval := (sanitize kv.1, value_of kv.2).
Lemma run_members fs kv m acc st t : m = MKey ∨ m = MKeyOrEnd → Forall (λ kv, reads kv.2) (kv :: fs) →
  room st (map (λ kv, nesting kv.2) (kv :: fs)) →
  run (m, FKey acc :: st) (Strings.Join (map member_text (kv :: fs)) "," +:+ String "}" t) =
  finish (VObj (rev acc ++ map member_value (kv :: fs))) st t.
Proof.
  revert kv m acc. induction fs as [|kv' fs IH]; intros kv m acc Hm [Hv Hf]%Forall_cons [Hn Hr]%(room_cons _ (FKey acc)).
  - cbn [map Strings.Join]. unfold member_text at 1. rewrite <- !sapp_assoc. change (":" +:+ ?x) with (String ":" x).
    rewrite run_key, Hv by (done || unfold delim; auto). by rewrite run_object_end.
  - change (Strings.Join (map member_text (kv :: kv' :: fs)) ",")
      with (member_text kv +:+ "," +:+ Strings.Join (map member_text (kv' :: fs)) ",").
    unfold member_text at 1. rewrite <- !sapp_assoc. change (":" +:+ ?x) with (String ":" x). change ("," +:+ ?x) with (String "," x).
    rewrite run_key, Hv, run_object_more, IH by (done || unfold delim; auto). cbn [rev map]. by rewrite <- app_assoc.
Qed.
Lemma marshal_object fs : marshal (JObj fs) = "{" +:+ Strings.Join (map member_text fs) "," +:+ "}".
Proof. reflexivity. Qed.
Lemma push_room m f st ns : room st ns → push m f st = Next (m, f :: st).
Proof.
  unfold room, push. intros H. destruct (Z.leb_spec (Z.of_nat (List.length (f :: st))) maxNestingDepth); [done|].
  assert (0 ≤ foldr Z.max 0 ns) by (clear; induction ns; cbn; lia). cbn [List.length] in *. lia.
Qed.
Lemma run_object fs st t : Forall (λ kv, reads kv.2) fs → room st (map (λ kv, nesting kv.2) fs) →
  run (MBegin, st) (marshal (JObj fs) +:+ t) = finish (value_of (JObj fs)) st t.
Proof.
  intros Hf Hr. rewrite marshal_object, <- !sapp_assoc. change ("}" +:+ t) with (String "}" t).
  change ("{" +:+ ?x) with (String "{" x). cbn [run step begin_value]. change (begin_value "{" st) with (push MKeyOrEnd (FKey []) st).
  rewrite (push_room _ _ _ _ Hr). destruct fs as [|kv fs]; [by destruct st|]. rewrite run_members by auto. done.
Qed.
Lemma run_array vs st t : Forall reads vs → readable (JArr vs) = true → room st (map nesting vs) →
  run (MBegin, st) (marshal (JArr vs) +:+ t) = finish (value_of (JArr vs)) st t.
Proof.
  intros Hf Hj Hr. cbn [marshal]. rewrite <- !sapp_assoc. change ("]" +:+ t) with (String "]" t).
  change ("[" +:+ ?x) with (String "[" x). cbn [run step begin_value]. change (begin_value "[" st) with (push MBeginOrEnd (FArr []) st).
  rewrite (push_room _ _ _ _ Hr). destruct vs as [|v vs]; [by destruct st|].
  transitivity (run (MBegin, FArr [] :: st) (Strings.Join (map marshal (v :: vs)) "," +:+ String "]" t)); [|by rewrite run_elements].
  apply andb_true_iff in Hj as [Hv _]. destruct vs; cbn [map Strings.Join]; rewrite <- ?sapp_assoc; by apply run_begin_or_end.
Qed.
Lemma all_read j : readable j = true → reads j.
Proof.
  induction j as [|s|z|lit|b|vs IH|fs IH] using json_nested_ind; intros Hj st c t Hc Hn.
  - by destruct Hc as [-> |[-> | ->]].
  - cbn [marshal]. unfold jquote. cbn [String.append]. rewrite <- sapp_assoc.
    transitivity (run (MStr InString "", st) (escape s +:+ String dquote (String c t))); [done|]. by rewrite run_jquote.
  - by apply run_number.
  - by apply run_literal.
  - destruct b; by destruct Hc as [-> |[-> | ->]].
  - rewrite run_array, finish_more; [done| |done|].
    + clear Hn. induction IH as [|v vs Hv _ IHvs]; constructor; apply andb_true_iff in Hj as [H1 H2]; [by apply Hv|by apply IHvs].
    + unfold room. cbn [nesting] in Hn. lia.
  - rewrite run_object, finish_more; [done| |].
    + clear Hn. induction IH as [|v fs Hv _ IHfs]; constructor; apply andb_true_iff in Hj as [H1 H2]; [by apply Hv|by apply IHfs].
    + unfold room. cbn [nesting] in Hn. lia.
Qed.
(** An object that was marshalled is read back whole, whatever follows. *)
Lemma scan_object fs t : readable (JObj fs) = true → nesting (JObj fs) ≤ maxNestingDepth →
  scan (marshal (JObj fs) +:+ t) = Done (value_of (JObj fs)) t.
Proof.
  intros Hj Hn. unfold scan. rewrite run_object; [done| |unfold room; cbn in *; lia].
  apply Forall_forall. intros kv Hkv. apply all_read. by apply (proj1 (forallb_forall _ _) Hj), list_elem_of_In.
Qed.
Lemma Decode_object {A} (dec : jval → option A) fs t : readable (JObj fs) = true → nesting (JObj fs) ≤ maxNestingDepth →
  Decode dec None (marshal (JObj fs) +:+ t) = decoded dec (value_of (JObj fs)).
Proof. intros Hj Hn. unfold Decode. by rewrite scan_object. Qed.
Lemma Unmarshal_object {A} (dec : jval → option A) fs t : readable (JObj fs) = true → nesting (JObj fs) ≤ maxNestingDepth →
  all_space t = true → Unmarshal dec (marshal (JObj fs) +:+ t) = dec (value_of (JObj fs)).
Proof. intros Hj Hn Ht. unfold Unmarshal. by rewrite scan_object, Ht. Qed.

Lemma Unmarshal_marshal {A} (dec : jval → option A) fs : readable (JObj fs) = true → nesting (JObj fs) ≤ maxNestingDepth →
  Unmarshal dec (marshal (JObj fs)) = dec (value_of (JObj fs)).
Proof. intros Hj Hn. rewrite <- (Unmarshal_object dec fs "") by done. by rewrite sapp_nil_r. Qed.

(** A slice of values that are read back one by one. *)
Lemma dec_elems_read {A} (zero : A) (dec : A → jval → option A) (f : A → jval) vs :
  (∀ a, a ∈ vs → dec zero (f a) = Some a) → dec_elems zero dec [] (map f vs) = Some vs.
Proof.
  induction vs as [|a vs IH]; intros H; [done|]. cbn [map dec_elems head tail default from_option].
  rewrite (H a) by apply elem_of_cons, or_introl, eq_refl. cbn [mbind option_bind].
  rewrite IH; [done|]. intros b Hb. apply H. by right.
Qed.
Lemma dec_slice_read {A} (zero : A) (dec : A → jval → option A) (f : A → jval) vs :
  (∀ a, a ∈ vs → dec zero (f a) = Some a) → elems <$> dec_slice zero dec nil_slice (VArr (map f vs)) = Some vs.
Proof.
  intros H. destruct vs as [|a vs]; [done|]. change (VArr (map f (a :: vs))) with (VArr (f a :: map f vs)).
  cbn [dec_slice backing nil_slice]. change (f a :: map f vs) with (map f (a :: vs)). rewrite dec_elems_read by done. cbn [mbind option_bind fmap option_fmap option_map].
  unfold elems. cbn [backing slen]. rewrite length_map. by rewrite firstn_all.
Qed.
Lemma dec_slice_nil {A} (zero : A) (dec : A → jval → option A) old : elems <$> dec_slice zero dec old VNull = Some [].
Proof. reflexivity. Qed.
Lemma dec_int_read old z : in64 z → dec_int old (VNum (Itoa z)) = Some z.
Proof. intros H. cbn. by rewrite Atoi_Itoa. Qed.
(** The text of a float64 that is read back as that float. *)
Definition float_reads (fmt : float → string) (f : float) : Prop :=
  number_text (fmt f) = true ∧ ∀ old, dec_float old (VNum (fmt f)) = Some f.
Lemma dec_string_read old s : valid_utf8 s → dec_string old (VStr (sanitize s)) = Some s.
Proof. intros H. cbn. rewrite sanitize_valid; [done|by destruct (valid_utf8 s)]. Qed.
End JSON.
