(* ===== verification/GoUnmarshalSpec.v ===== *)
(** * encoding/json: what can be read

    Whatever the bytes, every string [json.Unmarshal] stores is valid UTF-8, escapes and
    surrogates included, and every integer is an [int64]: an invariant of the scanner,
    carried through the decoders. *)

From S2P Require Import Prelude GoLib GoStrings GoFloat GoJSON GoUnmarshal.
Import JSON.

(** ** Unescaped text is UTF-8 *)
Lemma valid_app p s : valid_utf8 p = true → valid_utf8 s = true → valid_utf8 (p +:+ s) = true.
Proof.
  intros Hp Hs. revert Hp.
  induction p as [|a r Ea IH|a b r Ea E2 IH|a b c r Ea E2 E3 IH|a b c d r Ea E2 E3 E4 IH|a r Ea E _ _ _] using utf8_ind;
    [done|..|congruence]; cbn [valid_utf8 String.append]; by rewrite Ea, ?E2, ?E3, ?E4.
Qed.
Lemma code_byte z : 0 ≤ z < 256 → code (byte z) = z.
Proof. intros H. unfold byte. rewrite Z_of_byte_of_Z. by apply Z.mod_small. Qed.
Lemma two_valid a b : 194 ≤ code a < 224 → 128 ≤ code b < 192 → valid_utf8 (String a (String b "")) = true.
Proof.
  intros Ha Hb. cbn [valid_utf8]. unfold two, cont, between.
  rewrite (proj2 (Z.ltb_ge _ _)), !(proj2 (Z.leb_le _ _)) by lia. done.
Qed.
Lemma three_valid a b c : 224 ≤ code a < 240 → (if code a =? 224 then 160 else 128) ≤ code b ≤ (if code a =? 237 then 159 else 191) →
  128 ≤ code c < 192 → valid_utf8 (String a (String b (String c ""))) = true.
Proof.
  intros Ha Hb Hc. cbn [valid_utf8]. unfold two, three, cont, between.
  rewrite (proj2 (Z.ltb_ge _ _)), (proj2 (Z.leb_gt (code a) 223)), andb_false_r by lia. cbn [andb].
  destruct (Z.eqb_spec (code a) 224), (Z.eqb_spec (code a) 237); rewrite !(proj2 (Z.leb_le _ _)) by lia; done.
Qed.
Lemma four_valid a b c d : 240 ≤ code a ≤ 244 → (if code a =? 240 then 144 else 128) ≤ code b ≤ (if code a =? 244 then 143 else 191) →
  128 ≤ code c < 192 → 128 ≤ code d < 192 → valid_utf8 (String a (String b (String c (String d "")))) = true.
Proof.
  intros Ha Hb Hc Hd. cbn [valid_utf8]. unfold two, three, four, cont, between.
  rewrite (proj2 (Z.ltb_ge _ _)), (proj2 (Z.leb_gt (code a) 223)), (proj2 (Z.leb_gt (code a) 239)), !andb_false_r by lia. cbn [andb].
  rewrite (proj2 (Z.eqb_neq (code a) 224)), (proj2 (Z.eqb_neq (code a) 237)) by lia. cbn [andb].
  destruct (Z.eqb_spec (code a) 240), (Z.eqb_spec (code a) 244); rewrite !(proj2 (Z.leb_le _ _)) by lia; done.
Qed.
(** The digits of base 64. *)
Lemma digit64 n : 0 ≤ n mod 64 < 64.
Proof. by apply Z.mod_pos_bound. Qed.
Lemma div64 n k : 0 < k → n / k = 64 * (n / (k * 64)) + n / k mod 64.
Proof. intros H. rewrite <- Z.div_div by lia. apply Z.div_mod. lia. Qed.
Lemma div_between n k lo hi : 0 < k → lo * k ≤ n < hi * k → lo ≤ n / k < hi.
Proof. intros Hk Hn. split; [apply Z.div_le_lower_bound|apply Z.div_lt_upper_bound]; lia. Qed.
Lemma utf8_valid n : 0 ≤ n < 65536 → is_surrogate n = false → valid_utf8 (utf8 n) = true.
Proof.
  intros Hn Hs. unfold utf8. pose proof (digit64 n). pose proof (digit64 (n / 64)).
  destruct (Z.ltb_spec n 128); [cbn [valid_utf8]; rewrite code_byte by lia; by rewrite (proj2 (Z.ltb_lt _ _))|].
  destruct (Z.ltb_spec n 2048).
  - pose proof (div_between n 64 2 32). apply two_valid; rewrite code_byte; lia.
  - pose proof (div_between n 4096 0 16). pose proof (div64 n 64 eq_refl) as E. change (64 * 64) with 4096 in E.
    pose proof (div_between n 64 32 1024). assert (n / 64 < 864 ∨ 896 ≤ n / 64) as Hd.
    { unfold is_surrogate in Hs. destruct (Z.leb_spec 55296 n); [right|left; by apply (div_between n 64 0 864); lia].
      destruct (Z.ltb_spec n 57344); [done|]. apply (div_between n 64 896 1024); lia. }
    apply three_valid; rewrite !code_byte; try lia.
    destruct (Z.eqb_spec (224 + n / 4096) 224), (Z.eqb_spec (224 + n / 4096) 237); lia.
Qed.
Lemma encode_pair_valid n : 65536 ≤ n < 1114112 → valid_utf8 (encode_rune n) = true.
Proof.
  intros Hn. unfold encode_rune. rewrite (proj2 (Z.ltb_ge _ _)) by lia.
  pose proof (digit64 (n / 4096)). pose proof (digit64 (n / 64)). pose proof (digit64 n).
  pose proof (div_between n 262144 0 5). pose proof (div64 n 4096 eq_refl) as E. change (4096 * 64) with 262144 in E.
  pose proof (div_between n 4096 16 272). apply four_valid; rewrite !code_byte; try lia.
  destruct (Z.eqb_spec (240 + n / 262144) 240), (Z.eqb_spec (240 + n / 262144) 244); lia.
Qed.
Lemma encode_rune_valid n : 0 ≤ n < 65536 → is_surrogate n = false → valid_utf8 (encode_rune n) = true.
Proof. intros Hn Hs. unfold encode_rune. assert (n <? 65536 = true) as -> by lia. by apply utf8_valid. Qed.
Lemma surrogate_pair_range hi lo p : surrogate_pair hi lo = Some p → 65536 ≤ p < 1114112.
Proof. unfold surrogate_pair. case_match; [|done]. intros [= <-]. boolp. lia. Qed.
Lemma hex_value_range c : is_hex c = true → 0 ≤ hex_value c < 16.
Proof.
  revert c. assert (H : ∀ c, negb (is_hex c) || ((0 <=? hex_value c) && (hex_value c <? 16)) = true).
  { apply all_ascii. vm_compute. reflexivity. }
  intros c Hc. specialize (H c). rewrite Hc in H. cbn [negb orb] in H. boolp. lia.
Qed.
Lemma getu4_range s n r : getu4 s = Some (n, r) → 0 ≤ n < 65536.
Proof.
  unfold getu4. repeat (case_match; try done). intros [= <- _]. boolp.
  repeat match goal with H : is_hex _ = true |- _ => apply hex_value_range in H end. lia.
Qed.
Lemma unescape_ascii e c : unescape_char e = Some c → code c <? 128 = true.
Proof.
  revert c. assert (H : ∀ e, match unescape_char e with Some c => code c <? 128 | None => true end = true).
  { apply all_ascii. vm_compute. reflexivity. }
  intros c Hc. specialize (H e). by rewrite Hc in H.
Qed.
Lemma valid_ascii c s : code c <? 128 = true → valid_utf8 s = true → valid_utf8 (String c s) = true.
Proof. intros Hc Hs. cbn [valid_utf8]. by rewrite Hc. Qed.
Lemma fffd_valid s : valid_utf8 s = true → valid_utf8 (fffd +:+ s) = true.
Proof. by apply valid_app. Qed.
Create HintDb utf8.
#[export] Hint Resolve valid_ascii fffd_valid valid_app encode_rune_valid encode_pair_valid surrogate_pair_range
  getu4_range unescape_ascii : utf8.
Lemma unquote_bytes_valid n s : valid_utf8 (unquote_bytes n s) = true.
Proof.
  revert s. induction n as [|n IH]; intros [|a r]; [done..|]. cbn [unquote_bytes].
  destruct (Ascii.eqb a backslash).
  - destruct (getu4 (String a r)) as [[u r']|] eqn:Eu.
    + destruct (is_surrogate u) eqn:Es; [|eauto with utf8].
      destruct (getu4 r') as [[u' r'']|]; [|eauto with utf8]. destruct (surrogate_pair u u') eqn:Ep; eauto with utf8.
    + destruct r as [|e r]; [done|]. destruct (unescape_char e) eqn:Ee; eauto with utf8.
  - destruct (code a <? 128) eqn:Ea; [eauto with utf8|]. destruct r as [|b r2]; [eauto with utf8|].
    destruct (two a b) eqn:E2; [cbn [valid_utf8]; by rewrite Ea, E2|]. destruct r2 as [|c r3]; [eauto with utf8|].
    destruct (three a b c) eqn:E3; [cbn [valid_utf8]; by rewrite Ea, E2, E3|]. destruct r3 as [|d r4]; [eauto with utf8|].
    destruct (four a b c d) eqn:E4; [cbn [valid_utf8]; by rewrite Ea, E2, E3, E4, IH|eauto with utf8].
Qed.

(** ** An invariant of the scanner *)
Fixpoint textual (v : jval) : bool :=
  match v with
  | VStr s => valid_utf8 s
  | VArr vs => forallb textual vs
  | VObj fs => forallb (λ kv, valid_utf8 kv.1 && textual kv.2) fs
  | _ => true
  end.
Definition members_text (fs : list (string * jval)) : bool := forallb (λ kv, valid_utf8 kv.1 && textual kv.2) fs.
Definition frame_text (f : frame) : bool :=
  match f with
  | FArr vs => forallb textual vs
  | FKey fs => members_text fs
  | FVal fs k => members_text fs && valid_utf8 k
  end.
Definition mode_text (m : mode) : bool := match m with MLit _ v | MEnd v => textual v | _ => true end.
Definition cfg_text (x : cfg) : bool := mode_text x.1 && forallb frame_text x.2.
Definition stepped_text (r : stepped) : bool :=
  match r with Next x => cfg_text x | Close v | End v => textual v | Fail => true end.
Lemma forallb_rev {A} (p : A → bool) l : forallb p (rev l) = forallb p l.
Proof.
  induction l as [|a l IH]; [done|]. cbn [rev forallb]. rewrite forallb_app, IH. cbn [forallb]. rewrite andb_true_r. apply andb_comm.
Qed.
Lemma closed_text v st : textual v = true → forallb frame_text st = true → stepped_text (closed v st) = true.
Proof. intros Hv Hs. destruct st; [done|]. unfold closed, stepped_text, cfg_text. cbn [fst snd mode_text]. by rewrite Hv, Hs. Qed.
Lemma push_text m f st : mode_text m = true → frame_text f = true → forallb frame_text st = true → stepped_text (push m f st) = true.
Proof. intros Hm Hf Hs. unfold push. case_match; [|done].
  unfold stepped_text, cfg_text. cbn [fst snd forallb]. by rewrite Hm, Hf, Hs. Qed.
Lemma begin_value_text c st : forallb frame_text st = true → stepped_text (begin_value c st) = true.
Proof.
  intros Hs. unfold begin_value.
  repeat match goal with |- stepped_text (if ?b then _ else _) = true => destruct b end; done || by apply push_text.
Qed.
Lemma begin_key_text c st : forallb frame_text st = true → stepped_text (begin_key c st) = true.
Proof. intros Hs. unfold begin_key. by repeat case_match. Qed.
Ltac text_parts := unfold stepped_text, cfg_text; cbn [fst snd mode_text forallb frame_text]; repeat (apply andb_true_iff; split); try done.
Lemma members_rev fs : members_text (rev fs) = members_text fs.
Proof. apply forallb_rev. Qed.
Lemma members_cons k v fs : members_text ((k, v) :: fs) = valid_utf8 k && textual v && members_text fs.
Proof. done. Qed.
Lemma end_value_text v c st : textual v = true → forallb frame_text st = true → stepped_text (end_value v c st) = true.
Proof.
  intros Hv Hs. unfold end_value. destruct st as [|f st]; [done|]. pose proof Hs as Hs'. cbn [forallb] in Hs'.
  apply andb_true_iff in Hs' as [Hf Hs']. destruct (is_space c); [text_parts|]. destruct f as [vs|fs|fs k]; cbn [frame_text] in Hf.
  - destruct (Ascii.eqb c ","); [text_parts|]. destruct (Ascii.eqb c "]"); [|done].
    apply closed_text; [|done]. change (forallb textual (rev (v :: vs)) = true). rewrite forallb_rev. cbn [forallb]. by rewrite Hv, Hf.
  - destruct v; try done. destruct (Ascii.eqb c ":"); [|done]. text_parts.
  - apply andb_true_iff in Hf as [Hf Hk].
    assert (Hm : members_text ((k, v) :: fs) = true) by (rewrite members_cons; by rewrite Hk, Hv, Hf).
    destruct (Ascii.eqb c ","); [text_parts|]. destruct (Ascii.eqb c "}"); [|done].
    apply closed_text; [|done]. change (members_text (rev ((k, v) :: fs)) = true). by rewrite members_rev.
Qed.
Lemma step_text x c : cfg_text x = true → stepped_text (step x c) = true.
Proof.
  destruct x as [m st]. unfold cfg_text. cbn [fst snd]. intros [Hm Hs]%andb_true_iff. destruct m as [| | | |q raw|q lit|todo v|v]; cbn [step].
  - by apply begin_value_text.
  - destruct (is_space c); [cbn; by rewrite Hs|]. destruct (Ascii.eqb c "]"); [|by apply begin_value_text].
    destruct st as [|f st]; [done|]. apply andb_true_iff in Hs as [_ Hs]. by apply closed_text.
  - by apply begin_key_text.
  - destruct (is_space c); [cbn; by rewrite Hs|]. destruct (Ascii.eqb c "}"); [|by apply begin_key_text].
    destruct st as [|f st]; [done|]. apply andb_true_iff in Hs as [_ Hs]. by apply closed_text.
  - unfold in_string. pose proof (unquote_bytes_valid (String.length raw) raw) as Hu. fold (unquoted raw) in Hu.
    destruct q; repeat case_match; by text_parts.
  - unfold in_number. pose proof (end_value_text (VNum lit) c st eq_refl Hs).
    destruct q; repeat match goal with |- stepped_text (if ?b then _ else _) = true => destruct b end; done || by text_parts.
  - destruct todo as [|d todo]; [done|]. destruct (Ascii.eqb c d); [|done]. destruct todo; by text_parts.
  - by apply end_value_text.
Qed.
Lemma run_text s : ∀ x, cfg_text x = true →
  match run x s with Done v _ => textual v = true | More x' => cfg_text x' = true | Bad => True end.
Proof.
  induction s as [|c s IH]; intros x Hx; [done|]. cbn [run]. pose proof (step_text x c Hx) as H.
  destruct (step x c) as [x'|v|v|]; try done. by apply IH.
Qed.
Lemma at_eof_text x v : cfg_text x = true → at_eof x = Some v → textual v = true.
Proof.
  intros Hx. unfold at_eof. pose proof (step_text x " "%char Hx) as H. destruct (step x " "); try done. by intros [= <-].
Qed.
Lemma Decode_text {A} (dec : jval → option A) limit b a : Decode dec limit b = Body a → ∃ v, textual v = true ∧ dec v = Some a.
Proof.
  unfold Decode. destruct (match limit with Some n => _ | None => _ end) as [data cut].
  pose proof (run_text data (MBegin, []) eq_refl) as H. unfold scan.
  destruct (run (MBegin, []) data) as [v r|x|]; [| |done].
  - unfold decoded. intros Hd. exists v. split; [done|]. destruct (dec v); [congruence|done].
  - destruct cut; [done|]. destruct (at_eof x) as [v|] eqn:E; [|by destruct (all_space data)].
    unfold decoded. intros Hd. exists v. split; [by eapply at_eof_text|]. destruct (dec v); [congruence|done].
Qed.
Lemma Unmarshal_text {A} (dec : jval → option A) s a : Unmarshal dec s = Some a → ∃ v, textual v = true ∧ dec v = Some a.
Proof.
  unfold Unmarshal. pose proof (run_text s (MBegin, []) eq_refl) as H. unfold scan.
  destruct (run (MBegin, []) s) as [v r|x|]; [| |done].
  - destruct (all_space r); [|done]. intros Hd. by exists v.
  - destruct (at_eof x) as [v|] eqn:E; [|done]. intros Hd. exists v. split; [by eapply at_eof_text|done].
Qed.

(** ** Through the decoders *)

(** Storing a value keeps [P]. *)
Definition keeps {A} (P : A → Prop) (dec : A → jval → option A) : Prop :=
  ∀ old v a, P old → textual v = true → dec old v = Some a → P a.
Lemma keeps_string : keeps (λ s, valid_utf8 s : Prop) dec_string.
Proof. intros old [] a H Hv; try done; intros [= <-]; [done|]. by apply Is_true_true. Qed.
Lemma Atoi_range s z : Atoi s = (z, true) → in64 z.
Proof. unfold Atoi, in64. repeat case_match; intros [= <-]; boolp; lia. Qed.
Lemma keeps_int : keeps in64 dec_int.
Proof.
  intros old [] a H Hv; try done; [by intros [= <-]|]. cbn. destruct (Atoi lit) as [z ok] eqn:E. destruct ok; [|done].
  intros [= <-]. by eapply Atoi_range.
Qed.
Lemma keeps_any {A} (dec : A → jval → option A) : keeps (λ _, True) dec.
Proof. done. Qed.
Lemma keeps_ptr {A} (P : A → Prop) (zero : A) dec : P zero → keeps P dec → keeps (λ o, ∀ a, o = Some a → P a) (dec_ptr zero dec).
Proof.
  intros Hz Hd old v o Ho Hv. assert (v = VNull ∨ v ≠ VNull) as [->|Hn] by (destruct v; auto); [by intros [= <-]|].
  intros E. assert (E' : Some <$> dec (default zero old) v = Some o) by (by destruct v).
  apply fmap_Some in E' as (a & Ea & ->). intros ? [= <-]. refine (Hd _ v a _ Hv Ea). destruct old; [by apply Ho|done].
Qed.
Lemma field_keeps {A} (P : A → Prop) names dec n old fs a : keeps P dec → P old → members_text fs = true →
  field names dec n old fs = Some a → P a.
Proof.
  intros Hd. revert old. induction fs as [|[k v] fs IH]; intros old Ho Hf; [by intros [= <-]|].
  rewrite members_cons in Hf. apply andb_true_iff in Hf as [[_ Hv]%andb_true_iff Hf]. cbn [field].
  destruct (names_field names n k); cbn [mbind option_bind]; [|by apply IH].
  destruct (dec old v) as [b|] eqn:E; [|done]. cbn [mbind option_bind]. apply IH; [by eapply Hd|done].
Qed.
Lemma dec_elems_keeps {A} (P : A → Prop) (zero : A) dec vs : P zero → keeps P dec → forallb textual vs = true →
  ∀ old l, Forall P old → dec_elems zero dec old vs = Some l → Forall P l.
Proof.
  intros Hz Hd. induction vs as [|v vs IH]; intros Hv old l Ho; [by intros [= <-]|]. cbn [forallb] in Hv.
  apply andb_true_iff in Hv as [Hv Hvs]. cbn [dec_elems].
  destruct (dec (default zero (head old)) v) as [a|] eqn:E; [|done]. cbn [mbind option_bind].
  intros (l' & El & ->)%fmap_Some. constructor.
  - refine (Hd _ v a _ Hv E). destruct Ho; done.
  - eapply IH; [done| |exact El]. by destruct Ho.
Qed.
(** A slice keeps what it holds beyond its length too. *)
Definition slice_of {A} (P : A → Prop) (s : slice A) : Prop := Forall P (backing s).
Lemma keeps_slice {A} (P : A → Prop) (zero : A) dec : P zero → keeps P dec → keeps (slice_of P) (dec_slice zero dec).
Proof.
  intros Hz Hd old v s Ho Hv. destruct v as [| | | |[|v vs]|]; try done; try (intros [= <-]; by constructor).
  cbn [dec_slice]. destruct (dec_elems zero dec (backing old) (v :: vs)) as [l|] eqn:E; [|done].
  intros [= <-]. exact (dec_elems_keeps P zero dec (v :: vs) Hz Hd Hv _ l Ho E).
Qed.
Lemma elems_of {A} (P : A → Prop) (s : slice A) : slice_of P s → Forall P (elems s).
Proof. intros H. by apply Forall_take. Qed.
Lemma nil_slice_of {A} (P : A → Prop) : slice_of P nil_slice.
Proof. by constructor. Qed.
(** A struct, whose fields are decoded one after the other. *)
Lemma keeps_struct {A} (P : A → Prop) dec : (∀ old fs a, P old → members_text fs = true → dec old fs = Some a → P a) → keeps P (dec_struct dec).
Proof. intros H old [] a Ho Hv; try done; [by intros [= <-]|]. by apply H. Qed.
Lemma field_string names n old fs s : field names dec_string n old fs = Some s → members_text fs = true →
  valid_utf8 old → valid_utf8 s.
Proof. intros E Hf Ho. by eapply (field_keeps (λ s, valid_utf8 s : Prop) _ _ _ _ _ _ keeps_string Ho). Qed.
Lemma field_int names n old fs z : field names dec_int n old fs = Some z → members_text fs = true → in64 old → in64 z.
Proof. intros E Hf Ho. by eapply (field_keeps in64 _ _ _ _ _ _ keeps_int Ho). Qed.
Lemma field_slice {A} (P : A → Prop) zero dec names n fs s : field names (dec_slice zero dec) n nil_slice fs = Some s →
  members_text fs = true → P zero → keeps P dec → Forall P (elems s).
Proof.
  intros E Hf Hz Hd. apply elems_of.
  by eapply (field_keeps (slice_of P) _ _ _ _ _ _ (keeps_slice P zero dec Hz Hd) (nil_slice_of P)).
Qed.
Lemma field_ptr {A} (P : A → Prop) zero dec names n old fs o : field names (dec_ptr zero dec) n old fs = Some o →
  members_text fs = true → P zero → keeps P dec → (∀ a, old = Some a → P a) → ∀ a, o = Some a → P a.
Proof.
  intros E Hf Hz Hd Ho.
  by eapply (field_keeps (λ o, ∀ a, o = Some a → P a) _ _ _ _ _ _ (keeps_ptr P zero dec Hz Hd) Ho).
Qed.
#[export] Hint Resolve field_string field_int : utf8.
(** Takes the fields of a struct apart, newest last. *)
Ltac take_fields H :=
  repeat (let x := fresh "x" in let Ex := fresh "Ex" in
    apply bind_Some in H as (x & Ex & H));
  injection H as <-.
