(* ===== verification/GoTime.v ===== *)
(** * package time: dates and their text

    An instant is nanoseconds since the epoch.  The civil date of a day in UTC, the text of
    [time.RFC3339Nano] with the year of four digits that JSON requires, and the reader of
    the strict form of RFC 3339; the lax parser that Go falls back to for other texts (an hour of
    one digit, a comma before the fraction) is left out, so that those are refused here. *)

From S2P Require Import Prelude GoLib GoStrings GoFloat.

(** ** Civil dates *)

(** Years are counted from March, so that the leap day is the last of its year. *)
Definition cycle_days : Z := 146097.            (* 400 years *)
Definition epoch_days : Z := 719468.            (* 0000-03-01 to 1970-01-01 *)
Definition month_start (mp : Z) : Z := (153 * mp + 2) / 5.
Definition civil_of_days (z : Z) : Z * Z * Z :=
  let z := z + epoch_days in
  let era := z / cycle_days in let doe := z mod cycle_days in
  let c := Z.min 3 (doe / 36524) in let r := doe - 36524 * c in
  let q := r / 1461 in let r := r mod 1461 in
  let k := Z.min 3 (r / 365) in let doy := r - 365 * k in
  let mp := (5 * doy + 2) / 153 in
  let y := 400 * era + 100 * c + 4 * q + k in
  (if mp <? 10 then y else y + 1, if mp <? 10 then mp + 3 else mp - 9, doy - month_start mp + 1).
Definition days_of_civil (y m d : Z) : Z :=
  let y := if m <=? 2 then y - 1 else y in
  let mp := if m <=? 2 then m + 9 else m - 3 in
  cycle_days * (y / 400) + 36524 * (y mod 400 / 100) + 1461 * (y mod 100 / 4) + 365 * (y mod 4) + month_start mp + d - 1 - epoch_days.
Definition leap (y : Z) : bool := (y mod 4 =? 0) && (negb (y mod 100 =? 0) || (y mod 400 =? 0)).
Definition days_in (m y : Z) : Z :=
  if m =? 2 then if leap y then 29 else 28
  else if (m =? 4) || (m =? 6) || (m =? 9) || (m =? 11) then 30 else 31.

Example dates : map civil_of_days [0; -1; 19782; 11016; -719468] =
  [(1970, 1, 1); (1969, 12, 31); (2024, 2, 29); (2000, 2, 29); (0, 3, 1)] ∧
  map (λ d, days_of_civil d.1.1 d.1.2 d.2) [(1970, 1, 1); (2024, 2, 29); (0, 3, 1)] = [0; 19782; -719468].
Proof. by vm_compute. Qed.

(** The parts of a day within its cycle. *)
Lemma day_parts doe : 0 ≤ doe < cycle_days → let c := Z.min 3 (doe / 36524) in let r := doe - 36524 * c in
  0 ≤ c ≤ 3 ∧ 0 ≤ r ≤ 36524 ∧ (r = 36524 → c = 3).
Proof. unfold cycle_days. intros H. cbn zeta. pose proof (Z.div_mod doe 36524). pose proof (Z.mod_pos_bound doe 36524). lia. Qed.
Lemma year_parts r : 0 ≤ r ≤ 36524 → let q := r / 1461 in let s := r mod 1461 in let k := Z.min 3 (s / 365) in
  0 ≤ q ≤ 24 ∧ 0 ≤ k ≤ 3 ∧ 0 ≤ s - 365 * k ≤ 365 ∧ r = 1461 * q + s ∧
  (s - 365 * k = 365 → k = 3 ∧ (q = 24 → r = 36524)).
Proof.
  intros H. cbn zeta. pose proof (Z.div_mod r 1461). pose proof (Z.mod_pos_bound r 1461).
  pose proof (Z.div_mod (r mod 1461) 365). pose proof (Z.mod_pos_bound (r mod 1461) 365). lia.
Qed.
Definition month_length (mp : Z) : Z := month_start (mp + 1) - month_start mp.
Lemma month_parts doy : 0 ≤ doy ≤ 365 → let mp := (5 * doy + 2) / 153 in
  0 ≤ mp ≤ 11 ∧ 0 ≤ doy - month_start mp < month_length mp ∧ (mp = 11 → doy - month_start mp ≤ 28 ∧ (doy - month_start mp = 28 → doy = 365)).
Proof.
  intros H. pose proof (seqZ_check (λ doy, let mp := (5 * doy + 2) / 153 in let d := doy - month_start mp in
    (0 <=? mp) && (mp <=? 11) && (0 <=? d) && (d <? month_length mp) && (negb (mp =? 11) || (d <? 28) || (d =? 28) && (doy =? 365)))
    0 366 ltac:(vm_compute; reflexivity) doy ltac:(lia)) as Hc.
  cbn zeta beta in *. apply andb_true_iff in Hc as [Hc Hf]. boolp. split; [lia|split; [lia|]]. intros E.
  rewrite (proj2 (Z.eqb_eq _ _) E) in Hf. cbn [negb orb] in Hf. apply orb_true_iff in Hf as [Hf|Hf]; boolp; lia.
Qed.
(** The months from March that have 30 days, and the length of the others. *)
Lemma month_lengths mp y : 0 ≤ mp < 11 → month_length mp = days_in (if mp <? 10 then mp + 3 else mp - 9) y.
Proof.
  intros H. assert (Hin : mp ∈ [0;1;2;3;4;5;6;7;8;9;10]) by (rewrite !elem_of_cons; lia).
  repeat (apply elem_of_cons in Hin as [->|Hin]; [by vm_compute|]). by apply elem_of_nil in Hin.
Qed.

(** A year of the cycle of 400, by its parts. *)
Lemma year_digits era c q k : 0 ≤ c ≤ 3 → 0 ≤ q ≤ 24 → 0 ≤ k ≤ 3 → let y := 400 * era + 100 * c + 4 * q + k in
  y / 400 = era ∧ y mod 400 / 100 = c ∧ y mod 100 / 4 = q ∧ y mod 4 = k.
Proof.
  intros Hc Hq Hk. cbn zeta. set (y := _ + k).
  assert (y / 400 = era) as E1 by (symmetry; apply (Z.div_unique _ _ _ (100 * c + 4 * q + k)); unfold y; lia).
  assert (y mod 400 = 100 * c + 4 * q + k) as E2 by (pose proof (Z.div_mod y 400); unfold y in *; lia).
  assert (y mod 100 = 4 * q + k) as E3.
  { symmetry. apply (Z.mod_unique _ _ (4 * era + c)); unfold y; lia. }
  rewrite E1, E2, E3. split; [done|split; [|split]].
  - symmetry. apply (Z.div_unique _ _ _ (4 * q + k)); lia.
  - symmetry. apply (Z.div_unique _ _ _ k); lia.
  - symmetry. apply (Z.mod_unique _ _ (100 * era + 25 * c + q)); unfold y; lia.
Qed.
(** The year of four that ends with a leap day. *)
Lemma leap_next era c q : 0 ≤ q ≤ 24 → (q = 24 → c = 3) → leap (400 * era + 100 * c + 4 * q + 3 + 1) = true.
Proof.
  intros Hq Hc. unfold leap. apply andb_true_iff. split.
  - apply Z.eqb_eq. symmetry. apply (Z.mod_unique _ _ (100 * era + 25 * c + q + 1)); lia.
  - destruct (decide (q = 24)) as [E|].
    + rewrite (Hc E), E. rewrite orb_true_iff. right. apply Z.eqb_eq. symmetry. apply (Z.mod_unique _ _ (era + 1)); lia.
    + rewrite orb_true_iff. left. apply negb_true_iff, Z.eqb_neq.
      rewrite <- (Z.mod_unique (400 * era + 100 * c + 4 * q + 3 + 1) 100 (4 * era + c) (4 * q + 4)); lia.
Qed.
(** A civil date is one of the calendar, and is read back as its day. *)
Lemma civil_spec z : let '(y, m, d) := civil_of_days z in 1 ≤ m ≤ 12 ∧ 1 ≤ d ≤ days_in m y ∧ days_of_civil y m d = z.
Proof.
  unfold civil_of_days. pose proof (Z.mod_pos_bound (z + epoch_days) cycle_days eq_refl) as Hb.
  pose proof (Z.div_mod (z + epoch_days) cycle_days ltac:(done)) as Hz. destruct (day_parts _ Hb) as (Hc & Hr & Hr').
  set (era := (z + epoch_days) / cycle_days) in *. set (doe := (z + epoch_days) mod cycle_days) in *.
  set (c := Z.min 3 (doe / 36524)) in *. destruct (year_parts _ Hr) as (Hq & Hk & Hy & Er & Hl).
  set (r := doe - 36524 * c) in *. set (q := r / 1461) in *. set (k := Z.min 3 (r mod 1461 / 365)) in *.
  set (doy := r mod 1461 - 365 * k) in *. destruct (month_parts _ Hy) as (Hm & Hd & Hf). set (mp := (5 * doy + 2) / 153) in *.
  destruct (year_digits era c q k Hc Hq Hk) as (Y1 & Y2 & Y3 & Y4). set (y := 400 * era + 100 * c + 4 * q + k) in *.
  assert (Hday : cycle_days * (y / 400) + 36524 * (y mod 400 / 100) + 1461 * (y mod 100 / 4) + 365 * (y mod 4) + doy - epoch_days = z).
  { assert (r = doe - 36524 * c) by done. assert (doy = r mod 1461 - 365 * k) by done. rewrite Y1, Y2, Y3, Y4. lia. }
  destruct (Z.ltb_spec mp 10) as [Hlt|Hge]; (split; [lia|]).
  - split.
    + pose proof (month_lengths mp y ltac:(lia)) as Hml. rewrite (proj2 (Z.ltb_lt mp 10) Hlt) in Hml. lia.
    + unfold days_of_civil. rewrite (proj2 (Z.leb_gt (mp + 3) 2)) by lia. replace (mp + 3 - 3) with mp by lia. lia.
  - split.
    + destruct (decide (mp = 10)) as [E|]; [pose proof (month_lengths mp (y + 1) ltac:(lia)) as Hml; rewrite E in *; cbn in Hml; lia|].
      destruct (Hf ltac:(lia)) as [Hf1 Hf2]. replace (mp - 9) with 2 by lia. unfold days_in. cbn [Z.eqb Pos.eqb].
      destruct (decide (doy - month_start mp = 28)) as [E|]; [|case_match; lia]. destruct (Hl (Hf2 E)) as [Ek Eq].
      unfold y. rewrite Ek, (leap_next era c q Hq) by (intros E'; apply Hr', Eq, E'). lia.
    + unfold days_of_civil. rewrite (proj2 (Z.leb_le (mp - 9) 2)) by lia. replace (mp - 9 + 9) with mp by lia.
      replace (y + 1 - 1) with y by lia. lia.
Qed.

(** ** RFC 3339 *)
Definition second_ns : Z := 10 ^ 9.
Definition day_ns : Z := 86400 * second_ns.
Definition digit_char (n : Z) : ascii := byte_of_Z (48 + n).
Fixpoint padded (k : nat) (n : Z) : string :=
  match k with O => "" | S k => padded k (n / 10) +:+ String (digit_char (n mod 10)) "" end.
Fixpoint trim_zeros (s : string) : string :=
  match s with
  | EmptyString => ""
  | String c r => let r := trim_zeros r in if String.eqb r "" && Ascii.eqb c "0" then "" else String c r
  end.
Definition fraction (ns : Z) : string := if ns =? 0 then "" else String "." (trim_zeros (padded 9 ns)).
Definition civil_text (y m d s ns : Z) : string :=
  padded 4 y +:+ String "-" (padded 2 m +:+ String "-" (padded 2 d +:+ String "T" (padded 2 (s / 3600) +:+
  String ":" (padded 2 (s / 60 mod 60) +:+ String ":" (padded 2 (s mod 60) +:+ fraction ns +:+ "Z"))))).
(** [Time.MarshalJSON] of an instant in UTC, without the quotes. *)
Definition time_text (t : Z) : option string :=
  let '(y, m, d) := civil_of_days (t / day_ns) in
  if (0 <=? y) && (y <=? 9999) then Some (civil_text y m d (t / second_ns mod 86400) (t mod second_ns)) else None.

(** Readers of a prefix: [k] digits, a character. *)
Fixpoint take_digits (k : nat) (acc : Z) (s : string) : option (Z * string) :=
  match k, s with
  | O, _ => Some (acc, s)
  | S k, String c s => if is_digit c then take_digits k (acc * 10 + digit_value c) s else None
  | S _, EmptyString => None
  end.
Definition number_in (k : nat) (lo hi : Z) (s : string) : option (Z * string) :=
  '(n, s) ← take_digits k 0 s; if (lo <=? n) && (n <=? hi) then Some (n, s) else None.
Definition char_at (c : ascii) (s : string) : option string :=
  match s with String a s => if Ascii.eqb a c then Some s else None | EmptyString => None end.
(** All the digits at the front, with how many there are; only nine count. *)
Fixpoint some_digits (k : nat) (acc : Z) (s : string) : Z * string :=
  match s with
  | String c s' => if is_digit c then
                     match k with
                     | S k => some_digits k (acc * 10 + digit_value c) s'
                     | O => some_digits O acc s'
                     end
                   else (acc * 10 ^ Z.of_nat k, s)
  | EmptyString => (acc * 10 ^ Z.of_nat k, s)
  end.
Definition read_fraction (s : string) : Z * string :=
  match s with
  | String "." (String c r) => if is_digit c then some_digits 9 0 (String c r) else (0, s)
  | _ => (0, s)
  end.
(** [Z], or a sign and an offset; in seconds. *)
Definition read_zone (s : string) : option Z :=
  if String.eqb s "Z" then Some 0 else
  match s with
  | String sign s =>
      '(h, s) ← number_in 2 0 23 s; s ← char_at ":" s; '(m, s) ← number_in 2 0 59 s;
      if negb (String.eqb s "") then None else
      if Ascii.eqb sign "+" then Some ((h * 60 + m) * 60)
      else if Ascii.eqb sign "-" then Some (- ((h * 60 + m) * 60)) else None
  | EmptyString => None
  end.
Definition read_time (s : string) : option Z :=
  '(y, s) ← number_in 4 0 9999 s; s ← char_at "-" s; '(m, s) ← number_in 2 1 12 s; s ← char_at "-" s;
  '(d, s) ← number_in 2 1 (days_in m y) s; s ← char_at "T" s; '(hh, s) ← number_in 2 0 23 s; s ← char_at ":" s;
  '(mm, s) ← number_in 2 0 59 s; s ← char_at ":" s; '(ss, s) ← number_in 2 0 59 s;
  let '(ns, s) := read_fraction s in
  z ← read_zone s;
  Some ((days_of_civil y m d * 86400 + hh * 3600 + mm * 60 + ss - z) * second_ns + ns).

Example times : map time_text [0; 1500000000; -1; 1709210096007000000; 253402300800000000000] =
  [Some "1970-01-01T00:00:00Z"; Some "1970-01-01T00:00:01.5Z"; Some "1969-12-31T23:59:59.999999999Z";
   Some "2024-02-29T12:34:56.007Z"; None] ∧
  map read_time ["2024-02-29T12:34:56.007Z"; "2024-02-29T13:34:56.0070000009+01:00"; "2023-02-29T00:00:00Z"; "2024-02-29"] =
  [Some 1709210096007000000; Some 1709210096007000000; None; None].
Proof. by vm_compute. Qed.

(** ** The text is read back *)
Lemma digit_char_ok n : 0 ≤ n < 10 → is_digit (digit_char n) = true ∧ digit_value (digit_char n) = n.
Proof.
  intros H. assert (Hin : n ∈ [0;1;2;3;4;5;6;7;8;9]) by (rewrite !elem_of_cons; lia).
  repeat (apply elem_of_cons in Hin as [->|Hin]; [by vm_compute|]). by apply elem_of_nil in Hin.
Qed.
Lemma take_digits_app k acc s z t j : take_digits k acc s = Some (z, "") → take_digits (k + j) acc (s +:+ t) = take_digits j z t.
Proof.
  revert acc s. induction k as [|k IH]; intros acc s; cbn [take_digits].
  - by intros [= <- ->].
  - destruct s as [|c s]; [done|]. cbn [String.append plus take_digits]. destruct (is_digit c); [apply IH|done].
Qed.
Lemma padded_read k n acc t : 0 ≤ n < 10 ^ Z.of_nat k → take_digits k acc (padded k n +:+ t) = Some (acc * 10 ^ Z.of_nat k + n, t).
Proof.
  revert n acc t. induction k as [|k IH]; intros n acc t Hn; [cbn in *; f_equal; f_equal; lia|].
  rewrite Nat2Z.inj_succ, Z.pow_succ_r in * by lia. pose proof (Z.div_mod n 10 ltac:(done)) as Hdm.
  pose proof (Z.mod_pos_bound n 10 eq_refl) as Hm. destruct (digit_char_ok _ Hm) as [Hd Hv].
  assert (Hq : 0 ≤ n / 10 < 10 ^ Z.of_nat k) by (split; [by apply Z.div_pos; lia|by apply Z.div_lt_upper_bound; lia]).
  cbn [padded]. rewrite <- sapp_assoc. replace (S k) with (k + 1)%nat by lia.
  pose proof (IH (n / 10) acc "" Hq) as E. rewrite sapp_nil_r in E. rewrite (take_digits_app _ _ _ _ _ _ E).
  cbn [String.append take_digits]. rewrite Hd, Hv. f_equal. f_equal. lia.
Qed.
Lemma number_read k lo hi n t : 0 ≤ n < 10 ^ Z.of_nat k → lo ≤ n ≤ hi → number_in k lo hi (padded k n +:+ t) = Some (n, t).
Proof.
  intros Hn [H1%Z.leb_le H2%Z.leb_le]. unfold number_in. rewrite padded_read by done. cbn [mbind option_bind].
  replace (0 * 10 ^ Z.of_nat k + n) with n by lia. by rewrite H1, H2.
Qed.
Definition all_digits : string → bool := str_forall is_digit.
Lemma padded_digits k n : all_digits (padded k n) = true.
Proof.
  revert n. induction k as [|k IH]; intros n; [done|]. cbn [padded]. unfold all_digits in *. rewrite str_forall_app, IH. cbn.
  by destruct (digit_char_ok (n mod 10) (Z.mod_pos_bound n 10 eq_refl)) as [-> _].
Qed.
(** Zeros at the end do not count. *)
Lemma some_digits_trim s t : (∀ c r, t = String c r → is_digit c = false) → all_digits s = true → ∀ k acc,
  (String.length s ≤ k)%nat → some_digits k acc (trim_zeros s +:+ t) = (default 0 (fst <$> take_digits (String.length s) acc s) * 10 ^ Z.of_nat (k - String.length s), t).
Proof.
  intros Ht. induction s as [|c s IH]; intros Hs k acc Hl.
  - cbn [trim_zeros String.append String.length take_digits]. replace (k - 0)%nat with k by lia.
    destruct t as [|c r]; cbn [some_digits]; [done|]. by rewrite (Ht c r eq_refl).
  - unfold all_digits in Hs. cbn [str_forall] in Hs. apply andb_true_iff in Hs as [Hc Hs]. cbn [String.length] in *. destruct k as [|k]; [lia|].
    cbn [trim_zeros take_digits]. rewrite Hc. specialize (IH Hs k (acc * 10 + digit_value c) ltac:(lia)).
    replace (S k - S (String.length s))%nat with (k - String.length s)%nat by lia.
    destruct (String.eqb_spec (trim_zeros s) "") as [E|E]; cbn [andb]; [|cbn [String.append some_digits]; by rewrite Hc].
    destruct (Ascii.eqb_spec c "0"%char) as [->|]; [|cbn [String.append some_digits]; by rewrite Hc].
    rewrite E in IH. cbn [String.append] in IH |- *. rewrite <- IH. change (digit_value "0") with 0. replace (acc * 10 + 0) with (acc * 10) by lia.
    assert (Hp : ∀ a l, some_digits l a t = (a * 10 ^ Z.of_nat l, t)).
    { intros a l. destruct t as [|c' r]; cbn [some_digits]; [done|]. by rewrite (Ht c' r eq_refl). }
    rewrite !Hp. f_equal. rewrite Nat2Z.inj_succ, Z.pow_succ_r by lia. lia.
Qed.
Lemma trim_digits s : all_digits s = true → all_digits (trim_zeros s) = true.
Proof.
  unfold all_digits. induction s as [|c s IH]; [done|]. cbn [str_forall trim_zeros]. intros [Hc Hs]%andb_true_iff.
  destruct (_ && _); [done|]. cbn [str_forall]. by rewrite Hc, IH.
Qed.
Lemma padded_length k n : String.length (padded k n) = k.
Proof. revert n. induction k as [|k IH]; intros n; [done|]. cbn [padded]. rewrite slength_app, IH. cbn. lia. Qed.
Lemma fraction_read ns : 0 ≤ ns < second_ns → read_fraction (fraction ns +:+ "Z") = (ns, "Z").
Proof.
  intros Hns. unfold fraction. destruct (Z.eqb_spec ns 0) as [->|Hne]; [done|].
  assert (Hz : ∀ c r, "Z" = String c r → is_digit c = false) by (by intros c r [= <- <-]).
  pose proof (some_digits_trim (padded 9 ns) "Z" Hz (padded_digits 9 ns) 9 0) as H. rewrite padded_length in H.
  specialize (H ltac:(lia)). rewrite <- (sapp_nil_r (padded 9 ns)) in H at 2. rewrite padded_read in H by exact Hns.
  cbn [fmap option_fmap option_map fst default from_option id] in H. rewrite Nat.sub_diag in H.
  replace ((0 * 10 ^ Z.of_nat 9 + ns) * 10 ^ Z.of_nat 0) with ns in H by (change (10 ^ Z.of_nat 0) with 1; lia).
  pose proof (trim_digits _ (padded_digits 9 ns)) as Hd. destruct (trim_zeros (padded 9 ns)) as [|c r].
  - cbn [String.append some_digits] in H. change (is_digit "Z") with false in H. cbv iota in H. injection H as H. cbn in H. lia.
  - unfold all_digits in Hd. cbn [str_forall] in Hd. apply andb_true_iff in Hd as [Hc _].
    change (read_fraction (String "." (String c r) +:+ "Z")) with (if is_digit c then some_digits 9 0 (String c r +:+ "Z") else (0, String "." (String c r) +:+ "Z")).
    by rewrite Hc, H.
Qed.
Lemma read_civil y m d s ns : 0 ≤ y ≤ 9999 → 1 ≤ m ≤ 12 → 1 ≤ d ≤ days_in m y → 0 ≤ s < 86400 → 0 ≤ ns < second_ns →
  read_time (civil_text y m d s ns) = Some ((days_of_civil y m d * 86400 + s) * second_ns + ns).
Proof.
  intros Hy Hm Hd Hs Hns. assert (days_in m y ≤ 31) by (unfold days_in; repeat case_match; lia).
  pose proof (Z.div_mod s 3600 ltac:(done)). pose proof (Z.mod_pos_bound s 3600 eq_refl).
  pose proof (Z.div_mod s 60 ltac:(done)). pose proof (Z.mod_pos_bound s 60 eq_refl).
  pose proof (Z.div_mod (s / 60) 60 ltac:(done)). pose proof (Z.mod_pos_bound (s / 60) 60 eq_refl).
  assert (s / 3600 = s / 60 / 60) as E by (by rewrite Z.div_div). change (10 ^ 2) with 100 in *.
  unfold read_time, civil_text. rewrite number_read by (change (10 ^ Z.of_nat 4) with 10000; lia). cbn [mbind option_bind char_at Ascii.eqb Bool.eqb].
  rewrite number_read by (change (10 ^ Z.of_nat 2) with 100; lia). cbn [mbind option_bind char_at Ascii.eqb Bool.eqb].
  rewrite number_read by (change (10 ^ Z.of_nat 2) with 100; lia). cbn [mbind option_bind char_at Ascii.eqb Bool.eqb].
  rewrite number_read by (change (10 ^ Z.of_nat 2) with 100; lia). cbn [mbind option_bind char_at Ascii.eqb Bool.eqb].
  rewrite number_read by (change (10 ^ Z.of_nat 2) with 100; lia). cbn [mbind option_bind char_at Ascii.eqb Bool.eqb].
  rewrite number_read by (change (10 ^ Z.of_nat 2) with 100; lia). cbn [mbind option_bind].
  rewrite fraction_read by done. change (read_zone "Z") with (Some 0). cbn [mbind option_bind]. do 3 f_equal. lia.
Qed.
(** An instant that has a text is read back from it. *)
Lemma time_read_back t s : time_text t = Some s → read_time s = Some t.
Proof.
  unfold time_text. pose proof (civil_spec (t / day_ns)) as Hc. destruct (civil_of_days (t / day_ns)) as [[y m] d].
  destruct Hc as (Hm & Hd & Hz). destruct (_ && _) eqn:E; [|done]. boolp. intros [= <-].
  rewrite read_civil; [|lia|done|done|by apply Z.mod_pos_bound|by apply Z.mod_pos_bound]. f_equal. rewrite Hz.
  assert (t / day_ns = t / second_ns / 86400) as -> by (unfold day_ns; rewrite Z.div_div by done; f_equal; lia).
  pose proof (Z.div_mod (t / second_ns) 86400 ltac:(done)). pose proof (Z.div_mod t second_ns ltac:(done)). lia.
Qed.
