(* ===== verification/Sched.v ===== *)
(** * internal/sched: the concurrency gate

    [Limiter] wraps the weighted semaphore of golang.org/x/sync, which is the
    class [Weighted] here: its operations are arguments of the model and its
    documented behaviour is the class [WeightedSpec]. *)

From S2P Require Import Prelude GoLib.

(** ** The semaphore interface *)
Class Weighted (W : Type) := {
  NewWeighted : Z → W;
  (** [Acquire(ctx, 1)], observed when it returns: [expired] says that the
      context ended first.  [None] is a non-nil error. *)
  sem_acquire : W → bool → option W;
  (** [Release(1)]; [None] is the panic "released more than held". *)
  sem_release : W → option W }.

Class WeightedSpec (W : Type) `{Weighted W} := {
  sem_size : W → Z;
  sem_cur : W → Z;
  size_new n : sem_size (NewWeighted n) = n;
  cur_new n : sem_cur (NewWeighted n) = 0;
  acquire_some w e w' : sem_acquire w e = Some w' →
    sem_size w' = sem_size w ∧ sem_cur w' = sem_cur w + 1 ∧ sem_cur w' ≤ sem_size w;
  acquire_free w : sem_cur w < sem_size w → is_Some (sem_acquire w false);
  release_held w : 0 < sem_cur w → ∃ w', sem_release w = Some w' ∧
    sem_size w' = sem_size w ∧ sem_cur w' = sem_cur w - 1;
  release_none w : sem_cur w ≤ 0 → sem_release w = None }.

(** A concrete semaphore: (size, holders). *)
#[export] Instance counter_sem : Weighted (Z * Z) := {|
  NewWeighted n := (n, 0);
  sem_acquire w e := if e then None else
    if snd w <? fst w then Some (fst w, snd w + 1) else None;
  sem_release w := if 0 <? snd w then Some (fst w, snd w - 1) else None |}.

#[export, refine] Instance counter_sem_spec : WeightedSpec (Z * Z) := {|
  sem_size := fst; sem_cur := snd |}.
Proof.
  - done.
  - done.
  - intros [n c] [] w'; simpl; [done|]. intros H. split_ifs_in H; simplify_eq/=. lia.
  - intros [n c] Hc; simpl in *. apply Z.ltb_lt in Hc. rewrite Hc. eauto.
  - intros [n c] Hc; simpl in *. pose proof Hc as Hc'. apply Z.ltb_lt in Hc. rewrite Hc. eauto.
  - intros [n c] Hc; simpl in *. apply Z.ltb_ge in Hc. by rewrite Hc.
Defined.

(** ** The limiter *)
Section limiter.
Context {W : Type} {SW : Weighted W} {SWS : WeightedSpec W}.

Record Limiter := { sem : W; max : Z; inUse : Z }.

Definition New (m : Z) : Limiter :=
  let m := if m <? 1 then 1 else m in
  {| sem := NewWeighted m; max := m; inUse := 0 |}.

Definition Acquire (l : Limiter) (expired : bool) : bool * Limiter :=
  match sem_acquire (sem l) expired with
  | Some w => (true, {| sem := w; max := max l; inUse := inUse l + 1 |})
  | None => (false, l)
  end.

(** [None]: the semaphore's panic, before the gauge is touched. *)
Definition Release (l : Limiter) : option Limiter :=
  match sem_release (sem l) with
  | Some w => Some {| sem := w; max := max l; inUse := inUse l - 1 |}
  | None => None
  end.

Definition Max (l : Limiter) : Z := max l.
Definition InUse (l : Limiter) : Z := inUse l.

(** The gauge agrees with the semaphore and stays within its ceiling. *)
Definition lim_ok (l : Limiter) : Prop :=
  sem_size (sem l) = max l ∧ sem_cur (sem l) = inUse l ∧ 1 ≤ max l ∧ 0 ≤ inUse l ≤ max l.

Lemma New_ok m : lim_ok (New m).
Proof.
  unfold lim_ok, New; simpl. rewrite size_new, cur_new.
  destruct (m <? 1) eqn:E; boolp; lia.
Qed.

Lemma Acquire_ok l e : lim_ok l → lim_ok (Acquire l e).2 ∧
  max (Acquire l e).2 = max l ∧
  inUse (Acquire l e).2 = inUse l + (if (Acquire l e).1 then 1 else 0).
Proof.
  intros (H1 & H2 & H3 & H4). unfold Acquire.
  destruct (sem_acquire (sem l) e) as [w|] eqn:E; simpl.
  - apply acquire_some in E as (E1 & E2 & E3). unfold lim_ok; simpl. lia.
  - unfold lim_ok. lia.
Qed.

Lemma Acquire_free l : lim_ok l → inUse l < max l → (Acquire l false).1 = true.
Proof.
  intros (H1 & H2 & H3 & H4) Hlt. unfold Acquire.
  destruct (acquire_free (sem l)) as [w ->]; [lia|done].
Qed.

Lemma Acquire_granted_lt l e : lim_ok l → (Acquire l e).1 = true → inUse l < max l.
Proof.
  intros Hok Hg. destruct (Acquire_ok l e Hok) as ((_ & _ & _ & Hb) & Hm & Hi).
  rewrite Hg in Hi. lia.
Qed.

Lemma Release_ok l : lim_ok l → 0 < inUse l →
  ∃ l', Release l = Some l' ∧ lim_ok l' ∧ max l' = max l ∧ inUse l' = inUse l - 1.
Proof.
  intros (H1 & H2 & H3 & H4) Hlt. unfold Release.
  destruct (release_held (sem l)) as (w & -> & Hs & Hc); [lia|].
  eexists; split; [done|]. unfold lim_ok; simpl. lia.
Qed.

Lemma Release_panics l : lim_ok l → Release l = None ↔ inUse l = 0.
Proof.
  intros Hok. split.
  - intros HN. destruct (decide (0 < inUse l)) as [Hp|Hp].
    + destruct (Release_ok l Hok Hp) as (l' & E & _). congruence.
    + destruct Hok as (_ & _ & _ & ?). lia.
  - intros Hz. unfold Release. rewrite release_none; [done|].
    destruct Hok as (_ & -> & _). lia.
Qed.

(** Runs: the interleaving of the calls of all goroutines, in the order in
    which the semaphore serialises them. *)
Inductive op := OAcquire (expired : bool) | ORelease.
Definition exec_op (l : Limiter) (o : op) : option (Limiter * Z) :=
  match o with
  | OAcquire e => let (g, l') := Acquire l e in Some (l', if g then 1 else 0)
  | ORelease => match Release l with Some l' => Some (l', -1) | None => None end
  end.
(** [held] counts the slots handed out and not yet given back; a release by
    a caller that holds no slot is not an event of the program (every
    [Release] of the source follows a successful [Acquire]) and is skipped. *)
Fixpoint run (l : Limiter) (held : Z) (ops : list op) : option (Limiter * Z) :=
  match ops with
  | [] => Some (l, held)
  | o :: ops =>
      match o, held <=? 0 with
      | ORelease, true => run l held ops
      | _, _ => match exec_op l o with
                | Some (l', d) => run l' (held + d) ops
                | None => None
                end
      end
  end.

(** At most [max] callers hold a slot at any time, the gauge is exact, and a
    caller that only releases what it acquired never panics: every
    interleaving of acquire and release calls from a fresh limiter runs to the
    end with [InUse] equal to the slots handed out, between 0 and [Max]. *)
Theorem run_from_new m ops : ∃ l held,
  run (New m) 0 ops = Some (l, held) ∧ InUse l = held ∧ 0 ≤ held ≤ Max l ∧
  Max l = Z.max 1 m.
Proof.
  assert (Hg : ∀ ops l, lim_ok l → ∃ l' held', run l (inUse l) ops = Some (l', held') ∧
    lim_ok l' ∧ inUse l' = held' ∧ max l' = max l).
  { clear. induction ops as [|o ops IH]; intros l Hok; [by eauto 10|].
    destruct o as [e|]; simpl.
    - destruct (Acquire_ok l e Hok) as (Hok' & Hm & Hi).
      destruct (Acquire l e) as [g l'] eqn:E. simpl in *. rewrite <- Hi.
      destruct (IH l' Hok') as (l'' & h & -> & ? & ? & ?). eexists _, _. eauto with congruence.
    - destruct (inUse l <=? 0) eqn:E; boolp; [by apply IH|].
      destruct (Release_ok l Hok) as (l' & -> & Hok' & Hm & Hi); [lia|].
      replace (inUse l + -1) with (inUse l') by lia.
      destruct (IH l' Hok') as (l'' & h & -> & ? & ? & ?). eexists _, _. eauto with congruence. }
  destruct (Hg ops (New m) (New_ok m)) as (l & h & Hr & (H1 & H2 & H3 & H4) & Hi & Hm).
  exists l, h. simpl in Hr. rewrite Hr. unfold InUse, Max. split; [done|].
  split; [done|]. split; [lia|]. rewrite Hm. unfold New; simpl.
  destruct (m <? 1) eqn:E; boolp; lia.
Qed.
End limiter.
Arguments Limiter W : clear implicits.
#[export] Hint Resolve New_ok : isobox.
