(* ===== verification/Auth.v ===== *)
(** * internal/auth, the auth middleware and the key sources of cmd/isoboxd

    [KeyStore]: NewKeyStore, Resolve and deriveTenant of keystore.go.
    [Middleware]: authMiddleware and requireTenantKey of api/router.go, and
    reqTenant of api/sessions.go.  [Config]: loadKeyStore and splitKeys of
    cmd/isoboxd/main.go. *)

From S2P Require Import Prelude GoLib GoStrings GoCodec.
Import Strings.

(** ** keystore.go *)
Module KeyStore.
Definition PublicTenant : string := "public".

Record KeyStore := { tenants : list string }.

Definition deriveTenant (apiKey : string) : string :=
  Hex.EncodeToString (Sha256.Sum256 apiKey).

#[global] Arguments deriveTenant : simpl never.

(** The loop of [NewKeyStore]: [seen] is the Go set of the same name. *)
Fixpoint collect (seen : gset string) (rawKeys : list string) : list string :=
  match rawKeys with
  | [] => []
  | k :: ks =>
      let k := TrimSpace k in
      if String.eqb k "" then collect seen ks else
      let tid := deriveTenant k in
      if decide (tid ∈ seen) then collect seen ks
      else tid :: collect ({[tid]} ∪ seen) ks
  end.
Definition NewKeyStore (rawKeys : list string) : KeyStore :=
  {| tenants := collect ∅ rawKeys |}.

Definition Len (k : KeyStore) : nat := List.length (tenants k).

(** [subtle.ConstantTimeCompare]. *)
Definition ConstantTimeCompare (x y : string) : Z := if String.eqb x y then 1 else 0.

(** [Resolve]: every tenant is compared, without an early exit. *)
Definition Resolve (k : KeyStore) (apiKey : string) : string * bool :=
  match tenants k with
  | [] => (PublicTenant, true)
  | ts =>
      let tid := deriveTenant apiKey in
      let matched := foldl (λ m t, Z.lor m (ConstantTimeCompare tid t)) 0 ts in
      if matched =? 1 then (tid, true) else ("", false)
  end.

(** The context value under [ctxKey]: nothing, or the stamped tenant. *)
Abbreviation Context := (option string).
Definition WithTenant (ctx : Context) (tenant : string) : Context := Some tenant.
Definition TenantFrom (ctx : Context) : string * bool :=
  match ctx with Some t => (t, negb (String.eqb t "")) | None => ("", false) end.

Lemma deriveTenant_length k : String.length (deriveTenant k) = 64%nat.
Proof. unfold deriveTenant. by rewrite Hex.EncodeToString_length, Sha256.Sum256_length. Qed.

Lemma deriveTenant_hex k : str_forall is_hex_lower (deriveTenant k) = true.
Proof. apply Hex.EncodeToString_hex. Qed.

Lemma deriveTenant_not_public k : deriveTenant k ≠ PublicTenant.
Proof. intros E. pose proof (deriveTenant_length k) as L. by rewrite E in L. Qed.

Lemma deriveTenant_nonempty k : deriveTenant k ≠ "".
Proof. intros E. pose proof (deriveTenant_length k) as L. by rewrite E in L. Qed.

Lemma lor_flags_one tid ts m : m = 0 ∨ m = 1 →
  foldl (λ m t, Z.lor m (ConstantTimeCompare tid t)) m ts =
    if bool_decide (tid ∈ ts) || (m =? 1) then 1 else 0.
Proof.
  revert m. induction ts as [|t ts IH]; intros m Hm; cbn [foldl].
  - rewrite (bool_decide_eq_false_2 (tid ∈ [])) by set_solver. destruct Hm as [-> | ->]; done.
  - unfold ConstantTimeCompare at 2. destruct (String.eqb tid t) eqn:E; boolp.
    + subst t. rewrite IH by (destruct Hm; subst m; auto).
      rewrite (bool_decide_eq_true_2 (tid ∈ tid :: ts)) by set_solver.
      destruct Hm as [-> | ->]; simpl; by rewrite orb_true_r.
    + rewrite Z.lor_0_r, IH by done.
      rewrite (bool_decide_ext (tid ∈ t :: ts) (tid ∈ ts)); [done|].
      rewrite elem_of_cons. naive_solver.
Qed.

Lemma Resolve_nonempty ks k : tenants ks ≠ [] →
  Resolve ks k = if bool_decide (deriveTenant k ∈ tenants ks)
                 then (deriveTenant k, true) else ("", false).
Proof.
  intros Hne. unfold Resolve. destruct (tenants ks) as [|t ts] eqn:E; [done|].
  rewrite lor_flags_one by auto. rewrite orb_false_r.
  by destruct (bool_decide _).
Qed.

Lemma collect_spec seen raw t :
  t ∈ collect seen raw ↔
    t ∉ seen ∧ ∃ k, k ∈ raw ∧ TrimSpace k ≠ "" ∧ t = deriveTenant (TrimSpace k).
Proof.
  revert seen. induction raw as [|k raw IH]; intros seen.
  { split; [by intros ?%elem_of_nil|]. by intros (_ & k & ?%elem_of_nil & _). }
  cbn [collect]. cbv zeta. destruct (String.eqb (TrimSpace k) "") eqn:E; boolp.
  { rewrite IH. setoid_rewrite elem_of_cons. split; [naive_solver|].
    intros (Hs & k' & [->|Hk'] & ? & ?); [done|eauto]. }
  case_decide as Hs.
  - rewrite IH. setoid_rewrite elem_of_cons. split; [naive_solver|].
    intros (Ht & k' & [->|Hk'] & ? & ->); [done|eauto 6].
  - rewrite elem_of_cons, IH, not_elem_of_union, not_elem_of_singleton.
    setoid_rewrite elem_of_cons.
    destruct (decide (t = deriveTenant (TrimSpace k))) as [->|Ht].
    + split; [|by left]. intros _. split; [done|]. exists k. auto.
    + split.
      * intros [?|((_ & Hn) & k' & Hk' & ? & ?)]; [done|eauto 6].
      * intros (Hn & k' & [->|Hk'] & ? & ?); [done|]. right. eauto 6.
Qed.

Lemma collect_NoDup seen raw : NoDup (collect seen raw).
Proof.
  revert seen. induction raw as [|k raw IH]; intros seen; [constructor|].
  cbn [collect]. cbv zeta. destruct (String.eqb _ _); [done|]. case_decide; [done|].
  constructor; [|done]. rewrite collect_spec. intros [Hn _]. apply Hn. set_solver.
Qed.

(** What a key store built from raw keys resolves: with no usable key
    every caller is the public tenant; otherwise a key resolves, to the hex
    digest of itself, exactly when it has the digest of a configured key
    (after trimming), and every other key is refused with an empty tenant. *)
Theorem Resolve_NewKeyStore raw k :
  Resolve (NewKeyStore raw) k =
    if bool_decide (Forall (λ r, TrimSpace r = "") raw) then (PublicTenant, true)
    else if bool_decide (Exists (λ r, TrimSpace r ≠ "" ∧
                           deriveTenant k = deriveTenant (TrimSpace r)) raw)
    then (deriveTenant k, true) else ("", false).
Proof.
  case_bool_decide as HE.
  - assert (tenants (NewKeyStore raw) = []) as Hn.
    { apply elem_of_nil_inv. intros t. simpl. rewrite collect_spec.
      rewrite Forall_forall in HE. intros (_ & r & Hr & Hne & _). by apply Hne, HE. }
    unfold Resolve. by rewrite Hn.
  - assert (tenants (NewKeyStore raw) ≠ []) as Hn.
    { intros E. apply HE, Forall_forall. intros r Hr.
      destruct (decide (TrimSpace r = "")) as [|Hne]; [done|].
      assert (Hin : deriveTenant (TrimSpace r) ∈ tenants (NewKeyStore raw)).
      { simpl. apply collect_spec. split; [apply not_elem_of_empty|eauto]. }
      rewrite E in Hin. by apply elem_of_nil in Hin. }
    rewrite Resolve_nonempty by done.
    rewrite (bool_decide_ext _ (Exists (λ r, TrimSpace r ≠ "" ∧
      deriveTenant k = deriveTenant (TrimSpace r)) raw)); [done|].
    simpl. rewrite collect_spec, Exists_exists. split; [naive_solver|].
    intros Hr. split; [apply not_elem_of_empty|exact Hr].
Qed.
End KeyStore.

(** ** api/router.go: authMiddleware, requireTenantKey; api/sessions.go: reqTenant *)
Module Middleware.
Import KeyStore.

(** The headers the middleware reads (absent = empty, as in [Header.Get]). *)
Record headers := { X_API_Key : string; Authorization : string }.
Record gate := { Keys : KeyStore; RequireAuth : bool; MemoryRequireKey : bool }.

(** The key the request presents: X-API-Key, else the bearer token. *)
Definition request_key (h : headers) : string :=
  let key := TrimSpace (X_API_Key h) in
  if String.eqb key "" then
    let b := Authorization h in
    if (7 <? len b) && String.eqb (str_take 7 b) "Bearer " then TrimSpace (str_drop 7 b)
    else key
  else key.

Inductive outcome :=
| Unauthorized                    (* 401 unauthorized *)
| Forbidden                       (* 403 api_key_required *)
| InternalError                   (* 500 no_tenant *)
| Next (ctx : Context).           (* next.ServeHTTP with this context *)

Definition authMiddleware (s : gate) (h : headers) (ctx : Context) : outcome :=
  let key := request_key h in
  if String.eqb key "" then
    if RequireAuth s then Unauthorized else Next (WithTenant ctx PublicTenant)
  else
    let '(t, ok) := Resolve (Keys s) key in
    if negb ok then Unauthorized else Next (WithTenant ctx t).

Definition requireTenantKey (s : gate) (ctx : Context) : outcome :=
  if MemoryRequireKey s then
    let '(t, _) := TenantFrom ctx in
    if String.eqb t "" || String.eqb t PublicTenant then Forbidden else Next ctx
  else Next ctx.

Definition reqTenant (ctx : Context) : string + outcome :=
  let '(t, ok) := TenantFrom ctx in if ok then inl t else inr InternalError.

(** The chain of the /v1/memory and /v1/volumes routes. *)
Definition memory_chain (s : gate) (h : headers) : string + outcome :=
  match authMiddleware s h None with
  | Next ctx =>
      match requireTenantKey s ctx with
      | Next ctx => reqTenant ctx
      | o => inr o
      end
  | o => inr o
  end.

Lemma authMiddleware_next s h ctx ctx' :
  authMiddleware s h ctx = Next ctx' →
  ∃ t, ctx' = Some t ∧ TenantFrom ctx' = (t, true) ∧
    (t = PublicTenant ∧ (request_key h = "" ∧ RequireAuth s = false ∨ tenants (Keys s) = []) ∨
     request_key h ≠ "" ∧ t = deriveTenant (request_key h) ∧ t ∈ tenants (Keys s)).
Proof.
  unfold authMiddleware. destruct (String.eqb (request_key h) "") eqn:E; boolp.
  - destruct (RequireAuth s) eqn:R; [done|]. intros [= <-].
    exists PublicTenant. repeat split; try done. left. auto.
  - destruct (decide (tenants (Keys s) = [])) as [Hn|Hn].
    + unfold Resolve. rewrite Hn. simpl. intros [= <-].
      exists PublicTenant. repeat split; try done. left. auto.
    + rewrite Resolve_nonempty by done. case_bool_decide as Hin; simpl; [|done].
      intros [= <-]. eexists. split; [done|]. split; [|right; eauto].
      unfold TenantFrom, WithTenant.
      pose proof (deriveTenant_nonempty (request_key h)) as Hd.
      apply String.eqb_neq in Hd. by rewrite Hd.
Qed.

(** The tenant of a request is never chosen by the caller: behind the
    middleware a handler always finds a tenant, which is the public one only
    for a keyless request (when auth is optional) or an open key store, and
    otherwise the digest of the presented key, which the operator configured.
    With [MemoryRequireKey] the memory routes never see the public tenant. *)
Theorem memory_chain_tenant s h :
  match memory_chain s h with
  | inl t =>
      (t = PublicTenant ∧ MemoryRequireKey s = false ∧
         (request_key h = "" ∧ RequireAuth s = false ∨ tenants (Keys s) = [])) ∨
      (request_key h ≠ "" ∧ t = deriveTenant (request_key h) ∧ t ∈ tenants (Keys s))
  | inr o => o = Unauthorized ∨ (o = Forbidden ∧ MemoryRequireKey s = true)
  end.
Proof.
  unfold memory_chain. destruct (authMiddleware s h None) as [| | |ctx] eqn:E; auto.
  { exfalso. revert E. unfold authMiddleware.
    destruct (String.eqb (request_key h) ""), (RequireAuth s),
      (Resolve (Keys s) (request_key h)) as [? []]; done. }
  { exfalso. revert E. unfold authMiddleware.
    destruct (String.eqb (request_key h) ""), (RequireAuth s),
      (Resolve (Keys s) (request_key h)) as [? []]; done. }
  apply authMiddleware_next in E as (t & -> & HT & Ht).
  unfold requireTenantKey. rewrite HT. unfold reqTenant.
  destruct (MemoryRequireKey s) eqn:M.
  - destruct (String.eqb t "" || String.eqb t PublicTenant) eqn:Eb; [by auto|].
    rewrite HT. boolp. destruct Ht as [[-> _]|Ht]; [done|by right].
  - rewrite HT. destruct Ht as [[-> Ht]|Ht]; [left|right]; auto.
Qed.

(** A configured key works however it is padded with white space: the
    request carrying it is served as the tenant of the trimmed key. *)
Theorem configured_key_accepted raw r h s :
  r ∈ raw → TrimSpace r ≠ "" → Keys s = NewKeyStore raw →
  TrimSpace (X_API_Key h) = TrimSpace r →
  authMiddleware s h None = Next (Some (deriveTenant (TrimSpace r))).
Proof.
  intros Hin Hne Hk Hx. unfold authMiddleware, request_key. rewrite Hx.
  apply String.eqb_neq in Hne as Hne'. rewrite !Hne', Hk.
  rewrite Resolve_NewKeyStore.
  rewrite bool_decide_eq_false_2 by (rewrite Forall_forall; naive_solver).
  rewrite bool_decide_eq_true_2; [done|]. apply Exists_exists. eauto.
Qed.
Example configured_key_accepted_witness :
  authMiddleware {| Keys := NewKeyStore ["k1"; " s3cret "]; RequireAuth := true;
                    MemoryRequireKey := true |}
    {| X_API_Key := "  s3cret"; Authorization := "" |} None =
  Next (Some (deriveTenant "s3cret")).
Proof.
  apply (configured_key_accepted ["k1"; " s3cret "] " s3cret ");
    [apply list_elem_of_In; simpl; auto|done|done|done].
Defined.

(** A request without a key is served as the public tenant even when API
    keys are configured, unless the operator also sets [RequireAuth]. *)
Theorem keyless_request_is_public ks m h :
  request_key h = "" →
  authMiddleware {| Keys := ks; RequireAuth := false; MemoryRequireKey := m |} h None =
    Next (Some PublicTenant).
Proof. unfold authMiddleware. by intros ->. Qed.
Example keyless_request_is_public_witness :
  authMiddleware {| Keys := NewKeyStore ["s3cret"]; RequireAuth := false;
                    MemoryRequireKey := false |}
    {| X_API_Key := ""; Authorization := "" |} None = Next (Some PublicTenant).
Proof. apply keyless_request_is_public. reflexivity. Defined.
End Middleware.

(** ** cmd/isoboxd/main.go: loadKeyStore and splitKeys *)
Module Config.
Import KeyStore.

Definition key_sep (c : ascii) : bool :=
  (code c =? 10) || (code c =? 13) || Ascii.eqb c "," || (code c =? 9).
Definition splitKeys (s : string) : list string := fields_func key_sep "" s.

Inductive start := Exit1 | Started (ks : KeyStore).

(** [getenv] is [os.Getenv], [readFile] is [os.ReadFile] ([None]: an error). *)
Definition nonempty_or_exit (ks : KeyStore) : start :=
  if Nat.eqb (Len ks) 0 then Exit1 else Started ks.
Definition loadKeyStore (getenv : string → string) (readFile : string → option string) : start :=
  let path := getenv "ISOBOX_API_KEYS_FILE" in
  if negb (String.eqb path "") then
    match readFile path with
    | None => Exit1
    | Some b => nonempty_or_exit (NewKeyStore (splitKeys b))
    end
  else let raw := getenv "ISOBOX_API_KEYS" in
  if negb (String.eqb raw "") then nonempty_or_exit (NewKeyStore (splitKeys raw))
  else let raw := getenv "ISOBOX_API_KEY" in
  if negb (String.eqb raw "") then nonempty_or_exit (NewKeyStore [raw])
  else Started (NewKeyStore []).

(** An empty store comes only from unset sources. *)
Lemma key_sources getenv readFile ks :
  loadKeyStore getenv readFile = Started ks →
  (tenants ks = [] ↔
     getenv "ISOBOX_API_KEYS_FILE" = "" ∧ getenv "ISOBOX_API_KEYS" = "" ∧
     getenv "ISOBOX_API_KEY" = "").
Proof.
  assert (Hne : ∀ ks', nonempty_or_exit ks' = Started ks → tenants ks ≠ []).
  { intros ks'. unfold nonempty_or_exit, Len. destruct (tenants ks') as [|t l] eqn:E; simpl; [done|].
    intros [= <-]. by rewrite E. }
  unfold loadKeyStore.
  destruct (String.eqb (getenv "ISOBOX_API_KEYS_FILE") "") eqn:E1; simpl; boolp.
  2: { destruct (readFile _); [|done]. intros H%Hne. split; [done|naive_solver]. }
  destruct (String.eqb (getenv "ISOBOX_API_KEYS") "") eqn:E2; simpl; boolp.
  2: { intros H%Hne. split; [done|naive_solver]. }
  destruct (String.eqb (getenv "ISOBOX_API_KEY") "") eqn:E3; simpl; boolp.
  2: { intros H%Hne. split; [done|naive_solver]. }
  intros [= <-]. simpl. naive_solver.
Qed.

(** C39: The daemon never falls open by misconfiguration: if it starts
    with an empty key store, then every key source is unset. *)
Theorem loadKeyStore_fails_closed getenv readFile ks :
  loadKeyStore getenv readFile = Started ks →
  (tenants ks = [] ↔
     getenv "ISOBOX_API_KEYS_FILE" = "" ∧ getenv "ISOBOX_API_KEYS" = "" ∧
     getenv "ISOBOX_API_KEY" = "").
Proof. apply key_sources. Qed.
Example loadKeyStore_fails_closed_witness :
  let ks := NewKeyStore ["a"; "b"] in
  let env := λ v, if String.eqb v "ISOBOX_API_KEYS" then "a,b" else "" in
  tenants ks = [] ↔ env "ISOBOX_API_KEYS_FILE" = "" ∧ env "ISOBOX_API_KEYS" = "" ∧
                    env "ISOBOX_API_KEY" = "".
Proof.
  cbv zeta. apply (loadKeyStore_fails_closed
    (λ v, if String.eqb v "ISOBOX_API_KEYS" then "a,b" else "") (λ _, None)).
  vm_compute. reflexivity.
Defined.
End Config.
