(* ===== verification/Bolt.v ===== *)
(** * go.etcd.io/bbolt: the embedded store, as an interface

    The program stores one bbolt file per tenant.  bbolt is a library: what a
    transaction sees of a database is the class [Bolt], and what the program
    relies on is the class [BoltSpec]: a database denotes a finite map from
    bucket names to finite maps of keys to values, and a cursor walks a bucket
    in byte order.  [db.Update] runs a function and commits its result only if
    the function returns nil; that is modelled where the functions are used. *)

From S2P Require Import Prelude.

Class Bolt (DB : Type) := {
  bolt_new : DB;                                         (* a fresh file *)
  bucket_exists : DB → string → bool;                    (* tx.Bucket(b) != nil *)
  create_bucket : DB → string → DB;                      (* CreateBucketIfNotExists *)
  bget : DB → string → string → option string;           (* b.Get, None = nil *)
  bput : DB → string → string → string → DB;             (* b.Put *)
  bdelete : DB → string → string → DB;                   (* b.Delete *)
  cursor : DB → string → list (string * string) }.       (* First, Next, ... *)

Definition key_le (x y : string * string) : Prop := String.le x.1 y.1.
#[export] Instance key_le_dec x y : Decision (key_le x y).
Proof. unfold key_le, String.le. apply _. Defined.
#[export] Instance key_le_total : Total key_le.
Proof. intros x y. apply (total String.le). Qed.
#[export] Instance key_le_trans : Transitive key_le.
Proof. intros x y z. unfold key_le. apply (transitivity (R := String.le)). Qed.

Class BoltSpec (DB : Type) `{Bolt DB} := {
  bview : DB → gmap string (gmap string string);
  view_new : bview bolt_new = ∅;
  view_exists d b : bucket_exists d b = bool_decide (is_Some (bview d !! b));
  view_create d b : bview (create_bucket d b) =
    match bview d !! b with Some _ => bview d | None => <[b := ∅]> (bview d) end;
  view_get d b k : bget d b k = bview d !! b ≫= λ m, m !! k;
  view_put d b k v m : bview d !! b = Some m →
    bview (bput d b k v) = <[b := <[k := v]> m]> (bview d);
  view_delete d b k m : bview d !! b = Some m →
    bview (bdelete d b k) = <[b := delete k m]> (bview d);
  cursor_perm d b m : bview d !! b = Some m → cursor d b ≡ₚ map_to_list m;
  cursor_sorted d b : StronglySorted key_le (cursor d b) }.

(** A concrete database: the map itself. *)
#[export] Instance gmap_bolt : Bolt (gmap string (gmap string string)) := {|
  bolt_new := ∅;
  bucket_exists d b := bool_decide (is_Some (d !! b));
  create_bucket d b := match d !! b with Some _ => d | None => <[b := ∅]> d end;
  bget d b k := d !! b ≫= λ m, m !! k;
  bput d b k v := match d !! b with Some m => <[b := <[k := v]> m]> d | None => d end;
  bdelete d b k := match d !! b with Some m => <[b := delete k m]> d | None => d end;
  cursor d b := match d !! b with
                | Some m => merge_sort key_le (map_to_list m)
                | None => []
                end |}.

#[export, refine] Instance gmap_bolt_spec : BoltSpec (gmap string (gmap string string)) :=
  {| bview := id |}.
Proof.
  - done.
  - done.
  - done.
  - done.
  - intros d b k v m. simpl. by intros ->.
  - intros d b k m. simpl. by intros ->.
  - intros d b m. simpl. intros ->. apply merge_sort_Permutation.
  - intros d b. simpl. destruct (d !! b); [|constructor].
    apply (StronglySorted_merge_sort key_le).
Defined.
