(* ===== verification/KV.v ===== *)
(** * internal/memory/kv.go: the per-tenant key/value store

    A [Store] manages one bbolt database per tenant.  The files on disk and the
    table of open handles are explicit ([disk], [dbs]); every call receives the
    clock reading and the outcome of the I/O it performs ([call]).  The gob
    encoding of a record is the interface [RecordCodec].  Theorems are in the
    file KVSpec. *)

From S2P Require Import Prelude GoLib GoStrings GoCodec Bolt.
Import Strings.

(** ** Constants, errors and data *)
Definition MaxBytesPerTenant : Z := 10 * 2 ^ 20.
Definition MaxKeysPerTenant : Z := 10000.
Definition MaxNamespaceLen : Z := 128.
Definition MaxKeyLen : Z := 512.
Definition MaxValueLen : Z := 8 * 2 ^ 20.

Inductive KVErr :=
| ErrKVNotFound | ErrKVQuota | ErrKVTenant | ErrKVNamespace | ErrKVKey
| ErrKVValueSize | ErrKVClosed
| ErrOpen | ErrInit | ErrEncode | ErrCommit | ErrBadCursor   (* wrapped I/O and codec errors *).
#[export] Instance KVErr_eq_dec : EqDecision KVErr.
Proof. solve_decision. Defined.

Definition metaBucket : string := "_meta".
Definition ttlBucket : string := "_ttl".
Definition nsPrefix : string := "ns:".
Definition keyUsedBytes : string := "usedBytes".
Definition keyKeyCount : string := "keyCount".

(** Instants are nanoseconds since the epoch; [None] is the zero [time.Time]. *)
Record record := {
  Value : string; ContentType : string; ExpiresAt : option Z; UpdatedAt : Z }.
#[export] Instance record_eq_dec : EqDecision record.
Proof. solve_decision. Defined.

(** [t.After(now)] negated, for a non-zero expiry; false for the zero time. *)
Definition expired (r : record) (now : Z) : bool :=
  match ExpiresAt r with Some e => negb (now <? e) | None => false end.

(** encoding/gob on [record]. *)
Class RecordCodec := {
  encodeRecord : record → option string;
  decodeRecord : string → option record }.
Class RecordCodecSpec `{RecordCodec} :=
  decode_encode r b : encodeRecord r = Some b → decodeRecord b = Some r.

(** ** Validation *)
Definition validTenant (tenant : string) : bool :=
  if String.eqb tenant "public" then true
  else if negb (len tenant =? 64) then false
  else str_forall (λ c, char_between "0" "9" c || char_between "a" "f" c) tenant.

Definition ns_char (c : ascii) : bool :=
  char_between "a" "z" c || char_between "A" "Z" c || char_between "0" "9" c ||
  Ascii.eqb c "_" || Ascii.eqb c "-" || Ascii.eqb c "." || Ascii.eqb c ":".
Definition validNamespace (ns : string) : bool :=
  if String.eqb ns "" || (MaxNamespaceLen <? len ns) then false
  else str_forall ns_char ns.

(** ** Accounting and the TTL index *)
Definition sizeOf (key encoded : string) : Z := len key + len encoded.

(** [t.UnixNano()] is an int64. *)
Definition UnixNano (t : Z) : Z := wrap64 t.

Definition ttlKey (expires : Z) (ns key : string) : string :=
  be_put 8 (u64 (UnixNano expires)) +:+ be_put 2 (len ns mod 2 ^ 16) +:+ ns +:+ key.

Definition parseTTLKey (k : string) : option (string * string * Z) :=
  if len k <? 10 then None else
  let ts := wrap64 (be_get (str_take 8 k)) in
  let nsLen := be_get (str_take 2 (str_drop 8 k)) in
  if len k <? 10 + nsLen then None else
  let rest := str_drop 10 k in
  Some (str_take (Z.to_nat nsLen) rest, str_drop (Z.to_nat nsLen) rest, ts).

Definition nsBucketName (ns : string) : string := nsPrefix +:+ ns.

(** ** Cursors *)
Definition encodeCursor (b : string) : string :=
  Base64.EncodeToString Base64.RawURLEncoding b.
(** [None]: an error; [Some None]: the nil slice. *)
Definition decodeCursor (s : string) : option (option string) :=
  if String.eqb s "" then Some None
  else match Base64.DecodeString Base64.RawURLEncoding s with
       | Some b => Some (Some b)
       | None => None
       end.

Fixpoint seek (s : string) (c : list (string * string)) : list (string * string) :=
  match c with
  | (k, v) :: c' => if String.leb s k then c else seek s c'
  | [] => []
  end.

Section kv.
Context {DB : Type} {BO : Bolt DB} {RC : RecordCodec}.

(** ** Transaction bodies, on one database *)
Definition meta_value (d : DB) (k : string) : Z :=
  match bget d metaBucket k with
  | Some v => if len v =? 8 then wrap64 (be_get v) else 0
  | None => 0
  end.
Definition readKVMeta (d : DB) : Z * Z :=
  if bucket_exists d metaBucket
  then (meta_value d keyUsedBytes, meta_value d keyKeyCount)
  else (0, 0).
Definition writeKVMeta (d : DB) (used count : Z) : DB :=
  let d := create_bucket d metaBucket in
  let used := if used <? 0 then 0 else used in
  let count := if count <? 0 then 0 else count in
  let d := bput d metaBucket keyUsedBytes (be_put 8 (u64 used)) in
  bput d metaBucket keyKeyCount (be_put 8 (u64 count)).

Definition put_tx (ns key : string) (rec : record) (encoded : string) (d : DB) :
    result KVErr DB :=
  let d := create_bucket d (nsBucketName ns) in
  let '(used, count) := readKVMeta d in
  let newSize := sizeOf key encoded in
  let prev := bget d (nsBucketName ns) key in
  let isNew := match prev with Some _ => false | None => true end in
  let oldSize := match prev with Some p => sizeOf key p | None => 0 end in
  let d :=
    match prev ≫= decodeRecord with
    | Some old => match ExpiresAt old with
                  | Some e => bdelete d ttlBucket (ttlKey e ns key)
                  | None => d
                  end
    | None => d
    end in
  let newUsed := wrap64 (wrap64 (used - oldSize) + newSize) in
  let newCount := if isNew then wrap64 (count + 1) else count in
  if (MaxBytesPerTenant <? newUsed) || (MaxKeysPerTenant <? newCount)
  then Err ErrKVQuota else
  let d := bput d (nsBucketName ns) key encoded in
  let d := match ExpiresAt rec with
           | Some e => bput d ttlBucket (ttlKey e ns key) ""
           | None => d
           end in
  Ok (writeKVMeta d newUsed newCount).

Definition get_tx (now : Z) (ns key : string) (d : DB) : result KVErr record :=
  if negb (bucket_exists d (nsBucketName ns)) then Err ErrKVNotFound else
  match bget d (nsBucketName ns) key with
  | None => Err ErrKVNotFound
  | Some raw =>
      match decodeRecord raw with
      | None => Err ErrKVNotFound
      | Some r => if expired r now then Err ErrKVNotFound else Ok r
      end
  end.

Definition delete_tx (ns key : string) (d : DB) : result KVErr DB :=
  if negb (bucket_exists d (nsBucketName ns)) then Ok d else
  match bget d (nsBucketName ns) key with
  | None => Ok d
  | Some prev =>
      let '(used, count) := readKVMeta d in
      let freed := sizeOf key prev in
      let d := match decodeRecord prev with
               | Some old => match ExpiresAt old with
                             | Some e => bdelete d ttlBucket (ttlKey e ns key)
                             | None => d
                             end
               | None => d
               end in
      let d := bdelete d (nsBucketName ns) key in
      Ok (writeKVMeta d (wrap64 (used - freed)) (wrap64 (count - 1)))
  end.

(** The cursor loop of [List]; [keys] is what was collected so far. *)
Fixpoint list_walk (now : Z) (pfx : string) (limit : Z) (keys : list string)
    (c : list (string * string)) : list string * string :=
  match c with
  | [] => (keys, "")
  | (k, v) :: c =>
      if (0 <? len pfx) && negb (HasPrefix k pfx) then (keys, "") else
      let skip := match decodeRecord v with Some r => expired r now | None => false end in
      if skip then list_walk now pfx limit keys c else
      if Z.of_nat (List.length keys) =? limit
      then (keys, encodeCursor (List.last keys ""))
      else list_walk now pfx limit (keys ++ [k]) c
  end.
Definition list_tx (now : Z) (ns pfx : string) (limit : Z) (start : option string)
    (d : DB) : list string * string :=
  if negb (bucket_exists d (nsBucketName ns)) then ([], "") else
  let c := cursor d (nsBucketName ns) in
  let c := match start with
           | Some s => match seek s c with
                       | (k, v) :: c' => if String.eqb k s then c' else (k, v) :: c'
                       | [] => []
                       end
           | None => if 0 <? len pfx then seek pfx c else c
           end in
  list_walk now pfx limit [] c.

Fixpoint pending (nowNanos : Z) (c : list (string * string)) : Z :=
  match c with
  | [] => 0
  | (k, _) :: c =>
      match parseTTLKey k with
      | Some (_, _, ts) => if ts <=? nowNanos then 1 + pending nowNanos c else 0
      | None => 0
      end
  end.
Definition stats_tx (now : Z) (d : DB) : Z * Z * Z :=
  (readKVMeta d,
   if bucket_exists d ttlBucket then pending (UnixNano now) (cursor d ttlBucket) else 0).

(** [sweepDB]: a read transaction collects the due index entries, a write
    transaction re-reads each record and reclaims it. *)
Record due := { d_ns : string; d_key : string; d_ttlK : string }.
Fixpoint collect_due (nowNanos : Z) (c : list (string * string)) : list due :=
  match c with
  | [] => []
  | (k, _) :: c =>
      match parseTTLKey k with
      | None => {| d_ns := ""; d_key := ""; d_ttlK := k |} :: collect_due nowNanos c
      | Some (ns, key, ts) =>
          if nowNanos <? ts then []
          else {| d_ns := ns; d_key := key; d_ttlK := k |} :: collect_due nowNanos c
      end
  end.
Definition sweep_view (now : Z) (d : DB) : list due :=
  if bucket_exists d ttlBucket then collect_due (UnixNano now) (cursor d ttlBucket) else [].

(** The loop state of the write transaction. *)
Record sweep_st := { s_db : DB; s_used : Z; s_count : Z; s_reclaimed : Z }.
Definition sweep_one (now : Z) (s : sweep_st) (x : due) : sweep_st :=
  let drop_index := {| s_db := bdelete (s_db s) ttlBucket (d_ttlK x); s_used := s_used s;
                       s_count := s_count s; s_reclaimed := s_reclaimed s |} in
  if String.eqb (d_ns x) "" && String.eqb (d_key x) "" then drop_index else
  let b := nsBucketName (d_ns x) in
  if negb (bucket_exists (s_db s) b) then drop_index else
  match bget (s_db s) b (d_key x) with
  | None => drop_index
  | Some raw =>
      let live := match decodeRecord raw with
                  | Some r => negb (expired r now)
                  | None => false
                  end in
      if live then drop_index else
      {| s_db := bdelete (bdelete (s_db s) b (d_key x)) ttlBucket (d_ttlK x);
         s_used := wrap64 (s_used s - sizeOf (d_key x) raw);
         s_count := wrap64 (s_count s - 1);
         s_reclaimed := s_reclaimed s + 1 |}
  end.
Definition sweep_update (now : Z) (batch : list due) (d : DB) : DB * Z :=
  let '(used, count) := readKVMeta d in
  let s := foldl (sweep_one now)
    {| s_db := create_bucket d ttlBucket; s_used := used; s_count := count; s_reclaimed := 0 |}
    batch in
  (writeKVMeta (s_db s) (s_used s) (s_count s), s_reclaimed s).
(** The two transactions with nothing in between. *)
Definition sweep_tx (now : Z) (d : DB) : DB * Z :=
  match sweep_view now d with
  | [] => (d, 0)
  | batch => sweep_update now batch d
  end.

(** ** The store *)
Record Store := {
  dir : string; minFreeBytes : Z;
  dbs : gmap string string;      (* open handles: tenant -> file *)
  closed : bool;
  disk : gmap string DB }.       (* the files *)

(** What one call observes of the world. *)
Record call := { now : Z; open_ok : bool; init_ok : bool; commit_ok : bool }.

Definition Open (dir : string) (minFree : Z) (mkdir_ok : bool) (files : gmap string DB) :
    option Store :=
  if String.eqb dir "" then None
  else if negb mkdir_ok then None
  else Some {| dir := dir; minFreeBytes := minFree; dbs := ∅; closed := false; disk := files |}.

(** [statfs] returns the available blocks and the block size, or fails. *)
Definition DiskFull (s : Store) (statfs : option (Z * Z)) : bool :=
  if minFreeBytes s <=? 0 then false else
  match statfs with
  | None => false
  | Some (bavail, bsize) => wrap64 (wrap64 bavail * wrap64 bsize) <? minFreeBytes s
  end.

Definition path (s : Store) (tenant : string) : result KVErr string :=
  if negb (validTenant tenant) then Err ErrKVTenant else
  let p := Filepath.Join [dir s; tenant +:+ ".bolt"] in
  if negb (String.eqb (Filepath.Dir p) (Filepath.Clean (dir s))) then Err ErrKVTenant
  else Ok p.

Definition set_disk (s : Store) (p : string) (d : DB) : Store :=
  {| dir := dir s; minFreeBytes := minFreeBytes s; dbs := dbs s; closed := closed s;
     disk := <[p := d]> (disk s) |}.
Definition init_db (d : DB) : DB := create_bucket (create_bucket d metaBucket) ttlBucket.

Definition getDB (s : Store) (c : call) (tenant : string) : result KVErr string * Store :=
  match path s tenant with
  | Err e => (Err e, s)
  | Ok p =>
      match dbs s !! tenant with
      | Some h => (Ok h, s)
      | None =>
          if closed s then (Err ErrKVClosed, s)
          else if negb (open_ok c) then (Err ErrOpen, s)
          else
            let d := default bolt_new (disk s !! p) in
            if negb (init_ok c) then (Err ErrInit, set_disk s p d) else
            (Ok p, {| dir := dir s; minFreeBytes := minFreeBytes s;
                      dbs := <[tenant := p]> (dbs s); closed := closed s;
                      disk := <[p := init_db d]> (disk s) |})
      end
  end.

Definition Close (s : Store) : Store :=
  {| dir := dir s; minFreeBytes := minFreeBytes s; dbs := ∅; closed := true; disk := disk s |}.

(** [db.Update(f)]: commit what [f] returns, or roll back. *)
Definition Update (s : Store) (c : call) (h : string) (f : DB → result KVErr DB) :
    result KVErr unit * Store :=
  match f (default bolt_new (disk s !! h)) with
  | Err e => (Err e, s)
  | Ok d => if commit_ok c then (Ok tt, set_disk s h d) else (Err ErrCommit, s)
  end.

Definition Put (s : Store) (c : call) (tenant ns key val contentType : string) (ttl : Z) :
    result KVErr unit * Store :=
  if negb (validNamespace ns) then (Err ErrKVNamespace, s)
  else if String.eqb key "" || (MaxKeyLen <? len key) then (Err ErrKVKey, s)
  else if MaxValueLen <? len val then (Err ErrKVValueSize, s)
  else
  match getDB s c tenant with
  | (Err e, s) => (Err e, s)
  | (Ok h, s) =>
      let rec := {| Value := val; ContentType := contentType; UpdatedAt := now c;
                    ExpiresAt := if 0 <? ttl then Some (now c + ttl) else None |} in
      match encodeRecord rec with
      | None => (Err ErrEncode, s)
      | Some encoded =>
          if MaxValueLen <? len encoded then (Err ErrKVValueSize, s)
          else Update s c h (put_tx ns key rec encoded)
      end
  end.

(** The ETag is the quoted hex digest of the value. *)
Definition etag_of (v : string) : string :=
  let q := String (byte_of_Z 34) "" in
  q +:+ Hex.EncodeToString (Sha256.Sum256 v) +:+ q.
Definition Get (s : Store) (c : call) (tenant ns key : string) :
    result KVErr (string * string * option Z * string) * Store :=
  if negb (validNamespace ns) then (Err ErrKVNamespace, s)
  else if String.eqb key "" || (MaxKeyLen <? len key) then (Err ErrKVKey, s)
  else
  match getDB s c tenant with
  | (Err e, s) => (Err e, s)
  | (Ok h, s) =>
      match get_tx (now c) ns key (default bolt_new (disk s !! h)) with
      | Err e => (Err e, s)
      | Ok r => (Ok (Value r, ContentType r, ExpiresAt r, etag_of (Value r)), s)
      end
  end.

Definition Delete (s : Store) (c : call) (tenant ns key : string) : result KVErr unit * Store :=
  if negb (validNamespace ns) then (Err ErrKVNamespace, s)
  else if String.eqb key "" || (MaxKeyLen <? len key) then (Err ErrKVKey, s)
  else
  match getDB s c tenant with
  | (Err e, s) => (Err e, s)
  | (Ok h, s) => Update s c h (delete_tx ns key)
  end.

Definition List (s : Store) (c : call) (tenant ns prefix : string) (limit : Z)
    (cursor : string) : result KVErr (list string * string) * Store :=
  if negb (validNamespace ns) then (Err ErrKVNamespace, s) else
  let limit := if (limit <=? 0) || (1000 <? limit) then 100 else limit in
  match decodeCursor cursor with
  | None => (Err ErrBadCursor, s)
  | Some start =>
      match getDB s c tenant with
      | (Err e, s) => (Err e, s)
      | (Ok h, s) =>
          (Ok (list_tx (now c) ns prefix limit start (default bolt_new (disk s !! h))), s)
      end
  end.

(** [file_exists] is [os.Stat] of the tenant's file. *)
Definition Stats (s : Store) (c : call) (tenant : string) (file_exists : string → bool) :
    result KVErr (Z * Z * Z) * Store :=
  if negb (validTenant tenant) then (Err ErrKVTenant, s) else
  let absent := match dbs s !! tenant, path s tenant with
                | None, Ok p => negb (file_exists p)
                | _, _ => false
                end in
  if absent then (Ok (0, 0, 0), s) else
  match getDB s c tenant with
  | (Err e, s) => (Err e, s)
  | (Ok h, s) => (Ok (stats_tx (now c) (default bolt_new (disk s !! h))), s)
  end.

(** One database of [SweepExpired]; [sweepDB] returns 0 on a failed commit.
    Other transactions may run between the read and the write. *)
Definition sweep_write (s : Store) (c : call) (h : string) (batch : list due) : Z * Store :=
  match batch with
  | [] => (0, s)
  | _ =>
      let '(d', n) := sweep_update (now c) batch (default bolt_new (disk s !! h)) in
      if commit_ok c then (n, set_disk s h d') else (0, s)
  end.
Definition sweepDB (s : Store) (c : call) (h : string) : Z * Store :=
  sweep_write s c h (sweep_view (now c) (default bolt_new (disk s !! h))).
(** [order]: the handles as [sync.Map.Range] visits them, with the call each
    of them observes. *)
Definition SweepExpired (s : Store) (order : list (string * call)) : Z * Store :=
  foldl (λ acc hc, let '(n, s') := sweepDB acc.2 hc.2 hc.1 in (acc.1 + n, s')) (0, s) order.
End kv.
Arguments Store DB : clear implicits.
