(* ===== verification/KVSpec.v ===== *)
(** * Correctness of the key/value store ([KV])

    The store keeps three things in step: the records in the "ns:" buckets, the
    byte and key counters in "_meta", and the expiry index in "_ttl".  [kv_ok]
    is that agreement, stated on what a transaction sees of a database
    ([bview]); the sections below show that every transaction preserves it and
    what each of them does to the records. *)

From S2P Require Import Prelude GoLib GoStrings GoCodec Bolt KV.
Import Strings.

Abbreviation view := (gmap string (gmap string string)).
#[local] Arguments HasPrefix : simpl never.

(** ** Records and counters of a view *)

(** The stored bytes under a namespace and a key. *)
Definition raw_at (B : view) (ns k : string) : option string :=
  B !! nsBucketName ns ≫= λ m, m !! k.

(** The sum of [f] over all records: what the counters stand for. *)
Definition rows (f : string → string → Z) (B : view) : Z :=
  map_sum (λ b m, if HasPrefix b nsPrefix then map_sum f m else 0) B.
Definition used_bytes : view → Z := rows sizeOf.
Definition key_count : view → Z := rows (λ _ _, 1).

Definition meta_of (B : view) (k : string) : Z :=
  match B !! metaBucket ≫= λ m, m !! k with
  | Some v => if len v =? 8 then wrap64 (be_get v) else 0
  | None => 0
  end.

Lemma ns_prefix ns : HasPrefix (nsBucketName ns) nsPrefix = true.
Proof. apply HasPrefix_app. Qed.
Lemma ns_inj ns ns' : nsBucketName ns = nsBucketName ns' → ns = ns'.
Proof. apply app_inj_l. Qed.
Lemma ns_not_meta ns : nsBucketName ns ≠ metaBucket.
Proof. done. Qed.
Lemma ns_not_ttl ns : nsBucketName ns ≠ ttlBucket.
Proof. done. Qed.
Lemma meta_not_ttl : metaBucket ≠ ttlBucket.
Proof. done. Qed.
#[export] Hint Resolve ns_not_meta ns_not_ttl meta_not_ttl : isobox.

Section rows.
Implicit Types (B : view) (f : string → string → Z).

Lemma rows_empty f : rows f ∅ = 0.
Proof. apply map_sum_empty. Qed.

Lemma rows_other f B b m : HasPrefix b nsPrefix = false → rows f (<[b:=m]> B) = rows f B.
Proof.
  intros Hb. unfold rows. rewrite map_sum_insert, Hb.
  destruct (B !! b); simpl; rewrite ?Hb; lia.
Qed.

Lemma rows_set f B ns m m' :
  B !! nsBucketName ns = Some m →
  rows f (<[nsBucketName ns := m']> B) = rows f B - map_sum f m + map_sum f m'.
Proof.
  intros Hm. unfold rows. rewrite map_sum_insert, Hm. simpl.
  done.
Qed.

Lemma rows_put f B ns m k v :
  B !! nsBucketName ns = Some m →
  rows f (<[nsBucketName ns := <[k:=v]> m]> B) =
    rows f B - from_option (f k) 0 (m !! k) + f k v.
Proof. intros Hm. rewrite (rows_set f _ _ _ _ Hm), map_sum_insert. lia. Qed.

Lemma rows_delete f B ns m k v :
  B !! nsBucketName ns = Some m → m !! k = Some v →
  rows f (<[nsBucketName ns := delete k m]> B) = rows f B - f k v.
Proof.
  intros Hm Hk. rewrite (rows_set f _ _ _ _ Hm), (map_sum_delete f m k v Hk). lia.
Qed.

Lemma rows_create f B b : B !! b = None → rows f (<[b:=∅]> B) = rows f B.
Proof.
  intros Hb. unfold rows. rewrite map_sum_insert, Hb. simpl.
  destruct (HasPrefix b nsPrefix); rewrite ?map_sum_empty; lia.
Qed.

Lemma rows_nonneg f B : (∀ k v, 0 ≤ f k v) → 0 ≤ rows f B.
Proof.
  intros Hf. apply map_sum_nonneg. intros b m _. case_match; [|lia].
  apply map_sum_nonneg. auto.
Qed.

Lemma rows_ge_bucket f B ns m :
  (∀ k v, 0 ≤ f k v) → B !! nsBucketName ns = Some m → map_sum f m ≤ rows f B.
Proof.
  intros Hf Hm.
  transitivity ((λ b m, if HasPrefix b nsPrefix then map_sum f m else 0) (nsBucketName ns) m).
  { cbn beta. by rewrite ns_prefix. }
  apply (map_sum_ge_elem
    (λ b m, if HasPrefix b nsPrefix then map_sum f m else 0)); [|done].
  intros b m' _. cbn beta. case_match; [|lia]. apply map_sum_nonneg. auto.
Qed.

Lemma rows_ge f B ns k v :
  (∀ k v, 0 ≤ f k v) → raw_at B ns k = Some v → f k v ≤ rows f B.
Proof.
  intros Hf. unfold raw_at. intros (m & Hm & Hk)%bind_Some.
  transitivity (map_sum f m); [apply map_sum_ge_elem; auto|by apply (rows_ge_bucket f B ns)].
Qed.
End rows.

Lemma sizeOf_nonneg k v : 0 ≤ sizeOf k v.
Proof. unfold sizeOf, len. lia. Qed.
#[export] Hint Resolve sizeOf_nonneg : isobox.

Lemma raw_at_insert_ns (B : view) ns m k : raw_at (<[nsBucketName ns := m]> B) ns k = m !! k.
Proof. unfold raw_at. by rewrite lookup_insert_eq. Qed.
Lemma raw_at_insert_ne (B : view) b m ns k :
  b ≠ nsBucketName ns → raw_at (<[b:=m]> B) ns k = raw_at B ns k.
Proof. intros H. unfold raw_at. by rewrite lookup_insert_ne. Qed.

(** ** The TTL index *)
Lemma ttlKey_length e ns k : len (ttlKey e ns k) = 10 + len ns + len k.
Proof. unfold ttlKey, len. rewrite !slength_app, !length_be_put. lia. Qed.

(** An index key is parsed back to the expiry, the namespace and the key,
    whatever bytes the key holds. *)
Lemma parse_ttlKey e ns k :
  len ns < 2 ^ 16 → parseTTLKey (ttlKey e ns k) = Some (ns, k, UnixNano e).
Proof.
  intros Hns. unfold parseTTLKey. rewrite ttlKey_length.
  pose proof (len_nonneg ns). pose proof (len_nonneg k).
  rewrite (proj2 (Z.ltb_ge _ 10)) by lia.
  unfold ttlKey.
  set (p8 := be_put 8 _). set (p2 := be_put 2 _).
  assert (H8 : String.length p8 = 8%nat) by apply length_be_put.
  assert (H2 : String.length p2 = 2%nat) by apply length_be_put.
  change 10%nat with (8 + 2)%nat. rewrite <- str_drop_drop.
  rewrite (str_take_app_eq 8 p8), (str_drop_app_eq 8 p8) by done.
  rewrite (str_take_app_eq 2 p2), (str_drop_app_eq 2 p2) by done.
  assert (be_get p2 = len ns) as ->.
  { unfold p2. rewrite be_get_put. change (256 ^ Z.of_nat 2) with (2 ^ 16).
    rewrite Z.mod_mod by lia. apply Z.mod_small. lia. }
  rewrite (proj2 (Z.ltb_ge _ _)) by lia.
  unfold len. rewrite Nat2Z.id, str_take_app, str_drop_app. f_equal. f_equal.
  unfold p8. rewrite be_get_put. change (256 ^ Z.of_nat 8) with (2 ^ 64).
  fold (u64 (u64 (UnixNano e))). rewrite !wrap64_u64.
  unfold UnixNano. apply wrap64_id, wrap64_in64.
Qed.

Lemma ttlKey_inj e e' ns ns' k k' :
  len ns < 2 ^ 16 → len ns' < 2 ^ 16 → ttlKey e ns k = ttlKey e' ns' k' →
  ns = ns' ∧ k = k' ∧ UnixNano e = UnixNano e'.
Proof.
  intros Hn Hn' He. pose proof (parse_ttlKey e ns k Hn) as H.
  rewrite He, parse_ttlKey in H by done. by simplify_eq.
Qed.

(** Whatever parses starts with the timestamp it yields. *)
Lemma parseTTLKey_head x ns k ts :
  parseTTLKey x = Some (ns, k, ts) → ∃ z y, ts = wrap64 z ∧ 0 ≤ z < 2 ^ 64 ∧ x = be_put 8 z +:+ y.
Proof.
  unfold parseTTLKey. case_match eqn:Hl; [done|]. case_match; [done|]. intros [= _ _ <-]. boolp.
  assert (Hl8 : String.length (str_take 8 x) = 8%nat).
  { rewrite length_str_take. unfold len in Hl. lia. }
  exists (be_get (str_take 8 x)), (str_drop 8 x). split; [done|].
  destruct (be_get_acc_split 0 (str_take 8 x)) as [_ Hb]. split.
  - unfold len in Hb. rewrite Hl8 in Hb. done.
  - rewrite <- Hl8 at 1. by rewrite be_put_get, str_take_drop.
Qed.

(** Index entries are in byte order of their expiry. *)
Lemma parse_order x ns k ts ts' ns' k' :
  parseTTLKey x = Some (ns, k, ts) → 0 ≤ ts' < 2 ^ 63 → String.le x (ttlKey ts' ns' k') → ts ≤ ts'.
Proof.
  intros (z & y & -> & Hz & ->)%parseTTLKey_head Hb Hle. unfold String.le, ttlKey, UnixNano in Hle.
  apply Is_true_true in Hle. rewrite u64_wrap64, u64_id in Hle by lia.
  apply be_put_leb in Hle; [|lia..]. rewrite wrap64_id by (unfold in64; lia). done.
Qed.
Lemma validNamespace_len ns : validNamespace ns = true → 0 < len ns ≤ MaxNamespaceLen.
Proof.
  unfold validNamespace. case_match eqn:Hb; [done|]. intros _. boolp. split; [|lia].
  destruct ns; [done|]. unfold len. simpl. lia.
Qed.

(** ** The invariant *)
Section spec.
Context {DB : Type} {BO : Bolt DB} {BS : BoltSpec DB} {RC : RecordCodec} {RS : RecordCodecSpec}.
Implicit Types (B : view) (d : DB).

(** What a stored record satisfies. *)
Definition rec_ok (ns k : string) (r : record) : Prop :=
  validNamespace ns = true ∧ k ≠ "" ∧ len k ≤ MaxKeyLen ∧
  ∀ e, ExpiresAt r = Some e → 0 ≤ e.

Definition indexed (B : view) (x : string) : Prop := is_Some (B !! ttlBucket ≫= λ m, m !! x).

(** [u] and [c] are the byte and key counters.  Expiries from the year 2262 on do not fit [UnixNano]:
    their index entry has a negative time, sorts last, and a sweep that comes to it drops it and leaves the
    record, which is not due. *)
Record kv_inv (B : view) (u c : Z) : Prop := {
  inv_rec ns k raw : raw_at B ns k = Some raw →
    ∃ r, decodeRecord raw = Some r ∧ rec_ok ns k r;
  inv_idx ns k raw r e : raw_at B ns k = Some raw → decodeRecord raw = Some r →
    ExpiresAt r = Some e → e < 2 ^ 63 → indexed B (ttlKey e ns k);
  inv_used : u = used_bytes B;
  inv_count : c = key_count B;
  inv_used_le : u ≤ MaxBytesPerTenant;
  inv_count_le : c ≤ MaxKeysPerTenant }.

Definition kv_ok (d : DB) : Prop :=
  kv_inv (bview d) (meta_of (bview d) keyUsedBytes) (meta_of (bview d) keyKeyCount).
Definition opened (d : DB) : Prop :=
  is_Some (bview d !! metaBucket) ∧ is_Some (bview d !! ttlBucket).

(** The record a reader finds, expired or not. *)
Definition rec_at (d : DB) (ns k : string) : option record :=
  raw_at (bview d) ns k ≫= decodeRecord.

Lemma inv_bounds B u c : kv_inv B u c → 0 ≤ u ≤ MaxBytesPerTenant ∧ 0 ≤ c ≤ MaxKeysPerTenant.
Proof.
  intros [_ _ Hu Hc ??]. split; (split; [|done]); subst; apply rows_nonneg; auto with isobox.
  intros; lia.
Qed.

(** Only the records and the index matter. *)
Lemma inv_ext B B' u c :
  (∀ ns k, raw_at B' ns k = raw_at B ns k) → (∀ f, rows f B' = rows f B) →
  (∀ x, indexed B x → indexed B' x) → kv_inv B u c → kv_inv B' u c.
Proof.
  intros Hr Hf Hx [H1 H2 H3 H4 H5 H6]. split; try done.
  - intros ns k raw. rewrite Hr. eauto.
  - intros ns k raw r e. rewrite Hr. eauto.
  - unfold used_bytes. by rewrite Hf.
  - unfold key_count. by rewrite Hf.
Qed.

Lemma readKVMeta_view d :
  readKVMeta d = (meta_of (bview d) keyUsedBytes, meta_of (bview d) keyKeyCount).
Proof.
  unfold readKVMeta, meta_value, meta_of. rewrite view_exists, !view_get.
  case_bool_decide as Hb; [done|].
  destruct (bview d !! metaBucket) eqn:E; [destruct Hb; eauto|done].
Qed.

Lemma meta_of_put B M k z :
  0 ≤ z < 2 ^ 63 → M !! k = Some (be_put 8 (u64 z)) → meta_of (<[metaBucket := M]> B) k = z.
Proof.
  intros Hz Hk. unfold meta_of. rewrite lookup_insert_eq. cbn [mbind option_bind].
  rewrite Hk. unfold len. rewrite length_be_put. change (Z.of_nat 8 =? 8) with true.
  cbn iota. rewrite be_get_put. change (256 ^ Z.of_nat 8) with (2 ^ 64).
  fold (u64 (u64 z)). rewrite !wrap64_u64. apply wrap64_id. unfold in64. lia.
Qed.

Lemma view_create_some d b : is_Some (bview (create_bucket d b) !! b).
Proof.
  rewrite view_create. destruct (bview d !! b) eqn:E; [by rewrite E|].
  rewrite lookup_insert_eq. eauto.
Qed.

(** Writing the counters changes only the meta bucket. *)
Lemma writeKVMeta_view d u c :
  0 ≤ u < 2 ^ 63 → 0 ≤ c < 2 ^ 63 →
  ∃ M, bview (writeKVMeta d u c) = <[metaBucket := M]> (bview d) ∧
       meta_of (<[metaBucket := M]> (bview d)) keyUsedBytes = u ∧
       meta_of (<[metaBucket := M]> (bview d)) keyKeyCount = c.
Proof.
  intros Hu Hc. unfold writeKVMeta.
  rewrite (proj2 (Z.ltb_ge u 0)), (proj2 (Z.ltb_ge c 0)) by lia. cbv zeta.
  destruct (view_create_some d metaBucket) as [M0 HM0].
  assert (Hc0 : <[metaBucket := M0]> (bview (create_bucket d metaBucket)) =
                <[metaBucket := M0]> (bview d)).
  { rewrite view_create. destruct (bview d !! metaBucket); [done|].
    by rewrite insert_insert_eq. }
  eexists. split; [|split].
  - erewrite view_put; [|erewrite view_put by done; apply lookup_insert_eq].
    erewrite view_put by done. rewrite insert_insert_eq.
    rewrite <- (insert_insert_eq (bview (create_bucket d metaBucket)) metaBucket _ M0).
    rewrite Hc0, insert_insert_eq. done.
  - apply meta_of_put; [done|]. rewrite lookup_insert_ne by done. apply lookup_insert_eq.
  - apply meta_of_put; [done|]. apply lookup_insert_eq.
Qed.

Lemma inv_insert_meta B M u c : kv_inv B u c → kv_inv (<[metaBucket := M]> B) u c.
Proof.
  apply inv_ext.
  - intros. apply raw_at_insert_ne. done.
  - intros. by apply rows_other.
  - intros x. unfold indexed. by rewrite lookup_insert_ne.
Qed.

(** Closing a transaction by writing the counters. *)
Lemma writeKVMeta_ok d u c :
  kv_inv (bview d) u c → opened d →
  let d' := writeKVMeta d u c in
  kv_ok d' ∧ opened d' ∧ ∀ ns k, raw_at (bview d') ns k = raw_at (bview d) ns k.
Proof.
  intros Hinv [_ Ht]. pose proof (inv_bounds _ _ _ Hinv) as [Hu Hc].
  unfold MaxBytesPerTenant, MaxKeysPerTenant in *.
  destruct (writeKVMeta_view d u c) as (M & HM & H1 & H2); [lia..|].
  cbv zeta. unfold kv_ok, opened. rewrite HM, H1, H2. split; [by apply inv_insert_meta|].
  split; [split|].
  - rewrite lookup_insert_eq. eauto.
  - by rewrite lookup_insert_ne by done.
  - intros. apply raw_at_insert_ne. done.
Qed.

(** ** What one bucket operation changes *)
Definition same_rows (B B' : view) : Prop :=
  (∀ ns k, raw_at B' ns k = raw_at B ns k) ∧ (∀ f, rows f B' = rows f B).

Lemma obs_ttl B m :
  same_rows B (<[ttlBucket := m]> B) ∧ ∀ x, indexed (<[ttlBucket := m]> B) x ↔ is_Some (m !! x).
Proof.
  repeat split.
  - intros. by apply raw_at_insert_ne.
  - intros. by apply rows_other.
  - unfold indexed. by rewrite lookup_insert_eq.
  - unfold indexed. by rewrite lookup_insert_eq.
Qed.

Lemma obs_del_ttl d x : opened d →
  opened (bdelete d ttlBucket x) ∧ same_rows (bview d) (bview (bdelete d ttlBucket x)) ∧
  (∀ y, indexed (bview (bdelete d ttlBucket x)) y ↔ y ≠ x ∧ indexed (bview d) y) ∧
  (∀ b, b ≠ ttlBucket → bview (bdelete d ttlBucket x) !! b = bview d !! b).
Proof.
  intros [Hm [m Ht]]. erewrite !view_delete by done. destruct (obs_ttl (bview d) (delete x m)) as [H1 H2].
  split; [split|split; [done|split]].
  - by rewrite view_delete with (m := m), lookup_insert_ne by done.
  - rewrite view_delete with (m := m), lookup_insert_eq by done. eauto.
  - intros y. rewrite H2. unfold indexed. rewrite Ht. cbn. rewrite <- !not_eq_None_Some.
    rewrite lookup_delete_None. split; [|naive_solver]. intros Hn. split; naive_solver.
  - intros b Hb. by rewrite lookup_insert_ne.
Qed.

Lemma obs_put_ttl d x v : opened d →
  opened (bput d ttlBucket x v) ∧ same_rows (bview d) (bview (bput d ttlBucket x v)) ∧
  ∀ y, indexed (bview (bput d ttlBucket x v)) y ↔ y = x ∨ indexed (bview d) y.
Proof.
  intros [Hm [m Ht]]. erewrite !view_put by done. destruct (obs_ttl (bview d) (<[x:=v]> m)) as [H1 H2].
  split; [split|split; [done|]].
  - by rewrite view_put with (m := m), lookup_insert_ne by done.
  - rewrite view_put with (m := m), lookup_insert_eq by done. eauto.
  - intros y. rewrite H2. unfold indexed. rewrite Ht. cbn.
    destruct (decide (y = x)) as [->|Hne].
    + rewrite lookup_insert_eq. split; eauto.
    + rewrite lookup_insert_ne by done. naive_solver.
Qed.

Lemma obs_create d b : opened d →
  opened (create_bucket d b) ∧ same_rows (bview d) (bview (create_bucket d b)) ∧
  (∀ x, indexed (bview (create_bucket d b)) x ↔ indexed (bview d) x) ∧
  (∀ k, meta_of (bview (create_bucket d b)) k = meta_of (bview d) k).
Proof.
  intros [Hm Ht]. unfold opened. rewrite !view_create. destruct (bview d !! b) eqn:Hb.
  { repeat split; done. }
  assert (b ≠ metaBucket) by (intros ->; rewrite Hb in Hm; by destruct Hm).
  assert (b ≠ ttlBucket) by (intros ->; rewrite Hb in Ht; by destruct Ht).
  repeat split.
  - by rewrite lookup_insert_ne.
  - by rewrite lookup_insert_ne.
  - intros ns k. unfold raw_at. destruct (decide (b = nsBucketName ns)) as [->|].
    + by rewrite lookup_insert_eq, Hb.
    + by rewrite lookup_insert_ne.
  - intros. by apply rows_create.
  - unfold indexed. by rewrite lookup_insert_ne.
  - unfold indexed. by rewrite lookup_insert_ne.
  - intros k. unfold meta_of. by rewrite lookup_insert_ne.
Qed.

Lemma opened_ns d ns m : opened d → is_Some (<[nsBucketName ns := m]> (bview d) !! metaBucket) ∧
  is_Some (<[nsBucketName ns := m]> (bview d) !! ttlBucket).
Proof. intros [??]. rewrite !lookup_insert_ne by done. done. Qed.

Lemma obs_put d ns k v : opened d → is_Some (bview d !! nsBucketName ns) →
  let d' := bput d (nsBucketName ns) k v in
  opened d' ∧ (∀ x, indexed (bview d') x ↔ indexed (bview d) x) ∧
  (∀ ns' k', raw_at (bview d') ns' k' =
     if decide (ns' = ns ∧ k' = k) then Some v else raw_at (bview d) ns' k') ∧
  (∀ f, rows f (bview d') =
     rows f (bview d) - from_option (f k) 0 (raw_at (bview d) ns k) + f k v).
Proof.
  intros Ho [m Hm]. cbv zeta. unfold opened. erewrite !view_put by done.
  split; [by apply opened_ns|]. split; [|split].
  - intros x. unfold indexed. by rewrite lookup_insert_ne.
  - intros ns' k'. destruct (decide (ns' = ns)) as [->|Hns].
    + rewrite raw_at_insert_ns. unfold raw_at. rewrite Hm. cbn.
      destruct (decide (ns = ns ∧ k' = k)) as [[_ ->]|Hk]; [apply lookup_insert_eq|].
      rewrite lookup_insert_ne; [done|]. intros ->. by apply Hk.
    + rewrite raw_at_insert_ne by (intros He; apply Hns; symmetry; by apply ns_inj).
      rewrite decide_False; [done|]. by intros [? _].
  - intros f. rewrite (rows_put f _ ns m) by done. unfold raw_at. by rewrite Hm.
Qed.

Lemma obs_del d ns k v : opened d → raw_at (bview d) ns k = Some v →
  let d' := bdelete d (nsBucketName ns) k in
  opened d' ∧ (∀ x, indexed (bview d') x ↔ indexed (bview d) x) ∧
  (∀ ns' k', raw_at (bview d') ns' k' =
     if decide (ns' = ns ∧ k' = k) then None else raw_at (bview d) ns' k') ∧
  (∀ f, rows f (bview d') = rows f (bview d) - f k v).
Proof.
  intros Ho (m & Hm & Hk)%bind_Some. cbv zeta. unfold opened. erewrite !view_delete by done.
  split; [by apply opened_ns|]. split; [|split].
  - intros x. unfold indexed. by rewrite lookup_insert_ne.
  - intros ns' k'. destruct (decide (ns' = ns)) as [->|Hns].
    + rewrite raw_at_insert_ns. unfold raw_at. rewrite Hm. cbn.
      destruct (decide (ns = ns ∧ k' = k)) as [[_ ->]|Hne]; [apply lookup_delete_eq|].
      rewrite lookup_delete_ne; [done|]. intros ->. by apply Hne.
    + rewrite raw_at_insert_ne by (intros He; apply Hns; symmetry; by apply ns_inj).
      rewrite decide_False; [done|]. by intros [? _].
  - intros f. by rewrite (rows_delete f _ ns m k v).
Qed.

Lemma rec_at_raw d d' ns k :
  raw_at (bview d') ns k = raw_at (bview d) ns k → rec_at d' ns k = rec_at d ns k.
Proof. unfold rec_at. by intros ->. Qed.

Lemma small_ns ns : validNamespace ns = true → len ns < 2 ^ 16.
Proof. intros H%validNamespace_len. unfold MaxNamespaceLen in H. lia. Qed.

(** Dropping a record's own index entry, as [Put] and [Delete] do. *)
Lemma drop_own_index d ns k (old : option record) : opened d → validNamespace ns = true →
  let d' := match old with
            | Some r => match ExpiresAt r with
                        | Some e => bdelete d ttlBucket (ttlKey e ns k)
                        | None => d
                        end
            | None => d
            end in
  opened d' ∧ same_rows (bview d) (bview d') ∧
  (∀ ns' k' e, (ns', k') ≠ (ns, k) → validNamespace ns' = true →
     indexed (bview d) (ttlKey e ns' k') → indexed (bview d') (ttlKey e ns' k')) ∧
  (∀ b, b ≠ ttlBucket → bview d' !! b = bview d !! b).
Proof.
  intros Ho Hns. cbv zeta.
  destruct old as [r|]; [destruct (ExpiresAt r) as [e|]|].
  2,3: split; [done|split; [by split|split; auto]].
  destruct (obs_del_ttl d (ttlKey e ns k) Ho) as (H1 & H2 & H3 & H4).
  repeat split; [apply H1..|apply H2|apply H2| |done].
  intros ns' k' e' Hne Hns' Hi. apply H3. split; [|done].
  intros He. apply ttlKey_inj in He as (-> & -> & _); [done|by apply small_ns..].
Qed.

Lemma meta_of_same (B B' : view) k : B' !! metaBucket = B !! metaBucket → meta_of B' k = meta_of B k.
Proof. unfold meta_of. by intros ->. Qed.

Lemma old_size_bounds B u c ns k : kv_inv B u c →
  0 ≤ from_option (sizeOf k) 0 (raw_at B ns k) ≤ u.
Proof.
  intros Hinv. pose proof (inv_bounds _ _ _ Hinv) as [Hu _].
  rewrite (inv_used _ _ _ Hinv) in *. destruct (raw_at B ns k) as [p|] eqn:E; simpl; [|lia].
  split; [apply sizeOf_nonneg|]. apply (rows_ge sizeOf _ ns); [apply sizeOf_nonneg|done].
Qed.

(** The writes of [Put]: the old index entry, the record, its index entry. *)
Lemma put_record_ok d u c ns k rec encoded :
  kv_inv (bview d) u c → opened d → is_Some (bview d !! nsBucketName ns) →
  rec_ok ns k rec → decodeRecord encoded = Some rec →
  let old := raw_at (bview d) ns k in
  let nu := u - from_option (sizeOf k) 0 old + sizeOf k encoded in
  let nc := if old is Some _ then c else c + 1 in
  nu ≤ MaxBytesPerTenant → nc ≤ MaxKeysPerTenant →
  let d2 := match old ≫= decodeRecord with
            | Some r => match ExpiresAt r with
                        | Some e => bdelete d ttlBucket (ttlKey e ns k)
                        | None => d
                        end
            | None => d
            end in
  let d3 := bput d2 (nsBucketName ns) k encoded in
  let d4 := match ExpiresAt rec with
            | Some e => bput d3 ttlBucket (ttlKey e ns k) ""
            | None => d3
            end in
  kv_inv (bview d4) nu nc ∧ opened d4 ∧
  ∀ ns' k', raw_at (bview d4) ns' k' =
    if decide (ns' = ns ∧ k' = k) then Some encoded else raw_at (bview d) ns' k'.
Proof.
  intros Hinv Ho Hsome Hrec Hdec old nu nc Hnu Hnc d2 d3 d4.
  destruct (drop_own_index d ns k (old ≫= decodeRecord) Ho (proj1 Hrec))
    as (Ho2 & [Hr2 Hf2] & Hi2 & Hb2). fold d2 in Ho2, Hr2, Hf2, Hi2, Hb2.
  destruct (obs_put d2 ns k encoded Ho2) as (Ho3 & Hi3 & Hr3 & Hf3);
    [by rewrite Hb2|]. fold d3 in Ho3, Hi3, Hr3, Hf3.
  assert (H4 : opened d4 ∧ same_rows (bview d3) (bview d4) ∧
    (∀ x, indexed (bview d3) x → indexed (bview d4) x) ∧
    ∀ e, ExpiresAt rec = Some e → indexed (bview d4) (ttlKey e ns k)).
  { unfold d4. destruct (ExpiresAt rec) as [e|].
    2:{ split; [done|split; [by split|split; [auto|done]]]. }
    destruct (obs_put_ttl d3 (ttlKey e ns k) "" Ho3) as (H41 & H42 & H43).
    split; [done|split; [done|split]].
    - intros x Hx. apply H43. by right.
    - intros e' [= <-]. apply H43. by left. }
  destruct H4 as (Ho4 & [Hr4 Hf4] & Hi4 & Hown).
  assert (Hraw : ∀ ns' k', raw_at (bview d4) ns' k' =
    if decide (ns' = ns ∧ k' = k) then Some encoded else raw_at (bview d) ns' k').
  { intros ns' k'. rewrite Hr4, Hr3, Hr2. done. }
  split; [|done]. split; try done.
  - intros ns' k' raw. rewrite Hraw. case_decide as Hd; [|apply (inv_rec _ _ _ Hinv)].
    intros [= <-]. destruct Hd as [-> ->]. eauto.
  - intros ns' k' raw r e. rewrite Hraw. case_decide as Hd.
    + destruct Hd as [-> ->]. intros [= <-] Hr He _. simplify_eq. by apply Hown.
    + intros Hraw' Hr He Hlt. apply Hi4, Hi3, Hi2.
      * intros [= -> ->]. by apply Hd.
      * destruct (inv_rec _ _ _ Hinv _ _ _ Hraw') as (? & _ & H & _). done.
      * by apply (inv_idx _ _ _ Hinv _ _ raw r).
  - unfold nu, used_bytes. rewrite Hf4, Hf3, Hr2, Hf2, (inv_used _ _ _ Hinv). done.
  - unfold nc, key_count. rewrite Hf4, Hf3, Hr2, Hf2, (inv_count _ _ _ Hinv). fold old.
    unfold key_count. destruct old; simpl; lia.
Qed.

(** The quota test of [Put], on the exact totals. *)
Definition over_quota (B : view) (ns k encoded : string) : bool :=
  let old := raw_at B ns k in
  (MaxBytesPerTenant <? used_bytes B - from_option (sizeOf k) 0 old + sizeOf k encoded) ||
  (MaxKeysPerTenant <? if old is Some _ then key_count B else key_count B + 1).

(** A write that fits keeps the invariant and replaces exactly one record;
    one that does not fit is refused. *)
Lemma put_tx_ok d ns k rec encoded :
  kv_ok d → opened d → rec_ok ns k rec → encodeRecord rec = Some encoded →
  len encoded ≤ MaxValueLen →
  if over_quota (bview d) ns k encoded then put_tx ns k rec encoded d = Err ErrKVQuota
  else ∃ d', put_tx ns k rec encoded d = Ok d' ∧ kv_ok d' ∧ opened d' ∧
    ∀ ns' k', rec_at d' ns' k' = if decide (ns' = ns ∧ k' = k) then Some rec else rec_at d ns' k'.
Proof.
  intros Hok Ho Hrec Henc Hlen. unfold kv_ok in Hok.
  destruct (obs_create d (nsBucketName ns) Ho) as (Ho1 & [Hr1 Hf1] & Hi1 & Hm1).
  pose proof (view_create_some d (nsBucketName ns)) as Hsome.
  unfold put_tx. cbv zeta. set (d1 := create_bucket d (nsBucketName ns)) in *.
  rewrite readKVMeta_view, !Hm1, view_get.
  change (bview d1 !! nsBucketName ns ≫= λ m, m !! k) with (raw_at (bview d1) ns k).
  pose proof (inv_bounds _ _ _ Hok) as [Hu Hc].
  pose proof (old_size_bounds _ _ _ ns k Hok) as Hold.
  assert (Hinv1 := inv_ext _ (bview d1) _ _ Hr1 Hf1 (λ x, proj2 (Hi1 x)) Hok).
  set (u := meta_of (bview d) keyUsedBytes) in *. set (c := meta_of (bview d) keyKeyCount) in *.
  pose proof (put_record_ok d1 u c ns k rec encoded Hinv1 Ho1 Hsome Hrec
    (decode_encode _ _ Henc)) as Hput.
  unfold over_quota. rewrite <- (inv_used _ _ _ Hok), <- (inv_count _ _ _ Hok).
  cbv zeta in *. rewrite Hr1 in *. set (old := raw_at (bview d) ns k) in *.
  assert (Hos : match old with Some p => sizeOf k p | None => 0 end =
                from_option (sizeOf k) 0 old) by by destruct old.
  rewrite Hos. pose proof (sizeOf_nonneg k encoded).
  assert (sizeOf k encoded ≤ MaxKeyLen + MaxValueLen)
    by (destruct Hrec as (_ & _ & Hkl & _); unfold sizeOf; lia).
  unfold MaxBytesPerTenant, MaxKeysPerTenant, MaxKeyLen, MaxValueLen in *.
  rewrite (wrap64_id (u - _)) by (unfold in64; lia).
  rewrite !wrap64_id by (unfold in64; lia).
  assert (Hn : (if match old with Some _ => false | None => true end then c + 1 else c) =
               match old with Some _ => c | None => c + 1 end) by by destruct old.
  rewrite Hn. destruct (_ || _) eqn:Hq; [done|]. boolp.
  destruct Hput as (Hinv4 & Ho4 & Hr4); [lia..|].
  destruct (writeKVMeta_ok _ _ _ Hinv4 Ho4) as (Hok5 & Ho5 & Hr5).
  eexists. split; [done|]. split; [done|]. split; [done|].
  intros ns' k'. unfold rec_at. rewrite Hr5, Hr4. case_decide; [apply (decode_encode _ _ Henc)|].
  by rewrite Hr1.
Qed.

(** Removing one record, with or without its index entry. *)
Lemma remove_record_ok d u c ns k raw :
  kv_inv (bview d) u c → opened d → raw_at (bview d) ns k = Some raw →
  let d' := bdelete d (nsBucketName ns) k in
  kv_inv (bview d') (u - sizeOf k raw) (c - 1) ∧ opened d' ∧
  ∀ ns' k', raw_at (bview d') ns' k' =
    if decide (ns' = ns ∧ k' = k) then None else raw_at (bview d) ns' k'.
Proof.
  intros Hinv Ho Hraw. destruct (obs_del d ns k raw Ho Hraw) as (Ho' & Hi' & Hr' & Hf').
  cbv zeta. set (d' := bdelete d (nsBucketName ns) k) in *.
  pose proof (inv_bounds _ _ _ Hinv) as [??]. pose proof (sizeOf_nonneg k raw).
  split; [|done]. split.
  - intros ns' k' r. rewrite Hr'. case_decide; [done|]. apply (inv_rec _ _ _ Hinv).
  - intros ns' k' raw' r e. rewrite Hr'. case_decide; [done|]. intros. apply Hi'.
    by apply (inv_idx _ _ _ Hinv _ _ raw' r).
  - unfold used_bytes. by rewrite Hf', (inv_used _ _ _ Hinv).
  - unfold key_count. by rewrite Hf', (inv_count _ _ _ Hinv).
  - lia.
  - lia.
Qed.

(** Dropping an index entry that no record owns. *)
Lemma drop_entry_ok d u c x :
  kv_inv (bview d) u c → opened d →
  (∀ ns k r e, rec_at d ns k = Some r → ExpiresAt r = Some e → e < 2 ^ 63 → ttlKey e ns k ≠ x) →
  let d' := bdelete d ttlBucket x in
  kv_inv (bview d') u c ∧ opened d' ∧ ∀ ns k, raw_at (bview d') ns k = raw_at (bview d) ns k.
Proof.
  intros Hinv Ho Hx. destruct (obs_del_ttl d x Ho) as (Ho' & [Hr Hf] & Hi & _).
  cbv zeta. split; [|done]. split.
  - intros ns k raw. rewrite Hr. apply (inv_rec _ _ _ Hinv).
  - intros ns k raw r e. rewrite Hr. intros Hraw Hdec He Hlt. apply Hi. split.
    + apply (Hx _ _ r); [|done..]. unfold rec_at. by rewrite Hraw.
    + by apply (inv_idx _ _ _ Hinv _ _ raw r).
  - unfold used_bytes. by rewrite Hf, (inv_used _ _ _ Hinv).
  - unfold key_count. by rewrite Hf, (inv_count _ _ _ Hinv).
  - apply (inv_used_le _ _ _ Hinv).
  - apply (inv_count_le _ _ _ Hinv).
Qed.

(** An index key determines the record it belongs to. *)
Lemma own_entry d u c ns k r e x :
  kv_inv (bview d) u c → rec_at d ns k = Some r → ExpiresAt r = Some e → e < 2 ^ 63 → ttlKey e ns k = x →
  validNamespace ns = true ∧ k ≠ "" ∧ 0 ≤ e < 2 ^ 63 ∧ parseTTLKey x = Some (ns, k, e).
Proof.
  intros Hinv (raw & Hraw & Hdec)%bind_Some He Hlt <-.
  destruct (inv_rec _ _ _ Hinv _ _ _ Hraw) as (r' & Hr' & Hns & Hk & _ & Hexp).
  simplify_eq. apply Hexp in He as Hb. repeat split; try done; [lia..|].
  rewrite parse_ttlKey by by apply small_ns.
  unfold UnixNano. rewrite wrap64_id by (unfold in64; lia). done.
Qed.

(** ** Deletion *)
Lemma delete_tx_ok d ns k :
  kv_ok d → opened d → validNamespace ns = true →
  ∃ d', delete_tx ns k d = Ok d' ∧ kv_ok d' ∧ opened d' ∧
    ∀ ns' k', rec_at d' ns' k' = if decide (ns' = ns ∧ k' = k) then None else rec_at d ns' k'.
Proof.
  intros Hok Ho Hns. unfold delete_tx. rewrite view_exists, view_get.
  change (bview d !! nsBucketName ns ≫= λ m, m !! k) with (raw_at (bview d) ns k).
  assert (Hnone : raw_at (bview d) ns k = None → ∀ ns' k',
    rec_at d ns' k' = if decide (ns' = ns ∧ k' = k) then None else rec_at d ns' k').
  { intros Hn ns' k'. case_decide as Hd; [|done]. destruct Hd as [-> ->].
    unfold rec_at. by rewrite Hn. }
  case_bool_decide as Hb; cbn [negb].
  2:{ exists d. repeat split; try apply Hok; try apply Ho. apply Hnone. unfold raw_at.
      destruct (bview d !! nsBucketName ns); [|done]. destruct Hb. eauto. }
  destruct (raw_at (bview d) ns k) as [raw|] eqn:Hraw.
  2:{ exists d. repeat split; try apply Hok; try apply Ho. by apply Hnone. }
  rewrite readKVMeta_view. cbv beta iota zeta. unfold kv_ok in Hok.
  pose proof (inv_bounds _ _ _ Hok) as [Hu Hc].
  pose proof (old_size_bounds _ _ _ ns k Hok) as Hold. rewrite Hraw in Hold. cbn in Hold.
  set (u := meta_of (bview d) keyUsedBytes) in *. set (c := meta_of (bview d) keyKeyCount) in *.
  destruct (drop_own_index d ns k (decodeRecord raw) Ho Hns) as (Ho1 & [Hr1 Hf1] & Hi1 & Hb1).
  set (d1 := match decodeRecord raw with Some _ => _ | None => d end) in *.
  destruct (obs_del d1 ns k raw Ho1) as (Ho2 & Hi2 & Hr2 & Hf2); [by rewrite Hr1|].
  set (d2 := bdelete d1 (nsBucketName ns) k) in *.
  pose proof (sizeOf_nonneg k raw). unfold MaxBytesPerTenant, MaxKeysPerTenant in *.
  rewrite !wrap64_id by (unfold in64; lia).
  assert (Hinv2 : kv_inv (bview d2) (u - sizeOf k raw) (c - 1)).
  { split; unfold MaxBytesPerTenant, MaxKeysPerTenant; try lia.
    - intros ns' k' raw'. rewrite Hr2, Hr1. case_decide; [done|]. apply (inv_rec _ _ _ Hok).
    - intros ns' k' raw' r e. rewrite Hr2, Hr1. case_decide as Hd; [done|].
      intros Hraw' Hdec He Hlt. apply Hi2, Hi1.
      + intros [= -> ->]. by apply Hd.
      + destruct (inv_rec _ _ _ Hok _ _ _ Hraw') as (? & _ & Hv & _). done.
      + by apply (inv_idx _ _ _ Hok _ _ raw' r).
    - unfold used_bytes. by rewrite Hf2, Hf1, (inv_used _ _ _ Hok).
    - unfold key_count. by rewrite Hf2, Hf1, (inv_count _ _ _ Hok). }
  destruct (writeKVMeta_ok _ _ _ Hinv2 Ho2) as (Hok3 & Ho3 & Hr3).
  eexists. split; [done|]. split; [done|]. split; [done|].
  intros ns' k'. unfold rec_at. rewrite Hr3, Hr2, Hr1. by case_decide.
Qed.

(** ** The sweep *)
Definition expired_at (d : DB) (t : Z) (ns k : string) : bool :=
  match rec_at d ns k with Some r => expired r t | None => false end.

(** What a batch entry promises, whichever state it was collected in. *)
Definition due_ok (t : Z) (x : due) : Prop :=
  ∀ ns k ts, parseTTLKey (d_ttlK x) = Some (ns, k, ts) → d_ns x = ns ∧ d_key x = k ∧ ts ≤ t.

Lemma collect_due_ok t c : Forall (due_ok t) (collect_due t c).
Proof.
  induction c as [|[x v] c IH]; [constructor|]. cbn [collect_due].
  destruct (parseTTLKey x) as [[[ns k] ts]|] eqn:Hp.
  - case_match eqn:Hlt; [constructor|]. boolp. constructor; [|done].
    intros ns' k' ts'. cbn. rewrite Hp. intros [= <- <- <-]. done.
  - constructor; [|done]. intros ns k ts. cbn. by rewrite Hp.
Qed.

(** The entries of the index not after [t] are all collected. *)
Lemma collect_due_complete t c x v ns k ts :
  StronglySorted key_le c → (x, v) ∈ c → x = ttlKey ts ns k → len ns < 2 ^ 16 →
  0 ≤ ts ≤ t → t < 2 ^ 63 →
  ∃ y, y ∈ collect_due t c ∧ d_ns y = ns ∧ d_key y = k.
Proof.
  intros Hs Hin -> Hns Hts Ht. induction c as [|[y w] c IH]; [by apply elem_of_nil in Hin|].
  apply StronglySorted_inv in Hs as [Hs Hall]. cbn [collect_due].
  assert (Hp := parse_ttlKey ts ns k Hns). unfold UnixNano in Hp.
  rewrite wrap64_id in Hp by (unfold in64; lia).
  apply elem_of_cons in Hin as [[= <- <-]|Hin].
  - rewrite Hp. rewrite (proj2 (Z.ltb_ge _ _)) by lia. eexists. split; [left|done].
  - destruct IH as (z & Hz & Hzn); [done..|].
    destruct (parseTTLKey y) as [[[ns' k'] ts']|] eqn:Hpy.
    + assert (ts' ≤ ts).
      { apply (parse_order y ns' k' ts' ts ns k); [done|lia|].
        rewrite Forall_forall in Hall. apply (Hall _ Hin). }
      rewrite (proj2 (Z.ltb_ge _ _)) by lia. exists z. split; [by right|done].
    + exists z. split; [by right|done].
Qed.

(** One step of the write transaction: an expired record goes, a live one
    stays, and the counters follow. *)
Lemma sweep_one_ok t s x :
  kv_inv (bview (s_db s)) (s_used s) (s_count s) → opened (s_db s) → in64 t →
  due_ok (UnixNano t) x →
  let s' := sweep_one t s x in
  kv_inv (bview (s_db s')) (s_used s') (s_count s') ∧ opened (s_db s') ∧
  s_count s' + s_reclaimed s' = s_count s + s_reclaimed s ∧
  ∀ ns k, rec_at (s_db s') ns k =
    if decide (ns = d_ns x ∧ k = d_key x) then
      if expired_at (s_db s) t ns k then None else rec_at (s_db s) ns k
    else rec_at (s_db s) ns k.
Proof.
  intros Hinv Ho Ht Hx. cbv zeta. destruct s as [d u c n]; cbn [s_db s_used s_count s_reclaimed] in *.
  assert (HU : UnixNano t = t) by by apply wrap64_id.
  (* dropping the entry is right when the record named by it is not expired *)
  assert (Hdrop : expired_at d t (d_ns x) (d_key x) = false →
    let d' := bdelete d ttlBucket (d_ttlK x) in
    kv_inv (bview d') u c ∧ opened d' ∧ c + n = c + n ∧
    ∀ ns k, rec_at d' ns k = if decide (ns = d_ns x ∧ k = d_key x) then
      if expired_at d t ns k then None else rec_at d ns k else rec_at d ns k).
  { intros Hlive. destruct (drop_entry_ok d u c (d_ttlK x) Hinv Ho) as (H1 & H2 & H3).
    { intros ns k r e Hr He Hlt Heq.
      destruct (own_entry _ _ _ _ _ _ _ _ Hinv Hr He Hlt Heq) as (_ & _ & Hb & Hp).
      destruct (Hx _ _ _ Hp) as (Hn & Hk & Hle). rewrite Hn, Hk in Hlive.
      unfold expired_at in Hlive. rewrite Hr in Hlive. unfold expired in Hlive.
      rewrite He in Hlive. boolp. lia. }
    repeat split; try apply H1; try apply H2. intros ns k.
    rewrite (rec_at_raw d) by apply H3. case_decide as Hd; [|done].
    destruct Hd as [-> ->]. by rewrite Hlive. }
  unfold sweep_one. cbn [s_db s_used s_count s_reclaimed]. rewrite view_exists, view_get.
  change (bview d !! nsBucketName (d_ns x) ≫= λ m, m !! d_key x)
    with (raw_at (bview d) (d_ns x) (d_key x)).
  case_match eqn:Hjunk.
  { apply Hdrop. apply andb_true_iff in Hjunk as [Hj _]. apply String.eqb_eq in Hj.
    unfold expired_at, rec_at. rewrite Hj. destruct (raw_at (bview d) "" (d_key x)) eqn:Hr; [|done].
    destruct (inv_rec _ _ _ Hinv _ _ _ Hr) as (? & _ & Hv & _). done. }
  case_bool_decide as Hb; cbn [negb].
  2:{ apply Hdrop. unfold expired_at, rec_at, raw_at.
      destruct (bview d !! nsBucketName (d_ns x)); [destruct Hb; eauto|done]. }
  destruct (raw_at (bview d) (d_ns x) (d_key x)) as [raw|] eqn:Hraw.
  2:{ apply Hdrop. unfold expired_at, rec_at. by rewrite Hraw. }
  destruct (inv_rec _ _ _ Hinv _ _ _ Hraw) as (r & Hdec & _). rewrite Hdec.
  assert (Hex : expired_at d t (d_ns x) (d_key x) = expired r t).
  { unfold expired_at, rec_at. by rewrite Hraw; cbn; rewrite Hdec. }
  destruct (expired r t) eqn:He; cbn [negb]; [|by apply Hdrop].
  pose proof (inv_bounds _ _ _ Hinv) as [Hu Hc].
  destruct (remove_record_ok d u c _ _ raw Hinv Ho Hraw) as (H1 & H2 & H3).
  pose proof (inv_bounds _ _ _ H1) as [Hu' Hc'].
  destruct (drop_entry_ok _ _ _ (d_ttlK x) H1 H2) as (H4 & H5 & H6).
  { intros ns k r' e Hr' He' Hlt Heq.
    destruct (own_entry _ _ _ _ _ _ _ _ H1 Hr' He' Hlt Heq) as (_ & _ & _ & Hp).
    destruct (Hx _ _ _ Hp) as (Hn & Hk & _). unfold rec_at in Hr'.
    rewrite H3, decide_True in Hr' by done. done. }
  unfold MaxBytesPerTenant, MaxKeysPerTenant in *.
  cbn [s_db s_used s_count s_reclaimed]. rewrite !wrap64_id by (unfold in64; lia).
  split; [done|]. split; [done|]. split; [lia|].
  intros ns k. unfold rec_at. rewrite H6, H3. case_decide as Hd; [|done].
  destruct Hd as [-> ->]. by rewrite Hex.
Qed.

Definition in_batch (batch : list due) (ns k : string) : bool :=
  existsb (λ x, bool_decide (ns = d_ns x ∧ k = d_key x)) batch.

Lemma sweep_fold_ok t batch s :
  kv_inv (bview (s_db s)) (s_used s) (s_count s) → opened (s_db s) → in64 t →
  Forall (due_ok (UnixNano t)) batch →
  let s' := foldl (sweep_one t) s batch in
  kv_inv (bview (s_db s')) (s_used s') (s_count s') ∧ opened (s_db s') ∧
  s_count s' + s_reclaimed s' = s_count s + s_reclaimed s ∧
  ∀ ns k, rec_at (s_db s') ns k =
    if in_batch batch ns k && expired_at (s_db s) t ns k then None else rec_at (s_db s) ns k.
Proof.
  revert s. induction batch as [|x batch IH]; intros s Hinv Ho Ht Hb; [done|].
  apply Forall_cons in Hb as [Hx Hb].
  destruct (sweep_one_ok t s x Hinv Ho Ht Hx) as (H1 & H2 & H3 & H4).
  destruct (IH _ H1 H2 Ht Hb) as (H5 & H6 & H7 & H8).
  cbn [foldl]. split; [done|split; [done|split; [lia|]]].
  intros ns k. rewrite H8. unfold expired_at at 1. rewrite H4. cbn [in_batch existsb].
  unfold expired_at. case_decide as Hd.
  - rewrite (bool_decide_eq_true_2 _ Hd). cbn [orb andb].
    destruct (rec_at (s_db s) ns k) as [r|]; [|by rewrite andb_false_r].
    destruct (expired r t) eqn:He; [by rewrite andb_false_r|].
    by rewrite He, andb_false_r.
  - rewrite (bool_decide_eq_false_2 _ Hd). cbn [orb]. done.
Qed.

Lemma readKVMeta_create d b : opened d → readKVMeta (create_bucket d b) = readKVMeta d.
Proof.
  intros Ho. destruct (obs_create d b Ho) as (_ & _ & _ & Hm).
  by rewrite !readKVMeta_view, !Hm.
Qed.

Lemma kv_ok_count d : kv_ok d → (readKVMeta d).2 = key_count (bview d).
Proof. intros Hok. rewrite readKVMeta_view. apply (inv_count _ _ _ Hok). Qed.

(** The write transaction of a sweep, on any batch collected from any state. *)
Lemma sweep_update_ok t batch d d' n :
  kv_ok d → opened d → in64 t → Forall (due_ok (UnixNano t)) batch →
  sweep_update t batch d = (d', n) →
  kv_ok d' ∧ opened d' ∧ n = key_count (bview d) - key_count (bview d') ∧
  ∀ ns k, rec_at d' ns k =
    if in_batch batch ns k && expired_at d t ns k then None else rec_at d ns k.
Proof.
  intros Hok Ho Ht Hb. unfold sweep_update. pose proof (kv_ok_count d Hok) as Hkc.
  pose proof Hok as Hok'. unfold kv_ok in Hok'. rewrite readKVMeta_view in *.
  cbn [snd] in Hkc. cbv beta iota zeta.
  destruct (obs_create d ttlBucket Ho) as (Ho1 & [Hr1 Hf1] & Hi1 & Hm1).
  set (s0 := {| s_db := create_bucket d ttlBucket |}).
  destruct (sweep_fold_ok t batch s0) as (H1 & H2 & H3 & H4); [|done..|].
  { apply (inv_ext (bview d)); [done..| |done]. intros x. apply Hi1. }
  set (s1 := foldl _ s0 batch) in *. intros [= <- <-].
  destruct (writeKVMeta_ok _ _ _ H1 H2) as (Hok5 & Ho5 & Hr5).
  split; [done|split; [done|split]].
  - pose proof (kv_ok_count _ Hok5) as Hk5. pose proof (inv_count _ _ _ H1) as Hc1.
    assert (key_count (bview (writeKVMeta (s_db s1) (s_used s1) (s_count s1))) = s_count s1) as ->.
    { pose proof (inv_bounds _ _ _ H1) as [Hu Hc].
      unfold MaxBytesPerTenant, MaxKeysPerTenant in *.
      destruct (writeKVMeta_view (s_db s1) (s_used s1) (s_count s1)) as (M & -> & _); [lia..|].
      unfold key_count. rewrite rows_other by done. done. }
    cbn in H3. lia.
  - intros ns k. rewrite (rec_at_raw (s_db s1)) by done. rewrite H4.
    assert (Hsame : rec_at (s_db s0) ns k = rec_at d ns k) by (apply rec_at_raw, Hr1).
    unfold expired_at. by rewrite Hsame.
Qed.

Lemma sweep_view_due t d0 : Forall (due_ok (UnixNano t)) (sweep_view t d0).
Proof. unfold sweep_view. case_match; [apply collect_due_ok|constructor]. Qed.

(** The index names every expired record. *)
Lemma sweep_view_complete t d ns k :
  kv_ok d → in64 t → expired_at d t ns k = true → in_batch (sweep_view t d) ns k = true.
Proof.
  intros Hok Ht. unfold expired_at. destruct (rec_at d ns k) as [r|] eqn:Hr; [|done].
  unfold expired. destruct (ExpiresAt r) as [e|] eqn:He; [|done]. intros Hexp. boolp.
  assert (Hlt : e < 2 ^ 63) by (unfold in64 in Ht; lia).
  destruct (own_entry _ _ _ _ _ _ _ _ Hok Hr He Hlt eq_refl) as (Hv & _ & Hb & _).
  apply bind_Some in Hr as (raw & Hraw & Hdec).
  destruct (inv_idx _ _ _ Hok _ _ _ _ _ Hraw Hdec He Hlt) as [v Hi].
  apply bind_Some in Hi as (m & Hm & Hi).
  unfold sweep_view. rewrite view_exists, bool_decide_eq_true_2 by eauto.
  assert (HU : UnixNano t = t) by by apply wrap64_id. rewrite HU.
  destruct (collect_due_complete t (cursor d ttlBucket) (ttlKey e ns k) v ns k e)
    as (y & Hy & <- & <-); try done.
  - apply cursor_sorted.
  - rewrite (cursor_perm _ _ _ Hm). by apply elem_of_map_to_list.
  - by apply small_ns.
  - unfold in64 in Ht. lia.
  - unfold in64 in Ht. lia.
  - apply existsb_exists. exists y. split; [by apply list_elem_of_In|].
    by apply bool_decide_eq_true_2.
Qed.

(** a sweep at [t] removes exactly the records expired at [t]: the
    live ones are untouched, the counters and the index still agree with the
    records, and the number returned is the number removed. *)
Theorem sweep_exact t d d' n :
  kv_ok d → opened d → in64 t → sweep_tx t d = (d', n) →
  kv_ok d' ∧ opened d' ∧ n = key_count (bview d) - key_count (bview d') ∧
  ∀ ns k, rec_at d' ns k = if expired_at d t ns k then None else rec_at d ns k.
Proof.
  intros Hok Ho Ht. unfold sweep_tx. pose proof (sweep_view_due t d) as Hdue.
  pose proof (sweep_view_complete t d) as Hall.
  destruct (sweep_view t d) as [|x batch] eqn:Hb.
  - intros [= <- <-]. split; [done|split; [done|split; [lia|]]]. intros ns k.
    destruct (expired_at d t ns k) eqn:He; [|done]. by specialize (Hall ns k Hok Ht He).
  - intros Hup. destruct (sweep_update_ok t _ d d' n Hok Ho Ht Hdue Hup) as (H1 & H2 & H3 & H4).
    split; [done|split; [done|split; [done|]]]. intros ns k. rewrite H4.
    destruct (expired_at d t ns k) eqn:He; [|by rewrite andb_false_r].
    by rewrite (Hall ns k Hok Ht He).
Qed.

(** the write transaction runs on whatever the database has become
    since the batch was collected.  Whatever state [d0] the batch comes from,
    no live record of the current state is lost and the invariant holds. *)
Theorem sweep_stale_batch_safe t d0 d d' n :
  kv_ok d → opened d → in64 t → sweep_update t (sweep_view t d0) d = (d', n) →
  kv_ok d' ∧ opened d' ∧ 0 ≤ n ∧
  ∀ ns k, rec_at d' ns k = rec_at d ns k ∨ (expired_at d t ns k = true ∧ rec_at d' ns k = None).
Proof.
  intros Hok Ho Ht Hup.
  destruct (sweep_update_ok t _ d d' n Hok Ho Ht (sweep_view_due t d0) Hup) as (H1 & H2 & H3 & H4).
  split; [done|split; [done|split]].
  - assert (s_reclaimed_mono : ∀ s, s_reclaimed s ≤ s_reclaimed
      (foldl (sweep_one t) s (sweep_view t d0))).
    { clear. induction (sweep_view t d0) as [|x b IH]; intros s; cbn [foldl]; [lia|].
      etransitivity; [|apply IH]. unfold sweep_one. repeat case_match; cbn; lia. }
    unfold sweep_update in Hup. destruct (readKVMeta d) as [u c]. injection Hup as _ <-.
    etransitivity; [|apply s_reclaimed_mono]. done.
  - intros ns k. rewrite H4. destruct (in_batch _ ns k); [|by left].
    destruct (expired_at d t ns k); [by right|by left].
Qed.
End spec.
