(* ===== verification/KVList.v ===== *)
(** * Pagination of the key/value store ([KV.List])

    Calling [List] again with the cursor of the previous page visits every live
    key with the prefix once, in byte order, and stops. *)

From S2P Require Import Prelude GoLib GoStrings GoCodec Bolt KV KVSpec.
Import Strings.

(** ** Byte order and prefixes *)
Definition slt (a b : string) : bool := negb (String.leb b a).

Lemma leb_le a b : String.leb a b = true ↔ String.le a b.
Proof. unfold String.le. by rewrite Is_true_true. Qed.
Lemma leb_refl a : String.leb a a = true.
Proof. apply leb_le. by apply (reflexivity (R := String.le)). Qed.
Lemma leb_trans a b c : String.leb a b = true → String.leb b c = true → String.leb a c = true.
Proof. rewrite !leb_le. apply (transitivity (R := String.le)). Qed.
Lemma leb_antisym a b : String.leb a b = true → String.leb b a = true → a = b.
Proof. apply String.leb_antisym. Qed.
Lemma slt_le a b : slt a b = true → String.leb a b = true.
Proof.
  unfold slt. rewrite negb_true_iff. intros H.
  destruct (String.leb_total a b) as [?|H']; [done|congruence].
Qed.
Lemma slt_irrefl a : slt a a = false.
Proof. unfold slt. by rewrite leb_refl. Qed.
Lemma slt_le_trans a b c : slt a b = true → String.leb b c = true → slt a c = true.
Proof.
  unfold slt. rewrite !negb_true_iff, <- !not_true_iff_false. intros H Hbc Hca. apply H.
  by apply (leb_trans _ c).
Qed.
Lemma le_ne_slt a b : String.leb a b = true → a ≠ b → slt a b = true.
Proof.
  unfold slt. rewrite negb_true_iff, <- not_true_iff_false. intros Hab Hne Hba.
  by apply Hne, leb_antisym.
Qed.

Lemma leb_cons c s d t : String.leb (String c s) (String d t) =
  match Z_of_byte c ?= Z_of_byte d with Eq => String.leb s t | Lt => true | Gt => false end.
Proof.
  unfold String.leb. cbn [String.compare]. rewrite ascii_compare_Z.
  by destruct (Z_of_byte c ?= Z_of_byte d).
Qed.

Lemma prefix_le p k : HasPrefix k p = true → String.leb p k = true.
Proof.
  revert k. induction p as [|c p IH]; intros [|d k]; try done. cbn [HasPrefix].
  rewrite andb_true_iff. intros [->%Ascii.eqb_eq H]. rewrite leb_cons, Z.compare_refl. auto.
Qed.

(** The keys with a prefix are contiguous in byte order. *)
Lemma prefix_convex p k k' :
  String.leb p k = true → String.leb k k' = true → HasPrefix k' p = true → HasPrefix k p = true.
Proof.
  revert k k'. induction p as [|c p IH]; intros [|d k] [|d' k']; try done.
  cbn [HasPrefix]. rewrite !leb_cons, andb_true_iff. intros Hp Hk [->%Ascii.eqb_eq Hpre].
  destruct (Z_of_byte d' ?= Z_of_byte d) eqn:H1; [|clear Hp|done].
  - apply Z.compare_eq, Z_of_byte_inj in H1 as ->. rewrite Z.compare_refl in Hk.
    rewrite Ascii.eqb_refl. cbn. eauto.
  - rewrite Z.compare_antisym, H1 in Hk. done.
Qed.

Abbreviation strictly_sorted := (StronglySorted (λ a b, slt a b = true)).

Lemma sorted_filter {A} (R : A → A → Prop) (f : A → bool) l :
  StronglySorted R l → StronglySorted R (List.filter f l).
Proof.
  induction 1 as [|x l Hl IH Hx]; [constructor|]. simpl. destruct (f x); [|done].
  constructor; [done|]. rewrite Forall_forall in *. intros y Hy. apply Hx.
  apply list_elem_of_In in Hy. apply filter_In in Hy as [Hy _]. by apply list_elem_of_In.
Qed.

Lemma strict_sorted_keys (c : list (string * string)) :
  StronglySorted key_le c → NoDup c.*1 → strictly_sorted c.*1.
Proof.
  induction 1 as [|[k v] c Hs IH Hall]; [constructor|]. rewrite fmap_cons.
  intros [Hn Hd]%NoDup_cons. constructor; [auto|]. apply Forall_fmap.
  rewrite Forall_forall in *. intros [k' v'] Hin. cbn. apply le_ne_slt.
  - apply leb_le, (Hall _ Hin).
  - intros ->. apply Hn. by apply (list_elem_of_fmap_2 fst c (k', v')).
Qed.

Lemma strict_sorted_NoDup l : strictly_sorted l → NoDup l.
Proof.
  induction 1 as [|x l Hl IH Hx]; constructor; [|done]. intros Hin.
  rewrite Forall_forall in Hx. specialize (Hx _ Hin). by rewrite slt_irrefl in Hx.
Qed.

(** What follows the last key of a page. *)
Lemma after_last n l : strictly_sorted l → (0 < n ≤ List.length l)%nat →
  List.filter (slt (List.last (take n l) "")) l = drop n l.
Proof.
  intros Hs. revert n. induction Hs as [|x l Hs IH Hx]; intros n Hn; [simpl in Hn; lia|].
  destruct n as [|n]; [lia|].
  assert (Hlt : ∀ y, y ∈ l → slt x y = true) by by rewrite Forall_forall in Hx.
  destruct n as [|n].
  - change (List.last (take 1 (x :: l)) "") with x. replace (drop 1 (x :: l)) with l by done.
    cbn [List.filter]. rewrite slt_irrefl.
    clear -Hlt. induction l as [|y l IH]; [done|]. cbn [List.filter].
    rewrite (Hlt y) by by left. f_equal. apply IH. intros z Hz. apply Hlt. by right.
  - cbn [List.length] in Hn. destruct l as [|y l]; [simpl in Hn; lia|].
    change (List.last (take (S (S n)) (x :: y :: l)) "") with (List.last (take (S n) (y :: l)) "").
    replace (drop (S (S n)) (x :: y :: l)) with (drop (S n) (y :: l)) by done.
    rewrite <- IH by lia. cbn [List.filter].
    assert (Hin : List.last (take (S n) (y :: l)) "" ∈ y :: l).
    { assert (Hne : take (S n) (y :: l) ≠ []) by done. revert Hne.
      generalize (take (S n) (y :: l)) (take_drop (S n) (y :: l)). intros w Hw Hne. rewrite <- Hw.
      apply elem_of_app. left. destruct (exists_last Hne) as (w' & z & ->).
      rewrite last_last. apply elem_of_app. right. by left. }
    destruct (slt _ x) eqn:Hc; [|done].
    pose proof (slt_le_trans _ _ _ Hc (slt_le _ _ (Hlt _ Hin))) as H. by rewrite slt_irrefl in H.
Qed.

(** ** One page *)
Section list.
Context {DB : Type} {BO : Bolt DB} {BS : BoltSpec DB} {RC : RecordCodec} {RS : RecordCodecSpec}.

(** The entries a listing shows: the prefix matches and the record is not
    expired. *)
Definition shown (t : Z) (pfx : string) (kv : string * string) : bool :=
  HasPrefix kv.1 pfx &&
  negb (match decodeRecord kv.2 with Some r => expired r t | None => false end).
Definition shown_keys (t : Z) (pfx : string) (c : list (string * string)) : list string :=
  (List.filter (shown t pfx) c).*1.

Definition page (limit : Z) (l : list string) : list string * string :=
  let p := take (Z.to_nat limit) l in
  (p, if Z.of_nat (List.length l) <=? limit then "" else encodeCursor (List.last p "")).

Lemma prefix_test pfx k : (0 <? len pfx) && negb (HasPrefix k pfx) = negb (HasPrefix k pfx).
Proof. destruct pfx; [by destruct k|]. done. Qed.

Lemma list_walk_page t pfx limit keys c :
  StronglySorted key_le c → Forall (λ kv, String.leb pfx kv.1 = true) c → 0 < limit →
  Z.of_nat (List.length keys) ≤ limit →
  list_walk t pfx limit keys c = page limit (keys ++ shown_keys t pfx c).
Proof.
  intros Hs. revert keys. induction Hs as [|[k v] c Hs IH Hall]; intros keys Hp Hl Hk.
  { unfold page, shown_keys. cbn. rewrite app_nil_r, firstn_all2 by lia.
    by rewrite (proj2 (Z.leb_le _ _)). }
  apply Forall_cons in Hp as [Hpk Hp]. cbn [list_walk fst] in *. rewrite prefix_test.
  destruct (HasPrefix k pfx) eqn:Hpre; cbn [negb].
  2:{ assert (shown_keys t pfx ((k, v) :: c) = []) as ->.
      { unfold shown_keys. cbn [List.filter]. unfold shown at 1. cbn [fst]. rewrite Hpre. cbn [andb].
        assert (List.filter (shown t pfx) c = []) as ->; [|done].
        rewrite Forall_forall in Hall. clear -Hall Hpk Hpre.
        induction c as [|[k' v'] c IH]; [done|]. cbn [List.filter]. unfold shown at 1. cbn [fst].
        destruct (HasPrefix k' pfx) eqn:Hk'.
        - rewrite (prefix_convex pfx k k') in Hpre; [done| |..|done]; [done|].
          apply leb_le. apply (Hall (k', v')). by left.
        - cbn [andb]. apply IH. intros x Hx. apply Hall. by right. }
      unfold page. rewrite app_nil_r, firstn_all2 by lia. by rewrite (proj2 (Z.leb_le _ _)). }
  unfold shown_keys. cbn [List.filter]. unfold shown at 1. cbn [fst snd]. rewrite Hpre. cbn [andb].
  destruct (match decodeRecord v with Some r => expired r t | None => false end); cbn [negb].
  { by rewrite IH. }
  fold (shown_keys t pfx c). rewrite fmap_cons. fold (shown_keys t pfx c). cbn [fst].
  destruct (Z.of_nat (List.length keys) =? limit) eqn:Heq; boolp.
  - unfold page. rewrite length_app. cbn [List.length].
    rewrite (proj2 (Z.leb_gt _ _)) by lia.
    rewrite <- Heq, Nat2Z.id, firstn_app, Nat.sub_diag, firstn_all. cbn [take].
    by rewrite app_nil_r.
  - rewrite IH; [by rewrite <- app_assoc|done..|].
    rewrite length_app. cbn [List.length]. lia.
Qed.

Lemma seek_filter s c : StronglySorted key_le c →
  seek s c = List.filter (λ kv, String.leb s kv.1) c.
Proof.
  induction 1 as [|[k v] c Hs IH Hall]; [done|]. cbn [seek List.filter fst].
  destruct (String.leb s k) eqn:Hk; [|done]. f_equal.
  rewrite Forall_forall in Hall. clear -Hall Hk.
  induction c as [|[k' v'] c IH]; [done|]. cbn [List.filter fst].
  rewrite (leb_trans s k k'); [|done|apply leb_le, (Hall (k', v')); by left].
  f_equal. apply IH. intros x Hx. apply Hall. by right.
Qed.

(** Seeking to the cursor and stepping past it. *)
Lemma seek_past s c : StronglySorted key_le c → NoDup c.*1 →
  match seek s c with
  | (k, v) :: c' => if String.eqb k s then c' else (k, v) :: c'
  | [] => []
  end = List.filter (λ kv, slt s kv.1) c.
Proof.
  induction 1 as [|[k v] c Hs IH Hall]; [done|]. rewrite fmap_cons.
  intros [Hn Hd]%NoDup_cons. cbn [seek List.filter fst] in *.
  assert (Hrest : String.leb s k = true → List.filter (λ kv, slt s kv.1) c = c).
  { intros Hk. rewrite Forall_forall in Hall. clear -Hall Hk Hn.
    induction c as [|[k' v'] c IH]; [done|]. cbn [List.filter fst]. rewrite fmap_cons in Hn.
    apply not_elem_of_cons in Hn as [Hne Hn]. cbn in Hne.
    assert (Hkk' : String.leb k k' = true) by (apply leb_le, (Hall (k', v')); by left).
    rewrite le_ne_slt; [|by apply (leb_trans s k)|].
    - f_equal. apply IH; [|done]. intros x Hx. apply Hall. by right.
    - intros ->. apply Hne. by apply leb_antisym. }
  destruct (String.leb s k) eqn:Hk.
  - rewrite Hrest by done. destruct (String.eqb k s) eqn:He; boolp.
    + subst. by rewrite slt_irrefl.
    + by rewrite le_ne_slt.
  - rewrite IH by done. destruct (slt s k) eqn:Hsk; [|done]. apply slt_le in Hsk. congruence.
Qed.

Lemma shown_keys_past t pfx s c :
  shown_keys t pfx (List.filter (λ kv, slt s kv.1) c) = List.filter (slt s) (shown_keys t pfx c).
Proof.
  unfold shown_keys. induction c as [|[k v] c IH]; [done|]. cbn [List.filter fst].
  destruct (slt s k) eqn:Hk; cbn [List.filter]; destruct (shown t pfx (k, v));
    rewrite ?fmap_cons; cbn [List.filter fst]; rewrite ?Hk, ?IH; done.
Qed.

Lemma shown_keys_from t pfx c :
  shown_keys t pfx (List.filter (λ kv, String.leb pfx kv.1) c) = shown_keys t pfx c.
Proof.
  unfold shown_keys. induction c as [|[k v] c IH]; [done|]. cbn [List.filter fst].
  destruct (String.leb pfx k) eqn:Hk; cbn [List.filter].
  - destruct (shown t pfx (k, v)); rewrite ?fmap_cons, IH; done.
  - rewrite IH. destruct (shown t pfx (k, v)) eqn:Hs; [|done].
    apply andb_true_iff in Hs as [Hs _]. apply prefix_le in Hs. cbn in Hs. congruence.
Qed.

Lemma Forall_filter_true {A} (f : A → bool) l : Forall (λ x, f x = true) (List.filter f l).
Proof.
  apply Forall_forall. intros x Hx%list_elem_of_In. by apply filter_In in Hx as [_ Hx].
Qed.

Definition after (start : option string) (l : list string) : list string :=
  match start with Some s => List.filter (slt s) l | None => l end.

Lemma cursor_strict d b m : bview d !! b = Some m →
  NoDup (cursor d b).*1 ∧ strictly_sorted (cursor d b).*1.
Proof.
  intros Hm. assert (NoDup (cursor d b).*1).
  { rewrite (cursor_perm _ _ _ Hm). apply NoDup_fst_map_to_list. }
  split; [done|]. by apply strict_sorted_keys; [apply cursor_sorted|].
Qed.

Lemma list_tx_page d t ns pfx limit start m :
  bview d !! nsBucketName ns = Some m → 0 < limit →
  (∀ s, start = Some s → HasPrefix s pfx = true) →
  list_tx t ns pfx limit start d =
    page limit (after start (shown_keys t pfx (cursor d (nsBucketName ns)))).
Proof.
  intros Hm Hl Hst. unfold list_tx. rewrite view_exists, Hm, bool_decide_eq_true_2 by eauto.
  cbn [negb]. cbv zeta. destruct (cursor_strict d _ m Hm) as [Hnd _].
  pose proof (cursor_sorted d (nsBucketName ns)) as Hs. set (c := cursor d _) in *.
  destruct start as [s|]; cbn [after].
  - rewrite seek_past by done. rewrite list_walk_page; [..|done|cbn; lia].
    + by rewrite app_nil_l, shown_keys_past.
    + by apply sorted_filter.
    + eapply Forall_impl; [apply Forall_filter_true|]. cbn. intros x Hx.
      apply slt_le in Hx. eapply leb_trans; [|done]. by apply prefix_le, Hst.
  - assert (Hcs : StronglySorted key_le (if 0 <? len pfx then seek pfx c else c) ∧
      Forall (λ kv, String.leb pfx kv.1 = true) (if 0 <? len pfx then seek pfx c else c) ∧
      shown_keys t pfx (if 0 <? len pfx then seek pfx c else c) = shown_keys t pfx c).
    { destruct pfx as [|a pfx]; cbn [len Z.ltb].
      - split; [done|split; [|done]]. apply Forall_forall. intros [k v] _. by destruct k.
      - change (0 <? len (String a pfx)) with true. cbn iota. rewrite seek_filter by done.
        split; [by apply sorted_filter|]. split; [apply Forall_filter_true|apply shown_keys_from]. }
    destruct Hcs as (H1 & H2 & H3). rewrite list_walk_page; [by rewrite H3|done..|cbn; lia].
Qed.

Lemma shown_keys_sublist t pfx c : shown_keys t pfx c `sublist_of` c.*1.
Proof.
  apply fmap_sublist. induction c as [|x c IH]; [constructor|].
  cbn [List.filter]. by case_match; constructor.
Qed.

Lemma shown_keys_sorted t pfx c :
  StronglySorted key_le c → NoDup c.*1 → strictly_sorted (shown_keys t pfx c).
Proof.
  intros Hs Hnd. apply strict_sorted_keys; [by apply sorted_filter|].
  eapply sublist_NoDup; [done|]. apply (shown_keys_sublist t pfx).
Qed.

Lemma shown_keys_length d t ns pfx m : bview d !! nsBucketName ns = Some m →
  (List.length (shown_keys t pfx (cursor d (nsBucketName ns))) ≤ size m)%nat.
Proof.
  intros Hm. etransitivity; [apply sublist_length, shown_keys_sublist|].
  rewrite length_fmap, (cursor_perm _ _ _ Hm), length_map_to_list. done.
Qed.

Lemma elem_of_shown d t ns pfx m k : bview d !! nsBucketName ns = Some m →
  k ∈ shown_keys t pfx (cursor d (nsBucketName ns)) ↔
    ∃ v, m !! k = Some v ∧ shown t pfx (k, v) = true.
Proof.
  intros Hm. unfold shown_keys. rewrite list_elem_of_fmap. split.
  - intros ([k' v] & -> & Hin). apply list_elem_of_In, filter_In in Hin as [Hin Hs].
    apply list_elem_of_In in Hin. rewrite (cursor_perm _ _ _ Hm), elem_of_map_to_list in Hin. eauto.
  - intros (v & Hk & Hs). exists (k, v). split; [done|]. apply list_elem_of_In, filter_In.
    split; [|done]. apply list_elem_of_In. by rewrite (cursor_perm _ _ _ Hm), elem_of_map_to_list.
Qed.

(** ** All pages *)

(** A client following the cursors; [fuel] bounds the number of calls. *)
Fixpoint pages (fuel : nat) (d : DB) (t : Z) (ns pfx : string) (limit : Z) (cur : string) :
    option (list (list string)) :=
  match fuel with
  | O => None
  | S fuel =>
      match decodeCursor cur with
      | None => None
      | Some start =>
          let '(ks, next) := list_tx t ns pfx limit start d in
          if String.eqb next "" then Some [ks]
          else rest ← pages fuel d t ns pfx limit next; Some (ks :: rest)
      end
  end.

Lemma decode_encodeCursor s : s ≠ "" → encodeCursor s ≠ "" ∧ decodeCursor (encodeCursor s) = Some (Some s).
Proof.
  intros Hs. unfold decodeCursor, encodeCursor.
  pose proof (Base64.encode_nonempty s Hs) as Hne. split; [done|].
  rewrite (proj2 (String.eqb_neq _ _) Hne). by rewrite Base64.url_roundtrip.
Qed.

Lemma pages_after d t ns pfx limit m fuel start cur :
  bview d !! nsBucketName ns = Some m → 0 < limit →
  (∀ k, k ∈ shown_keys t pfx (cursor d (nsBucketName ns)) → k ≠ "" ∧ HasPrefix k pfx = true) →
  (∀ s, start = Some s → HasPrefix s pfx = true) →
  decodeCursor cur = Some start →
  let l := after start (shown_keys t pfx (cursor d (nsBucketName ns))) in
  (List.length l < fuel)%nat →
  ∃ pgs, pages fuel d t ns pfx limit cur = Some pgs ∧ List.concat pgs = l ∧
         Forall (λ p, Z.of_nat (List.length p) ≤ limit) pgs.
Proof.
  intros Hm Hl Hkeys. set (K := shown_keys t pfx (cursor d (nsBucketName ns))) in *.
  assert (HK : strictly_sorted K).
  { destruct (cursor_strict d _ m Hm) as [Hnd _]. by apply shown_keys_sorted; [apply cursor_sorted|]. }
  revert start cur. induction fuel as [|fuel IH]; intros start cur Hst Hcur l Hf; [lia|].
  cbn [pages]. rewrite Hcur, (list_tx_page d t ns pfx limit start m) by done. fold K.
  unfold page. fold l.
  assert (Hpage : Z.of_nat (List.length (take (Z.to_nat limit) l)) ≤ limit)
    by (rewrite length_take; lia).
  destruct (Z.of_nat (List.length l) <=? limit) eqn:Hlen; boolp.
  { exists [l]. rewrite firstn_all2 in * by lia. cbn. rewrite app_nil_r.
    split; [done|split; [done|by constructor]]. }
  set (n := Z.to_nat limit) in *. assert (Hn : (0 < n < List.length l)%nat) by lia.
  set (s := List.last (take n l) "").
  assert (Hsl : s ∈ l).
  { rewrite <- (take_drop n l). apply elem_of_app. left. unfold s.
    destruct (exists_last (l := take n l)) as (w & z & ->).
    { intros E. apply (f_equal List.length) in E. rewrite length_take in E. simpl in E. lia. }
    rewrite last_last. apply elem_of_app. right. by left. }
  assert (HlK : l `sublist_of` K).
  { unfold l. destruct start as [s0|]; [|done]. cbn [after]. generalize K. clear. intros c.
    induction c as [|x c IH]; [constructor|]. cbn [List.filter]. by case_match; constructor. }
  destruct (Hkeys s) as [Hs Hsp]; [by apply (sublist_subseteq _ _ HlK)|].
  destruct (decode_encodeCursor s Hs) as [Hne Hdec].
  rewrite (proj2 (String.eqb_neq _ _) Hne).
  assert (Hls : strictly_sorted l).
  { unfold l. destruct start; [|done]. by apply sorted_filter. }
  assert (Hrest : after (Some s) K = drop n l).
  { cbn [after]. rewrite <- (after_last n l) by (done || lia). fold s. unfold l.
    destruct start as [s0|]; cbn [after]; [|done]. symmetry.
    assert (Hs0 : slt s0 s = true).
    { clear -Hsl. unfold l in Hsl. cbn [after] in Hsl. apply list_elem_of_In, filter_In in Hsl.
      apply Hsl. }
    generalize K. clear -Hs0. intros c. induction c as [|x c IH]; [done|].
    cbn [List.filter]. destruct (slt s0 x) eqn:Hx; cbn [List.filter]; [by rewrite IH|].
    rewrite IH. destruct (slt s x) eqn:Hsx; [|done].
    by rewrite (slt_le_trans s0 s x Hs0 (slt_le _ _ Hsx)) in Hx. }
  destruct (IH (Some s) (encodeCursor s)) as (pgs & Hpgs & Hcat & Hall).
  - intros ? [= <-]. done.
  - done.
  - rewrite Hrest, length_drop. lia.
  - rewrite Hpgs. cbn. eexists. split; [done|]. split.
    + cbn. rewrite Hcat, Hrest. apply take_drop.
    + by constructor.
Qed.

(** C17: following the cursors from the first page ends, no page is larger
    than the limit, and together the pages are the live keys with the prefix,
    each once and in byte order. *)
Theorem list_pages_complete d t ns pfx limit :
  kv_ok d → 0 < limit →
  ∃ pgs, pages (S (Z.to_nat (key_count (bview d)))) d t ns pfx limit "" = Some pgs ∧
    Forall (λ p, Z.of_nat (List.length p) ≤ limit) pgs ∧
    strictly_sorted (List.concat pgs) ∧
    ∀ k, k ∈ List.concat pgs ↔
      HasPrefix k pfx = true ∧ ∃ r, rec_at d ns k = Some r ∧ expired r t = false.
Proof.
  intros Hok Hl. destruct (bview d !! nsBucketName ns) as [m|] eqn:Hm.
  - destruct (pages_after d t ns pfx limit m (S (Z.to_nat (key_count (bview d)))) None "")
      as (pgs & Hp & Hcat & Hall); try done.
    + intros k (v & Hin & Hsh)%(elem_of_shown d t ns pfx m k Hm).
      apply andb_true_iff in Hsh as [Hpre _]. split; [|done].
      destruct (inv_rec _ _ _ Hok ns k v) as (r & _ & _ & Hk & _); [|done].
      unfold raw_at. by rewrite Hm.
    + cbn [after]. pose proof (rows_ge_bucket (λ _ _, 1) _ ns m ltac:(done) Hm) as Hsz.
      rewrite map_sum_const_size in Hsz. fold (key_count (bview d)) in Hsz.
      pose proof (shown_keys_length d t ns pfx m Hm). lia.
    + exists pgs. rewrite Hcat. cbn [after]. split; [done|split; [done|split]].
      * destruct (cursor_strict d _ m Hm) as [Hnd _]. apply shown_keys_sorted; [apply cursor_sorted|done].
      * intros k. rewrite (elem_of_shown d t ns pfx m k Hm). unfold rec_at.
        assert (Hraw : raw_at (bview d) ns k = m !! k) by (unfold raw_at; by rewrite Hm).
        unfold shown. cbn [fst snd]. rewrite Hraw. split.
        -- intros (v & Hk & [Hpre Hexp]%andb_true_iff). split; [done|].
           destruct (inv_rec _ _ _ Hok ns k v) as (r & Hr & _); [by rewrite Hraw|].
           rewrite Hr in Hexp. rewrite Hk. exists r. split; [done|]. by apply negb_true_iff.
        -- intros (Hpre & r & (v & Hk & Hr)%bind_Some & Hexp). exists v. split; [done|].
           by rewrite Hpre, Hr, Hexp.
  - exists [[]]. cbn [pages]. change (decodeCursor "") with (Some (@None string)).
    cbn iota. unfold list_tx. rewrite view_exists, Hm, bool_decide_eq_false_2 by by intros [? ?].
    cbn. split; [done|split; [|split; [constructor|]]].
    + constructor; [cbn; lia|constructor].
    + intros k. unfold rec_at, raw_at. rewrite Hm. split.
      * by intros ?%elem_of_nil.
      * by intros (_ & r & ? & _).
Qed.
End list.
