(* ===== verification/KVStore.v ===== *)
(** * The store of per-tenant databases: paths, isolation and whole runs

    [KVSpec] is about one database; here the calls of [KV.Store] choose the
    database from the tenant, open it on first use and commit or roll back.
    [store_ok] is the invariant of every file and every open handle. *)

From S2P Require Import Prelude GoLib GoStrings GoCodec Auth Bolt KV KVSpec.
Import Strings.

(** ** Tenants and files *)
Lemma validTenant_simple t : validTenant t = true → Filepath.simple (t +:+ ".bolt").
Proof.
  intros Hv. assert (Hslash : contains_char Filepath.slash t = false).
  { unfold validTenant in Hv. destruct (String.eqb t "public") eqn:E; boolp; [by subst|].
    case_match; [done|]. by refine (forall_no_char _ _ _ _ Hv). }
  unfold Filepath.simple. rewrite contains_char_app, Hslash.
  split; [by destruct t|split; [|split; [|done]]]; by destruct t as [|a [|b [|c t]]].
Qed.

Lemma app_inj_r (s s' t : string) : s +:+ t = s' +:+ t → s = s'.
Proof.
  intros H. assert (Hl : String.length s = String.length s').
  { apply (f_equal String.length) in H. rewrite !slength_app in H. lia. }
  by apply app_inj_length in H as [-> _].
Qed.

Section store.
Context {DB : Type} {BO : Bolt DB} {BS : BoltSpec DB} {RC : RecordCodec} {RS : RecordCodecSpec}.
Implicit Types (s : Store DB).

(** every valid tenant has a file directly in the store's directory,
    so the containment test of [path] never refuses one, and two tenants
    never share a file. *)
Theorem path_contained s t t' :
  dir s ≠ "" → validTenant t = true → validTenant t' = true →
  ∃ p p', path s t = Ok p ∧ path s t' = Ok p' ∧
    Filepath.Dir p = Filepath.Clean (dir s) ∧ (p = p' → t = t').
Proof.
  intros Hd Ht Ht'. pose proof (validTenant_simple t Ht) as Hs.
  pose proof (validTenant_simple t' Ht') as Hs'. unfold path. rewrite Ht, Ht'. cbn [negb].
  rewrite !Filepath.Dir_Join_simple, String.eqb_refl by done.
  do 2 eexists. split; [done|split; [done|split]].
  - by apply Filepath.Dir_Join_simple.
  - intros H. apply Filepath.Join_simple_inj in H; [|done..]. by apply app_inj_r in H.
Qed.

Lemma path_ok s t p : path s t = Ok p →
  validTenant t = true ∧ p = Filepath.Join [dir s; t +:+ ".bolt"].
Proof.
  unfold path. destruct (validTenant t); [|done]. cbn [negb]. case_match; [done|].
  by intros [= <-].
Qed.

Lemma path_inj s t t' p : dir s ≠ "" → path s t = Ok p → path s t' = Ok p → t = t'.
Proof.
  intros Hd [Hv ->]%path_ok [Hv' H]%path_ok.
  apply Filepath.Join_simple_inj in H; auto using validTenant_simple. by apply app_inj_r in H.
Qed.

(** the tenant identifiers of the authentication layer are all
    accepted by the store: those derived from keys and the public one. *)
Theorem auth_tenants_valid k :
  validTenant (KeyStore.deriveTenant k) = true ∧ validTenant KeyStore.PublicTenant = true ∧
  KeyStore.deriveTenant k ≠ KeyStore.PublicTenant.
Proof.
  split; [|split; [done|apply KeyStore.deriveTenant_not_public]].
  unfold validTenant. case_match; [done|].
  unfold len. rewrite KeyStore.deriveTenant_length. apply KeyStore.deriveTenant_hex.
Qed.

(** ** The invariant of the store *)
Record store_ok (s : Store DB) : Prop := {
  ok_dir : dir s ≠ "";
  ok_files p d : disk s !! p = Some d → kv_ok d;
  ok_handles t h : dbs s !! t = Some h → path s t = Ok h ∧ ∃ d, disk s !! h = Some d ∧ opened d }.

(** The database behind a tenant's file. *)
Definition file (s : Store DB) (p : string) : DB := default bolt_new (disk s !! p).
(** The record a tenant has under a key. *)
Definition tenant_rec (s : Store DB) (t ns k : string) : option record :=
  match path s t with Ok p => rec_at (file s p) ns k | Err _ => None end.

Lemma kv_ok_new : kv_ok (bolt_new : DB).
Proof.
  unfold kv_ok. rewrite view_new. change (meta_of ∅ keyUsedBytes) with 0.
  change (meta_of ∅ keyKeyCount) with 0.
  split; try done; unfold used_bytes, key_count; by rewrite rows_empty.
Qed.

Lemma kv_ok_init d : kv_ok d → kv_ok (init_db d) ∧ opened (init_db d) ∧
  ∀ ns k, raw_at (bview (init_db d)) ns k = raw_at (bview d) ns k.
Proof.
  intros Hok.
  assert (Hstep : ∀ d b, b = metaBucket ∨ b = ttlBucket → kv_ok d →
    kv_ok (create_bucket d b) ∧ ∀ ns k, raw_at (bview (create_bucket d b)) ns k = raw_at (bview d) ns k).
  { clear. intros d b Hb Hok. unfold kv_ok. rewrite !view_create.
    destruct (bview d !! b) eqn:E; [done|]. split.
    - assert (Hm : ∀ k, meta_of (<[b:=∅]> (bview d)) k = meta_of (bview d) k).
      { intros k. unfold meta_of. destruct (decide (b = metaBucket)) as [->|Hne].
        - by rewrite lookup_insert_eq, E.
        - by rewrite lookup_insert_ne. }
      rewrite !Hm. revert Hok. apply inv_ext.
      + intros ns k. apply raw_at_insert_ne. by destruct Hb as [-> | ->].
      + intros f. by apply rows_create.
      + intros x. unfold indexed. destruct (decide (b = ttlBucket)) as [->|Hne].
        * rewrite E. by intros [? ?].
        * by rewrite lookup_insert_ne.
    - intros ns k. apply raw_at_insert_ne. by destruct Hb as [-> | ->]. }
  unfold init_db. destruct (Hstep d metaBucket) as [H1 H1']; [by left|done|].
  destruct (Hstep (create_bucket d metaBucket) ttlBucket) as [H2 H2']; [by right|done|].
  split; [done|split].
  - split; [|apply view_create_some].
    rewrite view_create. pose proof (view_create_some d metaBucket) as [m Hm].
    destruct (bview (create_bucket d metaBucket) !! ttlBucket); [by rewrite Hm|].
    rewrite lookup_insert_ne by done. by rewrite Hm.
  - intros. by rewrite H2', H1'.
Qed.

Lemma file_ok s p : store_ok s → kv_ok (file s p).
Proof.
  intros Hs. unfold file. destruct (disk s !! p) eqn:E; [|apply kv_ok_new].
  by apply (ok_files _ Hs) in E.
Qed.

(** Replacing one file by a consistent one. *)
Lemma set_disk_ok s p d : store_ok s → kv_ok d →
  (∀ t, dbs s !! t = Some p → opened d) → store_ok (set_disk s p d).
Proof.
  intros [H1 H2 H3] Hd Ho. split; [done|..].
  - intros p' d'. cbn. intros [[_ <-]|[_ H]]%lookup_insert_Some; [done|]. by apply (H2 p').
  - intros t h Ht. cbn in *. destruct (H3 t h Ht) as (Hp & d' & Hd' & Hopen).
    split; [done|]. destruct (decide (p = h)) as [->|Hne].
    + exists d. rewrite lookup_insert_eq. eauto.
    + exists d'. by rewrite lookup_insert_ne.
Qed.

Lemma file_set_disk s p d p' :
  file (set_disk s p d) p' = if decide (p' = p) then d else file s p'.
Proof.
  unfold file, set_disk. cbn [disk]. case_decide as H.
  - subst. by rewrite lookup_insert_eq.
  - by rewrite lookup_insert_ne.
Qed.

(** Opening a handle keeps every record. *)
Lemma getDB_ok s c t r s' : store_ok s → getDB s c t = (r, s') →
  store_ok s' ∧ dir s' = dir s ∧
  (∀ p ns k, rec_at (file s' p) ns k = rec_at (file s p) ns k) ∧
  (∀ p, path s t ≠ Ok p → file s' p = file s p) ∧
  match r with
  | Ok h => path s t = Ok h ∧ dbs s' !! t = Some h ∧ opened (file s' h)
  | Err _ => True
  end.
Proof.
  intros Hs. unfold getDB. destruct (path s t) as [p|e] eqn:Hp; [|by intros [= <- <-]].
  destruct (dbs s !! t) as [h|] eqn:Ht.
  { intros [= <- <-]. destruct (ok_handles _ Hs _ _ Ht) as (Hp' & d & Hd & Ho).
    do 4 (split; [done|]). split; [by rewrite <- Hp, Hp'|split; [done|]].
    unfold file. by rewrite Hd. }
  destruct (closed s); [by intros [= <- <-]|]. destruct (open_ok c); [|by intros [= <- <-]].
  cbn [negb]. fold (file s p). pose proof (file_ok s p Hs) as Hok.
  assert (Hself : ∀ p', file (set_disk s p (file s p)) p' = file s p').
  { intros p'. rewrite file_set_disk. by case_decide; subst. }
  destruct (init_ok c); cbn [negb].
  2:{ intros [= <- <-]. split; [|split; [done|split; [|split; [|done]]]].
      - apply set_disk_ok; [done..|]. intros t' Ht'.
        destruct (ok_handles _ Hs _ _ Ht') as (_ & d & Hd & Ho). unfold file. by rewrite Hd.
      - intros. by rewrite Hself.
      - intros. by rewrite Hself. }
  intros [= <- <-]. destruct (kv_ok_init (file s p) Hok) as (H1 & H2 & H3).
  assert (Hfile : ∀ p', default bolt_new (<[p := init_db (file s p)]> (disk s) !! p') =
                    if decide (p' = p) then init_db (file s p) else file s p')
    by apply (file_set_disk s p (init_db (file s p))).
  split; [|split; [done|split; [|split; [|split; [done|split]]]]].
  - assert (Hsd : store_ok (set_disk s p (init_db (file s p)))) by by apply set_disk_ok.
    destruct Hsd as [Hd Hf Hh]. split; [done|done|]. intros t' h'. cbn.
    intros [[<- <-]|[_ H]]%lookup_insert_Some; [|by apply Hh].
    split; [done|]. eexists. rewrite lookup_insert_eq. eauto.
  - intros p' ns k. unfold file at 1. cbn [disk]. rewrite Hfile. case_decide; [subst|done].
    by apply rec_at_raw.
  - intros p' Hne. unfold file at 1. cbn [disk]. rewrite Hfile. rewrite decide_False; [done|].
    intros ->. by apply Hne.
  - cbn. by rewrite lookup_insert_eq.
  - unfold file. cbn [disk]. rewrite Hfile, decide_True by done. done.
Qed.

Lemma tenant_rec_file s s' t ns k : dir s' = dir s →
  (∀ p, path s t = Ok p → rec_at (file s' p) ns k = rec_at (file s p) ns k) →
  tenant_rec s' t ns k = tenant_rec s t ns k.
Proof.
  intros Hd H. unfold tenant_rec. assert (path s' t = path s t) as -> by (unfold path; by rewrite Hd).
  destruct (path s t); auto.
Qed.

(** ** Writes: the shape [Put] and [Delete] share *)
Lemma update_ok s c t h f r s' :
  store_ok s → path s t = Ok h → opened (file s h) →
  (∀ d, f (file s h) = Ok d → kv_ok d ∧ opened d) →
  Update s c h f = (r, s') →
  store_ok s' ∧ dir s' = dir s ∧ (∀ p, p ≠ h → file s' p = file s p) ∧
  match r with
  | Ok _ => f (file s h) = Ok (file s' h)
  | Err e => s' = s ∧ (f (file s h) = Err e ∨ commit_ok c = false)
  end.
Proof.
  intros Hs Hp Ho Hf. unfold Update. fold (file s h).
  destruct (f (file s h)) as [d|e] eqn:E; [|intros [= <- <-]; auto 10].
  destruct (Hf d eq_refl) as [Hd Hod].
  destruct (commit_ok c); intros [= <- <-]; [|by auto 10].
  split; [by apply set_disk_ok|split; [done|split]].
  - intros p Hne. rewrite file_set_disk. by rewrite decide_False.
  - rewrite file_set_disk. by rewrite decide_True.
Qed.

Lemma Update_frame s c h f r s' :
  Update s c h f = (r, s') → dir s' = dir s ∧ dbs s' = dbs s.
Proof.
  unfold Update. destruct (f _); [destruct (commit_ok c)|]; by intros [= <- <-].
Qed.

Definition new_record (c : call) (v ct : string) (ttl : Z) : record :=
  {| Value := v; ContentType := ct; UpdatedAt := now c;
     ExpiresAt := if 0 <? ttl then Some (now c + ttl) else None |}.

Lemma new_record_ok c ns k v ct ttl :
  0 ≤ now c → validNamespace ns = true → k ≠ "" → len k ≤ MaxKeyLen →
  rec_ok ns k (new_record c v ct ttl).
Proof.
  intros H0 Hns Hk Hl. split; [done|split; [done|split; [done|]]].
  intros e. unfold new_record. cbn [ExpiresAt]. case_match eqn:Hlt; [|done]. intros [= <-].
  boolp. lia.
Qed.

(** What a state-changing call on tenant [t] may touch. *)
Definition only_tenant (s s' : Store DB) (t : string) : Prop :=
  store_ok s' ∧ dir s' = dir s ∧ ∀ p, path s t ≠ Ok p → file s' p = file s p.

Lemma only_tenant_refl s t : store_ok s → only_tenant s s t.
Proof. done. Qed.

Lemma only_isolates s s' t t' ns k : only_tenant s s' t → dir s ≠ "" → t' ≠ t → tenant_rec s' t' ns k = tenant_rec s t' ns k.
Proof.
  intros (_ & H2 & H3) Hd Hne. apply tenant_rec_file; [done|]. intros p Hp. rewrite H3; [done|].
  intros Hp'. apply Hne. by eapply path_inj.
Qed.

Lemma getDB_update s c t f h s1 r s' :
  store_ok s → getDB s c t = (Ok h, s1) → 
  (∀ d d', kv_ok d → opened d → f d = Ok d' → kv_ok d' ∧ opened d') →
  Update s1 c h f = (r, s') →
  only_tenant s s' t ∧ path s t = Ok h ∧ opened (file s1 h) ∧ kv_ok (file s1 h) ∧
  (∀ ns k, rec_at (file s1 h) ns k = rec_at (file s h) ns k) ∧
  match r with
  | Ok _ => f (file s1 h) = Ok (file s' h)
  | Err e => s' = s1 ∧ (f (file s1 h) = Err e ∨ commit_ok c = false)
  end.
Proof.
  intros Hs Hg Hf Hu. destruct (getDB_ok s c t _ _ Hs Hg) as (H1 & H2 & H3 & H4 & H5 & H6 & H7).
  assert (Hp1 : path s1 t = Ok h) by (rewrite <- H5; unfold path; by rewrite H2).
  destruct (update_ok s1 c t h f r s' H1 Hp1 H7) as (U1 & U2 & U3 & U4); [|done|].
  { intros d Hd. by apply (Hf (file s1 h)); [apply file_ok| |]. }
  split; [|split; [done|split; [done|split; [by apply file_ok|split; [done|done]]]]].
  split; [done|split; [congruence|]]. intros p Hne. rewrite U3, H4; [done..|]. congruence.
Qed.

(** A write to one record of one tenant, seen from every tenant. *)
Lemma tenant_write s s' t h ns k o :
  store_ok s → only_tenant s s' t → path s t = Ok h →
  (∀ ns' k', rec_at (file s' h) ns' k' =
     if decide (ns' = ns ∧ k' = k) then o else rec_at (file s h) ns' k') →
  ∀ t' ns' k', tenant_rec s' t' ns' k' =
    if bool_decide (t' = t ∧ ns' = ns ∧ k' = k) then o else tenant_rec s t' ns' k'.
Proof.
  intros Hs (U1 & U2 & U3) Hp Hrec t' ns' k'. unfold tenant_rec.
  assert (path s' t' = path s t') as -> by (unfold path; by rewrite U2).
  case_bool_decide as Hd.
  - destruct Hd as (-> & -> & ->). rewrite Hp, Hrec, decide_True; done.
  - destruct (path s t') as [p|] eqn:Hp'; [|done].
    destruct (decide (t' = t)) as [->|Hne].
    + rewrite Hp in Hp'. injection Hp' as <-. rewrite Hrec, decide_False; [done|].
      intros [-> ->]. by apply Hd.
    + rewrite U3; [done|]. intros Hpt. apply Hne. by apply (path_inj s _ _ p (ok_dir _ Hs)).
Qed.

Lemma put_tx_closed ns k rec encoded d d' :
  rec_ok ns k rec → encodeRecord rec = Some encoded → len encoded ≤ MaxValueLen →
  kv_ok d → opened d → put_tx ns k rec encoded d = Ok d' → kv_ok d' ∧ opened d'.
Proof.
  intros Hr He Hl Hd Ho Hput. pose proof (put_tx_ok d ns k rec encoded Hd Ho Hr He Hl) as H.
  destruct (over_quota _ _ _ _); [congruence|]. destruct H as (d1 & H1 & H2 & H3 & _).
  rewrite H1 in Hput. by injection Hput as <-.
Qed.

Lemma delete_tx_closed ns k d d' : validNamespace ns = true →
  kv_ok d → opened d → delete_tx ns k d = Ok d' → kv_ok d' ∧ opened d'.
Proof.
  intros Hns Hd Ho H. destruct (delete_tx_ok d ns k Hd Ho Hns) as (d1 & H1 & H2 & H3 & _).
  rewrite H1 in H. by injection H as <-.
Qed.

Lemma Put_spec s c t ns k v ct ttl r s' :
  store_ok s → 0 ≤ now c → Put s c t ns k v ct ttl = (r, s') →
  store_ok s' ∧
  ∀ t' ns' k', tenant_rec s' t' ns' k' =
    if is_ok r && bool_decide (t' = t ∧ ns' = ns ∧ k' = k)
    then Some (new_record c v ct ttl) else tenant_rec s t' ns' k'.
Proof.
  intros Hs Ht. unfold Put.
  assert (Hrefl : is_ok r = false → store_ok s' → dir s' = dir s →
    (∀ p ns k, rec_at (file s' p) ns k = rec_at (file s p) ns k) →
    store_ok s' ∧ ∀ t' ns' k', tenant_rec s' t' ns' k' =
      if is_ok r && bool_decide (t' = t ∧ ns' = ns ∧ k' = k)
      then Some (new_record c v ct ttl) else tenant_rec s t' ns' k').
  { intros -> Hs' Hd Hf. split; [done|]. intros. cbn [andb]. apply tenant_rec_file; auto. }
  destruct (validNamespace ns) eqn:Hns; cbn [negb]; [|intros [= <- <-]; by apply Hrefl].
  destruct (String.eqb k "" || (MaxKeyLen <? len k)) eqn:Hk; [intros [= <- <-]; by apply Hrefl|].
  destruct (MaxValueLen <? len v); [intros [= <- <-]; by apply Hrefl|]. boolp.
  destruct (getDB s c t) as [[h|e] s1] eqn:Hg;
    destruct (getDB_ok s c t _ _ Hs Hg) as (H1 & H2 & H3 & _).
  2:{ intros [= <- <-]. by apply Hrefl. }
  fold (new_record c v ct ttl).
  destruct (encodeRecord (new_record c v ct ttl)) as [enc|] eqn:Henc; [|intros [= <- <-]; by apply Hrefl].
  destruct (MaxValueLen <? len enc) eqn:Hl; [intros [= <- <-]; by apply Hrefl|]. boolp.
  assert (Hrec : rec_ok ns k (new_record c v ct ttl)) by by apply new_record_ok.
  intros Hu. destruct (getDB_update s c t _ h s1 r s' Hs Hg
    (λ d d', put_tx_closed ns k _ enc d d' Hrec Henc Hl) Hu)
    as (Honly & Hp & Ho & Hok & Hsame & Hr).
  destruct r as [[]|e]; [|destruct Hr as [-> _]; by apply Hrefl].
  split; [apply Honly|]. apply (tenant_write s s' t h); [done..|]. intros ns' k'.
  pose proof (put_tx_ok _ ns k _ enc Hok Ho Hrec Henc Hl) as Htx.
  destruct (over_quota _ _ _ _); [congruence|].
  destruct Htx as (d' & Hd' & _ & _ & Hrec'). rewrite Hr in Hd'. injection Hd' as <-.
  by rewrite Hrec', Hsame.
Qed.
(** a [Put] that succeeds stores exactly the new record for its tenant
    and key and keeps every other record of every tenant; one that fails
    leaves every record of every tenant as it was.  Either way the counters
    and the expiry index of every file still agree with the records. *)
Theorem Put_effect s c t ns k v ct ttl r s' :
  store_ok s → 0 ≤ now c → Put s c t ns k v ct ttl = (r, s') →
  store_ok s' ∧
  ∀ t' ns' k', tenant_rec s' t' ns' k' =
    if is_ok r && bool_decide (t' = t ∧ ns' = ns ∧ k' = k)
    then Some (new_record c v ct ttl) else tenant_rec s t' ns' k'.
Proof. apply Put_spec. Qed.

Lemma Delete_spec s c t ns k r s' :
  store_ok s → Delete s c t ns k = (r, s') →
  only_tenant s s' t ∧
  ∀ t' ns' k', tenant_rec s' t' ns' k' =
    if is_ok r && bool_decide (t' = t ∧ ns' = ns ∧ k' = k) then None else tenant_rec s t' ns' k'.
Proof.
  intros Hs. unfold Delete.
  assert (Hrefl : is_ok r = false → only_tenant s s' t →
    (∀ p ns k, rec_at (file s' p) ns k = rec_at (file s p) ns k) →
    only_tenant s s' t ∧ ∀ t' ns' k', tenant_rec s' t' ns' k' =
      if is_ok r && bool_decide (t' = t ∧ ns' = ns ∧ k' = k) then None else tenant_rec s t' ns' k').
  { intros -> Ho Hf. split; [done|]. intros. cbn [andb]. apply tenant_rec_file; [apply Ho|auto]. }
  destruct (validNamespace ns) eqn:Hns; cbn [negb]; [|intros [= <- <-]; by apply Hrefl].
  destruct (String.eqb k "" || (MaxKeyLen <? len k)) eqn:Hk; [intros [= <- <-]; by apply Hrefl|].
  destruct (getDB s c t) as [[h|e] s1] eqn:Hg;
    destruct (getDB_ok s c t _ _ Hs Hg) as (H1 & H2 & H3 & H4 & _).
  2:{ intros [= <- <-]. by apply Hrefl. }
  intros Hu. destruct (getDB_update s c t _ h s1 r s' Hs Hg (λ d d', delete_tx_closed ns k d d' Hns) Hu)
    as (Honly & Hp & Ho & Hok & Hsame & Hr).
  destruct r as [[]|e]; [|destruct Hr as [-> _]; by apply Hrefl].
  split; [done|]. apply (tenant_write s s' t h); [done..|]. intros ns' k'.
  destruct (delete_tx_ok _ ns k Hok Ho Hns) as (d' & Hd' & _ & _ & Hrec').
  rewrite Hr in Hd'. injection Hd' as <-. by rewrite Hrec', Hsame.
Qed.
(** a [Delete] that succeeds leaves nothing under that tenant and key
    and every other record as it was; one that fails changes no record. *)
Theorem Delete_effect s c t ns k r s' :
  store_ok s → Delete s c t ns k = (r, s') →
  only_tenant s s' t ∧
  ∀ t' ns' k', tenant_rec s' t' ns' k' =
    if is_ok r && bool_decide (t' = t ∧ ns' = ns ∧ k' = k) then None else tenant_rec s t' ns' k'.
Proof. apply Delete_spec. Qed.

(** [Get] opens the database and answers from the tenant's record. *)
Lemma Get_spec s c t ns k r s' :
  store_ok s → Get s c t ns k = (r, s') →
  only_tenant s s' t ∧ (∀ t' ns' k', tenant_rec s' t' ns' k' = tenant_rec s t' ns' k') ∧
  match r with
  | Ok (v, ct, exp, etag) => ∃ rec, tenant_rec s t ns k = Some rec ∧ expired rec (now c) = false ∧
      v = Value rec ∧ ct = ContentType rec ∧ exp = ExpiresAt rec ∧ etag = etag_of v
  | Err ErrKVNotFound => ∀ rec, tenant_rec s t ns k = Some rec → expired rec (now c) = true
  | Err _ => True
  end.
Proof.
  intros Hs. unfold Get.
  destruct (validNamespace ns) eqn:Hns; cbn [negb]; [|by intros [= <- <-]].
  destruct (String.eqb k "" || (MaxKeyLen <? len k)) eqn:Hk; [by intros [= <- <-]|].
  destruct (getDB s c t) as [[h|e] s1] eqn:Hg;
    destruct (getDB_ok s c t _ _ Hs Hg) as (H1 & H2 & H3 & H4 & H5).
  2:{ intros [= <- <-]. split; [done|]. split; [by intros; apply tenant_rec_file; auto|].
      revert Hg. unfold getDB. destruct (path s t) eqn:Hp.
      - destruct (dbs s !! t); [done|]. repeat (case_match; try done); by intros [= <- <-].
      - intros [= <- <-]. revert Hp. unfold path. by repeat (case_match; try done); intros [= <-]. }
  destruct H5 as (Hp & Hh & Ho).
  assert (Hrec : tenant_rec s t ns k = raw_at (bview (file s1 h)) ns k ≫= decodeRecord).
  { unfold tenant_rec. rewrite Hp, <- H3. done. }
  fold (file s1 h). unfold get_tx. rewrite view_exists, view_get.
  change (bview (file s1 h) !! nsBucketName ns ≫= λ m, m !! k) with (raw_at (bview (file s1 h)) ns k).
  assert (Hsame : ∀ t' ns' k', tenant_rec s1 t' ns' k' = tenant_rec s t' ns' k')
    by (intros; apply tenant_rec_file; auto).
  case_bool_decide as Hb; cbn [negb].
  2:{ intros [= <- <-]. split; [done|split; [done|]]. rewrite Hrec. unfold raw_at.
      destruct (bview (file s1 h) !! nsBucketName ns); [destruct Hb; eauto|done]. }
  rewrite Hrec. destruct (raw_at (bview (file s1 h)) ns k) as [raw|]; cbn [mbind option_bind].
  2:{ by intros [= <- <-]. }
  destruct (decodeRecord raw) as [rec|]; [|by intros [= <- <-]].
  destruct (expired rec (now c)) eqn:He; intros [= <- <-].
  - split; [done|split; [done|]]. by intros ? [= <-].
  - split; [done|split; [done|]]. eauto 10.
Qed.

(** after a successful [Put], a [Get] at any time before the expiry
    that finds the handle and the arguments valid returns the value, the
    content type, the expiry and the ETag of the value, and one at or after
    the expiry answers not found. *)
Theorem get_after_put s c c' t ns k v ct ttl s1 r s2 :
  store_ok s → 0 ≤ now c → Put s c t ns k v ct ttl = (Ok tt, s1) →
  Get s1 c' t ns k = (r, s2) →
  let exp := if 0 <? ttl then Some (now c + ttl) else None in
  r = if (0 <? ttl) && negb (now c' <? now c + ttl) then Err ErrKVNotFound
      else Ok (v, ct, exp, etag_of v).
Proof.
  intros Hs Ht Hput Hget. destruct (Put_spec s c t ns k v ct ttl _ _ Hs Ht Hput) as [Hs1 Hrec].
  specialize (Hrec t ns k). cbn [is_ok andb] in Hrec. rewrite bool_decide_eq_true_2 in Hrec by done.
  destruct (Get_spec s1 c' t ns k r s2 Hs1 Hget) as (_ & _ & Hr).
  assert (Hexp : expired (new_record c v ct ttl) (now c') =
            (0 <? ttl) && negb (now c' <? now c + ttl)).
  { unfold expired, new_record. cbn [ExpiresAt]. by destruct (0 <? ttl). }
  (* the handle is open after the Put, so the arguments and the handle are fine *)
  assert (Hcases : (∃ x, r = Ok x) ∨ r = Err ErrKVNotFound).
  { revert Hput Hget. unfold Put, Get.
    destruct (validNamespace ns); cbn [negb]; [|done].
    destruct (String.eqb k "" || (MaxKeyLen <? len k)); [done|].
    destruct (MaxValueLen <? len v); [done|].
    destruct (getDB s c t) as [[h|e] s0] eqn:Hg; [|done].
    destruct (encodeRecord _); [|done]. destruct (MaxValueLen <? len _); [done|]. intros Hu.
    assert (Hg1 : getDB s1 c' t = (Ok h, s1)).
    { destruct (getDB_ok s c t _ _ Hs Hg) as (H1 & H2 & _ & _ & Hp & Hh & _).
      assert (Hsame : dir s1 = dir s0 ∧ dbs s1 = dbs s0).
      { by apply Update_frame in Hu. }
      destruct Hsame as [Hd Hdb]. unfold getDB.
      assert (path s1 t = path s t) as -> by (unfold path; by rewrite Hd, H2).
      by rewrite Hp, Hdb, Hh. }
    rewrite Hg1. destruct (get_tx _ _ _ _) as [x|e] eqn:Htx; intros [= <- _]; [eauto|right].
    revert Htx. unfold get_tx. repeat (case_match; try done); by intros [= <-]. }
  rewrite <- Hexp. destruct Hcases as [[[[[v' ct'] e'] etag] ->]| ->].
  - destruct Hr as (rec & Hrec' & He & -> & -> & -> & ->). rewrite Hrec in Hrec'.
    injection Hrec' as <-. by rewrite He.
  - by rewrite (Hr _ Hrec).
Qed.

(** the quota is enforced on the true totals: with the handle open, a
    [Put] of an encodable record is refused exactly when the bytes of all
    records of the tenant, or their number, would exceed the cap after the
    write, the record it overwrites being discounted. *)
Theorem put_quota_exact s c t ns k v ct ttl h enc :
  store_ok s → 0 ≤ now c → dbs s !! t = Some h → commit_ok c = true →
  validNamespace ns = true → k ≠ "" → len k ≤ MaxKeyLen → len v ≤ MaxValueLen →
  encodeRecord (new_record c v ct ttl) = Some enc → len enc ≤ MaxValueLen →
  let old := raw_at (bview (file s h)) ns k in
  let used := used_bytes (bview (file s h)) - from_option (sizeOf k) 0 old + sizeOf k enc in
  let count := key_count (bview (file s h)) + (if old is Some _ then 0 else 1) in
  (Put s c t ns k v ct ttl).1 =
    if (MaxBytesPerTenant <? used) || (MaxKeysPerTenant <? count) then Err ErrKVQuota else Ok tt.
Proof.
  intros Hs Ht Hh Hc Hns Hk Hkl Hv Henc Hl. cbv zeta.
  destruct (ok_handles _ Hs _ _ Hh) as (Hp & d & Hd & Ho).
  unfold Put. rewrite Hns, (proj2 (String.eqb_neq _ _) Hk), !(proj2 (Z.ltb_ge _ _)) by done.
  cbn [negb orb]. unfold getDB. rewrite Hp, Hh. fold (new_record c v ct ttl).
  rewrite Henc, (proj2 (Z.ltb_ge _ _)) by done.
  assert (Hf : file s h = d) by (unfold file; by rewrite Hd).
  unfold Update. fold (file s h).
  pose proof (put_tx_ok (file s h) ns k _ enc (file_ok s h Hs) ltac:(by rewrite Hf)
    (new_record_ok _ _ _ _ ct _ Ht Hns Hk Hkl) Henc Hl) as Htx.
  unfold over_quota in Htx. cbv zeta in Htx.
  set (old := raw_at (bview (file s h)) ns k) in *.
  assert ((if old is Some _ then key_count (bview (file s h)) else key_count (bview (file s h)) + 1)
    = key_count (bview (file s h)) + (if old is Some _ then 0 else 1)) as Hn by (destruct old; lia).
  rewrite Hn in Htx. destruct (_ || _); [by rewrite Htx|].
  destruct Htx as (d' & -> & _). by rewrite Hc.
Qed.

(** ** Sweeps *)
Lemma sweep_write_ok s c t h batch n s' :
  store_ok s → in64 (now c) → dbs s !! t = Some h →
  Forall (due_ok (UnixNano (now c))) batch → sweep_write s c h batch = (n, s') →
  only_tenant s s' t ∧ dbs s' = dbs s ∧
  ∀ ns k, rec_at (file s' h) ns k = rec_at (file s h) ns k ∨
    (expired_at (file s h) (now c) ns k = true ∧ rec_at (file s' h) ns k = None).
Proof.
  intros Hs Hc Hh Hdue. destruct (ok_handles _ Hs _ _ Hh) as (Hp & d & Hd & Ho).
  unfold sweep_write. destruct batch as [|x batch].
  { intros [= <- <-]. split; [done|]. auto. }
  fold (file s h). assert (Hf : file s h = d) by (unfold file; by rewrite Hd).
  destruct (sweep_update _ _ _) as [d' m] eqn:Hu.
  destruct (sweep_update_ok (now c) (x :: batch) (file s h) d' m (file_ok s h Hs)) as (H1 & H2 & H3 & H4);
    [by rewrite Hf|done..|].
  destruct (commit_ok c); intros [= <- <-]; [|split; [done|by auto]].
  split; [split; [by apply set_disk_ok|split; [done|]]|split; [done|]].
  - intros p Hne. rewrite file_set_disk, decide_False; [done|]. intros ->. by apply Hne.
  - intros ns k. rewrite file_set_disk, decide_True by done. rewrite H4.
    destruct (in_batch _ ns k); [|by left]. destruct (expired_at _ _ ns k); [by right|by left].
Qed.

(** ** Whole runs *)

(** The calls of the program on a store; [OSweep] is the write transaction of
    a sweep whose read transaction saw the state [d0]. *)
Inductive op :=
| OPut (c : call) (t ns k v ct : string) (ttl : Z)
| OGet (c : call) (t ns k : string)
| ODelete (c : call) (t ns k : string)
| OList (c : call) (t ns pfx : string) (limit : Z) (cur : string)
| OStats (c : call) (t : string) (file_exists : string → bool)
| OSweep (c : call) (t : string) (d0 : DB)
| OClose.
Definition exec_op (s : Store DB) (o : op) : Store DB :=
  match o with
  | OPut c t ns k v ct ttl => (Put s c t ns k v ct ttl).2
  | OGet c t ns k => (Get s c t ns k).2
  | ODelete c t ns k => (Delete s c t ns k).2
  | OList c t ns pfx limit cur => (List s c t ns pfx limit cur).2
  | OStats c t fe => (Stats s c t fe).2
  | OSweep c t d0 => match dbs s !! t with
                     | Some h => (sweep_write s c h (sweep_view (now c) d0)).2
                     | None => s
                     end
  | OClose => Close s
  end.
Definition run_ops (s : Store DB) (ops : list op) : Store DB := foldl exec_op s ops.
Definition op_ok (o : op) : Prop :=
  match o with
  | OPut c _ _ _ _ _ ttl => 0 ≤ now c
  | OSweep c _ _ => in64 (now c)
  | _ => True
  end.
Definition op_tenant (o : op) : option string :=
  match o with
  | OPut _ t _ _ _ _ _ | OGet _ t _ _ | ODelete _ t _ _ | OList _ t _ _ _ _
  | OStats _ t _ | OSweep _ t _ => Some t
  | OClose => None
  end.

Lemma getDB_only s c t r s' : store_ok s → getDB s c t = (r, s') → only_tenant s s' t.
Proof. intros Hs Hg. destruct (getDB_ok s c t _ _ Hs Hg) as (H1 & H2 & _ & H4 & _). done. Qed.

Lemma Put_only s c t ns k v ct ttl :
  store_ok s → 0 ≤ now c → only_tenant s (Put s c t ns k v ct ttl).2 t.
Proof.
  intros Hs Ht. unfold Put. destruct (validNamespace ns) eqn:Hns; cbn [negb]; [|done].
  destruct (String.eqb k "" || (MaxKeyLen <? len k)) eqn:Hk; [done|].
  destruct (MaxValueLen <? len v); [done|]. boolp.
  destruct (getDB s c t) as [[h|e] s1] eqn:Hg; [|by apply (getDB_only _ c _ (Err e))].
  fold (new_record c v ct ttl).
  destruct (encodeRecord _) as [enc|] eqn:Henc; [|by apply (getDB_only _ c _ (Ok h))].
  destruct (MaxValueLen <? len enc) eqn:Hl; [by apply (getDB_only _ c _ (Ok h))|]. boolp.
  destruct (Update _ _ _ _) as [r s'] eqn:Hu. cbn [snd].
  eapply (getDB_update s c t _ h s1 r s' Hs Hg); [|done].
  intros d d'. apply put_tx_closed; [by apply new_record_ok|done..].
Qed.

Lemma exec_only s o t : store_ok s → op_ok o → op_tenant o = Some t → only_tenant s (exec_op s o) t.
Proof.
  intros Hs Ho Ht.
  assert (Hdb : ∀ c t r s', getDB s c t = (r, s') → only_tenant s s' t)
    by (intros; by eapply getDB_only).
  destruct o as [c t' ns k v ct ttl|c t' ns k|c t' ns k|c t' ns pfx limit cur|c t' fe|c t' d0|];
    simplify_eq/=.
  - by apply Put_only.
  - destruct (Get s c t ns k) as [r s'] eqn:E. by apply (Get_spec _ _ _ _ _ _ _ Hs E).
  - destruct (Delete s c t ns k) as [r s'] eqn:E. by apply (Delete_spec _ _ _ _ _ _ _ Hs E).
  - unfold List. destruct (validNamespace ns); cbn [negb]; [|done].
    destruct (decodeCursor cur); [|done].
    destruct (getDB s c t) as [[h|e] s1] eqn:Hg; eauto.
  - unfold Stats. destruct (validTenant t); cbn [negb]; [|done].
    destruct (match dbs s !! t with Some _ => _ | None => _ end); [done|].
    destruct (getDB s c t) as [[h|e] s1] eqn:Hg; eauto.
  - destruct (dbs s !! t) as [h|] eqn:Hh; [|done].
    destruct (sweep_write _ _ _ _) as [n s'] eqn:Hw.
    by apply (sweep_write_ok s c t h _ n s' Hs Ho Hh (sweep_view_due _ _) Hw).
Qed.

Lemma exec_ok s o : store_ok s → op_ok o → store_ok (exec_op s o).
Proof.
  intros Hs Ho. destruct (op_tenant o) as [t|] eqn:Ht; [by apply (exec_only s o t Hs Ho Ht)|].
  destruct o; try done. destruct Hs as [H1 H2 H3]. split; [done|done|].
  intros t h. cbn. by rewrite lookup_empty.
Qed.

Lemma run_ok s ops : store_ok s → Forall op_ok ops → store_ok (run_ops s ops).
Proof.
  revert s. induction ops as [|o ops IH]; intros s Hs; [done|].
  intros [Ho Hops]%Forall_cons. by apply IH; [apply exec_ok|].
Qed.

(** What a call for tenant [t] leaves alone besides: every open handle but its own, and the
    bytes of every other file. *)
Record handles_apart (t : string) (s s' : Store DB) : Prop := {
  ha_dir : dir s' = dir s;
  ha_closed : closed s' = closed s;
  ha_dbs t' : t' ≠ t → dbs s' !! t' = dbs s !! t';
  ha_file p : path s t ≠ Ok p → file s' p = file s p }.
#[export] Instance handles_apart_refl t : Reflexive (handles_apart t).
Proof. done. Qed.
Lemma only_handles s s' t : only_tenant s s' t → closed s' = closed s → (∀ t', t' ≠ t → dbs s' !! t' = dbs s !! t') →
  handles_apart t s s'.
Proof. by intros (_ & H1 & H2) H3 H4. Qed.
Lemma getDB_handles s c t r s' : getDB s c t = (r, s') →
  closed s' = closed s ∧ ∀ t', t' ≠ t → dbs s' !! t' = dbs s !! t'.
Proof.
  unfold getDB. destruct (path s t); [|by intros [= _ <-]]. destruct (dbs s !! t); [by intros [= _ <-]|].
  destruct (closed s) eqn:E; [by intros [= _ <-]|]. destruct (open_ok c); [|by intros [= _ <-]].
  destruct (init_ok c); intros [= _ <-]; [|done]. cbn. split; [done|]. intros t' Hne. by rewrite lookup_insert_ne.
Qed.
Lemma Update_handles s c h f r s' : Update s c h f = (r, s') → closed s' = closed s ∧ dbs s' = dbs s.
Proof. unfold Update. destruct (f _); [destruct (commit_ok c)|]; by intros [= _ <-]. Qed.
Lemma Put_handles s c t ns k v ct ttl : let s' := (Put s c t ns k v ct ttl).2 in
  closed s' = closed s ∧ ∀ t', t' ≠ t → dbs s' !! t' = dbs s !! t'.
Proof.
  cbv zeta. unfold Put. destruct (negb _); [done|]. destruct (_ || _); [done|]. destruct (_ <? _); [done|].
  destruct (getDB s c t) as [[h|e] s1] eqn:Hg; destruct (getDB_handles _ _ _ _ _ Hg) as [H1 H2]; [|done].
  destruct (encodeRecord _); [|done]. destruct (_ <? _); [done|]. destruct (Update _ _ _ _) as [r s2] eqn:Hu.
  destruct (Update_handles _ _ _ _ _ _ Hu) as [H3 H4]. cbn [snd]. by rewrite H3, H4.
Qed.
Lemma exec_handles s o t : store_ok s → op_ok o → op_tenant o = Some t → handles_apart t s (exec_op s o).
Proof.
  intros Hs Ho Ht. pose proof (exec_only s o t Hs Ho Ht) as Hon.
  cut (closed (exec_op s o) = closed s ∧ ∀ t', t' ≠ t → dbs (exec_op s o) !! t' = dbs s !! t').
  { intros [H1 H2]. by apply only_handles. }
  clear Hon. destruct o as [c t' ns k v ct ttl|c t' ns k|c t' ns k|c t' ns pfx limit cur|c t' fe|c t' d0|];
    simplify_eq/=.
  - apply Put_handles.
  - unfold Get. destruct (negb _); [done|]. destruct (_ || _); [done|].
    destruct (getDB s c t) as [[h|e] s1] eqn:Hg; destruct (getDB_handles _ _ _ _ _ Hg); [|done]. by destruct (get_tx _ _ _ _).
  - unfold Delete. destruct (negb _); [done|]. destruct (_ || _); [done|].
    destruct (getDB s c t) as [[h|e] s1] eqn:Hg; destruct (getDB_handles _ _ _ _ _ Hg) as [H1 H2]; [|done].
    destruct (Update _ _ _ _) as [r s2] eqn:Hu. destruct (Update_handles _ _ _ _ _ _ Hu) as [H3 H4]. cbn [snd]. by rewrite H3, H4.
  - unfold List. destruct (negb _); [done|]. destruct (decodeCursor cur); [|done].
    destruct (getDB s c t) as [[h|e] s1] eqn:Hg; by destruct (getDB_handles _ _ _ _ _ Hg).
  - unfold Stats. destruct (negb _); [done|].
    destruct (match dbs s !! t with Some _ => _ | None => _ end); [done|].
    destruct (getDB s c t) as [[h|e] s1] eqn:Hg; by destruct (getDB_handles _ _ _ _ _ Hg).
  - destruct (dbs s !! t) as [h|]; [|done]. unfold sweep_write. destruct (sweep_view _ _); [done|].
    destruct (sweep_update _ _ _). by destruct (commit_ok c).
Qed.

(** C6: after any sequence of calls on a fresh store, whatever their TTLs, sweeps with stale
    batches and failed transactions included, every file has exact counters
    within the caps, every record decodes, and every record that expires before the year 2262 is
    in the expiry index under its own entry (a later time is no [UnixNano]: the index entry is of another time).
    The clock reads 1970 or later, and an [int64] of nanoseconds in a sweep. *)
Theorem store_invariant d minFree mk s0 ops p db :
  Open d minFree mk ∅ = Some s0 → Forall op_ok ops → disk (run_ops s0 ops) !! p = Some db →
  readKVMeta db = (used_bytes (bview db), key_count (bview db)) ∧
  used_bytes (bview db) ≤ MaxBytesPerTenant ∧ key_count (bview db) ≤ MaxKeysPerTenant ∧
  ∀ ns k raw, raw_at (bview db) ns k = Some raw →
    ∃ r, decodeRecord raw = Some r ∧
      ∀ e, ExpiresAt r = Some e → e < 2 ^ 63 → indexed (bview db) (ttlKey e ns k).
Proof.
  intros Hopen Hops Hp.
  assert (Hs0 : store_ok s0).
  { revert Hopen. unfold Open. case_match eqn:Hd; [done|]. destruct mk; [|done].
    intros [= <-]. boolp. split; [done|..]; cbn; intros ??; by rewrite lookup_empty. }
  pose proof (ok_files _ (run_ok _ _ Hs0 Hops) p db Hp) as Hok.
  unfold kv_ok in Hok. rewrite readKVMeta_view.
  rewrite <- (inv_used _ _ _ Hok), <- (inv_count _ _ _ Hok).
  split; [done|split; [apply (inv_used_le _ _ _ Hok)|split; [apply (inv_count_le _ _ _ Hok)|]]].
  intros ns k raw Hraw. destruct (inv_rec _ _ _ Hok _ _ _ Hraw) as (r & Hr & _).
  exists r. split; [done|]. intros e He Hlt. by apply (inv_idx _ _ _ Hok _ _ raw r).
Qed.

(** no call made on behalf of one tenant, whatever its arguments and
    outcome, changes any record of another tenant. *)
Theorem tenant_isolation s o t t' ns k :
  store_ok s → op_ok o → op_tenant o = Some t → t' ≠ t →
  tenant_rec (exec_op s o) t' ns k = tenant_rec s t' ns k.
Proof.
  intros Hs Ho Ht Hne. apply (only_isolates s _ t); [by apply exec_only|apply Hs|done].
Qed.
End store.
