(* ===== verification/ApiHttp.v ===== *)
(** * internal/api: what the handlers share

    A decoded request body, a JSON reply, and the tenant check every handler
    starts with.  A handler is given what the router and the middleware made of the
    request: path and query parameters, headers, and the tenant of the context. *)

From S2P Require Import Prelude GoLib GoStrings Auth.
From S2P Require Export GoUnmarshal.

(** [HErr] is [writeJSON] of [{"error": code}], with a [Retry-After] header. *)
Inductive http (A : Type) : Type :=
| HErr (status : Z) (code : string) (retryAfter : option Z)
| HOk (status : Z) (a : A).
Arguments HErr {A} status code retryAfter.
Arguments HOk {A} status a.

Definition status {A} (r : http A) : Z := match r with HErr s _ _ | HOk s _ => s end.

(** [reqTenant] answers for the handler when no middleware set a tenant. *)
Definition no_tenant {A} : http A := HErr 500 "no_tenant" None.
