(* ===== verification/ApiKV.v ===== *)
(** * internal/api/memory.go: /v1/memory

    The handlers over [KV.Store]; namespace and key come from the path and are
    checked by the store, the tenant comes from the context only. *)

From S2P Require Import Prelude GoLib GoStrings GoCodec GoFloat Auth Bolt KV KVSpec KVStore ApiHttp.

Definition second : Z := 10 ^ 9.
Definition maxKVValue : Z := Z.shiftl 8 20.

Definition writeKVErr {A} (e : KVErr) : http A :=
  match e with
  | ErrKVNotFound => HErr 404 "not_found" None
  | ErrKVQuota => HErr 413 "quota_exceeded" None
  | ErrKVValueSize => HErr 413 "value_too_large" None
  | ErrKVNamespace => HErr 400 "invalid_namespace" None
  | ErrKVKey => HErr 400 "invalid_key" None
  | ErrKVTenant | ErrKVClosed => HErr 500 "internal" None
  | ErrOpen | ErrInit | ErrEncode | ErrCommit | ErrBadCursor => HErr 500 "internal" None
  end.

(** The headers of a value: [h_expires] is [X-Expires-At], before formatting. *)
Record kvalue := { h_etag : string; h_expires : option Z; h_type : string; h_value : string }.
Inductive kreply :=
| KNoContent | KNotModified (etag : string) | KValue (v : kvalue)
| KList (ns : string) (keys : list string) (nextCursor : string).

(** The [X-TTL-Seconds] header; [None] is the reply 400.  [time.Duration] is an
    int64. *)
Definition parse_ttl (h : string) : option Z :=
  if String.eqb h "" then Some 0 else
  let '(secs, ok) := Atoi h in
  if negb ok || (secs <? 0) then None else Some (wrap64 (secs * second)).

Section kv.
Context {DB : Type} {BO : Bolt DB} {RC : RecordCodec}.

(** [b]: the body, or an error of reading it (over [maxKVValue], say). *)
Definition handleKVPut (s : Store DB) (c : call) (statfs : option (Z * Z)) (ctx : KeyStore.Context)
    (ns key : string) (b : option string) (ttl_header ct : string) : http kreply * Store DB :=
  match Middleware.reqTenant ctx with
  | inr _ => (no_tenant, s)
  | inl tenant =>
      if DiskFull s statfs then (HErr 507 "storage_full" None, s) else
      match b with
      | None => (HErr 413 "too_large" None, s)
      | Some val =>
          match parse_ttl ttl_header with
          | None => (HErr 400 "invalid_ttl" None, s)
          | Some ttl =>
              match Put s c tenant ns key val ct ttl with
              | (Err e, s) => (writeKVErr e, s)
              | (Ok _, s) => (HOk 204 KNoContent, s)
              end
          end
      end
  end.

Definition handleKVGet (s : Store DB) (c : call) (ctx : KeyStore.Context) (ns key if_none_match : string) :
    http kreply * Store DB :=
  match Middleware.reqTenant ctx with
  | inr _ => (no_tenant, s)
  | inl tenant =>
      match Get s c tenant ns key with
      | (Err e, s) => (writeKVErr e, s)
      | (Ok (val, ct, expiresAt, etag), s) =>
          if negb (String.eqb etag "") && negb (String.eqb if_none_match "") && String.eqb if_none_match etag
          then (HOk 304 (KNotModified etag), s)
          else (HOk 200 (KValue {|
            h_etag := etag; h_expires := expiresAt;
            h_type := if String.eqb ct "" then "application/octet-stream" else ct; h_value := val |}), s)
      end
  end.

Definition handleKVDelete (s : Store DB) (c : call) (ctx : KeyStore.Context) (ns key : string) :
    http kreply * Store DB :=
  match Middleware.reqTenant ctx with
  | inr _ => (no_tenant, s)
  | inl tenant =>
      match Delete s c tenant ns key with
      | (Err e, s) => (writeKVErr e, s)
      | (Ok _, s) => (HOk 204 KNoContent, s)
      end
  end.

(** The query parameters [limit] (a malformed one is what [Atoi] returns besides
    its error), [prefix] and [cursor]. *)
Definition handleKVList (s : Store DB) (c : call) (ctx : KeyStore.Context) (ns limit prefix cursor : string) :
    http kreply * Store DB :=
  match Middleware.reqTenant ctx with
  | inr _ => (no_tenant, s)
  | inl tenant =>
      let n := if String.eqb limit "" then 0 else (Atoi limit).1 in
      match List s c tenant ns prefix n cursor with
      | (Err e, s) => (writeKVErr e, s)
      | (Ok (keys, next), s) => (HOk 200 (KList ns keys next), s)
      end
  end.
End kv.

(** ** Round trip *)
Section spec.
Context {DB : Type} {BO : Bolt DB} {BS : BoltSpec DB} {RC : RecordCodec} {RS : RecordCodecSpec}.
Implicit Types (s : Store DB).

Lemma parse_ttl_spec h ttl : parse_ttl h = Some ttl →
  h = "" ∧ ttl = 0 ∨ ∃ secs, Atoi h = (secs, true) ∧ 0 ≤ secs ∧ ttl = wrap64 (secs * second).
Proof.
  unfold parse_ttl. destruct (String.eqb h "") eqn:E; [intros [= <-]; boolp; by left|].
  destruct (Atoi h) as [secs ok]. destruct ok; [|done]. cbn [negb orb].
  destruct (secs <? 0) eqn:Es; [done|]. intros [= <-]. boolp. right. by exists secs.
Qed.
Lemma tenant_ctx t : t ≠ "" → Middleware.reqTenant (Some t) = inl t.
Proof. intros H. unfold Middleware.reqTenant, KeyStore.TenantFrom. by apply String.eqb_neq in H as ->. Qed.
Lemma etag_ne v : String.eqb (etag_of v) "" = false.
Proof. done. Qed.

(** What the handler answers for a value that [Get] found. *)
Definition value_reply (v ct inm : string) (exp : option Z) : http kreply :=
  if String.eqb inm (etag_of v) then HOk 304 (KNotModified (etag_of v))
  else HOk 200 (KValue {| h_etag := etag_of v; h_expires := exp;
    h_type := if String.eqb ct "" then "application/octet-stream" else ct; h_value := v |}).

Lemma put_get_http s c c' st t ns key v hdr ct ttl s1 inm :
  store_ok s → t ≠ "" → parse_ttl hdr = Some ttl → 0 ≤ now c →
  handleKVPut s c st (Some t) ns key (Some v) hdr ct = (HOk 204 KNoContent, s1) →
  (handleKVGet s1 c' (Some t) ns key inm).1 =
    if (0 <? ttl) && negb (now c' <? now c + ttl) then HErr 404 "not_found" None
    else value_reply v ct inm (if 0 <? ttl then Some (now c + ttl) else None).
Proof.
  intros Hs Ht Hp Htime. unfold handleKVPut, handleKVGet. rewrite tenant_ctx by done.
  destruct (DiskFull s st); [done|]. rewrite Hp.
  destruct (Put s c t ns key v ct ttl) as [[[]|e] s0] eqn:Hput; [|by destruct e]. intros [= ->].
  destruct (Get s1 c' t ns key) as [r s2] eqn:Hget.
  rewrite (get_after_put s c c' t ns key v ct ttl s1 r s2 Hs Htime Hput Hget). cbv zeta.
  destruct ((0 <? ttl) && negb (now c' <? now c + ttl)); [done|].
  rewrite etag_ne. unfold value_reply. destruct (String.eqb_spec inm (etag_of v)) as [->|Hne]; [done|].
  cbn [negb andb]. by rewrite andb_false_r.
Qed.

(** C25: values survive the HTTP round trip.  After a PUT that was answered 204, a
    GET by the same tenant returns exactly the bytes, the content type (with the
    default for an empty one), the expiry and the ETag of the value, 304 without a body
    when [If-None-Match] is that ETag, and 404 from the expiry on. *)
Theorem kv_http_roundtrip s c c' st t ns key v hdr ct ttl s1 inm :
  store_ok s → t ≠ "" → parse_ttl hdr = Some ttl → 0 ≤ now c →
  handleKVPut s c st (Some t) ns key (Some v) hdr ct = (HOk 204 KNoContent, s1) →
  (handleKVGet s1 c' (Some t) ns key inm).1 =
    if (0 <? ttl) && negb (now c' <? now c + ttl) then HErr 404 "not_found" None
    else value_reply v ct inm (if 0 <? ttl then Some (now c + ttl) else None).
Proof. apply put_get_http. Qed.

(** a long TTL wraps around.  [X-TTL-Seconds] from 9223372037 (292 years) up
    to 18446744073 overflows [time.Duration] to a negative number: the PUT is accepted
    and the value is stored without any expiry, so no later GET answers 404. *)
Theorem kv_ttl_wraps s c c' st t ns key v hdr ct secs s1 :
  store_ok s → t ≠ "" → 0 ≤ now c → Atoi hdr = (secs, true) → 9223372037 ≤ secs ≤ 18446744073 →
  handleKVPut s c st (Some t) ns key (Some v) hdr ct = (HOk 204 KNoContent, s1) →
  (handleKVGet s1 c' (Some t) ns key "").1 = value_reply v ct "" None.
Proof.
  intros Hs Ht Hc Ha Hr Hput.
  assert (Hneg : wrap64 (secs * second) < 0).
  { unfold wrap64, second. assert (secs * 10 ^ 9 + 2 ^ 63 = (secs * 10 ^ 9 - 2 ^ 63) + 1 * 2 ^ 64) as -> by lia.
    rewrite Z.mod_add, Z.mod_small by lia. lia. }
  assert (Hp : parse_ttl hdr = Some (wrap64 (secs * second))).
  { unfold parse_ttl. destruct (String.eqb_spec hdr "") as [->|_]; [by vm_compute in Ha|]. rewrite Ha.
    cbn [negb orb]. by rewrite (proj2 (Z.ltb_ge _ _)) by lia. }
  rewrite (put_get_http s c c' st t ns key v hdr ct _ s1 "" Hs Ht Hp Hc Hput).
  by assert (0 <? wrap64 (secs * second) = false) as -> by (apply Z.ltb_ge; lia).
Qed.
End spec.
