(* ===== verification/KVWitness.v ===== *)
(** * Concrete instances of the key/value theorems

    A record codec that satisfies the law of [RecordCodecSpec], the databases
    being the finite maps of [Bolt]; each theorem of [KVSpec], [KVList] and
    [KVStore] that has hypotheses is applied to concrete calls. *)

From S2P Require Import Prelude GoLib GoStrings GoCodec GoFloat Auth Bolt KV KVSpec KVList KVStore ApiHttp ApiKV.
Import Strings.

(** ** A codec: lengths and times in big-endian, then the bytes *)
Definition fits (r : record) : bool :=
  (len (Value r) <? 2 ^ 32) && (len (ContentType r) <? 2 ^ 32) &&
  (0 <=? UpdatedAt r) && (UpdatedAt r <? 2 ^ 63) &&
  match ExpiresAt r with Some e => (0 <=? e) && (e <? 2 ^ 63) | None => true end.
(** Expiry [e] is stored as [e + 1]; 0 is no expiry. *)
Definition simple_encode (r : record) : option string :=
  if fits r then
    Some (be_put 4 (len (Value r)) +:+ be_put 8 (UpdatedAt r) +:+
          be_put 8 (match ExpiresAt r with Some e => e + 1 | None => 0 end) +:+
          Value r +:+ ContentType r)
  else None.
Definition simple_decode (b : string) : option record :=
  let n := Z.to_nat (be_get (str_take 4 b)) in
  let u := be_get (str_take 8 (str_drop 4 b)) in
  let e := be_get (str_take 8 (str_drop 12 b)) in
  let rest := str_drop 20 b in
  Some {| Value := str_take n rest; ContentType := str_drop n rest; UpdatedAt := u;
          ExpiresAt := if e =? 0 then None else Some (e - 1) |}.
#[local] Instance simple_codec : RecordCodec :=
  {| encodeRecord := simple_encode; decodeRecord := simple_decode |}.
#[local] Instance simple_codec_spec : RecordCodecSpec.
Proof.
  intros r b. cbn [encodeRecord decodeRecord simple_codec]. unfold simple_encode. destruct (fits r) eqn:Hf; [|done]. intros <-%(inj Some).
  unfold fits in Hf. boolp. unfold simple_decode.
  set (p4 := be_put 4 _). set (p8 := be_put 8 (UpdatedAt r)). set (q8 := be_put 8 _).
  change 20%nat with (4 + (8 + 8))%nat. change 12%nat with (4 + 8)%nat. rewrite <- !str_drop_drop.
  rewrite (str_take_app_eq 4 p4), !(str_drop_app_eq 4 p4) by apply length_be_put.
  rewrite (str_take_app_eq 8 p8), !(str_drop_app_eq 8 p8) by apply length_be_put.
  rewrite (str_take_app_eq 8 q8), !(str_drop_app_eq 8 q8) by apply length_be_put.
  unfold p4, p8, q8. rewrite !be_get_put.
  change (256 ^ Z.of_nat 4) with (2 ^ 32). change (256 ^ Z.of_nat 8) with (2 ^ 64).
  rewrite (Z.mod_small (len _)) by (pose proof (len_nonneg (Value r)); lia).
  rewrite (Z.mod_small (UpdatedAt r)) by lia.
  unfold len. rewrite Nat2Z.id, str_take_app, str_drop_app.
  destruct r as [v ct [e|] u]; cbn in *; [|done]. boolp.
  rewrite Z.mod_small by lia. rewrite (proj2 (Z.eqb_neq _ _)) by lia. do 3 f_equal. lia.
Qed.

(** ** A store with one directory and a few calls *)
Abbreviation db := (gmap string (gmap string string)).
Definition s0 : Store db :=
  {| dir := "/var/lib/isobox/kv"; minFreeBytes := 0; dbs := ∅; closed := false; disk := ∅ |}.
Definition at_ (t : Z) : call := {| now := t; open_ok := true; init_ok := true; commit_ok := true |}.
Definition s1 : Store db := (Put s0 (at_ 100) "public" "app" "k1" "v1" "text/plain" 50).2.
Definition s2 : Store db := (Put s1 (at_ 110) "public" "app" "k2" "v2" "" 0).2.
Definition f2 : db := file s2 "/var/lib/isobox/kv/public.bolt".

Lemma s0_ok : store_ok s0.
Proof. split; [done|..]; cbn; intros ??; by rewrite lookup_empty. Qed.
Lemma s1_ok : store_ok s1.
Proof. eapply Put_only; [apply s0_ok|]. cbn. lia. Qed.
Lemma s2_ok : store_ok s2.
Proof. eapply Put_only; [apply s1_ok|]. cbn. lia. Qed.
Lemma s2_open : dbs s2 !! "public" = Some "/var/lib/isobox/kv/public.bolt".
Proof. vm_compute. reflexivity. Qed.
Lemma f2_ok : kv_ok f2.
Proof. apply file_ok, s2_ok. Qed.
Lemma f2_open : opened f2.
Proof.
  destruct (ok_handles _ s2_ok _ _ s2_open) as (_ & d & Hd & Ho).
  unfold f2, file. by rewrite Hd.
Qed.

(** At time 200 the first record is gone, the second stays. *)
Lemma sweep_exact_witness :
  let '(d', n) := sweep_tx 200 f2 in
  n = 1 ∧ rec_at d' "app" "k1" = None ∧ is_Some (rec_at d' "app" "k2").
Proof.
  destruct (sweep_tx 200 f2) as [d' n] eqn:E.
  destruct (sweep_exact 200 f2 d' n f2_ok f2_open ltac:(unfold in64; lia) E) as (H1 & H2 & H3 & H4).
  split; [|split].
  - transitivity (sweep_tx 200 f2).2; [by rewrite E|]. vm_compute. reflexivity.
  - rewrite H4. vm_compute. reflexivity.
  - rewrite H4. vm_compute. eauto.
Defined.

(** The batch was collected before [k1] was rewritten without an expiry. *)
Lemma sweep_stale_batch_witness :
  let s3 := (Put s2 (at_ 140) "public" "app" "k1" "new" "" 0).2 in
  let d := file s3 "/var/lib/isobox/kv/public.bolt" in
  let '(d', n) := sweep_update 200 (sweep_view 200 f2) d in
  rec_at d' "app" "k1" = rec_at d "app" "k1" ∧ is_Some (rec_at d' "app" "k1").
Proof.
  cbv zeta. set (s3 := (Put s2 (at_ 140) "public" "app" "k1" "new" "" 0).2).
  set (d := file s3 "/var/lib/isobox/kv/public.bolt").
  destruct (sweep_update 200 (sweep_view 200 f2) d) as [d' n] eqn:E.
  assert (Hs3 : store_ok s3).
  { eapply Put_only; [apply s2_ok|]. cbn. lia. }
  assert (Hopen : dbs s3 !! "public" = Some "/var/lib/isobox/kv/public.bolt")
    by (vm_compute; reflexivity).
  assert (Hd : opened d).
  { destruct (ok_handles _ Hs3 _ _ Hopen) as (_ & x & Hx & Ho). unfold d, file. by rewrite Hx. }
  destruct (sweep_stale_batch_safe 200 f2 d d' n (file_ok _ _ Hs3) Hd ltac:(unfold in64; lia) E)
    as (_ & _ & _ & H).
  assert (rec_at d' "app" "k1" = rec_at d "app" "k1") as Heq.
  { destruct (H "app" "k1") as [H'|[H' _]]; [done|]. vm_compute in H'. done. }
  split; [done|]. rewrite Heq. vm_compute. eauto.
Defined.

(** Two pages of one key each. *)
Lemma list_pages_witness :
  pages 3 f2 120 "app" "k" 1 "" = Some [["k1"]; ["k2"]] ∧
  ∃ pgs, pages (S (Z.to_nat (key_count (bview f2)))) f2 120 "app" "k" 1 "" = Some pgs ∧
    "k2" ∈ List.concat pgs.
Proof.
  split; [vm_compute; reflexivity|].
  destruct (list_pages_complete f2 120 "app" "k" 1 f2_ok ltac:(lia)) as (pgs & Hp & _ & _ & Hk).
  exists pgs. split; [done|]. apply Hk. split; [done|].
  exists {| Value := "v2"; ContentType := ""; ExpiresAt := None; UpdatedAt := 110 |}.
  split; vm_compute; reflexivity.
Defined.

Lemma path_contained_witness :
  ∃ p p', path s0 "public" = Ok p ∧
    path s0 "2bb80d537b1da3e38bd30361aa855686bde0eacd7162fef6a25fe97bf527a25b" = Ok p' ∧
    Filepath.Dir p = "/var/lib/isobox/kv" ∧ p ≠ p'.
Proof.
  destruct (path_contained s0 "public" "2bb80d537b1da3e38bd30361aa855686bde0eacd7162fef6a25fe97bf527a25b")
    as (p & p' & H1 & H2 & H3 & H4); [done|reflexivity|reflexivity|].
  exists p, p'. split; [done|split; [done|split; [by rewrite H3|]]]. intros He. by specialize (H4 He).
Defined.

Lemma Put_effect_witness :
  tenant_rec s1 "public" "app" "k1" = Some (new_record (at_ 100) "v1" "text/plain" 50).
Proof.
  destruct (Put s0 (at_ 100) "public" "app" "k1" "v1" "text/plain" 50) as [r s] eqn:E.
  assert (Hr : r = Ok tt).
  { transitivity (Put s0 (at_ 100) "public" "app" "k1" "v1" "text/plain" 50).1; [by rewrite E|].
    vm_compute. reflexivity. }
  assert (Ht : 0 ≤ now (at_ 100)) by (cbn; lia).
  destruct (Put_effect _ _ _ _ _ _ _ _ _ _ s0_ok Ht E) as [_ H].
  unfold s1. rewrite E. cbn [snd]. rewrite H, Hr. by rewrite bool_decide_eq_true_2.
Defined.

Lemma Delete_effect_witness :
  tenant_rec (Delete s2 (at_ 120) "public" "app" "k1").2 "public" "app" "k1" = None.
Proof.
  destruct (Delete s2 (at_ 120) "public" "app" "k1") as [r s] eqn:E.
  assert (Hr : r = Ok tt).
  { transitivity (Delete s2 (at_ 120) "public" "app" "k1").1; [by rewrite E|]. vm_compute. reflexivity. }
  destruct (Delete_effect _ _ _ _ _ _ _ s2_ok E) as [_ H]. specialize (H "public" "app" "k1").
  rewrite Hr in H. exact H.
Defined.

(** Found at 149, gone at 150. *)
Lemma get_after_put_witness :
  (Get s1 (at_ 149) "public" "app" "k1").1 = Ok ("v1", "text/plain", Some 150, etag_of "v1") ∧
  (Get s1 (at_ 150) "public" "app" "k1").1 = Err ErrKVNotFound.
Proof.
  assert (Hput : Put s0 (at_ 100) "public" "app" "k1" "v1" "text/plain" 50 = (Ok tt, s1))
.
  { rewrite (surjective_pairing (Put s0 (at_ 100) "public" "app" "k1" "v1" "text/plain" 50)).
    f_equal. }
  assert (Ht : 0 ≤ now (at_ 100)) by (cbn; lia).
  split.
  - destruct (Get s1 (at_ 149) "public" "app" "k1") as [r s] eqn:E. cbn [fst].
    rewrite (get_after_put s0 _ _ _ _ _ _ _ _ s1 r s s0_ok Ht Hput E). reflexivity.
  - destruct (Get s1 (at_ 150) "public" "app" "k1") as [r s] eqn:E. cbn [fst].
    rewrite (get_after_put s0 _ _ _ _ _ _ _ _ s1 r s s0_ok Ht Hput E). reflexivity.
Defined.

Lemma put_quota_witness :
  (Put s2 (at_ 120) "public" "app" "k3" "v3" "" 0).1 = Ok tt.
Proof.
  rewrite (put_quota_exact s2 (at_ 120) "public" "app" "k3" "v3" "" 0 "/var/lib/isobox/kv/public.bolt"
    (default "" (simple_encode (new_record (at_ 120) "v3" "" 0)))).
  - vm_compute. reflexivity.
  - apply s2_ok.
  - cbn. lia.
  - apply s2_open.
  - done.
  - reflexivity.
  - done.
  - vm_compute. congruence.
  - vm_compute. congruence.
  - vm_compute. reflexivity.
  - vm_compute. congruence.
Defined.

Definition demo_ops : list (@op db) :=
  [OPut (at_ 100) "public" "app" "k1" "v1" "text/plain" 50;
   OPut (at_ 110) "public" "app" "k1" "v2" "" 500;
   OSweep (at_ 200) "public" f2; OGet (at_ 201) "public" "app" "k1"].
Lemma store_invariant_witness :
  ∃ d, disk (run_ops s0 demo_ops) !! "/var/lib/isobox/kv/public.bolt" = Some d ∧
    readKVMeta d = (used_bytes (bview d), key_count (bview d)) ∧ key_count (bview d) = 1.
Proof.
  destruct (disk (run_ops s0 demo_ops) !! "/var/lib/isobox/kv/public.bolt") as [d|] eqn:E.
  2:{ apply (f_equal (λ o : option db, match o with Some _ => true | None => false end)) in E.
      vm_compute in E. discriminate E. }
  exists d. split; [done|].
  destruct (store_invariant "/var/lib/isobox/kv" 0 true s0 demo_ops "/var/lib/isobox/kv/public.bolt" d)
    as (H1 & H2 & H3 & _); [done| |done|].
  { unfold demo_ops. repeat constructor; unfold in64; cbn; try lia. }
  split; [done|]. transitivity (readKVMeta d).2; [by rewrite H1|].
  assert (Hd : Some d = disk (run_ops s0 demo_ops) !! "/var/lib/isobox/kv/public.bolt") by done.
  transitivity (from_option (λ x, (readKVMeta x).2) 0
    (disk (run_ops s0 demo_ops) !! "/var/lib/isobox/kv/public.bolt")).
  - by rewrite E.
  - vm_compute. reflexivity.
Defined.

Lemma tenant_isolation_witness :
  let o := ODelete (at_ 120) "2bb80d537b1da3e38bd30361aa855686bde0eacd7162fef6a25fe97bf527a25b" "app" "k1" in
  tenant_rec (exec_op s1 o) "public" "app" "k1" = tenant_rec s1 "public" "app" "k1".
Proof. cbv zeta. by eapply (tenant_isolation s1 (ODelete _ _ _ _)); [apply s1_ok|..]. Defined.

(** A PUT with a TTL of one second, and one with a TTL that wraps around. *)
Definition put_state (hdr : string) : Store db :=
  (handleKVPut s0 (at_ 100) None (Some "public") "app" "k1" (Some "v1") hdr "").2.
Lemma put_state_204 hdr : (handleKVPut s0 (at_ 100) None (Some "public") "app" "k1" (Some "v1") hdr "").1 = HOk 204 KNoContent →
  handleKVPut s0 (at_ 100) None (Some "public") "app" "k1" (Some "v1") hdr "" = (HOk 204 KNoContent, put_state hdr).
Proof. intros H. rewrite <- H. apply surjective_pairing. Qed.

Lemma kv_http_roundtrip_witness :
  (handleKVGet (put_state "1") (at_ 1000000099) (Some "public") "app" "k1" (etag_of "v1")).1 = HOk 304 (KNotModified (etag_of "v1")) ∧
  (handleKVGet (put_state "1") (at_ 1000000100) (Some "public") "app" "k1" "").1 = HErr 404 "not_found" None.
Proof.
  split.
  - rewrite (kv_http_roundtrip s0 (at_ 100) (at_ 1000000099) None "public" "app" "k1" "v1" "1" "" 1000000000 (put_state "1") (etag_of "v1")).
    + unfold value_reply. by rewrite String.eqb_refl.
    + apply s0_ok.
    + done.
    + reflexivity.
    + cbn. lia.
    + apply put_state_204. vm_compute. reflexivity.
  - rewrite (kv_http_roundtrip s0 (at_ 100) (at_ 1000000100) None "public" "app" "k1" "v1" "1" "" 1000000000 (put_state "1") "").
    + reflexivity.
    + apply s0_ok.
    + done.
    + reflexivity.
    + cbn. lia.
    + apply put_state_204. vm_compute. reflexivity.
Defined.
Lemma kv_ttl_wraps_witness :
  status (handleKVGet (put_state "10000000000") (at_ (10 ^ 30)) (Some "public") "app" "k1" "").1 = 200.
Proof.
  rewrite (kv_ttl_wraps s0 (at_ 100) (at_ (10 ^ 30)) None "public" "app" "k1" "v1" "10000000000" "" 10000000000 (put_state "10000000000")).
  - reflexivity.
  - apply s0_ok.
  - done.
  - cbn. lia.
  - reflexivity.
  - lia.
  - apply put_state_204. vm_compute. reflexivity.
Defined.
