(* ===== verification/Volume.v ===== *)
(** * internal/memory/volume.go: persistent volumes

    A [Manager] owns an index of volumes per tenant.  Go's [*Volume] is an object
    shared between the index and the calls in flight, so the index maps a key to
    a location of [heap] and a call keeps the location it looked up, also after
    the key was deleted.  [Attach] and [Delete] are split at their lock
    acquisitions, so that other calls can run in between.  The directory tree
    under [Root] is [disk]; what a call observes of the rest of the world
    (clock, statfs, uuid, the success of each system call) is its [venv].
    Theorems are in the file VolumeSpec. *)

From S2P Require Import Prelude GoLib GoStrings.
Import Strings.

(** ** Errors and data *)
Inductive VolErr :=
| ErrVolNotFound | ErrExists | ErrBadName | ErrBadID | ErrBadTenant | ErrVolQuota
| ErrDiskFull | ErrTooMany | ErrVolumeLocked | ErrBusy | ErrContainment
| ErrMkdir | ErrChmod | ErrWriteMeta | ErrRemove   (* wrapped system errors *).
#[export] Instance VolErr_eq_dec : EqDecision VolErr.
Proof. solve_decision. Defined.

(** [meta.json], decoded. *)
Record meta := { m_ID : string; m_Tenant : string; m_Name : string; m_CreatedAt : Z }.
Record Volume := { ID : string; Tenant : string; Name : string; CreatedAt : Z; rwHolder : string }.
Record Info := {
  i_ID : string; i_Name : string; i_CreatedAt : Z; i_DiskBytes : Z; i_AttachedRW : bool }.

(** ** The regular expressions *)
Definition hex_run (n : nat) (s : string) : bool :=
  (String.length s =? n)%nat && str_forall is_hex_lower s.
(** [^vol_[0-9a-f]{8}-[0-9a-f]{4}-[0-9a-f]{4}-[0-9a-f]{4}-[0-9a-f]{12}$] *)
Definition idRe (s : string) : bool :=
  HasPrefix s "vol_" &&
  match split_on "-" (TrimPrefix s "vol_") with
  | [a; b; c; d; e] =>
      hex_run 8 a && hex_run 4 b && hex_run 4 c && hex_run 4 d && hex_run 12 e
  | _ => false
  end.
(** [^(public|[0-9a-f]{8,64})$] *)
Definition tenantRe (s : string) : bool :=
  String.eqb s "public" ||
  (str_forall is_hex_lower s && (8 <=? len s) && (len s <=? 64)).
(** [^[A-Za-z0-9][A-Za-z0-9 ._-]{0,63}$] *)
Definition name_first (c : ascii) : bool := is_upper c || is_lower c || is_digit c.
Definition name_char (c : ascii) : bool :=
  name_first c || Ascii.eqb c " " || Ascii.eqb c "." || Ascii.eqb c "_" || Ascii.eqb c "-".
Definition nameRe (s : string) : bool :=
  match s with
  | String c s => name_first c && str_forall name_char s && (len s <=? 63)
  | EmptyString => false
  end.

Definition orphanGrace : Z := 60 * 10 ^ 9.
Definition key (tenant id : string) : string := tenant +:+ "/" +:+ id.

(** ** The directory tree *)

(** An entry [<Root>/<tenant>/<id>]: [e_meta] is what [readVolMeta] returns
    ([None] for an error), [e_data] the bytes below [data/] ([None] when it does
    not exist), [e_mtime] what [os.Stat] returns. *)
Record ventry := {
  e_isdir : bool; e_meta : option meta; e_mtime : option Z; e_data : option Z }.
(** An entry [<Root>/<tenant>]. *)
Record tdir := { t_isdir : bool; t_readable : bool; t_entries : gmap string ventry }.
Abbreviation tree := (gmap string tdir).

Definition tree_entry (d : tree) (tenant id : string) : option ventry :=
  d !! tenant ≫= λ t, t_entries t !! id.
Definition set_entries (t : tdir) (es : gmap string ventry) : tdir :=
  {| t_isdir := t_isdir t; t_readable := t_readable t; t_entries := es |}.
Definition tree_put (d : tree) (tenant id : string) (e : ventry) : tree :=
  let t := default {| t_isdir := true; t_readable := true; t_entries := ∅ |} (d !! tenant) in
  <[tenant := set_entries t (<[id := e]> (t_entries t))]> d.
(** [os.MkdirAll] of a tenant's directory. *)
Definition tree_touch (d : tree) (tenant : string) : tree :=
  match d !! tenant with
  | Some _ => d
  | None => <[tenant := {| t_isdir := true; t_readable := true; t_entries := ∅ |}]> d
  end.
(** [os.RemoveAll]. *)
Definition tree_rm (d : tree) (tenant id : string) : tree :=
  match d !! tenant with
  | Some t => <[tenant := set_entries t (delete id (t_entries t))]> d
  | None => d
  end.

(** [dirSize] of the data directory; nothing is counted below a missing one. *)
Definition data_size (d : tree) (tenant id : string) : Z :=
  default 0 (tree_entry d tenant id ≫= e_data).

(** ** The manager *)
Record Manager := {
  Root : string; DiskQuota : Z; GlobalDiskMax : Z; MaxVolPerTenant : Z; MinFreeBytes : Z;
  vols : gmap string nat;     (* key -> location *)
  used : Z;
  heap : list Volume;
  disk : tree }.
Record Config := {
  c_Root : string; c_DiskQuota : Z; c_GlobalDiskMax : Z; c_MaxVolPerTenant : Z; c_MinFreeBytes : Z }.

(** How far a failed [os.MkdirAll] of the data directory got. *)
Inductive made := MadeNone | MadeTenant | MadeVolume.
(** What one call observes. *)
Record venv := {
  v_now : Z; v_statfs : option (Z * Z); v_uuid : string;
  v_mkdir : bool; v_made : made; v_chmod : bool; v_writemeta : bool; v_rm : bool; v_remains : bool * option Z;
  v_eval : string → option string   (* filepath.EvalSymlinks *) }.

Definition upd (m : Manager) (vs : gmap string nat) (u : Z) (h : list Volume) (d : tree) : Manager :=
  {| Root := Root m; DiskQuota := DiskQuota m; GlobalDiskMax := GlobalDiskMax m;
     MaxVolPerTenant := MaxVolPerTenant m; MinFreeBytes := MinFreeBytes m;
     vols := vs; used := u; heap := h; disk := d |}.
Definition set_disk (m : Manager) (d : tree) : Manager := upd m (vols m) (used m) (heap m) d.
Definition set_heap (m : Manager) (h : list Volume) : Manager := upd m (vols m) (used m) h (disk m).
(** [new(Volume)] stored under its key. *)
Definition add_volume (m : Manager) (v : Volume) : Manager :=
  upd m (<[key (Tenant v) (ID v) := List.length (heap m)]> (vols m)) (used m) (heap m ++ [v]) (disk m).

(** *** Start-up *)

(** One directory entry of [scan]; the accumulator is the manager and [total]. *)
Definition scan_entry (rm : bool) (tenant : string) (acc : Manager * Z) (ve : string * ventry) :
    Manager * Z :=
  let '(m, total) := acc in
  let '(id, e) := ve in
  let gc := (if rm then set_disk m (tree_rm (disk m) tenant id) else m, total) in
  if negb (e_isdir e) || negb (idRe id) then gc else
  match e_meta e with
  | None => gc
  | Some md =>
      if negb (String.eqb (m_ID md) id) || negb (String.eqb (m_Tenant md) tenant) then gc else
      (add_volume m {| ID := m_ID md; Tenant := m_Tenant md; Name := m_Name md;
                       CreatedAt := m_CreatedAt md; rwHolder := "" |},
       wrap64 (total + data_size (disk m) tenant id))
  end.
Definition scan_tenant (rm : bool) (acc : Manager * Z) (te : string * tdir) : Manager * Z :=
  let '(tenant, t) := te in
  if negb (t_isdir t) || negb (tenantRe tenant) then acc
  else if negb (t_readable t) then acc
  else foldl (scan_entry rm tenant) acc (map_to_list (t_entries t)).
Definition scan (rm root_ok : bool) (m : Manager) : Manager :=
  if negb root_ok then m else
  let '(m, total) := foldl (scan_tenant rm) (m, 0) (map_to_list (disk m)) in
  upd m (vols m) total (heap m) (disk m).

Definition or_default (v d : Z) : Z := if v <=? 0 then d else v.
Definition NewManager (cfg : Config) (mkdir_ok rm root_ok : bool) (d : tree) : option Manager :=
  if String.eqb (c_Root cfg) "" then None
  else if negb mkdir_ok then None
  else Some (scan rm root_ok
    {| Root := c_Root cfg; DiskQuota := or_default (c_DiskQuota cfg) (Z.shiftl 512 20);
       GlobalDiskMax := or_default (c_GlobalDiskMax cfg) (Z.shiftl 8 30);
       MaxVolPerTenant := or_default (c_MaxVolPerTenant cfg) 100;
       MinFreeBytes := c_MinFreeBytes cfg; vols := ∅; used := 0; heap := []; disk := d |}).

(** *** Gates *)
Definition DiskFull (m : Manager) (statfs : option (Z * Z)) : bool :=
  if GlobalDiskMax m <=? used m then true
  else if MinFreeBytes m <=? 0 then false
  else match statfs with
       | None => false
       | Some (bavail, bsize) => wrap64 (wrap64 bavail * wrap64 bsize) <? MinFreeBytes m
       end.

(** *** Create *)

(** The volumes [range m.vols] visits. *)
Definition indexed (m : Manager) : list Volume := omap (λ kp, heap m !! kp.2) (map_to_list (vols m)).
Definition of_tenant (tenant : string) (l : list Volume) : list Volume :=
  List.filter (λ v, String.eqb (Tenant v) tenant) l.

(** What a failed [os.MkdirAll] leaves, and nothing removes. *)
Definition left_behind (e : venv) (d : tree) (tenant id : string) : tree :=
  match v_made e with
  | MadeNone => d
  | MadeTenant => tree_touch d tenant
  | MadeVolume =>
      match tree_entry d tenant id with
      | Some _ => d
      | None => tree_put d tenant id {| e_isdir := true; e_meta := None; e_mtime := Some (v_now e); e_data := None |}
      end
  end.

Definition Create (m : Manager) (e : venv) (tenant name : string) : result VolErr Info * Manager :=
  if negb (tenantRe tenant) then (Err ErrBadTenant, m) else
  let name := TrimSpace name in
  let name := if String.eqb name "" then "memory" else name in
  if negb (nameRe name) then (Err ErrBadName, m) else
  if (0 <? MinFreeBytes m) && DiskFull m (v_statfs e) then (Err ErrDiskFull, m) else
  let mine := of_tenant tenant (indexed m) in
  if existsb (λ v, EqualFold (Name v) name) mine then (Err ErrExists, m)
  else if MaxVolPerTenant m <=? Z.of_nat (List.length mine) then (Err ErrTooMany, m)
  else if GlobalDiskMax m <=? used m then (Err ErrDiskFull, m) else
  let id := "vol_" +:+ v_uuid e in
  if negb (v_mkdir e) then (Err ErrMkdir, set_disk m (left_behind e (disk m) tenant id)) else
  let dir md := {| e_isdir := true; e_meta := md; e_mtime := Some (v_now e); e_data := Some 0 |} in
  let m1 := set_disk m (tree_put (disk m) tenant id (dir None)) in
  let undo := if v_rm e then set_disk m1 (tree_rm (disk m1) tenant id) else m1 in
  if negb (v_chmod e) then (Err ErrChmod, undo) else
  if negb (v_writemeta e) then (Err ErrWriteMeta, undo) else
  let md := {| m_ID := id; m_Tenant := tenant; m_Name := name; m_CreatedAt := v_now e |} in
  let m2 := set_disk m1 (tree_put (disk m1) tenant id (dir (Some md))) in
  let v := {| ID := id; Tenant := tenant; Name := name; CreatedAt := v_now e; rwHolder := "" |} in
  (Ok {| i_ID := id; i_Name := name; i_CreatedAt := v_now e; i_DiskBytes := 0; i_AttachedRW := false |},
   add_volume m2 v).

(** *** Reads *)
Definition lookup (m : Manager) (tenant id : string) : result VolErr nat :=
  if negb (tenantRe tenant) then Err ErrBadTenant
  else if negb (idRe id) then Err ErrBadID
  else match vols m !! key tenant id with Some p => Ok p | None => Err ErrVolNotFound end.
Definition the_volume (m : Manager) (p : nat) : Volume :=
  default {| ID := ""; Tenant := ""; Name := ""; CreatedAt := 0; rwHolder := "" |} (heap m !! p).
Definition infoOf (m : Manager) (v : Volume) : Info :=
  {| i_ID := ID v; i_Name := Name v; i_CreatedAt := CreatedAt v;
     i_DiskBytes := data_size (disk m) (Tenant v) (ID v);
     i_AttachedRW := negb (String.eqb (rwHolder v) "") |}.
Definition Get (m : Manager) (tenant id : string) : result VolErr Info :=
  p <-? lookup m tenant id; Ok (infoOf m (the_volume m p)).
(** [sort.Slice] by name, which keeps no order among equal names; the creations of a process give
    the volumes of a tenant distinct names ([VolumeSpec]), a restart can add one that was deleted
    ([VolumeFiles.failed_delete_twice]). *)
Definition name_le (a b : Info) : Prop := String.le (i_Name a) (i_Name b).
#[export] Instance name_le_dec a b : Decision (name_le a b).
Proof. unfold name_le, String.le. apply _. Defined.
Definition List (m : Manager) (tenant : string) : result VolErr (list Info) :=
  if negb (tenantRe tenant) then Err ErrBadTenant
  else Ok (merge_sort name_le (map (infoOf m) (of_tenant tenant (indexed m)))).
Definition Count (m : Manager) : Z := Z.of_nat (size (vols m)).

Definition dataDir (m : Manager) (tenant id : string) : string :=
  Filepath.Join [Root m; tenant; id; "data"].
Definition HostPath (m : Manager) (e : venv) (tenant id : string) : result VolErr string :=
  p <-? lookup m tenant id;
  let tenantRoot := Filepath.Join [Root m; tenant] in
  let cand := Filepath.Join [tenantRoot; id; "data"] in
  match v_eval e tenantRoot with
  | None => Err ErrContainment
  | Some realRoot =>
      match v_eval e cand with
      | None => Err ErrContainment
      | Some realCand =>
          if negb (String.eqb realCand realRoot) && negb (HasPrefix realCand (realRoot +:+ "/"))
          then Err ErrContainment else Ok realCand
      end
  end.
Definition OverQuota (m : Manager) (tenant id : string) : result VolErr (bool * Z) :=
  p <-? lookup m tenant id;
  let sz := data_size (disk m) tenant id in Ok (DiskQuota m <? sz, sz).

(** *** Attach: what it reads before the lock, and the critical section *)
Inductive attach_plan := RO (hp : string) | RW (p : nat) (hp : string).
Definition attach_read (m : Manager) (e : venv) (tenant id sessionID : string) (wantRW : bool) :
    result VolErr attach_plan :=
  p <-? lookup m tenant id;
  hp <-? HostPath m e tenant id;
  if negb wantRW then Ok (RO hp) else
  ov <-? OverQuota m tenant id;
  if fst ov then Err ErrVolQuota else
  if (0 <? MinFreeBytes m) && negb (String.eqb (rwHolder (the_volume m p)) sessionID) &&
     DiskFull m (v_statfs e)
  then Err ErrDiskFull else Ok (RW p hp).
Definition set_holder (m : Manager) (p : nat) (s : string) : Manager :=
  set_heap m (alter (λ v, {| ID := ID v; Tenant := Tenant v; Name := Name v;
                             CreatedAt := CreatedAt v; rwHolder := s |}) p (heap m)).
Definition attach_lock (m : Manager) (plan : attach_plan) (sessionID : string) :
    result VolErr (string * bool) * Manager :=
  match plan with
  | RO hp => (Ok (hp, false), m)
  | RW p hp =>
      let h := rwHolder (the_volume m p) in
      if negb (String.eqb h "") && negb (String.eqb h sessionID) then (Err ErrVolumeLocked, m)
      else (Ok (hp, true), set_holder m p sessionID)
  end.
Definition Attach (m : Manager) (e : venv) (tenant id sessionID : string) (wantRW : bool) :
    result VolErr (string * bool) * Manager :=
  match attach_read m e tenant id sessionID wantRW with
  | Err x => (Err x, m)
  | Ok plan => attach_lock m plan sessionID
  end.

(** *** Release *)
Definition Release (m : Manager) (tenant id sessionID : string) : Manager :=
  match vols m !! key tenant id with
  | Some p => if String.eqb (rwHolder (the_volume m p)) sessionID then set_holder m p "" else m
  | None => m
  end.
Definition release_step (sessionID : string) (m : Manager) (kp : string * nat) : Manager :=
  if String.eqb (rwHolder (the_volume m kp.2)) sessionID then set_holder m kp.2 "" else m.
Definition ReleaseAll (m : Manager) (sessionID : string) : Manager :=
  foldl (release_step sessionID) m (map_to_list (vols m)).

(** *** Delete: the lookup, the critical section, the removal of the files *)
Definition delete_lock (m : Manager) (p : nat) (tenant id : string) : result VolErr unit * Manager :=
  if negb (String.eqb (rwHolder (the_volume m p)) "") then (Err ErrBusy, m) else
  let u := wrap64 (used m - data_size (disk m) tenant id) in
  (Ok tt, upd m (delete (key tenant id) (vols m)) (if u <? 0 then 0 else u) (heap m) (disk m)).
(** [None]: [os.RemoveAll] succeeds; otherwise whether [meta.json] remains, and the bytes below the data
    directory, if that does. *)
Abbreviation removal := (option (bool * option Z)).
Definition remains (r : bool * option Z) (e : ventry) : ventry :=
  {| e_isdir := e_isdir e; e_meta := if r.1 then e_meta e else None; e_mtime := e_mtime e; e_data := r.2 |}.
Definition delete_files (m : Manager) (rm : removal) (tenant id : string) : result VolErr unit * Manager :=
  match rm with
  | None => (Ok tt, set_disk m (tree_rm (disk m) tenant id))
  | Some r =>
      (Err ErrRemove, match tree_entry (disk m) tenant id with
                      | Some e => set_disk m (tree_put (disk m) tenant id (remains r e))
                      | None => m
                      end)
  end.
Definition v_removal (e : venv) : removal := if v_rm e then None else Some (v_remains e).
Definition Delete (m : Manager) (e : venv) (tenant id : string) : result VolErr unit * Manager :=
  match lookup m tenant id with
  | Err x => (Err x, m)
  | Ok p =>
      match delete_lock m p tenant id with
      | (Err x, m) => (Err x, m)
      | (Ok _, m) => delete_files m (v_removal e) tenant id
      end
  end.

(** *** Sweeps *)

(** One entry of the lock-free walk of [SweepOrphans]; [known] is its snapshot. *)
Definition orphan (e : venv) (known : gset string) (tenant id : string) (ent : ventry) : bool :=
  if negb (e_isdir ent) || negb (idRe id) then true
  else if bool_decide (key tenant id ∈ known) then false
  else if match e_meta ent with
          | Some md => String.eqb (m_ID md) id && String.eqb (m_Tenant md) tenant
          | None => false
          end then false
  else match e_mtime ent with
       | Some t => negb (v_now e - t <? orphanGrace)
       | None => true
       end.
Definition orphan_entry (e : venv) (known : gset string) (tenant : string) (m : Manager)
    (ve : string * ventry) : Manager :=
  if orphan e known tenant ve.1 ve.2 && v_rm e
  then set_disk m (tree_rm (disk m) tenant ve.1) else m.
Definition orphan_tenant (e : venv) (known : gset string) (m : Manager) (te : string * tdir) : Manager :=
  let '(tenant, t) := te in
  if negb (t_isdir t) || negb (tenantRe tenant) then m
  else if negb (t_readable t) then m
  else foldl (orphan_entry e known tenant) m (map_to_list (t_entries t)).
(** The walk of the tree [seen], with the snapshot [known] of the index. *)
Definition orphan_walk (e : venv) (root_ok : bool) (known : gset string) (seen : tree) (m : Manager) :
    Manager :=
  if root_ok then foldl (orphan_tenant e known) m (map_to_list seen) else m.
(** Index entries whose data directory is gone are dropped. *)
Definition data_exists (m : Manager) (p : nat) : bool :=
  match heap m !! p with
  | Some v => match tree_entry (disk m) (Tenant v) (ID v) ≫= e_data with
              | Some _ => true
              | None => false
              end
  | None => true
  end.
Definition drop_vanished (m : Manager) : Manager :=
  upd m (filter (λ kp, data_exists m kp.2 = true) (vols m)) (used m) (heap m) (disk m).
Definition SweepOrphans (m : Manager) (e : venv) (root_ok : bool) : Manager :=
  let m' := orphan_walk e root_ok (dom (vols m)) (disk m) m in
  if root_ok then drop_vanished m' else m'.
Definition sum_sizes (m : Manager) (snap : list Volume) : Z :=
  foldl (λ total v, wrap64 (total + data_size (disk m) (Tenant v) (ID v))) 0 snap.
Definition Sweep (m : Manager) (e : venv) (root_ok : bool) : Manager :=
  let m := SweepOrphans m e root_ok in
  upd m (vols m) (sum_sizes m (indexed m)) (heap m) (disk m).
