(* ===== verification/VolumeMeta.v ===== *)
(** * internal/memory/volume.go: the text of meta.json

    [json.MarshalIndent] and [json.Unmarshal] at [meta]: the implementation of [MetaCodec],
    so that the theorems about restarts and crashes hold of the bytes on disk. *)

From S2P Require Import Prelude GoLib GoStrings GoFloat GoJSON GoUnmarshal GoTime Volume.
Import JSON.

(** ** The interface *)

(** [json.MarshalIndent] and [json.Unmarshal] at [meta]; [None]: an error. *)
Class MetaCodec := { encodeMeta : meta → option string; decodeMeta : string → option meta }.
Definition meta_text (md : meta) : bool :=
  valid_utf8 (m_ID md) && valid_utf8 (m_Tenant md) && valid_utf8 (m_Name md).
(** Text is read back, and the empty file is no JSON. *)
Class MetaCodecSpec `{MetaCodec} : Prop := {
  decode_encode_meta md b : meta_text md = true → encodeMeta md = Some b → decodeMeta b = Some md;
  decode_empty : decodeMeta "" = None }.

(** ** The codec *)

(** An object of strings, indented by two spaces. *)
Definition nl : string := String newline "".
Definition line (kv : string * string) : string := "  " +:+ jquote kv.1 +:+ ": " +:+ jquote kv.2.
Definition indented (fs : list (string * string)) : string :=
  "{" +:+ nl +:+ Strings.Join (map line fs) ("," +:+ nl) +:+ nl +:+ "}".
Definition meta_tags : list string := ["id"; "tenant"; "name"; "createdAt"].
(** [Time.MarshalJSON] fails for a year of more than four digits. *)
Definition marshalMeta (md : meta) : option string :=
  t ← time_text (m_CreatedAt md);
  Some (indented [("id", m_ID md); ("tenant", m_Tenant md); ("name", m_Name md); ("createdAt", t)]).
Definition dec_time (old : Z) (v : jval) : option Z :=
  match v with VNull => Some old | VStr s => read_time s | _ => None end.
(** The zero [time.Time] is the first of January of the year 1. *)
Definition zero_meta : meta := {| m_ID := ""; m_Tenant := ""; m_Name := ""; m_CreatedAt := days_of_civil 1 1 1 * day_ns |}.
Definition dec_meta : jval → option meta :=
  dec_struct (λ old fs,
    i ← field meta_tags dec_string "id" (m_ID old) fs;
    t ← field meta_tags dec_string "tenant" (m_Tenant old) fs;
    n ← field meta_tags dec_string "name" (m_Name old) fs;
    c ← field meta_tags dec_time "createdAt" (m_CreatedAt old) fs;
    Some {| m_ID := i; m_Tenant := t; m_Name := n; m_CreatedAt := c |}) zero_meta.
#[export] Instance json_meta : MetaCodec := {| encodeMeta := marshalMeta; decodeMeta := Unmarshal dec_meta |}.

(** ** It is read back *)
Lemma run_string st s c t : run (MBegin, st) (jquote s +:+ String c t) = run (MEnd (VStr (sanitize s)), st) (String c t).
Proof.
  unfold jquote. cbn [String.append]. rewrite <- sapp_assoc.
  transitivity (run (MStr InString "", st) (escape s +:+ String dquote (String c t))); [done|]. by rewrite run_jquote.
Qed.
Lemma run_line m acc kv c t : m = MKey ∨ m = MKeyOrEnd →
  run (m, [FKey acc]) (nl +:+ line kv +:+ String c t) = run (MEnd (VStr (sanitize kv.2)), [FVal acc (sanitize kv.1)]) (String c t).
Proof.
  intros Hm. unfold line. rewrite <- !sapp_assoc. change (": " +:+ ?x) with (String ":" (String " " x)).
  transitivity (run (m, [FKey acc]) (jquote kv.1 +:+ String ":" (String " " (jquote kv.2 +:+ String c t)))); [by destruct Hm as [-> | ->]|].
  rewrite run_key by done. change (run (MBegin, ?st) (String " " ?x)) with (run (MBegin, st) x). apply run_string.
Qed.
Lemma run_lines fs kv m acc t : m = MKey ∨ m = MKeyOrEnd →
  run (m, [FKey acc]) (nl +:+ Strings.Join (map line (kv :: fs)) ("," +:+ nl) +:+ nl +:+ "}" +:+ t) =
  Done (VObj (rev acc ++ map (λ kv, (sanitize kv.1, VStr (sanitize kv.2))) (kv :: fs))) t.
Proof.
  revert kv m acc. induction fs as [|kv' fs IH]; intros kv m acc Hm.
  - cbn [map Strings.Join]. change (nl +:+ "}" +:+ t) with (String newline ("}" +:+ t)). by rewrite run_line.
  - change (Strings.Join (map line (kv :: kv' :: fs)) ("," +:+ nl))
      with (line kv +:+ ("," +:+ nl) +:+ Strings.Join (map line (kv' :: fs)) ("," +:+ nl)).
    rewrite <- !sapp_assoc. change ("," +:+ ?x) with (String "," x). rewrite run_line by done.
    change (run (MEnd ?v, [FVal acc ?k]) (String "," ?x)) with (run (MKey, [FKey ((k, v) :: acc)]) x).
    rewrite IH by auto. cbn [rev map]. by rewrite <- app_assoc.
Qed.
Lemma scan_indented kv fs : scan (indented (kv :: fs)) = Done (VObj (map (λ kv, (sanitize kv.1, VStr (sanitize kv.2))) (kv :: fs))) "".
Proof.
  unfold indented, scan. change ("{" +:+ ?x) with (String "{" x). pose proof (run_lines fs kv MKeyOrEnd [] "" (or_intror eq_refl)) as H.
  rewrite sapp_nil_r in H. exact H.
Qed.
Lemma ascii_valid s : str_forall is_ascii s = true → valid_utf8 s = true.
Proof.
  induction s as [|c s IH]; [done|]. cbn [str_forall]. intros [Hc Hs]%andb_true_iff. unfold is_ascii in Hc. cbn [valid_utf8]. rewrite Hc. by apply IH.
Qed.
Lemma digits_ascii s : all_digits s = true → str_forall is_ascii s = true.
Proof.
  unfold all_digits. induction s as [|c s IH]; [done|]. cbn [str_forall]. intros [Hc Hs]%andb_true_iff. rewrite (IH Hs), andb_true_r.
  unfold is_ascii, is_digit, char_between, code in *. boolp. apply Z.ltb_lt. change (Z_of_byte "9") with 57 in *. lia.
Qed.
Lemma time_text_valid t s : time_text t = Some s → valid_utf8 s = true.
Proof.
  unfold time_text. destruct (civil_of_days _) as [[y m] d]. destruct (_ && _); [|done]. intros [= <-]. apply ascii_valid.
  unfold civil_text, fraction. repeat (rewrite str_forall_app || cbn [str_forall] || rewrite (digits_ascii _ (padded_digits _ _))).
  case_match; cbn [str_forall]; rewrite ?(digits_ascii _ (trim_digits _ (padded_digits _ _))); done.
Qed.
#[export] Instance json_meta_spec : MetaCodecSpec.
Proof.
  split; [|by vm_compute]. intros md b Hm. unfold encodeMeta, decodeMeta, json_meta, marshalMeta.
  destruct (time_text (m_CreatedAt md)) as [t|] eqn:Et; [|done]. intros Hb. cbn [mbind option_bind] in Hb. apply (inj Some) in Hb as <-.
  unfold meta_text in Hm. apply andb_true_iff in Hm as [[Hi Ht]%andb_true_iff Hn].
  unfold Unmarshal. rewrite scan_indented. change (all_space "") with true. cbv iota. unfold dec_meta. cbn [map fst snd dec_struct]. find_fields.
  rewrite !dec_string_read by (by rewrite ?Hi, ?Ht, ?Hn). cbn [mbind option_bind dec_time].
  rewrite (sanitize_valid t) by (by eapply time_text_valid). rewrite (time_read_back _ _ Et). by destruct md.
Qed.
