(* ===== verification/VolumeSpec.v ===== *)
(** * Correctness of the volume manager ([Volume])

    Interleavings are runs of [step]: the critical sections of the calls, in any
    order, on any location a call may have looked up earlier. *)

From S2P Require Import Prelude GoLib GoStrings Volume.
Import Strings.

(** ** Keys *)
Lemma tenantRe_no_slash t : tenantRe t = true → contains_char Filepath.slash t = false.
Proof.
  unfold tenantRe. destruct (String.eqb t "public") eqn:E; boolp; [by subst|].
  cbn [orb]. rewrite !andb_true_iff. intros [[H _] _]. by refine (forall_no_char _ _ _ _ H).
Qed.

Lemma key_inj t i t' i' :
  tenantRe t = true → tenantRe t' = true → key t i = key t' i' → t = t' ∧ i = i'.
Proof.
  intros Ht%tenantRe_no_slash Ht'%tenantRe_no_slash. unfold key. change ("/" +:+ ?x) with (String "/" x).
  revert t' Ht'. induction t as [|c t IH]; intros [|c' t']; cbn; try done.
  - by intros _ [= ->].
  - intros H' [= <- _]. cbn in H'. done.
  - intros _ [= -> _]. cbn in Ht. done.
  - intros H' [= -> He]. apply orb_false_iff in Ht as [Hc Ht], H' as [_ H'].
    destruct (IH Ht t' H' He) as [-> ->]. done.
Qed.

(** ** The index and the heap *)
Definition attrs (v : Volume) : string * string * string := (Tenant v, ID v, Name v).

(** Every key leads to a volume of that tenant and id. *)
Definition index_ok (m : Manager) : Prop :=
  ∀ k p, vols m !! k = Some p → ∃ v, heap m !! p = Some v ∧
    k = key (Tenant v) (ID v) ∧ tenantRe (Tenant v) = true ∧ idRe (ID v) = true.

(** What the critical sections do to the objects: only the holder changes. *)
Definition heap_grows (h h' : list Volume) : Prop :=
  ∀ p v, h !! p = Some v → ∃ v', h' !! p = Some v' ∧ attrs v' = attrs v.

#[export] Instance heap_grows_refl : Reflexive heap_grows.
Proof. intros h p v Hp. eauto. Qed.
#[export] Instance heap_grows_trans : Transitive heap_grows.
Proof.
  intros h1 h2 h3 H12 H23 p v Hp. destruct (H12 p v Hp) as (v2 & Hp2 & E2).
  destruct (H23 p v2 Hp2) as (v3 & Hp3 & E3). exists v3. split; [done|congruence].
Qed.

Lemma heap_grows_snoc h v : heap_grows h (h ++ [v]).
Proof. intros p w Hp. exists w. split; [|done]. by apply lookup_app_l_Some. Qed.

Lemma set_holder_lookup m p s q :
  heap (set_holder m p s) !! q =
    if decide (q = p)
    then (λ v, {| ID := ID v; Tenant := Tenant v; Name := Name v; CreatedAt := CreatedAt v; rwHolder := s |})
           <$> heap m !! q
    else heap m !! q.
Proof.
  unfold set_holder, set_heap, upd. cbn [heap]. case_decide as H.
  - subst. apply list_lookup_alter_eq.
  - by apply list_lookup_alter_ne.
Qed.

Lemma heap_grows_holder m p s : heap_grows (heap m) (heap (set_holder m p s)).
Proof.
  intros q v Hq. rewrite set_holder_lookup. case_decide; [|eauto].
  rewrite Hq. eexists. split; [done|done].
Qed.

(** ** Steps *)

(** [SAttachLock] and [SDeleteLock] carry the location that was looked up
    earlier; [SWalk] the index snapshot and the directory listing of a sweep;
    [SGuest] is any change of the tree by guests or operators. *)
Inductive step :=
| SCreate (e : venv) (tenant name : string)
| SAttachLock (plan : attach_plan) (sid : string)
| SRelease (tenant id sid : string)
| SReleaseAll (sid : string)
| SDeleteLock (p : nat) (tenant id : string)
| SDeleteFiles (rm : removal) (tenant id : string)
| SWalk (e : venv) (root_ok : bool) (known : gset string) (seen : tree)
| SDropVanished
| SMeasure (total : Z)
| SGuest (d : tree).
Definition exec (m : Manager) (s : step) : Manager :=
  match s with
  | SCreate e tenant name => (Create m e tenant name).2
  | SAttachLock plan sid => (attach_lock m plan sid).2
  | SRelease tenant id sid => Release m tenant id sid
  | SReleaseAll sid => ReleaseAll m sid
  | SDeleteLock p tenant id => (delete_lock m p tenant id).2
  | SDeleteFiles rm tenant id => (delete_files m rm tenant id).2
  | SWalk e root_ok known seen => orphan_walk e root_ok known seen m
  | SDropVanished => drop_vanished m
  | SMeasure total => upd m (vols m) total (heap m) (disk m)
  | SGuest d => set_disk m d
  end.
Definition run (m : Manager) (l : list step) : Manager := foldl exec m l.

(** What a step leaves alone: index, heap and limits when only files move. *)
Definition same_index (m m' : Manager) : Prop :=
  vols m' = vols m ∧ heap m' = heap m ∧ MaxVolPerTenant m' = MaxVolPerTenant m.

Lemma orphan_walk_same e r known seen m : same_index m (orphan_walk e r known seen m).
Proof.
  assert (Hentry : ∀ tenant l m, same_index m (foldl (orphan_entry e known tenant) m l)).
  { intros tenant l. induction l as [|x l IH]; intros m0; [done|]. cbn [foldl].
    destruct (IH (orphan_entry e known tenant m0 x)) as (E1 & E2 & E3).
    unfold same_index. rewrite E1, E2, E3. unfold orphan_entry. by case_match. }
  unfold orphan_walk. destruct r; [|done].
  generalize (map_to_list seen) as l. intros l. revert m.
  induction l as [|[tenant t] l IH]; intros m; [done|]. cbn [foldl].
  destruct (IH (orphan_tenant e known m (tenant, t))) as (E1 & E2 & E3).
  unfold same_index. rewrite E1, E2, E3. unfold orphan_tenant. repeat (case_match; [done|]). apply Hentry.
Qed.

Lemma Create_cases m e tenant name :
  (∃ err d, Create m e tenant name = (Err err, set_disk m d)) ∨
  ∃ i d v, Create m e tenant name = (Ok i, add_volume (set_disk m d) v) ∧
    Tenant v = tenant ∧ ID v = "vol_" +:+ v_uuid e ∧ rwHolder v = "" ∧
    tenantRe tenant = true ∧
    i = {| i_ID := ID v; i_Name := Name v; i_CreatedAt := CreatedAt v; i_DiskBytes := 0; i_AttachedRW := false |} ∧
    nameRe (Name v) = true ∧
    existsb (λ w, EqualFold (Name w) (Name v)) (of_tenant tenant (indexed m)) = false ∧
    Z.of_nat (List.length (of_tenant tenant (indexed m))) < MaxVolPerTenant m ∧
    used m < GlobalDiskMax m ∧
    tree_entry d tenant (ID v) =
      Some {| e_isdir := true; e_mtime := Some (v_now e); e_data := Some 0;
              e_meta := Some {| m_ID := ID v; m_Tenant := tenant; m_Name := Name v;
                                m_CreatedAt := CreatedAt v |} |} ∧
    (∀ td, d !! tenant = Some td →
       ((∀ td0, disk m !! tenant = Some td0 → t_isdir td0 = true ∧ t_readable td0 = true) →
        t_isdir td = true ∧ t_readable td = true)).
Proof.
  assert (Hm : set_disk m (disk m) = m) by by destruct m.
  unfold Create.
  destruct (tenantRe tenant) eqn:Ht; cbn [negb]; [|left; eexists _, (disk m); by rewrite Hm].
  set (nm := if String.eqb (TrimSpace name) "" then "memory" else TrimSpace name).
  destruct (nameRe nm) eqn:Hn; cbn [negb]; [|left; eexists _, (disk m); by rewrite Hm].
  destruct (_ && _); [left; eexists _, (disk m); by rewrite Hm|].
  destruct (existsb _ _) eqn:Hex; [left; eexists _, (disk m); by rewrite Hm|].
  destruct (MaxVolPerTenant m <=? _) eqn:Hmax; [left; eexists _, (disk m); by rewrite Hm|].
  destruct (GlobalDiskMax m <=? used m) eqn:Hg; [left; eexists _, (disk m); by rewrite Hm|]. boolp.
  destruct (v_mkdir e); cbn [negb]; [|by left; eexists _, _].
  destruct (v_chmod e); cbn [negb]; [|left; destruct (v_rm e); eauto].
  destruct (v_writemeta e); cbn [negb]; [|left; destruct (v_rm e); eauto].
  right. do 3 eexists. split; [reflexivity|]. cbn. do 9 (split; [done|]).
  unfold tree_entry, tree_put. rewrite !lookup_insert_eq. cbn [mbind option_bind t_entries set_entries].
  rewrite lookup_insert_eq. split; [done|]. intros td [= <-] Hdirs. cbn.
  destruct (disk m !! tenant) as [td0|] eqn:Htd; [by apply Hdirs|done].
Qed.

(** ** The single-writer lock *)
Definition releases (sid : string) (s : step) : Prop :=
  match s with SRelease _ _ sid' | SReleaseAll sid' => sid' = sid | _ => False end.

Definition held (m : Manager) (p : nat) (sid : string) : Prop :=
  ∃ v, heap m !! p = Some v ∧ rwHolder v = sid.

Lemma held_volume m p sid : held m p sid → rwHolder (the_volume m p) = sid.
Proof. intros (v & Hv & H). unfold the_volume. by rewrite Hv. Qed.

Lemma held_set_holder m p sid q s :
  held m p sid → (q = p → s = sid) → held (set_holder m q s) p sid.
Proof.
  intros (v & Hv & Hs) Hq. unfold held. rewrite set_holder_lookup. case_decide as E.
  - subst. rewrite Hv. eexists. split; [done|]. cbn. auto.
  - eauto.
Qed.

Lemma held_exec m p sid s :
  held m p sid → sid ≠ "" → ¬ releases sid s → held (exec m s) p sid.
Proof.
  intros Hh Hs Hr. destruct s as [e t name|plan sid'|t id sid'|sid'|q t id|rm t id|e r known seen| | | ];
    cbn [exec releases] in *; try done.
  - destruct (Create_cases m e t name) as [(err & d & ->)|(i & d & v & -> & _)]; [done|].
    destruct Hh as (w & Hw & E). exists w. split; [by apply lookup_app_l_Some|done].
  - destruct plan as [hp|q hp]; [done|]. cbn [attach_lock]. cbv zeta.
    destruct (_ && _) eqn:Hb; [done|]. apply held_set_holder; [done|]. intros ->.
    rewrite (held_volume _ _ _ Hh) in Hb. apply andb_false_iff in Hb as [Hb|Hb]; boolp; done.
  - unfold Release. destruct (vols m !! key t id) as [q|]; [|done].
    destruct (String.eqb _ _) eqn:Hb; [|done]. boolp. apply held_set_holder; [done|].
    intros ->. rewrite (held_volume _ _ _ Hh) in Hb. congruence.
  - unfold ReleaseAll. generalize (map_to_list (vols m)) as l. intros l. revert m Hh.
    induction l as [|[k q] l IH]; intros m Hh; [done|]. cbn [foldl]. apply IH.
    unfold release_step. cbn [snd]. destruct (String.eqb _ _) eqn:Hb; [|done]. boolp.
    apply held_set_holder; [done|]. intros ->. rewrite (held_volume _ _ _ Hh) in Hb. congruence.
  - unfold delete_lock. by case_match.
  - unfold delete_files. by repeat case_match.
  - destruct (orphan_walk_same e r known seen m) as (_ & E & _). unfold held. by rewrite E.
Qed.

Lemma held_run m p sid l :
  held m p sid → sid ≠ "" → Forall (λ s, ¬ releases sid s) l → held (run m l) p sid.
Proof.
  intros Hh Hs. revert m Hh. induction l as [|s l IH]; intros m Hh; [done|].
  intros [Hr Hl]%Forall_cons. apply IH; [|done]. by apply held_exec.
Qed.

(** C9: single writer.  Once a read-write attach of a volume is granted to
    a session, then whatever happens (creations, other attaches, deletions,
    sweeps, other sessions' releases) until that session releases, every other
    session's read-write attach to the volume is refused as locked, the
    volume cannot be deleted, and the holder itself is granted again. *)
Theorem attach_single_writer m p hp sid hp' m' l sid' hp'' t id :
  attach_lock m (RW p hp) sid = (Ok (hp', true), m') → (p < List.length (heap m))%nat →
  sid ≠ "" → sid' ≠ sid → Forall (λ s, ¬ releases sid s) l →
  let m'' := run m' l in
  attach_lock m'' (RW p hp'') sid' = (Err ErrVolumeLocked, m'') ∧
  delete_lock m'' p t id = (Err ErrBusy, m'') ∧
  (attach_lock m'' (RW p hp'') sid).1 = Ok (hp'', true).
Proof.
  intros Hatt Hp Hs Hne Hl. cbv zeta.
  assert (Hh : held m' p sid).
  { revert Hatt. cbn [attach_lock]. cbv zeta. destruct (_ && _); [done|]. intros [= <- <-].
    destruct (lookup_lt_is_Some_2 (heap m) p Hp) as [v Hv].
    unfold held. rewrite set_holder_lookup, decide_True, Hv by done. eexists. split; done. }
  apply (held_run _ _ _ l) in Hh; [|done..]. apply held_volume in Hh.
  apply String.eqb_neq in Hs as Hs'. cbn [attach_lock]. cbv zeta.
  unfold delete_lock. rewrite Hh, Hs'. cbn [negb andb].
  assert (String.eqb sid sid' = false) as -> by (apply String.eqb_neq; congruence).
  rewrite String.eqb_refl. done.
Qed.

(** a release by the holder, by key or across all volumes, frees the
    volume: the next session's read-write attach is granted. *)
Theorem release_frees m t id p v sid sid' hp :
  vols m !! key t id = Some p → heap m !! p = Some v → rwHolder v = sid →
  (attach_lock (Release m t id sid) (RW p hp) sid').1 = Ok (hp, true) ∧
  (attach_lock (ReleaseAll m sid) (RW p hp) sid').1 = Ok (hp, true).
Proof.
  intros Hk Hv Hs.
  assert (Hfree : ∀ m, rwHolder (the_volume m p) = "" →
    (attach_lock m (RW p hp) sid').1 = Ok (hp, true)).
  { intros m0 H. cbn [attach_lock]. cbv zeta. by rewrite H. }
  assert (Hset : ∀ m s, is_Some (heap m !! p) → rwHolder (the_volume (set_holder m p s) p) = s).
  { intros m0 s [w Hw]. unfold the_volume. by rewrite set_holder_lookup, decide_True, Hw. }
  assert (Hinv : rwHolder (the_volume m p) = sid ∧ is_Some (heap m !! p)).
  { unfold the_volume. rewrite Hv. eauto. }
  split; apply Hfree.
  - unfold Release. rewrite Hk, (proj1 Hinv), String.eqb_refl. apply Hset. by rewrite Hv.
  - unfold ReleaseAll. assert (Hin : (key t id, p) ∈ map_to_list (vols m)) by by apply elem_of_map_to_list.
    (* a holder already cleared stays cleared *)
    assert (Hclear : ∀ l m, rwHolder (the_volume m p) = "" → is_Some (heap m !! p) →
      rwHolder (the_volume (foldl (release_step sid) m l) p) = "").
    { clear. induction l as [|[k q] l IH]; intros m H Hp; [done|]. cbn [foldl].
      assert (Hq : ∀ s, is_Some (heap (set_holder m q s) !! p)).
      { intros s. rewrite set_holder_lookup. case_decide; [|done]. subst. by apply fmap_is_Some. }
      unfold release_step at 2. cbn [snd]. case_match; [|by apply IH].
      apply IH; [|apply Hq]. unfold the_volume. rewrite set_holder_lookup. unfold the_volume in H.
      case_decide; [|done]. subst. destruct Hp as [w Hw]. by rewrite Hw. }
    revert Hin Hinv. generalize (map_to_list (vols m)) as l. clear Hv Hk Hs. intros l. revert m.
    induction l as [|[k q] l IH]; intros m Hin [Hs Hp]; [by apply elem_of_nil in Hin|].
    cbn [foldl]. destruct (decide (q = p)) as [->|Hne].
    + unfold release_step at 2. cbn [snd]. rewrite Hs, String.eqb_refl. apply Hclear; [by apply Hset|].
      rewrite set_holder_lookup, decide_True by done. by apply fmap_is_Some.
    + apply elem_of_cons in Hin as [[= _ ->]|Hin]; [done|]. apply IH; [done|].
      unfold release_step. cbn [snd]. case_match; [|done]. unfold the_volume.
      rewrite !set_holder_lookup, !decide_False by congruence. done.
Qed.

(** ** The index *)
Definition step_ok (s : step) : Prop :=
  match s with SCreate e _ _ => idRe ("vol_" +:+ v_uuid e) = true | _ => True end.

Lemma index_ok_grow m m' :
  index_ok m → vols m' ⊆ vols m → heap_grows (heap m) (heap m') → index_ok m'.
Proof.
  intros Hok Hsub Hg k p Hk. destruct (Hok k p) as (v & Hv & E & H1 & H2).
  { by apply (lookup_weaken _ _ _ _ Hk). }
  destruct (Hg p v Hv) as (v' & Hv' & [= E1 E2 E3]). exists v'. rewrite E1, E2. done.
Qed.

Lemma ReleaseAll_grows m sid : vols (ReleaseAll m sid) = vols m ∧ heap_grows (heap m) (heap (ReleaseAll m sid))
  ∧ MaxVolPerTenant (ReleaseAll m sid) = MaxVolPerTenant m.
Proof.
  unfold ReleaseAll. generalize (map_to_list (vols m)) as l. intros l. revert m.
  induction l as [|[k q] l IH]; intros m; [done|]. cbn [foldl].
  destruct (IH (release_step sid m (k, q))) as (E & Hg & Em). rewrite E, Em.
  unfold release_step in *. cbn [snd] in *. case_match; [|done].
  split; [done|split; [|done]]. etransitivity; [|exact Hg]. apply heap_grows_holder.
Qed.

(** Every step but a creation only shrinks the index and changes holders. *)
Lemma exec_shrinks m s :
  (∃ e t name, s = SCreate e t name) ∨
  (vols (exec m s) ⊆ vols m ∧ heap_grows (heap m) (heap (exec m s)) ∧
   MaxVolPerTenant (exec m s) = MaxVolPerTenant m).
Proof.
  destruct s as [e t name|plan sid'|t id sid'|sid'|q t id|rm t id|e r known seen| | | ];
    [left; eauto|right; cbn [exec]..].
  - destruct plan as [hp|q hp]; [done|]. cbn [attach_lock]. cbv zeta. destruct (_ && _); [done|].
    split; [done|split; [apply heap_grows_holder|done]].
  - unfold Release. destruct (vols m !! key t id); [|done]. case_match; [|done].
    split; [done|split; [apply heap_grows_holder|done]].
  - destruct (ReleaseAll_grows m sid') as (E & Hg & Em). by rewrite E.
  - unfold delete_lock. case_match; [done|]. split; [apply delete_subseteq|done].
  - unfold delete_files. by repeat case_match.
  - destruct (orphan_walk_same e r known seen m) as (E1 & E2 & E3). rewrite E1, E2. done.
  - split; [apply map_filter_subseteq|done].
  - done.
  - done.
Qed.

Lemma index_ok_exec m s : index_ok m → step_ok s → index_ok (exec m s).
Proof.
  intros Hok Hs. destruct (exec_shrinks m s) as [(e & t & name & ->)|(Hsub & Hg & _)];
    [|by apply (index_ok_grow m)].
  cbn [exec step_ok] in *.
  destruct (Create_cases m e t name) as [(err & d & ->)|(i & d & v & -> & H1 & H2 & H3 & H4 & _)]; [done|].
  intros k p. unfold add_volume, set_disk, upd. cbn [vols heap snd].
  intros [[<- <-]|[_ Hk]]%lookup_insert_Some.
  - exists v. rewrite list_lookup_middle by done. rewrite H1, H2. done.
  - destruct (Hok k p Hk) as (w & Hw & Hrest). exists w. split; [|done]. by apply lookup_app_l_Some.
Qed.

Lemma index_ok_run m l : index_ok m → Forall step_ok l → index_ok (run m l).
Proof.
  revert m. induction l as [|s l IH]; intros m Hok; [done|].
  intros [Hs Hl]%Forall_cons. by apply IH; [apply index_ok_exec|].
Qed.

Lemma lookup_spec m t id p : index_ok m → lookup m t id = Ok p →
  ∃ v, heap m !! p = Some v ∧ Tenant v = t ∧ ID v = id ∧ vols m !! key t id = Some p.
Proof.
  intros Hok. unfold lookup. destruct (tenantRe t) eqn:Ht; [|done]. destruct (idRe id); [|done].
  cbn [negb]. destruct (vols m !! key t id) as [q|] eqn:Hk; [|done]. intros [= ->].
  destruct (Hok _ _ Hk) as (v & Hv & Hkey & Htv & _).
  apply key_inj in Hkey as [-> ->]; [|done..]. eauto.
Qed.

(** a volume is reachable only by its own tenant.  In every state that
    steps of any kind can reach, what [Attach] hands out for a tenant and an id
    is a path inside the resolved directory of that tenant, for a volume indexed
    under exactly that tenant and id, and [Get] describes that volume. *)
Theorem volume_isolation m0 l e t id sid rw hp granted m' :
  index_ok m0 → Forall step_ok l → let m := run m0 l in
  Attach m e t id sid rw = (Ok (hp, granted), m') →
  ∃ p v root, vols m !! key t id = Some p ∧ heap m !! p = Some v ∧ Tenant v = t ∧ ID v = id ∧
    v_eval e (Filepath.Join [Root m; t]) = Some root ∧
    (hp = root ∨ HasPrefix hp (root +:+ "/") = true) ∧
    Get m t id = Ok (infoOf m v) ∧ (granted = true → rw = true).
Proof.
  intros Hok Hl m. pose proof (index_ok_run m0 l Hok Hl) as Hm. fold m in Hm.
  unfold Attach, attach_read. destruct (lookup m t id) as [p|] eqn:Hlk; [|done].
  destruct (lookup_spec m t id p Hm Hlk) as (v & Hv & Ht & Hid & Hk).
  unfold HostPath. rewrite Hlk. cbv zeta.
  destruct (v_eval e (Filepath.Join [Root m; t])) as [root|] eqn:Hroot; [|done].
  destruct (v_eval e (Filepath.Join [Filepath.Join [Root m; t]; id; "data"])) as [cand|]; [|done].
  destruct (negb (String.eqb cand root) && _) eqn:Hc; [done|]. unfold OverQuota. rewrite Hlk. cbn [fst]. intros Hatt.
  exists p, v, root. repeat split; try done.
  - assert (Hcand : cand = root ∨ HasPrefix cand (root +:+ "/") = true).
    { apply andb_false_iff in Hc as [Hc|Hc]; boolp; [by left|by right]. }
    assert (hp = cand) as ->; [|done].
    destruct rw; cbn [negb attach_lock] in Hatt; [|congruence].
    repeat case_match; simplify_eq/=; repeat case_match; congruence.
  - unfold Get. rewrite Hlk. unfold the_volume. by rewrite Hv.
  - intros ->. revert Hatt. destruct rw; [done|]. cbn [negb attach_lock]. congruence.
Qed.

(** ** Names and limits *)
Lemma elem_of_indexed m v : v ∈ indexed m ↔ ∃ k p, vols m !! k = Some p ∧ heap m !! p = Some v.
Proof.
  unfold indexed. rewrite list_elem_of_omap. split.
  - intros ([k p] & Hin%elem_of_map_to_list & Hv). eauto.
  - intros (k & p & Hk & Hv). exists (k, p). by rewrite elem_of_map_to_list.
Qed.

Definition owned (m : Manager) (t : string) : Z :=
  map_sum (λ _ p, if String.eqb (Tenant (the_volume m p)) t then 1 else 0) (vols m).

Lemma owned_length m t : index_ok m → Z.of_nat (List.length (of_tenant t (indexed m))) = owned m t.
Proof.
  intros Hok. unfold owned, of_tenant, indexed. rewrite map_sum_foldr.
  assert (Hall : Forall (λ kp, is_Some (heap m !! kp.2)) (map_to_list (vols m))).
  { apply Forall_forall. intros [k p] Hin%elem_of_map_to_list.
    destruct (Hok k p Hin) as (v & Hv & _). eauto. }
  induction Hall as [|[k p] l [v Hv] _ IH]; [done|]. cbn [omap list_omap foldr snd] in *.
  assert (the_volume m p = v) as -> by (unfold the_volume; by rewrite Hv).
  rewrite Hv. cbn [List.filter].
  destruct (String.eqb (Tenant v) t); cbn [List.length]; rewrite <- IH; lia.
Qed.

(** No two volumes of a tenant have names equal up to case, and no tenant has
    more volumes than allowed. *)
Record limits_ok (m : Manager) : Prop := {
  lim_names k1 k2 p1 p2 v1 v2 : vols m !! k1 = Some p1 → vols m !! k2 = Some p2 → k1 ≠ k2 →
    heap m !! p1 = Some v1 → heap m !! p2 = Some v2 → Tenant v1 = Tenant v2 →
    EqualFold (Name v1) (Name v2) = false;
  lim_count t : owned m t ≤ MaxVolPerTenant m }.

Lemma grow_back h h' p v' : heap_grows h h' → is_Some (h !! p) → h' !! p = Some v' →
  ∃ v, h !! p = Some v ∧ attrs v' = attrs v.
Proof.
  intros Hg [v Hv] Hv'. destruct (Hg p v Hv) as (w & Hw & E). exists v. split; [done|congruence].
Qed.

Lemma limits_shrink m m' :
  index_ok m → limits_ok m → vols m' ⊆ vols m → heap_grows (heap m) (heap m') →
  MaxVolPerTenant m' = MaxVolPerTenant m → limits_ok m'.
Proof.
  intros Hok [Hn Hc] Hsub Hg Hmax.
  assert (Hval : ∀ k p, vols m' !! k = Some p → vols m !! k = Some p ∧ is_Some (heap m !! p)).
  { intros k p Hk. pose proof (lookup_weaken _ _ _ _ Hk Hsub) as Hk'.
    destruct (Hok k p Hk') as (v & Hv & _). eauto. }
  split.
  - intros k1 k2 p1 p2 v1 v2 H1 H2 Hne Hv1 Hv2 Ht.
    destruct (Hval _ _ H1) as [H1' S1]. destruct (Hval _ _ H2) as [H2' S2].
    destruct (grow_back _ _ _ _ Hg S1 Hv1) as (w1 & Hw1 & [= E1 _ N1]).
    destruct (grow_back _ _ _ _ Hg S2 Hv2) as (w2 & Hw2 & [= E2 _ N2]).
    rewrite N1, N2. apply (Hn k1 k2 p1 p2); congruence.
  - intros t. rewrite Hmax. transitivity (owned m t); [|done]. unfold owned.
    transitivity (map_sum (λ _ p, if String.eqb (Tenant (the_volume m p)) t then 1 else 0) (vols m')).
    + apply Z.eq_le_incl, map_sum_ext. intros k p Hk. destruct (Hval _ _ Hk) as [_ [v Hv]].
      destruct (Hg p v Hv) as (v' & Hv' & [= E _ _]). unfold the_volume. rewrite Hv, Hv'. cbn. by rewrite E.
    + apply map_sum_subseteq; [|done]. intros. case_match; lia.
Qed.

Lemma EqualFold_sym s t : EqualFold s t = EqualFold t s.
Proof. unfold EqualFold. apply String.eqb_sym. Qed.

Lemma limits_exec m s : index_ok m → limits_ok m → step_ok s → limits_ok (exec m s).
Proof.
  intros Hok Hlim Hs. destruct (exec_shrinks m s) as [(e & t & name & ->)|(Hsub & Hg & Hmax)];
    [|by apply (limits_shrink m)].
  cbn [exec step_ok] in *. pose proof (index_ok_exec m (SCreate e t name) Hok Hs) as Hok'. cbn [exec] in Hok'.
  destruct (Create_cases m e t name)
    as [(err & d & E)|(i & d & v & E & Ht & Hid & _ & Htr & _ & _ & Hex & Hcnt & _)]; rewrite E in *;
    cbn [snd] in *; [by destruct Hlim; split|].
  assert (Hother : ∀ k p w, vols m !! k = Some p → heap m !! p = Some w → Tenant w = t →
            EqualFold (Name w) (Name v) = false).
  { intros k p w Hk Hw Htw. apply not_true_iff_false. intros Hf.
    rewrite <- not_true_iff_false in Hex. apply Hex, existsb_exists. exists w. split; [|done].
    apply filter_In. split; [|by apply String.eqb_eq]. apply list_elem_of_In, elem_of_indexed. eauto. }
  set (k0 := key (Tenant v) (ID v)). destruct Hlim as [Hn Hc]. split.
  - intros k1 k2 p1 p2 v1 v2. unfold add_volume, set_disk, upd. cbn [vols heap].
    intros H1 H2 Hne Hv1 Hv2 Htt.
    apply lookup_insert_Some in H1 as [[<- <-]|[Hk1 H1]], H2 as [[<- <-]|[Hk2 H2]]; [done| | |].
    + rewrite list_lookup_middle in Hv1 by done. injection Hv1 as <-.
      destruct (Hok _ _ H2) as (w & Hw & _). rewrite (lookup_app_l_Some _ _ _ _ Hw) in Hv2.
      injection Hv2 as <-. rewrite EqualFold_sym. apply (Hother k2 p2); congruence.
    + rewrite list_lookup_middle in Hv2 by done. injection Hv2 as <-.
      destruct (Hok _ _ H1) as (w & Hw & _). rewrite (lookup_app_l_Some _ _ _ _ Hw) in Hv1.
      injection Hv1 as <-. apply (Hother k1 p1); congruence.
    + destruct (Hok _ _ H1) as (w1 & Hw1 & _). destruct (Hok _ _ H2) as (w2 & Hw2 & _).
      rewrite (lookup_app_l_Some _ _ _ _ Hw1) in Hv1. rewrite (lookup_app_l_Some _ _ _ _ Hw2) in Hv2.
      apply (Hn k1 k2 p1 p2); congruence.
  - intros u. rewrite owned_length in Hcnt by done.
    set (m2 := add_volume (set_disk m d) v). cbn [MaxVolPerTenant] in *.
    assert (Hold : ∀ p, is_Some (heap m !! p) → the_volume m2 p = the_volume m p).
    { intros p [w Hw]. unfold the_volume, m2, add_volume, set_disk, upd. cbn [heap].
      rewrite (lookup_app_l_Some _ _ _ _ Hw), Hw. done. }
    assert (Hnew : the_volume m2 (List.length (heap m)) = v).
    { unfold the_volume, m2, add_volume, set_disk, upd. cbn [heap]. by rewrite list_lookup_middle. }
    assert (Hsum : map_sum (λ _ p, if String.eqb (Tenant (the_volume m2 p)) u then 1 else 0) (vols m) = owned m u).
    { unfold owned. apply map_sum_ext. intros k p Hk. destruct (Hok k p Hk) as (w & Hw & _).
      by rewrite Hold by eauto. }
    assert (Heq : owned m2 u = owned m u
       - from_option (λ p, if String.eqb (Tenant (the_volume m2 p)) u then 1 else 0) 0 (vols m !! k0)
       + (if String.eqb t u then 1 else 0)).
    { unfold owned at 1. unfold m2 at 2, add_volume, set_disk, upd. cbn [vols heap].
      rewrite map_sum_insert, Hsum, Hnew. f_equal. by rewrite Ht. }
    rewrite Heq. assert (0 ≤ from_option (λ p, if String.eqb (Tenant (the_volume m2 p)) u then 1 else 0) 0 (vols m !! k0)).
    { destruct (vols m !! k0); cbn [from_option]; [|lia]. by destruct (String.eqb (Tenant (the_volume m2 _)) u). }
    specialize (Hc u). change (MaxVolPerTenant m2) with (MaxVolPerTenant m).
    destruct (String.eqb t u) eqn:Htu; boolp; [subst u|]; lia.
Qed.

Lemma exec_max m s : MaxVolPerTenant (exec m s) = MaxVolPerTenant m.
Proof.
  destruct (exec_shrinks m s) as [(e & t & name & ->)|(_ & _ & H)]; [|done]. cbn [exec].
  by destruct (Create_cases m e t name) as [(err & d & ->)|(i & d & v & -> & _)].
Qed.

Lemma limits_run m l : index_ok m → limits_ok m → Forall step_ok l →
  index_ok (run m l) ∧ limits_ok (run m l) ∧ MaxVolPerTenant (run m l) = MaxVolPerTenant m.
Proof.
  revert m. induction l as [|s l IH]; intros m Hok Hlim; [done|]. intros [Hs Hl]%Forall_cons.
  destruct (IH (exec m s)) as (H1 & H2 & H3); [by apply index_ok_exec|by apply limits_exec|done|].
  cbn [run foldl]. fold (run (exec m s) l). by rewrite H3, exec_max.
Qed.

Lemma NewManager_empty cfg root_ok m0 :
  NewManager cfg true true root_ok ∅ = Some m0 → index_ok m0 ∧ limits_ok m0.
Proof.
  unfold NewManager. case_match; [done|]. cbn [negb]. intros [= <-].
  set (m := {| Root := c_Root cfg |}).
  assert (Hv : vols (scan true root_ok m) = ∅).
  { unfold scan. by destruct root_ok. }
  assert (Hm : MaxVolPerTenant (scan true root_ok m) = or_default (c_MaxVolPerTenant cfg) 100).
  { unfold scan. by destruct root_ok. }
  split; [|split].
  - intros k p. by rewrite Hv, lookup_empty.
  - intros k1 k2 p1 p2 v1 v2. by rewrite Hv, lookup_empty.
  - intros t. unfold owned. rewrite Hv, map_sum_empty, Hm. unfold or_default. case_match; lia.
Qed.

(** from a store without volumes, whatever sequence of steps runs, no
    two volumes of one tenant ever have names equal up to case, and no tenant
    has more volumes than the limit, however the creations interleave with
    attaches, deletions and sweeps. *)
Theorem volume_limits cfg root_ok m0 l t :
  NewManager cfg true true root_ok ∅ = Some m0 → Forall step_ok l → let m := run m0 l in
  Z.of_nat (List.length (of_tenant t (indexed m))) ≤ MaxVolPerTenant m0 ∧
  ∀ p1 p2 k1 k2, vols m !! k1 = Some p1 → vols m !! k2 = Some p2 → k1 ≠ k2 →
    Tenant (the_volume m p1) = t → Tenant (the_volume m p2) = t →
    EqualFold (Name (the_volume m p1)) (Name (the_volume m p2)) = false.
Proof.
  intros Hnew Hl m. destruct (NewManager_empty cfg root_ok m0 Hnew) as (Hok & Hlim).
  destruct (limits_run m0 l Hok Hlim Hl) as (Hok' & Hlim' & Hmax). fold m in Hok', Hlim', Hmax.
  split; [rewrite owned_length, <- Hmax by done; apply (lim_count _ Hlim')|].
  intros p1 p2 k1 k2 H1 H2 Hne.
  destruct (Hok' _ _ H1) as (v1 & Hv1 & _). destruct (Hok' _ _ H2) as (v2 & Hv2 & _).
  unfold the_volume. rewrite Hv1, Hv2. cbn [default]. intros <- Ht.
  by apply (lim_names _ Hlim' k1 k2 p1 p2).
Qed.


(** ** What start-up and the sweeps remove *)

(** A directory of a minted id whose metadata agrees with its own path. *)
Definition well_formed (tenant id : string) (e : ventry) : bool :=
  e_isdir e && idRe id &&
  match e_meta e with
  | Some md => String.eqb (m_ID md) id && String.eqb (m_Tenant md) tenant
  | None => false
  end.

Lemma tree_rm_ne d t id t' id' : (t', id') ≠ (t, id) → tree_entry (tree_rm d t id) t' id' = tree_entry d t' id'.
Proof.
  intros Hne. unfold tree_rm, tree_entry. destruct (d !! t) as [td|] eqn:Ht; [|done].
  destruct (decide (t' = t)) as [->|Hne'].
  - rewrite lookup_insert_eq, Ht. cbn. rewrite lookup_delete_ne; [done|]. intros ->. by apply Hne.
  - by rewrite lookup_insert_ne.
Qed.

Lemma tree_put_ne d t id e t' id' : t' ≠ t → tree_entry (tree_put d t id e) t' id' = tree_entry d t' id'.
Proof. intros H. unfold tree_put, tree_entry. by rewrite lookup_insert_ne. Qed.
Lemma touch_entry d t t' id : tree_entry (tree_touch d t) t' id = tree_entry d t' id.
Proof.
  unfold tree_touch, tree_entry. destruct (d !! t) as [td|] eqn:E; [done|].
  destruct (decide (t' = t)) as [->|Hne]; [|by rewrite lookup_insert_ne]. by rewrite lookup_insert_eq, E.
Qed.
Lemma orphan_well_formed e known t id ent : well_formed t id ent = true → orphan e known t id ent = false.
Proof.
  unfold well_formed, orphan. rewrite !andb_true_iff. intros [[-> ->] Hm]. cbn [negb orb].
  rewrite Hm. by case_bool_decide.
Qed.

Lemma walk_keeps m e root_ok known seen t id :
  (∀ ent, tree_entry seen t id = Some ent → orphan e known t id ent = false) →
  tree_entry (disk (orphan_walk e root_ok known seen m)) t id = tree_entry (disk m) t id.
Proof.
  intros Hno.
  unfold orphan_walk. destruct root_ok; [|done].
  assert (Hentry : ∀ tn l m, (∀ ent, tn = t → (id, ent) ∈ l → orphan e known t id ent = false) →
    tree_entry (disk (foldl (orphan_entry e known tn) m l)) t id = tree_entry (disk m) t id).
  { clear. intros tn l. induction l as [|[i ent] l IH]; intros m Hl; [done|]. cbn [foldl].
    rewrite IH by (intros ? ? ?; apply Hl; [done|by right]).
    unfold orphan_entry. cbn [fst snd]. destruct (orphan e known tn i ent) eqn:Ho; [|done].
    destruct (v_rm e); [|done]. cbn [andb disk set_disk upd]. apply tree_rm_ne. intros [= <- <-].
    rewrite Hl in Ho; [done|done|by left]. }
  assert (Hin : ∀ tn td, (tn, td) ∈ map_to_list seen → seen !! tn = Some td)
    by (intros; by apply elem_of_map_to_list).
  revert Hin. generalize (map_to_list seen) as l. intros l. revert m.
  induction l as [|[tn td] l IH]; intros m Hin; [done|]. cbn [foldl].
  rewrite IH by (intros; apply Hin; by right).
  unfold orphan_tenant. repeat (case_match; [done|]). apply Hentry.
  intros ent -> He. apply Hno. unfold tree_entry. rewrite (Hin t td) by by left. cbn.
  by apply elem_of_map_to_list.
Qed.

(** the lock-free walk of a sweep works on an index snapshot and a
    directory listing that may both be out of date.  A volume directory seen
    with valid metadata, or in the snapshot, or younger than the grace period
    (a creation in progress), or not seen at all, is never removed, and the
    walk never touches the index. *)
Theorem walk_spares_volumes m e root_ok known seen t id :
  (∀ ent, tree_entry seen t id = Some ent →
     e_isdir ent = true ∧ idRe id = true ∧
     (well_formed t id ent = true ∨ key t id ∈ known ∨
      ∃ mt, e_mtime ent = Some mt ∧ v_now e - mt < orphanGrace)) →
  let m' := orphan_walk e root_ok known seen m in
  tree_entry (disk m') t id = tree_entry (disk m) t id ∧ vols m' = vols m ∧ heap m' = heap m.
Proof.
  intros Hseen m'. destruct (orphan_walk_same e root_ok known seen m) as (H1 & H2 & _).
  split; [|done]. subst m'. clear H1 H2.
  assert (Hno : ∀ ent, tree_entry seen t id = Some ent → orphan e known t id ent = false).
  { intros ent Hent. destruct (Hseen ent Hent) as (Hd & Hid & [Hw|[Hk|(mt & Hmt & Hlt)]]).
    - by apply orphan_well_formed.
    - unfold orphan. rewrite Hd, Hid. cbn. by rewrite bool_decide_eq_true_2.
    - unfold orphan. rewrite Hd, Hid, Hmt. cbn [negb orb]. case_bool_decide; [done|]. case_match; [done|].
      rewrite (proj2 (Z.ltb_lt _ _)); done. }
  by apply walk_keeps.
Qed.

(** a sweep never deletes a healthy volume: one that is indexed and
    has its directory and data keeps its index entry and its files. *)
Theorem sweep_keeps_healthy m e root_ok t id p ent :
  index_ok m → tenantRe t = true → vols m !! key t id = Some p →
  tree_entry (disk m) t id = Some ent → e_isdir ent = true → is_Some (e_data ent) →
  let m' := Sweep m e root_ok in
  vols m' !! key t id = Some p ∧ tree_entry (disk m') t id = Some ent.
Proof.
  intros Hok Ht Hk Hent Hd [sz Hsz] m'. subst m'. unfold Sweep. cbn [vols disk upd].
  destruct (Hok _ _ Hk) as (v & Hv & Hkey & Htv & Hidv).
  apply key_inj in Hkey as [-> ->]; [|done..].
  assert (Hwalk : tree_entry (disk (orphan_walk e root_ok (dom (vols m)) (disk m) m)) (Tenant v) (ID v) = Some ent
    ∧ same_index m (orphan_walk e root_ok (dom (vols m)) (disk m) m)).
  { split; [|apply orphan_walk_same]. rewrite <- Hent.
    assert (Hno : orphan e (dom (vols m)) (Tenant v) (ID v) ent = false).
    { unfold orphan. rewrite Hd, Hidv. cbn. rewrite bool_decide_eq_true_2; [done|]. by apply elem_of_dom_2 in Hk. }
    apply walk_keeps. intros ent' Hent'. congruence. }
  destruct Hwalk as [He (E1 & E2 & _)]. unfold SweepOrphans.
  set (w := orphan_walk _ _ _ _ m) in *. destruct root_ok; [|by rewrite E1].
  unfold drop_vanished. cbn [vols disk upd]. split; [|done].
  apply map_lookup_filter_Some. rewrite E1. split; [done|].
  unfold data_exists. cbn [snd]. rewrite E2, Hv, He. cbn. by rewrite Hsz.
Qed.

(** *** Start-up *)
Definition flat_tenant (te : string * tdir) : list (string * (string * ventry)) :=
  if negb (t_isdir te.2) || negb (tenantRe te.1) then []
  else if negb (t_readable te.2) then [] else (λ ve, (te.1, ve)) <$> map_to_list (t_entries te.2).
Definition scan_one (rm : bool) (acc : Manager * Z) (x : string * (string * ventry)) : Manager * Z :=
  scan_entry rm x.1 acc x.2.

Lemma scan_flat rm acc l : foldl (scan_tenant rm) acc l = foldl (scan_one rm) acc (l ≫= flat_tenant).
Proof.
  revert acc. induction l as [|[t td] l IH]; intros acc; [done|]. cbn [foldl mbind list_bind].
  change (foldl (scan_tenant rm) (scan_tenant rm acc (t, td)) l =
    foldl (scan_one rm) acc (flat_tenant (t, td) ++ (l ≫= flat_tenant))).
  rewrite foldl_app, IH. f_equal. unfold scan_tenant, flat_tenant. cbn [fst snd].
  do 2 (case_match; [done|]). generalize (map_to_list (t_entries td)) as es. clear.
  intros es. revert acc. induction es as [|x es IH]; intros acc; [done|]. cbn. apply IH.
Qed.

Lemma scan_entry_wf rm t m total id e :
  scan_entry rm t (m, total) (id, e) =
    if well_formed t id e
    then match e_meta e with
         | Some md => (add_volume m {| ID := m_ID md; Tenant := m_Tenant md; Name := m_Name md;
                         CreatedAt := m_CreatedAt md; rwHolder := "" |}, wrap64 (total + data_size (disk m) t id))
         | None => (m, total)
         end
    else (if rm then set_disk m (tree_rm (disk m) t id) else m, total).
Proof.
  unfold scan_entry, well_formed. destruct (e_isdir e); [|done]. destruct (idRe id); [|done]. cbn [negb orb andb].
  destruct (e_meta e) as [md|]; [|done]. by destruct (String.eqb _ _), (String.eqb _ _).
Qed.

Lemma scan_fold rm l m total m' total' :
  foldl (scan_one rm) (m, total) l = (m', total') →
  (∀ t ve, (t, ve) ∈ l → tenantRe t = true) → index_ok m →
  index_ok m' ∧
  (∀ t id, tenantRe t = true → is_Some (vols m' !! key t id) ↔
     is_Some (vols m !! key t id) ∨ ∃ e, (t, (id, e)) ∈ l ∧ well_formed t id e = true) ∧
  (∀ t id, (∀ e, (t, (id, e)) ∈ l → well_formed t id e = true) →
     tree_entry (disk m') t id = tree_entry (disk m) t id).
Proof.
  revert m total. induction l as [|[t0 [id0 e0]] l IH]; intros m total; cbn [foldl].
  { intros [= <- <-] _ Hok. split; [done|split; [|done]]. intros t id Ht. split; [by left|].
    intros [?|(e & He & _)]; [done|]. by apply elem_of_nil in He. }
  intros Hfold Ht Hok. unfold scan_one at 2 in Hfold. cbn [fst snd] in Hfold.
  rewrite scan_entry_wf in Hfold.
  assert (Ht0 : tenantRe t0 = true) by (eapply Ht; by left).
  assert (Htl : ∀ t ve, (t, ve) ∈ l → tenantRe t = true) by (intros; eapply Ht; by right).
  destruct (well_formed t0 id0 e0) eqn:Hw.
  - assert (Hmd : ∃ md, e_meta e0 = Some md ∧ m_ID md = id0 ∧ m_Tenant md = t0 ∧ idRe id0 = true).
    { unfold well_formed in Hw. destruct (e_meta e0) as [md|]; boolp; [|done]. exists md. by boolp. }
    destruct Hmd as (md & Hmd & Hi & Hte & Hre). rewrite Hmd in Hfold.
    set (v := {| ID := m_ID md |}) in Hfold.
    assert (Hok1 : index_ok (add_volume m v)).
    { intros k p. unfold add_volume, upd. cbn [vols heap].
      intros [[<- <-]|[_ Hk]]%lookup_insert_Some.
      - exists v. rewrite list_lookup_middle by done. unfold v. cbn. rewrite Hi, Hte. done.
      - destruct (Hok k p Hk) as (w & Hw' & Hrest). exists w. split; [|done]. by apply lookup_app_l_Some. }
    destruct (IH _ _ Hfold Htl Hok1) as (I1 & I2 & I3). split; [done|split].
    + intros t id Htt. rewrite I2 by done. unfold add_volume, upd. cbn [vols].
      split.
      * intros [[p Hp]|(e & He & Hwe)]; [|right; exists e; by split; [right|]].
        apply lookup_insert_Some in Hp as [[Hkey _]|[_ Hp]]; [|left; eauto].
        unfold v in Hkey. cbn in Hkey. rewrite Hi, Hte in Hkey. apply key_inj in Hkey as [<- <-]; [|done..].
        right. exists e0. split; [by left|done].
      * intros [[p Hp]|(e & He & Hwe)].
        -- left. destruct (decide (key (Tenant v) (ID v) = key t id)) as [->|Hne];
             [rewrite lookup_insert_eq; eauto|rewrite lookup_insert_ne by done; eauto].
        -- apply elem_of_cons in He as [[= -> -> ->]|He]; [|right; eauto].
           left. unfold v. cbn. rewrite Hi, Hte, lookup_insert_eq. eauto.
    + intros t id Hall. rewrite I3; [done|]. intros e He. apply Hall. by right.
  - destruct (IH _ _ Hfold Htl) as (I1 & I2 & I3); [by destruct rm|].
    split; [done|split].
    + intros t id Htt. rewrite I2 by done.
      assert (vols (if rm then set_disk m (tree_rm (disk m) t0 id0) else m) = vols m) as -> by by destruct rm.
      split; (intros [?|(e & He & Hwe)]; [by left|right]).
      * exists e. by split; [right|].
      * apply elem_of_cons in He as [[= -> -> ->]|He]; [congruence|eauto].
    + intros t id Hall. rewrite I3 by (intros e He; apply Hall; by right).
      destruct rm; [|done]. cbn [disk set_disk upd]. apply tree_rm_ne. intros [= <- <-].
      rewrite Hall in Hw; [done|by left].
Qed.

(** What the scan reads of a volume directory. *)
Definition visible (d : tree) (tenant id : string) : option ventry :=
  td ← d !! tenant; if t_isdir td && t_readable td then t_entries td !! id else None.
Lemma scan_members d t id e :
  (t, (id, e)) ∈ (map_to_list d ≫= flat_tenant) ↔ tenantRe t = true ∧ visible d t id = Some e.
Proof.
  rewrite list_elem_of_bind. unfold visible. split.
  - intros ([tn td] & Hin & Hm%elem_of_map_to_list). unfold flat_tenant in Hin. cbn [fst snd] in Hin.
    destruct (negb (t_isdir td) || _) eqn:H1; [by apply elem_of_nil in Hin|].
    destruct (negb (t_readable td)) eqn:H2; [by apply elem_of_nil in Hin|].
    apply list_elem_of_fmap in Hin as (ve & [= -> <-] & Hve%elem_of_map_to_list). boolp.
    rewrite Hm. cbn. by destruct (t_isdir td), (tenantRe tn), (t_readable td).
  - intros [Ht He]. destruct (d !! t) as [td|] eqn:Hd; [|done]. cbn in He. exists (t, td).
    split; [|by apply elem_of_map_to_list]. unfold flat_tenant. cbn [fst snd]. rewrite Ht.
    destruct (t_isdir td), (t_readable td); try done. cbn in *.
    apply list_elem_of_fmap. exists (id, e). by rewrite elem_of_map_to_list.
Qed.
(** A successful start is the scan of an empty manager. *)
Lemma NewManager_scan cfg mk rm root_ok d m : NewManager cfg mk rm root_ok d = Some m →
  ∃ m0, m = scan rm root_ok m0 ∧ vols m0 = ∅ ∧ heap m0 = [] ∧ disk m0 = d.
Proof. unfold NewManager. case_match; [done|]. destruct mk; [|done]. intros [= <-]. by eexists. Qed.
Lemma empty_index_ok m : vols m = ∅ → index_ok m.
Proof. intros E k p. by rewrite E, lookup_empty. Qed.
Lemma scan_exact cfg rm d m :
  NewManager cfg true rm true d = Some m →
  index_ok m ∧
  (∀ t id, tenantRe t = true →
     is_Some (vols m !! key t id) ↔ ∃ e, visible d t id = Some e ∧ well_formed t id e = true) ∧
  (∀ t id, (∀ e, visible d t id = Some e → well_formed t id e = true) →
     tree_entry (disk m) t id = tree_entry d t id).
Proof.
  intros (m0 & -> & Hv & _ & <-)%NewManager_scan. unfold scan. cbn [negb]. rewrite scan_flat.
  destruct (foldl (scan_one rm) (m0, 0) (map_to_list (disk m0) ≫= flat_tenant)) as [m1 total] eqn:Hf.
  destruct (scan_fold rm _ m0 0 m1 total Hf) as (I1 & I2 & I3);
    [by intros t [id e] [Ht _]%scan_members|by apply empty_index_ok|].
  cbn [vols disk upd]. split; [exact I1|split].
  - intros t id Ht. rewrite I2 by done. rewrite Hv, lookup_empty. split.
    + intros [[? ?]|(e & [_ He]%scan_members & Hw)]; [done|eauto].
    + intros (e & He & Hw). right. exists e. split; [by apply scan_members|done].
  - intros t id Hall. apply I3. intros e [_ He]%scan_members. by apply Hall.
Qed.

(** at start-up, exactly the readable directories of a minted id whose
    metadata agrees with the path are indexed, under the path's own tenant and
    id, and none of them is removed. *)
Theorem scan_rebuilds cfg rm d m t td id e :
  NewManager cfg true rm true d = Some m →
  d !! t = Some td → t_isdir td = true → t_readable td = true → tenantRe t = true →
  t_entries td !! id = Some e →
  (is_Some (vols m !! key t id) ↔ well_formed t id e = true) ∧
  (well_formed t id e = true → tree_entry (disk m) t id = Some e) ∧ index_ok m.
Proof.
  intros Hm Hd Hdir Hread Ht He. destruct (scan_exact cfg rm d m Hm) as (I1 & I2 & I3).
  assert (Hvis : visible d t id = Some e) by (unfold visible; rewrite Hd; cbn; by rewrite Hdir, Hread).
  split; [|split; [|done]].
  - rewrite I2 by done. rewrite Hvis. naive_solver.
  - intros Hw. rewrite I3; [|naive_solver]. unfold tree_entry. by rewrite Hd.
Qed.

(** *** The index after start-up: no volume is held *)
Definition unlocked (v : Manager) : Prop := Forall (λ x, rwHolder x = "") (heap v).
Lemma foldl_keeps {A B} (P : A → Prop) (f : A → B → A) l a : (∀ a b, P a → P (f a b)) → P a → P (foldl f a l).
Proof. intros Hf. revert a. induction l as [|b l IH]; intros a Ha; [done|]. by apply IH, Hf. Qed.
Lemma scan_unlocked rm root_ok v : unlocked v → unlocked (scan rm root_ok v).
Proof.
  intros Hv. unfold scan. destruct root_ok; [|done]. cbn [negb].
  pose proof (foldl_keeps (λ acc : Manager * Z, unlocked acc.1) (scan_tenant rm) (map_to_list (disk v)) (v, 0)) as H.
  destruct (foldl (scan_tenant rm) (v, 0) (map_to_list (disk v))) as [v' t]. apply H; [|done]. clear.
  intros acc [tn td] Ha. unfold scan_tenant. do 2 (case_match; [done|]). apply foldl_keeps; [|done]. clear.
  intros [w n] [id e] Hw. cbn [fst] in Hw. rewrite scan_entry_wf. destruct (well_formed tn id e).
  - destruct (e_meta e) as [md|]; [|done]. unfold unlocked, add_volume, upd. cbn [fst heap]. by rewrite Forall_app, Forall_singleton.
  - by destruct rm.
Qed.
Lemma scan_index cfg mk rm root_ok d v : NewManager cfg mk rm root_ok d = Some v → index_ok v ∧ unlocked v.
Proof.
  intros Hv. pose proof Hv as (m0 & E & Hvols & Hheap & _)%NewManager_scan. split.
  - destruct root_ok; [|subst v; by apply empty_index_ok]. destruct mk; [by apply scan_exact in Hv as []|].
    unfold NewManager in Hv. by destruct (String.eqb _ _).
  - subst v. apply scan_unlocked. unfold unlocked. rewrite Hheap. by apply Forall_nil.
Qed.

(** a created volume is visible at once to [Get] and survives a
    restart: a manager started on the directory tree indexes it again. *)
Theorem create_durable m e t name i m' cfg rm m2 :
  index_ok m → idRe ("vol_" +:+ v_uuid e) = true →
  (∀ td, disk m !! t = Some td → t_isdir td = true ∧ t_readable td = true) →
  Create m e t name = (Ok i, m') → NewManager cfg true rm true (disk m') = Some m2 →
  i_ID i = "vol_" +:+ v_uuid e ∧ Get m' t (i_ID i) = Ok i ∧ is_Some (vols m2 !! key t (i_ID i)).
Proof.
  intros Hok Hid Hdirs Hc Hnew.
  destruct (Create_cases m e t name)
    as [(err & d & E)|(i' & d & v & E & Ht & Hv & Hh & Htr & Hi & _ & _ & _ & _ & He & Htd)]; [congruence|].
  rewrite E in Hc. injection Hc as -> <-. rewrite Hi. cbn [i_ID]. split; [done|].
  set (m1 := add_volume (set_disk m d) v) in *.
  assert (Hkey : vols m1 !! key t (ID v) = Some (List.length (heap m))).
  { unfold m1, add_volume, set_disk, upd. cbn [vols heap]. rewrite Ht. apply lookup_insert_eq. }
  assert (Hvol : the_volume m1 (List.length (heap m)) = v).
  { unfold the_volume, m1, add_volume, set_disk, upd. cbn [heap]. by rewrite list_lookup_middle. }
  assert (Hdisk : disk m1 = d) by done. split.
  - unfold Get, lookup. rewrite Htr. rewrite <- Hv in Hid. rewrite Hid. cbn [negb]. rewrite Hkey, Hvol.
    unfold infoOf, data_size. rewrite Hdisk, Ht, He, Hh. done.
  - destruct (d !! t) as [td|] eqn:Hd; [|by unfold tree_entry in He; rewrite Hd in He].
    destruct (Htd td eq_refl Hdirs) as [H1 H2].
    assert (Hte : t_entries td !! ID v = tree_entry d t (ID v)) by (unfold tree_entry; by rewrite Hd).
    rewrite He in Hte. destruct (scan_rebuilds cfg rm d m2 t td (ID v) _ Hnew Hd H1 H2 Htr Hte) as (Hs & _).
    apply Hs. unfold well_formed. cbn. by rewrite Hv, Hid, !String.eqb_refl.
Qed.

(** a read-write attach is granted only below the volume's quota and,
    unless the session holds the volume already, with disk space left. *)
Theorem attach_gates m e t id sid hp m' :
  Attach m e t id sid true = (Ok (hp, true), m') →
  data_size (disk m) t id ≤ DiskQuota m ∧
  (0 < MinFreeBytes m → DiskFull m (v_statfs e) = true →
   ∃ p, lookup m t id = Ok p ∧ rwHolder (the_volume m p) = sid).
Proof.
  unfold Attach, attach_read. destruct (lookup m t id) as [p|] eqn:Hl; [|done].
  destruct (HostPath m e t id); [|done]. unfold OverQuota. rewrite Hl. cbn [negb fst].
  destruct (DiskQuota m <? _) eqn:Hq; [done|]. destruct (_ && _) eqn:Hfull; [done|]. boolp.
  intros _. split; [done|]. intros Hmin Hdf. exists p. split; [done|].
  rewrite Hdf, (proj2 (Z.ltb_lt _ _) Hmin), andb_true_r in Hfull. cbn [andb] in Hfull.
  apply negb_false_iff, String.eqb_eq in Hfull. done.
Qed.

(** ** A concrete run *)
Definition env0 : venv := {|
  v_now := 1000; v_statfs := None; v_uuid := "01234567-89ab-cdef-0123-456789abcdef";
  v_mkdir := true; v_made := MadeNone; v_chmod := true; v_writemeta := true; v_rm := true; v_remains := (true, Some 0); v_eval := Some |}.
Definition cfg0 : Config :=
  {| c_Root := "/vol"; c_DiskQuota := 0; c_GlobalDiskMax := 0; c_MaxVolPerTenant := 0; c_MinFreeBytes := 0 |}.
Definition id0 : string := "vol_01234567-89ab-cdef-0123-456789abcdef".
Definition start0 : Manager :=
  default (upd {| Root := ""; DiskQuota := 0; GlobalDiskMax := 0; MaxVolPerTenant := 0;
                  MinFreeBytes := 0; vols := ∅; used := 0; heap := []; disk := ∅ |} ∅ 0 [] ∅)
    (NewManager cfg0 true true true ∅).
Definition created0 : Manager := (Create start0 env0 "public" "notes").2.

Lemma created0_ok : index_ok created0.
Proof.
  destruct (NewManager_empty cfg0 true start0 ltac:(reflexivity)) as [Hok _].
  apply (index_ok_exec start0 (SCreate env0 "public" "notes") Hok). reflexivity.
Qed.

(** the check of [Delete] and the grant of [Attach] are separate
    critical sections, and [Attach] looks the volume up before its own: when a
    delete runs in between, the attach is granted read-write although the
    volume is neither indexed nor on disk any more. *)
Theorem attach_delete_race :
  ∃ plan m1, attach_read created0 env0 "public" id0 "s1" true = Ok plan ∧
    Delete created0 env0 "public" id0 = (Ok tt, m1) ∧
    (attach_lock m1 plan "s1").1 = Ok ("/vol/public/" +:+ id0 +:+ "/data", true) ∧
    lookup m1 "public" id0 = Err ErrVolNotFound ∧ tree_entry (disk m1) "public" id0 = None.
Proof. do 2 eexists. repeat split; vm_compute; reflexivity. Qed.

Lemma attach_single_writer_witness :
  let m' := (attach_lock created0 (RW 0 "/hp") "s1").2 in
  attach_lock (run m' [SReleaseAll "s3"]) (RW 0 "/hp") "s2" =
    (Err ErrVolumeLocked, run m' [SReleaseAll "s3"]).
Proof.
  cbv zeta.
  destruct (attach_single_writer created0 0 "/hp" "s1" "/hp" (attach_lock created0 (RW 0 "/hp") "s1").2
    [SReleaseAll "s3"] "s2" "/hp" "public" id0) as (H & _); [reflexivity|vm_compute; lia|done|done| |exact H].
  constructor; [|constructor]. cbn. done.
Defined.

Lemma release_frees_witness :
  (attach_lock (ReleaseAll (attach_lock created0 (RW 0 "/hp") "s1").2 "s1") (RW 0 "/hp") "s2").1 = Ok ("/hp", true).
Proof.
  destruct (release_frees (attach_lock created0 (RW 0 "/hp") "s1").2 "public" id0 0
    {| ID := id0; Tenant := "public"; Name := "notes"; CreatedAt := 1000; rwHolder := "s1" |}
    "s1" "s2" "/hp") as [_ H]; [vm_compute; reflexivity..|exact H].
Defined.

Lemma volume_isolation_witness :
  (Attach created0 env0 "public" id0 "s1" true).1 = Ok ("/vol/public/" +:+ id0 +:+ "/data", true) ∧
  ∃ p v, vols created0 !! key "public" id0 = Some p ∧ heap created0 !! p = Some v ∧ Tenant v = "public".
Proof.
  split; [vm_compute; reflexivity|].
  destruct (volume_isolation created0 [] env0 "public" id0 "s1" true
    ("/vol/public/" +:+ id0 +:+ "/data") true (Attach created0 env0 "public" id0 "s1" true).2 created0_ok)
    as (p & v & root & H1 & H2 & H3 & _); [constructor|vm_compute; reflexivity|].
  exists p, v. done.
Defined.

Lemma volume_limits_witness :
  Z.of_nat (List.length (of_tenant "public" (indexed (run start0 [SCreate env0 "public" "notes"])))) ≤ 100.
Proof.
  apply (volume_limits cfg0 true start0 [SCreate env0 "public" "notes"] "public"); [reflexivity|].
  constructor; [reflexivity|constructor].
Defined.

Lemma walk_spares_volumes_witness :
  tree_entry (disk (orphan_walk env0 true ∅ (disk created0) created0)) "public" id0 =
  tree_entry (disk created0) "public" id0.
Proof.
  apply (walk_spares_volumes created0 env0 true ∅ (disk created0) "public" id0).
  intros ent Hent. vm_compute in Hent. injection Hent as <-.
  split; [reflexivity|split; [reflexivity|left; reflexivity]].
Defined.

Lemma sweep_keeps_healthy_witness : is_Some (vols (Sweep created0 env0 true) !! key "public" id0).
Proof.
  exists 0%nat. eapply (sweep_keeps_healthy created0 env0 true "public" id0 0); [apply created0_ok|..];
    try (vm_compute; reflexivity). eexists. vm_compute. reflexivity.
Defined.

Lemma scan_rebuilds_witness :
  is_Some (vols (default start0 (NewManager cfg0 true true true (disk created0))) !! key "public" id0).
Proof.
  destruct (scan_rebuilds cfg0 true (disk created0)
    (default start0 (NewManager cfg0 true true true (disk created0))) "public"
    (default {| t_isdir := true; t_readable := true; t_entries := ∅ |} (disk created0 !! "public")) id0
    {| e_isdir := true; e_mtime := Some 1000; e_data := Some 0;
       e_meta := Some {| m_ID := id0; m_Tenant := "public"; m_Name := "notes"; m_CreatedAt := 1000 |} |})
    as (H & _); [reflexivity..|]. apply H. reflexivity.
Defined.

Lemma create_durable_witness :
  is_Some (vols (default start0 (NewManager cfg0 true true true (disk created0))) !! key "public" id0).
Proof.
  destruct (create_durable start0 env0 "public" "notes"
    {| i_ID := id0; i_Name := "notes"; i_CreatedAt := 1000; i_DiskBytes := 0; i_AttachedRW := false |}
    created0 cfg0 true (default start0 (NewManager cfg0 true true true (disk created0)))) as (_ & _ & H).
  - apply (NewManager_empty cfg0 true start0). reflexivity.
  - reflexivity.
  - intros td Htd. vm_compute in Htd. discriminate Htd.
  - reflexivity.
  - reflexivity.
  - exact H.
Defined.

Lemma attach_gates_witness : data_size (disk created0) "public" id0 ≤ DiskQuota created0.
Proof.
  apply (attach_gates created0 env0 "public" id0 "s1" ("/vol/public/" +:+ id0 +:+ "/data")
    (Attach created0 env0 "public" id0 "s1" true).2). vm_compute. reflexivity.
Defined.
