(* ===== verification/VolumeFiles.v ===== *)
(** * internal/memory/volume.go: the files of a volume, and what a crash leaves

    [Volume] keeps of a volume directory what the manager reads of it.  Here is the directory
    itself: [meta.json], the temporary file [writeVolMeta] renames, the tree below [data/], and the
    system calls of [Create] and [os.RemoveAll] as traces, so that a crash is a prefix of a trace
    and the next start is [NewManager] on what the prefix left.  The text of the metadata is that
    of a [MetaCodec]: the JSON of VolumeMeta.v in the examples. *)

From S2P Require Import Prelude GoLib GoStrings GoJSON Volume VolumeMeta VolumeSpec.
Import Strings.

(** ** The tree below [data/] *)

(** A leaf is a file, a symbolic link (its size is that of its target's name) or
    a device; [None] when it vanished before [Info]. *)
Inductive node := Leaf (size : option Z) | Dir (entries : list (string * node)).
(** [filepath.WalkDir] with the callback of [dirSize]: the sum in [int64]. *)
Fixpoint walk (total : Z) (n : node) : Z :=
  match n with
  | Leaf (Some s) => wrap64 (total + s)
  | Leaf None => total
  | Dir es => foldl (λ total e, walk total e.2) total es
  end.
Definition dirSize (root : option node) : Z := match root with Some n => walk 0 n | None => 0 end.

(** ** A volume directory *)
Record vdir := { d_meta : option string; d_tmp : option string; d_data : option node }.
Definition readVolMeta `{MetaCodec} (d : vdir) : option meta := d_meta d ≫= decodeMeta.
(** What [Volume] sees of it. *)
Definition entry_of `{MetaCodec} (mtime : option Z) (d : vdir) : ventry :=
  {| e_isdir := true; e_meta := readVolMeta d; e_mtime := mtime;
     e_data := match d_data d with Some n => Some (dirSize (Some n)) | None => None end |}.

(** *** System calls *)

(** [WriteTmp b] leaves [b] in [.meta.json.tmp]; [RmData rest] removes entries below
    [data/], or all of it; [Rmdir] succeeds on an empty directory only. *)
Inductive fsop :=
| Mkdir | MkdirData | Chmod | WriteTmp (b : string) | Rename
| RmMeta | RmTmp | RmData (rest : option node) | Rmdir.
Definition apply_op (d : option vdir) (o : fsop) : option vdir :=
  match o, d with
  | Mkdir, None => Some {| d_meta := None; d_tmp := None; d_data := None |}
  | MkdirData, Some d =>
      Some {| d_meta := d_meta d; d_tmp := d_tmp d; d_data := Some (default (Dir []) (d_data d)) |}
  | WriteTmp b, Some d => Some {| d_meta := d_meta d; d_tmp := Some b; d_data := d_data d |}
  | Rename, Some d =>
      Some match d_tmp d with
           | Some b => {| d_meta := Some b; d_tmp := None; d_data := d_data d |}
           | None => d
           end
  | RmMeta, Some d => Some {| d_meta := None; d_tmp := d_tmp d; d_data := d_data d |}
  | RmTmp, Some d => Some {| d_meta := d_meta d; d_tmp := None; d_data := d_data d |}
  | RmData rest, Some d => Some {| d_meta := d_meta d; d_tmp := d_tmp d; d_data := rest |}
  | Rmdir, Some d => match d_meta d, d_tmp d, d_data d with None, None, None => None | _, _, _ => Some d end
  | _, d => d
  end.
Definition apply_ops (d : option vdir) (l : list fsop) : option vdir := foldl apply_op d l.

(** *** [writeVolMeta] and [Create] *)

(** [os.WriteFile] truncates, then writes; [cuts]: what partial writes leave. *)
Definition os_WriteFile (b : string) (cuts : list nat) : list fsop :=
  WriteTmp "" :: map (λ n, WriteTmp (str_take n b)) cuts ++ [WriteTmp b].
(** [w_write]: [Some n] when the write fails after [n] of its calls. *)
Record wenv := { w_cuts : list nat; w_write : option nat; w_rename : bool }.
(** The system calls made, and whether there was no error. *)
Definition writeVolMeta `{MetaCodec} (w : wenv) (md : meta) : bool * list fsop :=
  match encodeMeta md with
  | None => (false, [])
  | Some b =>
      match w_write w with
      | Some n => (false, take n (os_WriteFile b (w_cuts w)))
      | None => if w_rename w then (true, os_WriteFile b (w_cuts w) ++ [Rename]) else (false, os_WriteFile b (w_cuts w))
      end
  end.
(** The calls of [Create] on its directory, up to the first error. *)
Definition create_files `{MetaCodec} (chmod : bool) (w : wenv) (md : meta) : bool * list fsop :=
  if negb chmod then (false, [Mkdir; MkdirData])
  else let '(ok, l) := writeVolMeta w md in (ok, [Mkdir; MkdirData; Chmod] ++ l).

(** *** [os.RemoveAll] *)
Definition removal (o : fsop) : bool :=
  match o with RmMeta | RmTmp | RmData _ | Rmdir => true | _ => false end.

(** The tree in which a volume directory is [o]. *)
Definition tree_set (d : tree) (tenant id : string) (o : option ventry) : tree :=
  match o with Some e => tree_put d tenant id e | None => tree_rm d tenant id end.

(** ** What a start shows *)

(** [Get] right after [NewManager], read off the tree. *)
Definition restored (d : tree) (tenant id : string) : result VolErr Info :=
  if negb (tenantRe tenant) then Err ErrBadTenant
  else if negb (idRe id) then Err ErrBadID
  else match visible d tenant id with
       | Some e =>
           match e_meta e with
           | Some md =>
               if well_formed tenant id e
               then Ok {| i_ID := m_ID md; i_Name := m_Name md; i_CreatedAt := m_CreatedAt md;
                          i_DiskBytes := default 0 (e_data e); i_AttachedRW := false |}
               else Err ErrVolNotFound
           | None => Err ErrVolNotFound
           end
       | None => Err ErrVolNotFound
       end.

(** An indexed volume is what its metadata says. *)
Definition volume_of (md : meta) : Volume :=
  {| ID := m_ID md; Tenant := m_Tenant md; Name := m_Name md; CreatedAt := m_CreatedAt md; rwHolder := "" |}.
Definition indexed_from (P : string → string → ventry → Prop) (m : Manager) : Prop :=
  ∀ k p, vols m !! k = Some p → ∃ t id e md,
    P t id e ∧ well_formed t id e = true ∧ e_meta e = Some md ∧ k = key t id ∧ heap m !! p = Some (volume_of md).
Lemma well_formed_meta t id e md : well_formed t id e = true → e_meta e = Some md →
  idRe id = true ∧ m_ID md = id ∧ m_Tenant md = t.
Proof. unfold well_formed. intros H Hm. rewrite Hm in H. by boolp. Qed.
Lemma scan_from P rm l acc :
  (∀ t id e, (t, (id, e)) ∈ l → P t id e) → indexed_from P acc.1 → indexed_from P (foldl (scan_one rm) acc l).1.
Proof.
  revert acc. induction l as [|[t [id e]] l IH]; intros [m total] HP Hm; [done|]. cbn [foldl].
  apply IH; [intros; apply HP; by right|]. unfold scan_one. cbn [fst snd]. rewrite scan_entry_wf.
  destruct (well_formed t id e) eqn:Hw; [|by destruct rm].
  destruct (e_meta e) as [md|] eqn:Hmd; [|done]. cbn [fst].
  destruct (well_formed_meta _ _ _ _ Hw Hmd) as (_ & <- & <-).
  intros k p. cbn. intros [[<- <-]|[_ Hk]]%lookup_insert_Some.
  - exists (m_Tenant md), (m_ID md), e, md. rewrite list_lookup_middle by done. split; [|done]. apply HP. by left.
  - destruct (Hm k p Hk) as (t' & id' & e' & md' & ? & ? & ? & ? & Hh). exists t', id', e', md'.
    do 4 (split; [done|]). by apply lookup_app_l_Some.
Qed.
(** What the scan collects stays away. *)
Lemma tree_rm_eq d t id : tree_entry (tree_rm d t id) t id = None.
Proof.
  unfold tree_rm, tree_entry. destruct (d !! t) as [td|] eqn:Hd; [|by rewrite Hd].
  rewrite lookup_insert_eq. cbn. apply lookup_delete_eq.
Qed.
Lemma tree_rm_none d t id t' id' : tree_entry d t id = None → tree_entry (tree_rm d t' id') t id = None.
Proof.
  intros H. destruct (decide ((t, id) = (t', id'))) as [[= <- <-]|Hne]; [apply tree_rm_eq|by rewrite tree_rm_ne].
Qed.
Lemma scan_gone rm l acc t id :
  tree_entry (disk acc.1) t id = None → tree_entry (disk (foldl (scan_one rm) acc l).1) t id = None.
Proof.
  apply (foldl_keeps (λ acc, tree_entry (disk acc.1) t id = None)). clear. intros [m total] [t' [id' e]] H.
  unfold scan_one. cbn [fst snd]. rewrite scan_entry_wf. destruct (well_formed t' id' e); [by destruct (e_meta e)|].
  destruct rm; [|done]. by apply tree_rm_none.
Qed.
Lemma scan_collects l acc t id e :
  (t, (id, e)) ∈ l → well_formed t id e = false → tree_entry (disk (foldl (scan_one true) acc l).1) t id = None.
Proof.
  revert acc. induction l as [|x l IH]; intros acc Hin Hw; [by apply elem_of_nil in Hin|]. cbn [foldl].
  apply elem_of_cons in Hin as [<-|Hin]; [|by apply IH]. apply scan_gone. unfold scan_one. cbn [fst snd].
  destruct acc as [m total]. rewrite scan_entry_wf, Hw. cbn. apply tree_rm_eq.
Qed.

(** Every indexed volume is what the metadata of a directory says. *)
Lemma NewManager_index cfg rm d m : NewManager cfg true rm true d = Some m →
  indexed_from (λ t id e, tenantRe t = true ∧ visible d t id = Some e) m.
Proof.
  intros (m0 & -> & Hv & _ & Hd)%NewManager_scan. unfold scan. cbn [negb]. rewrite scan_flat.
  pose proof (scan_from (λ t id e, tenantRe t = true ∧ visible d t id = Some e) rm
    (map_to_list (disk m0) ≫= flat_tenant) (m0, 0)) as H.
  destruct (foldl _ _ _) as [m1 total]. apply H.
  - rewrite Hd. intros t' id' e. apply scan_members.
  - intros k p. cbn. by rewrite Hv, lookup_empty.
Qed.
Lemma restart_exact cfg rm d m t id : NewManager cfg true rm true d = Some m → Get m t id = restored d t id.
Proof.
  intros Hm. destruct (scan_exact cfg rm d m Hm) as (_ & Hin & Hdisk). pose proof (NewManager_index _ _ _ _ Hm) as Hfrom.
  unfold Get, lookup, restored. destruct (tenantRe t) eqn:Ht; [|done]. destruct (idRe id) eqn:Hid; [|done]. cbn [negb].
  destruct (vols m !! key t id) as [p|] eqn:Hk.
  - destruct (Hfrom _ _ Hk) as (t' & id' & e & md & [Ht' He] & Hw & Hmd & Hkey & Hp).
    apply key_inj in Hkey as [<- <-]; [|done..]. rewrite He, Hmd, Hw. cbn.
    destruct (well_formed_meta _ _ _ _ Hw Hmd) as (_ & Hi & Htn).
    unfold the_volume. rewrite Hp. cbn. unfold infoOf, data_size. cbn. rewrite Hi, Htn.
    rewrite Hdisk by naive_solver. f_equal. f_equal. unfold visible in He. unfold tree_entry.
    destruct (d !! t) as [td|]; [|done]. cbn in *. destruct (_ && _); [|done]. by rewrite He.
  - destruct (visible d t id) as [e|] eqn:He; [|done]. destruct (e_meta e) as [md|]; [|done].
    destruct (well_formed t id e) eqn:Hw; [|done]. destruct (Hin t id Ht) as [_ [? ?]]; [eauto|]. congruence.
Qed.
Lemma restart_collects cfg d m t id e : NewManager cfg true true true d = Some m → tenantRe t = true →
  visible d t id = Some e → well_formed t id e = false → tree_entry (disk m) t id = None.
Proof.
  intros (m0 & -> & Hv & _ & <-)%NewManager_scan Ht He Hw. unfold scan. cbn [negb]. rewrite scan_flat.
  pose proof (scan_collects (map_to_list (disk m0) ≫= flat_tenant) (m0, 0) t id e) as H.
  destruct (foldl _ _ _) as [m1 total]. apply H; [|done]. by apply scan_members.
Qed.
Lemma restart_keeps cfg rm d m t id : NewManager cfg true rm true d = Some m →
  (∀ e, visible d t id = Some e → well_formed t id e = true) → tree_entry (disk m) t id = tree_entry d t id.
Proof. intros Hm. by apply (scan_exact cfg rm d m Hm). Qed.

(** *** Trees that differ in one directory *)
Definition dirs_ok (d : tree) (tenant : string) : Prop :=
  ∀ td, d !! tenant = Some td → t_isdir td = true ∧ t_readable td = true.
Lemma visible_set d t id o : dirs_ok d t → visible (tree_set d t id o) t id = o.
Proof.
  intros Hd. unfold visible, tree_set, tree_put, tree_rm. destruct (d !! t) as [td|] eqn:E.
  - destruct (Hd td E) as [H1 H2]. destruct o; rewrite lookup_insert_eq; cbn; rewrite H1, H2; cbn;
      [apply lookup_insert_eq|apply lookup_delete_eq].
  - destruct o; [|by rewrite E]. rewrite lookup_insert_eq. cbn. apply lookup_insert_eq.
Qed.
Lemma visible_set_ne d t id o t' id' : dirs_ok d t → (t', id') ≠ (t, id) →
  visible (tree_set d t id o) t' id' = visible d t' id'.
Proof.
  intros Hd Hne. unfold visible, tree_set, tree_put, tree_rm. destruct (decide (t' = t)) as [->|Ht].
  - assert (id' ≠ id) by congruence. destruct (d !! t) as [td|] eqn:E.
    + destruct (Hd td E) as [H1 H2]. destruct o; rewrite lookup_insert_eq; cbn; rewrite H1, H2; cbn;
        [by rewrite lookup_insert_ne|by rewrite lookup_delete_ne].
    + destruct o; [|by rewrite E]. rewrite lookup_insert_eq. cbn. by rewrite lookup_insert_ne.
  - destruct o; [by rewrite lookup_insert_ne|]. destruct (d !! t); [by rewrite lookup_insert_ne|done].
Qed.
Lemma restored_visible d d' t id : visible d t id = visible d' t id → restored d t id = restored d' t id.
Proof. unfold restored. by intros ->. Qed.
Lemma restored_none d t id : tenantRe t = true → idRe id = true → visible d t id = None →
  restored d t id = Err ErrVolNotFound.
Proof. unfold restored. by intros -> -> ->. Qed.
Lemma restored_bad d t id e : tenantRe t = true → idRe id = true → visible d t id = Some e →
  well_formed t id e = false → restored d t id = Err ErrVolNotFound.
Proof. unfold restored. intros -> -> -> ->. cbn. by destruct (e_meta e). Qed.

(** After a start from a tree in which a directory is [o], it is shown when [o] is well-formed,
    and otherwise collected. *)
Lemma restart_set cfg d t id o m : dirs_ok d t → tenantRe t = true → idRe id = true →
  NewManager cfg true true true (tree_set d t id o) = Some m →
  (∀ e, o = Some e → well_formed t id e = false) →
  Get m t id = Err ErrVolNotFound ∧ tree_entry (disk m) t id = None.
Proof.
  intros Hd Ht Hid Hm Ho. rewrite (restart_exact _ _ _ _ _ _ Hm).
  pose proof (visible_set d t id o Hd) as Hv. destruct o as [e|].
  - specialize (Ho e eq_refl). split; [by apply (restored_bad _ _ _ e)|by apply (restart_collects _ _ _ _ _ e Hm)].
  - split; [by apply restored_none|]. rewrite (restart_keeps _ _ _ _ _ _ Hm) by naive_solver. apply tree_rm_eq.
Qed.

(** A directory with valid metadata is shown after a start, and kept. *)
Lemma restart_named `{MetaCodec} cfg rm d t id mt n md m : dirs_ok d t → tenantRe t = true → idRe id = true →
  readVolMeta n = Some md → m_ID md = id → m_Tenant md = t →
  NewManager cfg true rm true (tree_set d t id (Some (entry_of mt n))) = Some m →
  well_formed t id (entry_of mt n) = true ∧
  Get m t id = Ok {| i_ID := id; i_Name := m_Name md; i_CreatedAt := m_CreatedAt md;
                     i_DiskBytes := dirSize (d_data n); i_AttachedRW := false |} ∧
  tree_entry (disk m) t id = Some (entry_of mt n).
Proof.
  intros Hd Ht Hid Hmd Hi Htn Hm. pose proof (visible_set d t id (Some (entry_of mt n)) Hd) as Hv.
  assert (Hw : well_formed t id (entry_of mt n) = true).
  { unfold well_formed, entry_of. cbn. by rewrite Hmd, Hid, Hi, Htn, !String.eqb_refl. }
  split; [done|split].
  - rewrite (restart_exact _ _ _ _ _ _ Hm). unfold restored. rewrite Ht, Hid, Hv, Hw. cbn. rewrite Hmd, Hi.
    by destruct (d_data n).
  - rewrite (restart_keeps _ _ _ _ _ _ Hm) by naive_solver. unfold tree_set, tree_put, tree_entry.
    rewrite lookup_insert_eq. cbn. by rewrite lookup_insert_eq.
Qed.

(** ** Traces *)

(** No metadata under its own name. *)
Definition unnamed (d : option vdir) : Prop := ∀ n, d = Some n → d_meta n = None.
Lemma unnamed_entry `{MetaCodec} mt d t id e : unnamed d → entry_of mt <$> d = Some e → well_formed t id e = false.
Proof.
  intros Hd He. destruct d as [n|]; [|done]. cbn in He. injection He as <-. unfold well_formed, entry_of, readVolMeta.
  cbn [e_meta]. rewrite (Hd n eq_refl). apply andb_false_r.
Qed.
Lemma apply_unnamed o d : o ≠ Rename → unnamed d → unnamed (apply_op d o).
Proof.
  intros Ho Hd n. destruct d as [x|]; [pose proof (Hd x eq_refl) as Hx|]; destruct o; cbn; try done; try (by intros [= <-]).
  rewrite Hx. by destruct (d_tmp x), (d_data x); intros [= <-].
Qed.
Lemma trace_unnamed l d : Forall (λ o, o ≠ Rename) l → unnamed d → unnamed (apply_ops d l).
Proof. intros Hl. revert d. induction Hl; intros d Hd; [done|]. by apply IHHl, apply_unnamed. Qed.

Lemma os_WriteFile_quiet b cuts : Forall (λ o, o ≠ Rename) (os_WriteFile b cuts).
Proof.
  constructor; [done|]. apply Forall_app. split; [|by repeat constructor]. by apply Forall_fmap, Forall_true.
Qed.
Lemma apply_writes l d : ∃ b, apply_ops (Some d) (map WriteTmp l) =
  Some {| d_meta := d_meta d; d_tmp := b; d_data := d_data d |}.
Proof.
  revert d. induction l as [|b l IH]; intros d; [exists (d_tmp d); by destruct d|]. cbn. apply (IH {| d_meta := d_meta d |}).
Qed.
Lemma apply_ops_app d l l' : apply_ops d (l ++ l') = apply_ops (apply_ops d l) l'.
Proof. apply foldl_app. Qed.
Lemma os_WriteFile_done b cuts d : apply_ops (Some d) (os_WriteFile b cuts) =
  Some {| d_meta := d_meta d; d_tmp := Some b; d_data := d_data d |}.
Proof.
  unfold os_WriteFile. rewrite app_comm_cons, apply_ops_app.
  destruct (apply_writes ("" :: map (λ n, str_take n b) cuts) d) as [x E]. cbn [map] in E. rewrite map_map in E. by rewrite E.
Qed.
Lemma writeVolMeta_ok `{MetaCodec} w md l : writeVolMeta w md = (true, l) →
  ∃ b, encodeMeta md = Some b ∧ l = os_WriteFile b (w_cuts w) ++ [Rename].
Proof.
  unfold writeVolMeta. destruct (encodeMeta md) as [b|]; [|done]. destruct (w_write w); [done|].
  destruct (w_rename w); [|done]. intros [= <-]. eauto.
Qed.
(** The calls up to the rename, and what they leave. *)
Lemma create_files_ok `{MetaCodec} w md l : create_files true w md = (true, l) →
  ∃ b q, encodeMeta md = Some b ∧ l = q ++ [Rename] ∧ Forall (λ o, o ≠ Rename) q ∧
    apply_ops None l = Some {| d_meta := Some b; d_tmp := None; d_data := Some (Dir []) |}.
Proof.
  unfold create_files. cbn [negb]. destruct (writeVolMeta w md) as [ok l'] eqn:E. intros [= -> <-].
  apply writeVolMeta_ok in E as (b & Hb & ->). exists b, ([Mkdir; MkdirData; Chmod] ++ os_WriteFile b (w_cuts w)).
  split; [done|]. split; [done|]. split.
  - apply Forall_app. split; [by repeat constructor|apply os_WriteFile_quiet].
  - change (apply_ops None ([Mkdir; MkdirData; Chmod] ++ os_WriteFile b (w_cuts w) ++ [Rename]) =
      Some {| d_meta := Some b; d_tmp := None; d_data := Some (Dir []) |}).
    rewrite !apply_ops_app. cbn [apply_ops foldl apply_op default]. by rewrite os_WriteFile_done.
Qed.

(** *** Removal *)
Lemma removal_quiet l : Forall (λ o, removal o = true) l → Forall (λ o, o ≠ Rename) l.
Proof. intros Hl. eapply Forall_impl; [exact Hl|]. by intros []. Qed.
Lemma removal_drops l d : Forall (λ o, removal o = true) l → RmMeta ∈ l → unnamed (apply_ops d l).
Proof.
  intros Hl Hin. revert d. induction Hl as [|o l Ho Hl IH]; intros d; [by apply elem_of_nil in Hin|].
  apply elem_of_cons in Hin as [<-|Hin]; [|by apply IH]. apply (trace_unnamed l); [by apply removal_quiet|].
  intros n. destruct d; [|done]. cbn. by intros [= <-].
Qed.
Lemma removal_keeps l d b : Forall (λ o, removal o = true) l → RmMeta ∉ l → d_meta d = Some b →
  ∃ n, apply_ops (Some d) l = Some n ∧ d_meta n = Some b.
Proof.
  intros Hl. revert d. induction Hl as [|o l Ho Hl IH]; intros d Hin Hb; [by exists d|].
  apply not_elem_of_cons in Hin as [Hne Hin].
  assert (H1 : ∃ n, apply_op (Some d) o = Some n ∧ d_meta n = Some b).
  { destruct o; try done; cbn; [by eexists|by eexists|]. rewrite Hb. by eexists. }
  destruct H1 as (n & E & Hn). unfold apply_ops. cbn [foldl]. rewrite E. by apply IH.
Qed.

(** ** Names are text *)
Lemma split_on_forall p a s : p a = true → Forall (λ x, str_forall p x = true) (split_on a s) → str_forall p s = true.
Proof.
  intros Ha. induction s as [|c s IH]; [done|]. cbn. pose proof (split_on_ne a s).
  destruct (split_on a s) as [|h l]; [done|]. destruct (Ascii.eqb a c) eqn:E.
  - apply Ascii.eqb_eq in E as <-. intros [_ Hl]%Forall_cons. by rewrite Ha, IH.
  - intros [Hh Hl]%Forall_cons. cbn in Hh. apply andb_true_iff in Hh as [-> Hh]. apply IH. by constructor.
Qed.
Lemma ascii_class p c : (∀ c, negb (p c) || is_ascii c = true) → p c = true → is_ascii c = true.
Proof. intros H Hc. specialize (H c). by rewrite Hc in H. Qed.
Lemma lower_hex_ascii c : is_hex_lower c = true → is_ascii c = true.
Proof. apply ascii_class, all_ascii. vm_compute. reflexivity. Qed.
Lemma name_char_ascii c : name_char c = true → is_ascii c = true.
Proof. apply ascii_class, all_ascii. vm_compute. reflexivity. Qed.
Lemma idRe_text id : idRe id = true → valid_utf8 id = true.
Proof.
  unfold idRe. intros [Hp Hr]%andb_true_iff. apply HasPrefix_spec in Hp as [r ->]. rewrite TrimPrefix_app in Hr.
  apply ascii_valid. rewrite str_forall_app. apply andb_true_iff. split; [done|].
  apply (split_on_forall _ "-"); [done|].
  destruct (split_on "-" r) as [|a [|b [|c [|d [|e [|]]]]]]; try done. unfold hex_run in Hr. boolp.
  repeat constructor; (eapply str_forall_impl; [apply lower_hex_ascii|done]).
Qed.
Lemma tenantRe_text t : tenantRe t = true → valid_utf8 t = true.
Proof.
  unfold tenantRe. destruct (String.eqb_spec t "public") as [->|]; [done|]. cbn. intros H. boolp.
  apply ascii_valid. eapply str_forall_impl; [apply lower_hex_ascii|done].
Qed.
Lemma nameRe_text n : nameRe n = true → valid_utf8 n = true.
Proof.
  unfold nameRe. destruct n as [|c n]; [done|]. intros H. boolp. apply ascii_valid. cbn [str_forall].
  apply andb_true_iff. split; [apply name_char_ascii; unfold name_char|eapply str_forall_impl; [apply name_char_ascii|done]].
  match goal with H : name_first c = true |- _ => by rewrite H end.
Qed.

(** ** Crashes *)
Section crashes.
Context `{MCS : MetaCodecSpec}.
Implicit Types (m : Manager) (mt : option Z).

(** The metadata a successful creation writes. *)
Definition meta_for (tenant : string) (i : Info) : meta :=
  {| m_ID := i_ID i; m_Tenant := tenant; m_Name := i_Name i; m_CreatedAt := i_CreatedAt i |}.

Lemma Create_text m e t name i m' : Create m e t name = (Ok i, m') → idRe (i_ID i) = true →
  tenantRe t = true ∧ meta_text (meta_for t i) = true ∧ i_DiskBytes i = 0 ∧ i_AttachedRW i = false ∧
  i_ID i = "vol_" +:+ v_uuid e ∧
  tree_entry (disk m') t (i_ID i) =
    Some {| e_isdir := true; e_meta := Some (meta_for t i); e_mtime := Some (v_now e); e_data := Some 0 |}.
Proof.
  intros Hc Hid. destruct (Create_cases m e t name) as [(err & d & E)|(i' & d & v & E & Hv & Hi & _ & Ht & Hii & Hn & _ & _ & _ & He & _)];
    [congruence|]. rewrite E in Hc. injection Hc as -> <-. rewrite Hii in Hid |- *. unfold meta_text, meta_for. cbn in *.
  by rewrite idRe_text, tenantRe_text, nameRe_text, He.
Qed.

(** C8: a crash during a creation: whatever prefix of its system calls was made, the next start shows the
    volume as the caller would have got it, or does not show it and has removed its directory,
    according to whether the rename was made; every other volume is as a start without the crash
    shows it.  The whole trace leaves what the creation leaves in the tree. *)
Theorem create_crash_atomic cfg m e t name i m' w ops k mt m0 m2 :
  Create m e t name = (Ok i, m') → idRe (i_ID i) = true → dirs_ok (disk m) t →
  create_files (v_chmod e) w (meta_for t i) = (v_writemeta e, ops) →
  NewManager cfg true true true (disk m) = Some m0 →
  NewManager cfg true true true
    (tree_set (disk m) t (i_ID i) (entry_of mt <$> apply_ops None (take k ops))) = Some m2 →
  tree_entry (disk m') t (i_ID i) = entry_of (Some (v_now e)) <$> apply_ops None ops ∧
  (if (List.length ops <=? k)%nat then Get m2 t (i_ID i) = Ok i
   else Get m2 t (i_ID i) = Err ErrVolNotFound ∧ tree_entry (disk m2) t (i_ID i) = None) ∧
  ∀ t' id', (t', id') ≠ (t, i_ID i) → Get m2 t' id' = Get m0 t' id'.
Proof.
  intros Hc Hid Hd Hops H0 H2. destruct (Create_text _ _ _ _ _ _ Hc Hid) as (Ht & Htext & Hz & Hrw & _ & He).
  assert (v_chmod e = true ∧ v_writemeta e = true) as [Hch Hwr].
  { unfold Create in Hc. repeat (case_match; [by simplify_eq|]). by destruct (v_chmod e), (v_writemeta e). }
  rewrite Hch, Hwr in Hops. destruct (create_files_ok _ _ _ Hops) as (b & q & Hb & -> & Hq & Hall).
  split; [|split].
  - rewrite He, Hall. cbn. unfold entry_of, readVolMeta. cbn. by rewrite (decode_encode_meta _ b Htext Hb).
  - rewrite length_app. cbn [List.length]. destruct (Nat.leb_spec (List.length q + 1) k) as [Hk|Hk].
    + rewrite take_ge, Hall in H2 by (rewrite length_app; cbn; lia).
      assert (Hmd : ∀ x, readVolMeta {| d_meta := Some b; d_tmp := None; d_data := x |} = Some (meta_for t i)).
      { intros x. by apply decode_encode_meta. }
      destruct (restart_named cfg true (disk m) t (i_ID i) mt _ (meta_for t i) m2 Hd Ht Hid (Hmd _) eq_refl eq_refl H2)
        as (_ & -> & _). cbn. rewrite <- Hz, <- Hrw. by destruct i.
    + rewrite take_app_le in H2 by lia. eapply restart_set; [done..|]. intros e'. apply unnamed_entry.
      by apply trace_unnamed; [apply Forall_take|].
  - intros t' id' Hne. rewrite (restart_exact _ _ _ _ _ _ H2), (restart_exact _ _ _ _ _ _ H0).
    by apply restored_visible, visible_set_ne.
Qed.

(** The sweep drops an indexed volume without data, and leaves its directory. *)
Lemma sweep_zombie m x t id e i : index_ok m → Get m t id = Ok i → tree_entry (disk m) t id = Some e →
  well_formed t id e = true → e_data e = None →
  Get (Sweep m x true) t id = Err ErrVolNotFound ∧ tree_entry (disk (Sweep m x true)) t id = Some e.
Proof.
  intros Hok Hg He Hw Hdata. unfold Sweep, SweepOrphans. cbn [disk drop_vanished upd].
  set (u := orphan_walk x true (dom (vols m)) (disk m) m).
  assert (Hu : tree_entry (disk u) t id = Some e).
  { unfold u. rewrite walk_keeps; [done|]. intros e' He'. apply orphan_well_formed. congruence. }
  split; [|done]. unfold Get in *. destruct (lookup m t id) as [p|] eqn:Hl; [|done].
  destruct (lookup_spec m t id p Hok Hl) as (v & Hv & Ht & Hi & Hk). unfold lookup in Hl |- *.
  destruct (negb (tenantRe t)); [done|]. destruct (negb (idRe id)); [done|]. cbn [vols upd].
  destruct (orphan_walk_same x true (dom (vols m)) (disk m) m) as (E1 & E2 & _).
  unfold drop_vanished. cbn [vols upd].
  match goal with |- context [?vs !! key t id] => destruct (vs !! key t id) as [p'|] eqn:Hf end; [|done]. exfalso.
  apply map_lookup_filter_Some in Hf as [Hf Hdx]. cbn [snd] in Hdx. fold u in E1, E2. rewrite E1, Hk in Hf. injection Hf as <-.
  unfold data_exists in Hdx. rewrite E2, Hv, Ht, Hi, Hu in Hdx. cbn in Hdx. by rewrite Hdata in Hdx.
Qed.

(** C40: a deletion that stops in the middle (an error of [os.RemoveAll], a crash): from the critical section
    on the volume is gone for every caller, but the next start shows it again, with its name and what
    is left of its data, unless [meta.json] was among the files removed; then it is gone and its directory
    too.  A volume that comes back without its data directory is forgotten at the next sweep,
    which leaves the directory for the start after it. *)
Theorem interrupted_delete cfg m t id p d0 md l mt x m2 :
  lookup m t id = Ok p → rwHolder (the_volume m p) = "" → dirs_ok (disk m) t →
  readVolMeta d0 = Some md → m_ID md = id → m_Tenant md = t → Forall (λ o, removal o = true) l →
  NewManager cfg true true true
    (tree_set (disk m) t id (entry_of mt <$> apply_ops (Some d0) l)) = Some m2 →
  Get (delete_lock m p t id).2 t id = Err ErrVolNotFound ∧
  (RmMeta ∈ l → Get m2 t id = Err ErrVolNotFound ∧ tree_entry (disk m2) t id = None) ∧
  (RmMeta ∉ l → ∃ n, apply_ops (Some d0) l = Some n ∧
     Get m2 t id = Ok {| i_ID := id; i_Name := m_Name md; i_CreatedAt := m_CreatedAt md;
                         i_DiskBytes := dirSize (d_data n); i_AttachedRW := false |} ∧
     (d_data n = None → Get (Sweep m2 x true) t id = Err ErrVolNotFound ∧
        tree_entry (disk (Sweep m2 x true)) t id = Some (entry_of mt n))).
Proof.
  intros Hl Hfree Hd Hmd Hi Ht Hrm H2. unfold lookup in Hl.
  destruct (tenantRe t) eqn:Htr; [|done]. destruct (idRe id) eqn:Hid; [|done]. cbn [negb] in Hl.
  split; [|split].
  - unfold delete_lock. rewrite Hfree. cbn. unfold Get, lookup. rewrite Htr, Hid. cbn. by rewrite lookup_delete_eq.
  - intros Hin. eapply restart_set; [done..|]. intros e. apply unnamed_entry. by apply removal_drops.
  - intros Hin. unfold readVolMeta in Hmd. destruct (d_meta d0) as [b|] eqn:Hb; [|done]. cbn in Hmd.
    destruct (removal_keeps l d0 b Hrm Hin Hb) as (n & En & Hn). exists n. rewrite En in H2. cbn in H2. split; [done|].
    assert (Hn' : readVolMeta n = Some md) by (unfold readVolMeta; by rewrite Hn).
    destruct (restart_named cfg true (disk m) t id mt n md m2 Hd Htr Hid Hn' Hi Ht H2) as (Hw & Hg & He).
    split; [done|]. intros Hdata. eapply sweep_zombie; [by apply (scan_exact _ _ _ _ H2)|done..|].
    cbn. by rewrite Hdata.
Qed.
End crashes.

(** ** A concrete run *)

Definition info0 : Info :=
  {| i_ID := id0; i_Name := "notes"; i_CreatedAt := 1000; i_DiskBytes := 0; i_AttachedRW := false |}.
Definition wenv0 : wenv := {| w_cuts := [3; 7]%nat; w_write := None; w_rename := true |}.
Definition ops0 : list fsop := (create_files true wenv0 (meta_for "public" info0)).2.
Definition restart0 (d : tree) : Manager := default start0 (NewManager cfg0 true true true d).
Definition crashed0 (k : nat) : tree :=
  tree_set (disk start0) "public" id0 (entry_of (Some 1000) <$> apply_ops None (take k ops0)).

(** The crash before the rename, and after it. *)
Lemma create_crash_atomic_witness :
  Get (restart0 (crashed0 6)) "public" id0 = Err ErrVolNotFound ∧
  Get (restart0 (crashed0 8)) "public" id0 = Ok info0.
Proof.
  assert (Hd : dirs_ok (disk start0) "public") by (intros td Htd; vm_compute in Htd; discriminate Htd).
  split.
  - destruct (create_crash_atomic cfg0 start0 env0 "public" "notes" info0 created0 wenv0 ops0 6 (Some 1000)
      (restart0 (disk start0)) (restart0 (crashed0 6)) eq_refl eq_refl Hd) as (_ & [H _] & _);
      [vm_compute; reflexivity..|exact H].
  - destruct (create_crash_atomic cfg0 start0 env0 "public" "notes" info0 created0 wenv0 ops0 8 (Some 1000)
      (restart0 (disk start0)) (restart0 (crashed0 8)) eq_refl eq_refl Hd) as (_ & H & _);
      [vm_compute; reflexivity..|exact H].
Defined.

(** The data is removed, [meta.json] is not. *)
Definition dir0 : vdir :=
  {| d_meta := encodeMeta (meta_for "public" info0); d_tmp := None; d_data := Some (Dir [("a.txt", Leaf (Some 5))]) |}.
Definition half_removed : tree :=
  tree_set (disk created0) "public" id0 (entry_of (Some 1000) <$> apply_ops (Some dir0) [RmData (Some (Dir [])); RmData None]).
Lemma interrupted_delete_witness :
  Get (restart0 half_removed) "public" id0 = Ok info0 ∧
  Get (Sweep (restart0 half_removed) env0 true) "public" id0 = Err ErrVolNotFound.
Proof.
  destruct (interrupted_delete cfg0 created0 "public" id0 0 dir0 (meta_for "public" info0)
    [RmData (Some (Dir [])); RmData None] (Some 1000) env0 (restart0 half_removed)) as (_ & _ & H);
    [reflexivity|reflexivity| |reflexivity|reflexivity|reflexivity|repeat constructor|vm_compute; reflexivity|].
  - intros td Htd. vm_compute in Htd. injection Htd as <-. split; reflexivity.
  - destruct H as (n & En & Hg & Hz).
    + intros Hin. apply list_elem_of_In in Hin. destruct Hin as [E|[E|[]]]; discriminate E.
    + vm_compute in En. injection En as <-. split; [exact Hg|]. apply Hz. reflexivity.
Defined.

(** A deletion whose [os.RemoveAll] fails frees the name; after a restart two volumes have it. *)
Definition env1 : venv := {|
  v_now := 2000; v_statfs := None; v_uuid := "11234567-89ab-cdef-0123-456789abcdef";
  v_mkdir := true; v_made := MadeNone; v_chmod := true; v_writemeta := true; v_rm := false; v_remains := (true, Some 0); v_eval := Some |}.
Example failed_delete_twice :
  let '(r, m) := Delete created0 env1 "public" id0 in
  let m' := (Create m env1 "public" "notes").2 in
  let names m := match List m "public" with Ok l => map i_Name l | Err _ => [] end in
  (r, (Delete m env1 "public" id0).1, names m', names (restart0 (disk m'))) =
  (Err ErrRemove, Err ErrVolNotFound, ["notes"], ["notes"; "notes"]).
Proof. vm_compute. reflexivity. Qed.

(** [os.WriteFile] does not sync: when the contents are lost with the power and the name is not,
    the start removes a volume that was created. *)
Example unsynced_meta :
  let d := tree_set (disk created0) "public" id0
             (Some (entry_of (Some 1000) {| d_meta := Some ""; d_tmp := None; d_data := d_data dir0 |})) in
  tree_entry (disk (restart0 d)) "public" id0 = None.
Proof. vm_compute. reflexivity. Qed.

(** [dirSize] counts apparent sizes: a sparse file of 16 TiB in one volume, which needs no disk, and after
    a sweep no tenant can create a volume. *)
Example sparse_file :
  let d := tree_set (disk created0) "public" id0
             (Some (entry_of (Some 1000) {| d_meta := d_meta dir0; d_tmp := None;
                                            d_data := Some (Dir [("sparse", Leaf (Some (2 ^ 44)))]) |})) in
  (Create (Sweep (restart0 d) env0 true) env1 "0123456789abcdef" "other").1 = Err ErrDiskFull.
Proof. vm_compute. reflexivity. Qed.
