(* ===== verification/VolumeDurable.v ===== *)
(** * The volume index is a copy of the directory tree

    The promise of volume.go's header: start-up rebuilds the index from the [meta.json] files.  [mirrors]
    relates a manager to its tree, up to the volumes whose removal failed; every call preserves it,
    and then a restart is invisible but for the locks and those volumes. *)

From S2P Require Import Prelude GoLib GoStrings Volume VolumeSpec VolumeFiles.
Import Strings.

(** ** Trees *)
Definition trees_ok (d : tree) : Prop := ∀ t, dirs_ok d t.
Lemma put_entry d t id e t' id' : tree_entry (tree_put d t id e) t' id' =
  if decide ((t', id') = (t, id)) then Some e else tree_entry d t' id'.
Proof.
  unfold tree_put, tree_entry. case_decide as H; [injection H as -> ->; rewrite lookup_insert_eq; cbn; by rewrite lookup_insert_eq|].
  destruct (decide (t' = t)) as [->|Hne]; [|by rewrite lookup_insert_ne]. rewrite lookup_insert_eq. cbn.
  assert (id' ≠ id) by congruence. rewrite lookup_insert_ne by done. by destruct (d !! t).
Qed.
Lemma rm_entry d t id t' id' : tree_entry (tree_rm d t id) t' id' =
  if decide ((t', id') = (t, id)) then None else tree_entry d t' id'.
Proof. case_decide as H; [injection H as -> ->; apply tree_rm_eq|by apply tree_rm_ne]. Qed.
Lemma put_trees_ok d t id e : trees_ok d → trees_ok (tree_put d t id e).
Proof.
  intros Hd t' td. unfold tree_put. intros [[<- <-]|[_ H]]%lookup_insert_Some; [|by apply (Hd t')].
  destruct (d !! t) as [td0|] eqn:E; [|done]. cbn. by apply (Hd t).
Qed.
Lemma rm_trees_ok d t id : trees_ok d → trees_ok (tree_rm d t id).
Proof.
  intros Hd t' td. unfold tree_rm. destruct (d !! t) as [td0|] eqn:E; [|by apply Hd].
  intros [[<- <-]|[_ H]]%lookup_insert_Some; [|by apply (Hd t')]. cbn. by apply (Hd t).
Qed.
Lemma visible_entry d t id : trees_ok d → visible d t id = tree_entry d t id.
Proof.
  intros Hd. unfold visible, tree_entry. destruct (d !! t) as [td|] eqn:E; [|done]. cbn.
  by destruct (Hd t td E) as [-> ->].
Qed.

(** ** The invariant *)
Definition meta_view (v : Volume) : meta :=
  {| m_ID := ID v; m_Tenant := Tenant v; m_Name := Name v; m_CreatedAt := CreatedAt v |}.
(** The volumes that were deleted while [os.RemoveAll] failed: their directories may still be there. *)
Abbreviation leftovers := (list (string * string)).
(** The directory of an indexed volume: its metadata, and a data directory. *)
Definition dir_of (v : Volume) (e : ventry) : Prop :=
  e_isdir e = true ∧ e_meta e = Some (meta_view v) ∧ is_Some (e_data e).
Record mirrors (X : leftovers) (m : Manager) : Prop := {
  mi_index : index_ok m;
  mi_trees : trees_ok (disk m);
  mi_dirs : ∀ k p v, vols m !! k = Some p → heap m !! p = Some v →
    ∃ e, tree_entry (disk m) (Tenant v) (ID v) = Some e ∧ dir_of v e;
  mi_all : ∀ t id e, tenantRe t = true → tree_entry (disk m) t id = Some e → well_formed t id e = true →
    is_Some (vols m !! key t id) ∨ (t, id) ∈ X }.

Lemma dir_of_wf v e : idRe (ID v) = true → dir_of v e → well_formed (Tenant v) (ID v) e = true.
Proof. intros Hid (Hd & Hm & _). unfold well_formed. rewrite Hd, Hid, Hm. cbn. by rewrite !String.eqb_refl. Qed.
Lemma well_formed_isdir t id e : well_formed t id e = true → e_isdir e = true.
Proof. unfold well_formed. intros H. by destruct (e_isdir e). Qed.

(** *** What keeps it *)
Lemma mirrors_disk X m d : mirrors X m → trees_ok d →
  (∀ t id e, well_formed t id e = true → tree_entry (disk m) t id = Some e ↔ tree_entry d t id = Some e) →
  mirrors X (set_disk m d).
Proof.
  intros [H1 H2 H3 H4] Hd He. split; [done|done| |].
  - intros k p v Hk Hp. cbn in Hk, Hp. destruct (H3 k p v Hk Hp) as (e & Hte & Hdir). exists e. split; [|done].
    cbn. apply He; [|done]. destruct (H1 k p Hk) as (v' & Hv' & _ & _ & Hid). replace v' with v in * by congruence.
    by apply dir_of_wf.
  - intros t id e Ht Hte Hw. apply (H4 t id e Ht); [by apply He|done].
Qed.
Lemma mirrors_heap X m h : mirrors X m →
  (∀ p, meta_view <$> h !! p = meta_view <$> heap m !! p) → mirrors X (set_heap m h).
Proof.
  intros [H1 H2 H3 H4] Hh.
  assert (Hback : ∀ p v, h !! p = Some v → ∃ v0, heap m !! p = Some v0 ∧ meta_view v = meta_view v0).
  { intros p v Hp. specialize (Hh p). rewrite Hp in Hh. destruct (heap m !! p) as [v0|]; [|done].
    exists v0. split; [done|]. by apply (inj Some) in Hh. }
  split; [|done| |done].
  - intros k p Hk. destruct (H1 k p Hk) as (v & Hv & Hkey & Ht & Hid). specialize (Hh p). rewrite Hv in Hh. cbn in Hh |- *.
    destruct (h !! p) as [v'|]; [|done]. exists v'. split; [done|]. injection Hh as Ei Et _ _. by rewrite Ei, Et.
  - intros k p v Hk Hp. destruct (Hback p v Hp) as (v0 & Hv0 & E). destruct (H3 k p v0 Hk Hv0) as (e & He & Hdir).
    pose proof E as E'. unfold meta_view in E'. injection E' as Ei Et _ _. cbn [disk set_heap upd]. rewrite Ei, Et.
    exists e. split; [done|]. unfold dir_of. by rewrite E.
Qed.
Lemma mirrors_used X m u : mirrors X m → mirrors X (upd m (vols m) u (heap m) (disk m)).
Proof. by intros [? ? ? ?]. Qed.

(** ** Calls *)

(** [VGuest] is what programs do below the data directories, at any time. *)
Inductive vcall :=
| VCreate (e : venv) (tenant name : string)
| VAttach (e : venv) (tenant id sid : string) (rw : bool)
| VRelease (tenant id sid : string) | VReleaseAll (sid : string)
| VDelete (e : venv) (tenant id : string)
| VSweep (e : venv) (root_ok : bool)
| VGuest (d : tree).
Definition vexec (m : Manager) (c : vcall) : Manager :=
  match c with
  | VCreate e t name => (Create m e t name).2
  | VAttach e t id sid rw => (Attach m e t id sid rw).2
  | VRelease t id sid => Release m t id sid
  | VReleaseAll sid => ReleaseAll m sid
  | VDelete e t id => (Delete m e t id).2
  | VSweep e root_ok => Sweep m e root_ok
  | VGuest d => set_disk m d
  end.
Definition same_dir (e e' : ventry) : Prop :=
  e_isdir e' = e_isdir e ∧ e_meta e' = e_meta e ∧ (is_Some (e_data e) → is_Some (e_data e')).
(** A new id is fresh, and a guest changes what is below a data directory only. *)
Definition vcall_ok (m : Manager) (c : vcall) : Prop :=
  match c with
  | VCreate e t _ => idRe ("vol_" +:+ v_uuid e) = true ∧ tree_entry (disk m) t ("vol_" +:+ v_uuid e) = None
  | VGuest d => trees_ok d ∧ ∀ t id, option_Forall2 same_dir (tree_entry (disk m) t id) (tree_entry d t id)
  | _ => True
  end.
(** The deletions whose removal of the files fails. *)
Definition failed (c : vcall) : leftovers := match c with VDelete e t id => if v_rm e then [] else [(t, id)] | _ => [] end.
Fixpoint vcalls_ok (m : Manager) (l : list vcall) : Prop :=
  match l with [] => True | c :: l => vcall_ok m c ∧ vcalls_ok (vexec m c) l end.

(** *** Locks *)
Lemma holder_view m p s q : meta_view <$> heap (set_holder m p s) !! q = meta_view <$> heap m !! q.
Proof. rewrite set_holder_lookup. case_decide; [|done]. by destruct (heap m !! q). Qed.
Lemma mirrors_holder X m p s : mirrors X m → mirrors X (set_holder m p s).
Proof. intros Hm. apply (mirrors_heap X m); [done|]. apply holder_view. Qed.
Lemma mirrors_attach X m e t id sid rw : mirrors X m → mirrors X (Attach m e t id sid rw).2.
Proof.
  intros Hm. unfold Attach. destruct (attach_read m e t id sid rw) as [[hp|p hp]|]; [done| |done].
  unfold attach_lock. case_match; [done|]. by apply mirrors_holder.
Qed.
Lemma mirrors_release X m t id sid : mirrors X m → mirrors X (Release m t id sid).
Proof. intros Hm. unfold Release. destruct (vols m !! _); [|done]. case_match; [by apply mirrors_holder|done]. Qed.
Lemma mirrors_release_all X m sid : mirrors X m → mirrors X (ReleaseAll m sid).
Proof.
  apply foldl_keeps. intros m' [k p] Hm. unfold release_step. cbn [snd]. case_match; [by apply mirrors_holder|done].
Qed.

(** *** Files *)
Lemma not_wf_none t id e : e_meta e = None → well_formed t id e = false.
Proof. unfold well_formed. intros ->. apply andb_false_r. Qed.
Lemma mirrors_junk X m t id e : mirrors X m → tree_entry (disk m) t id = None → e_meta e = None →
  mirrors X (set_disk m (tree_put (disk m) t id e)).
Proof.
  intros Hm Hn He. apply mirrors_disk; [done|by apply put_trees_ok; destruct Hm|]. intros t' id' e' Hw.
  rewrite put_entry. case_decide as E; [|done]. injection E as -> ->. rewrite Hn. split; [done|]. intros [= <-].
  by rewrite not_wf_none in Hw.
Qed.
Lemma mirrors_add X m t id v e : mirrors X m → tenantRe (Tenant v) = true → idRe (ID v) = true → t = Tenant v → id = ID v →
  tree_entry (disk m) t id = None → dir_of v e →
  mirrors X (add_volume (set_disk m (tree_put (disk m) t id e)) v).
Proof.
  intros [H1 H2 H3 H4] Ht Hid -> -> Hn Hdir. split; cbn.
  - intros k p. cbn. intros [[<- <-]|[_ Hk]]%lookup_insert_Some.
    + exists v. by rewrite list_lookup_middle.
    + destruct (H1 k p Hk) as (w & Hw & Hrest). exists w. split; [|done]. by apply lookup_app_l_Some.
  - by apply put_trees_ok.
  - intros k p w [[<- <-]|[_ Hk]]%lookup_insert_Some Hp.
    + rewrite list_lookup_middle in Hp by done. injection Hp as <-. exists e. split; [|done].
      rewrite put_entry. by rewrite decide_True.
    + destruct (H1 k p Hk) as (w' & Hw' & _). rewrite (lookup_app_l_Some _ _ _ _ Hw') in Hp. injection Hp as <-.
      destruct (H3 k p w' Hk Hw') as (e' & He' & Hd'). exists e'. split; [|done]. rewrite put_entry.
      case_decide as E; [|done]. injection E as E1 E2. rewrite E1, E2 in He'. congruence.
  - intros t' id' e' Ht'. rewrite put_entry. case_decide as E.
    + injection E as -> ->. rewrite lookup_insert_eq. eauto.
    + intros He' Hw. destruct (decide (key (Tenant v) (ID v) = key t' id')) as [->|Hne]; [rewrite lookup_insert_eq; eauto|].
      rewrite lookup_insert_ne by done. by apply (H4 t' id' e').
Qed.

Lemma put_put d t id e e' : tree_put (tree_put d t id e) t id e' = tree_put d t id e'.
Proof.
  unfold tree_put. rewrite lookup_insert_eq, insert_insert_eq. cbn. unfold set_entries. cbn. by rewrite insert_insert_eq.
Qed.
Lemma mirrors_rm X m t id : mirrors X m → (∀ e, tree_entry (disk m) t id = Some e → well_formed t id e = false) →
  mirrors X (set_disk m (tree_rm (disk m) t id)).
Proof.
  intros Hm Hn. apply mirrors_disk; [done|by apply rm_trees_ok; destruct Hm|]. intros t' id' e' Hw.
  rewrite rm_entry. case_decide as E; [|done]. injection E as -> ->. split; [|done]. intros He. by rewrite Hn in Hw.
Qed.
Lemma touch_trees_ok d t : trees_ok d → trees_ok (tree_touch d t).
Proof.
  intros Hd t' td. unfold tree_touch. destruct (d !! t) as [td0|]; [by apply Hd|].
  intros [[<- <-]|[_ H]]%lookup_insert_Some; [done|by apply (Hd t')].
Qed.
Lemma mirrors_left X m e t id : mirrors X m → mirrors X (set_disk m (left_behind e (disk m) t id)).
Proof.
  intros Hm. unfold left_behind. destruct (v_made e).
  - apply mirrors_disk; [done|by destruct Hm|done].
  - apply mirrors_disk; [done|by apply touch_trees_ok; destruct Hm|]. intros t' id' e' _. by rewrite touch_entry.
  - destruct (tree_entry (disk m) t id) eqn:E; [|by apply mirrors_junk].
    apply mirrors_disk; [done|by destruct Hm|done].
Qed.
Lemma mirrors_create X m e t name : mirrors X m → vcall_ok m (VCreate e t name) → mirrors X (Create m e t name).2.
Proof.
  intros Hm [Hid Hn]. unfold Create. destruct (tenantRe t) eqn:Ht; [|done]. cbn [negb]. cbv zeta.
  destruct (nameRe _); [|done]. cbn [negb]. destruct (_ && DiskFull m _); [done|]. destruct (existsb _ _); [done|].
  destruct (_ <=? _); [done|]. destruct (_ <=? _); [done|]. destruct (v_mkdir e); [|by apply mirrors_left]. cbn [negb].
  set (d0 := {| e_isdir := true; e_meta := None; e_mtime := Some (v_now e); e_data := Some 0 |}).
  set (id := "vol_" +:+ v_uuid e) in *. set (m1 := set_disk m (tree_put (disk m) t id d0)).
  assert (H1 : mirrors X m1) by by apply mirrors_junk.
  assert (Hundo : mirrors X (if v_rm e then set_disk m1 (tree_rm (disk m1) t id) else m1)).
  { destruct (v_rm e); [|done]. apply mirrors_rm; [done|]. intros e'. cbn. rewrite put_entry, decide_True by done.
    intros [= <-]. by apply not_wf_none. }
  destruct (v_chmod e); [|done]. destruct (v_writemeta e); [|done]. cbn [negb snd disk m1 set_disk upd].
  rewrite put_put. apply (mirrors_add X m t id); try done.
Qed.
Lemma mirrors_more X X' m : mirrors X m → mirrors (X ++ X') m.
Proof.
  intros [H1 H2 H3 H4]. split; [done..|]. intros t id e Ht He Hw. destruct (H4 t id e Ht He Hw); [by left|].
  right. by apply elem_of_app; left.
Qed.
(** Out of the index and its files changed in any way. *)
Lemma mirrors_unindex X m t id d : mirrors X m → tenantRe t = true → trees_ok d →
  (∀ t' id', (t', id') ≠ (t, id) → tree_entry d t' id' = tree_entry (disk m) t' id') →
  ((t, id) ∈ X ∨ tree_entry d t id = None) → ∀ u, mirrors X (upd m (delete (key t id) (vols m)) u (heap m) d).
Proof.
  intros [H1 H2 H3 H4] Ht Hd Hsame Hgone u. split; cbn; [|done| |].
  - intros k q. cbn. intros [_ Hq]%lookup_delete_Some. by apply H1.
  - intros k q w. cbn. intros [Hne Hq]%lookup_delete_Some Hp. destruct (H3 k q w Hq Hp) as (e' & He' & Hdir). exists e'. split; [|done].
    rewrite Hsame; [done|]. intros [= Et Ei]. destruct (H1 k q Hq) as (w' & Hw' & Hkey & _).
    replace w' with w in * by congruence. congruence.
  - intros t' id' e' Ht' He' Hw. destruct (decide ((t', id') = (t, id))) as [[= -> ->]|E].
    { right. destruct Hgone; [done|congruence]. }
    rewrite Hsame in He' by done. destruct (H4 t' id' e' Ht' He' Hw) as [[q Hq]|]; [left|by right].
    rewrite lookup_delete_ne; [eauto|]. intros Hkey. apply E. apply key_inj in Hkey as [<- <-]; done.
Qed.
Lemma mirrors_delete X m e t id : mirrors X m → mirrors (X ++ failed (VDelete e t id)) (Delete m e t id).2.
Proof.
  intros Hm%(mirrors_more _ (failed (VDelete e t id))). pose proof (mi_trees _ _ Hm) as Htr.
  unfold Delete. destruct (lookup m t id) as [p|] eqn:Hl; [|done].
  assert (Ht : tenantRe t = true) by (unfold lookup in Hl; by destruct (tenantRe t)).
  unfold delete_lock. destruct (negb _); [done|]. cbn [snd]. unfold delete_files, v_removal.
  cbn [failed] in *. destruct (v_rm e); cbn [snd].
  - apply (mirrors_unindex _ m t id (tree_rm (disk m) t id)); [done|done|by apply rm_trees_ok| |right; by rewrite rm_entry, decide_True].
    intros t' id' Hne. by rewrite rm_entry, decide_False.
  - assert (Hin : (t, id) ∈ X ++ [(t, id)]) by (apply elem_of_app; right; by left).
    cbn [disk upd]. destruct (tree_entry (disk m) t id) as [e0|].
    + apply (mirrors_unindex _ m t id (tree_put (disk m) t id (remains (v_remains e) e0))); [done|done|by apply put_trees_ok| |by left].
      intros t' id' Hne. by rewrite put_entry, decide_False.
    + by apply (mirrors_unindex _ m t id (disk m)); [..|left].
Qed.

(** *** Sweeps *)
Lemma walk_trees_ok m e r known seen : trees_ok (disk m) → trees_ok (disk (orphan_walk e r known seen m)).
Proof.
  intros Hm. unfold orphan_walk. destruct r; [|done]. apply (foldl_keeps (λ m, trees_ok (disk m))); [|done]. clear.
  intros m [t td] Hm. unfold orphan_tenant. do 2 (case_match; [done|]). apply (foldl_keeps (λ m, trees_ok (disk m))); [|done].
  clear. intros m [id e'] Hm. unfold orphan_entry. case_match; [by apply rm_trees_ok|done].
Qed.
Lemma walk_shrinks m e r known seen t id x :
  tree_entry (disk (orphan_walk e r known seen m)) t id = Some x → tree_entry (disk m) t id = Some x.
Proof.
  set (P := λ m', tree_entry (disk m') t id = Some x → tree_entry (disk m) t id = Some x).
  change (P (orphan_walk e r known seen m)). unfold orphan_walk. destruct r; [|by intros H].
  apply foldl_keeps; [|by intros H]. intros m' [t' td] Hm. unfold orphan_tenant. do 2 (case_match; [done|]).
  apply foldl_keeps; [|done]. clear Hm m'. intros m' [id' e'] Hm. unfold orphan_entry. case_match; [|done].
  unfold P. cbn. rewrite rm_entry. by case_decide.
Qed.
Lemma mirrors_sweep X m e r : mirrors X m → mirrors X (Sweep m e r).
Proof.
  intros Hm. unfold Sweep. apply mirrors_used. unfold SweepOrphans.
  set (w := orphan_walk e r (dom (vols m)) (disk m) m).
  assert (Hw : mirrors X w).
  { destruct (orphan_walk_same e r (dom (vols m)) (disk m) m) as (E1 & E2 & _). fold w in E1, E2.
    pose proof (mirrors_disk X m (disk w) Hm (walk_trees_ok _ _ _ _ _ (mi_trees _ _ Hm))) as H.
    assert (E : mirrors X (set_disk m (disk w)) → mirrors X w).
    { intros [A1 A2 A3 A4]. split; unfold index_ok in *; cbn in *; by rewrite ?E1, ?E2. }
    apply E, H. intros t id x Hx. split; [|apply walk_shrinks]. intros Hin. unfold w. rewrite walk_keeps; [done|].
    intros y Hy. apply orphan_well_formed. congruence. }
  destruct r; [|done]. clearbody w.
  assert (E : filter (λ kp, data_exists w kp.2 = true) (vols w) = vols w).
  { apply map_filter_id. intros k p Hk. cbn. unfold data_exists. destruct (heap w !! p) as [v|] eqn:Hv; [|done].
    destruct (mi_dirs _ _ Hw k p v Hk Hv) as (x & -> & _ & _ & [z Hz]). cbn. by rewrite Hz. }
  unfold drop_vanished. rewrite E. by apply mirrors_used.
Qed.
Lemma mirrors_guest X m d : mirrors X m → vcall_ok m (VGuest d) → mirrors X (set_disk m d).
Proof.
  intros [H1 H2 H3 H4] [Hd Hs]. split; [done|done| |].
  - intros k p v Hk Hp. cbn in Hk, Hp. destruct (H3 k p v Hk Hp) as (e & He & Hi & Hm & Hdata).
    specialize (Hs (Tenant v) (ID v)). rewrite He in Hs. cbn. inversion Hs as [? e' (E1 & E2 & E3) |]; subst.
    exists e'. split; [done|]. split; [by rewrite E1|]. split; [by rewrite E2|by apply E3].
  - intros t id e' Ht He' Hw. cbn in He'. specialize (Hs t id). rewrite He' in Hs. inversion Hs as [e ? (E1 & E2 & _) Ee|]; subst.
    apply (H4 t id e Ht); [done|]. unfold well_formed in *. by rewrite <- E1, <- E2.
Qed.
Lemma mirrors_call X m c : mirrors X m → vcall_ok m c → mirrors (X ++ failed c) (vexec m c).
Proof.
  intros Hm Hc. destruct c; cbn [vexec]; try (apply mirrors_delete, Hm); apply mirrors_more.
  - by apply mirrors_create.
  - by apply mirrors_attach.
  - by apply mirrors_release.
  - by apply mirrors_release_all.
  - by apply mirrors_sweep.
  - by apply mirrors_guest.
Qed.
Lemma mirrors_calls X m l : mirrors X m → vcalls_ok m l → mirrors (X ++ (l ≫= failed)) (foldl vexec m l).
Proof.
  revert X m. induction l as [|c l IH]; intros X m Hm; [by cbn; rewrite app_nil_r|]. intros [Hc Hl]. cbn [foldl mbind list_bind].
  rewrite app_assoc. apply IH; [by apply mirrors_call|done].
Qed.

(** ** Start-up *)

(** A tree in which every volume has its data directory. *)
Definition tree_whole (d : tree) : Prop :=
  trees_ok d ∧ ∀ t id e, tree_entry d t id = Some e → well_formed t id e = true → is_Some (e_data e).
Lemma start_trees_ok rm root_ok m : trees_ok (disk m) → trees_ok (disk (scan rm root_ok m)).
Proof.
  intros Hm. unfold scan. destruct root_ok; [|done]. cbn [negb]. rewrite scan_flat.
  pose proof (foldl_keeps (λ acc : Manager * Z, trees_ok (disk acc.1)) (scan_one rm)
    (map_to_list (disk m) ≫= flat_tenant) (m, 0)) as H.
  destruct (foldl _ _ _) as [m' total]. apply H; [|done]. clear. intros [m total] [t [id e]] Hm.
  unfold scan_one. cbn [fst snd] in *. rewrite scan_entry_wf. destruct (well_formed t id e); [by destruct (e_meta e)|].
  destruct rm; [by apply rm_trees_ok|done].
Qed.
Lemma mirrors_start cfg d m : tree_whole d → NewManager cfg true true true d = Some m → mirrors [] m.
Proof.
  intros [Hd Hw] Hm. destruct (scan_exact cfg true d m Hm) as (H1 & H2 & H3).
  pose proof (NewManager_index cfg true d m Hm) as Hfrom. split; [done| | |].
  - apply NewManager_scan in Hm as (m0 & -> & _ & _ & <-). by apply start_trees_ok.
  - intros k p v Hk Hp. destruct (Hfrom k p Hk) as (t & id & e & md & [Ht He] & Hwf & Hmd & -> & Hp').
    assert (v = volume_of md) as -> by congruence. destruct (well_formed_meta _ _ _ _ Hwf Hmd) as (_ & <- & <-).
    exists e. cbn. rewrite H3 by naive_solver. rewrite <- visible_entry by done. split; [done|].
    split; [by eapply well_formed_isdir|]. split; [by destruct md|].
    apply (Hw (m_Tenant md) (m_ID md)); [|done]. by rewrite <- visible_entry.
  - intros t id e Ht He Hwf. left. apply H2; [done|]. exists e. split; [|done]. rewrite visible_entry by done.
    destruct (tree_entry d t id) as [e'|] eqn:E; rewrite <- He; [|symmetry; rewrite <- E; apply H3; rewrite visible_entry, E by done; done].
    destruct (well_formed t id e') eqn:Hwf'.
    + symmetry. rewrite <- E. apply H3. rewrite visible_entry, E by done. by intros ? [= <-].
    + exfalso. enough (tree_entry (disk m) t id = None) by congruence.
      apply (restart_collects cfg d m t id e' Hm Ht); [by rewrite visible_entry|done].
Qed.

(** A view of a volume without its lock. *)
Definition unlock (r : result VolErr Info) : result VolErr Info :=
  match r with
  | Ok i => Ok {| i_ID := i_ID i; i_Name := i_Name i; i_CreatedAt := i_CreatedAt i;
                  i_DiskBytes := i_DiskBytes i; i_AttachedRW := false |}
  | Err e => Err e
  end.
Lemma mirrors_restored X m t id : mirrors X m → restored (disk m) t id = unlock (Get m t id) ∨
  (t, id) ∈ X ∧ Get m t id = Err ErrVolNotFound ∧ ∃ i, restored (disk m) t id = Ok i ∧ i_ID i = id.
Proof.
  intros [H1 H2 H3 H4]. unfold restored, Get, lookup. destruct (tenantRe t) eqn:Ht; [|by left].
  destruct (idRe id) eqn:Hid; [|by left]. cbn [negb]. rewrite visible_entry by done.
  destruct (vols m !! key t id) as [p|] eqn:Hk.
  - left. destruct (H1 _ _ Hk) as (v & Hv & Hkey & Htv & _). destruct (H3 _ _ _ Hk Hv) as (e & He & Hdir).
    apply key_inj in Hkey as [-> ->]; [|done..]. pose proof (dir_of_wf v e Hid Hdir) as Hw.
    rewrite He, Hw. destruct Hdir as (_ & -> & _). cbn. unfold the_volume. rewrite Hv. cbn. unfold data_size. by rewrite He.
  - destruct (tree_entry (disk m) t id) as [e|] eqn:He; [|by left]. destruct (e_meta e) as [md|] eqn:Em; [|by left].
    destruct (well_formed t id e) eqn:Hw; [|by left]. right.
    destruct (H4 t id e Ht He Hw) as [[q Hq]|Hx]; [congruence|]. split; [done|split; [done|]]. eexists. split; [done|]. cbn.
    by destruct (well_formed_meta _ _ _ _ Hw Em) as (_ & <- & _).
Qed.

(** C7: a restart is invisible.  Start on any tree in which volumes have their data, run any
    calls of any tenants (creations, attachments, deletions, sweeps, whatever fails in them) with
    programs writing below the data directories, and start again, on the
    tree that is there, with any configuration: every volume of every tenant is seen as before, its
    lock released, and what was not there is not there.  The one exception is a volume that was
    deleted while the removal of its files failed, and whose metadata is still there: it was gone
    before the restart and is there again after. *)
Theorem restart_transparent cfg cfg' d l m m' :
  tree_whole d → NewManager cfg true true true d = Some m → vcalls_ok m l →
  NewManager cfg' true true true (disk (foldl vexec m l)) = Some m' →
  ∀ t id, Get m' t id = unlock (Get (foldl vexec m l) t id) ∨
    (∃ e, VDelete e t id ∈ l ∧ v_rm e = false) ∧ Get (foldl vexec m l) t id = Err ErrVolNotFound ∧
    ∃ i, Get m' t id = Ok i ∧ i_ID i = id.
Proof.
  intros Hd Hm Hl Hm' t id. rewrite (restart_exact _ _ _ _ _ _ Hm').
  destruct (mirrors_restored ([] ++ (l ≫= failed)) (foldl vexec m l) t id) as [?|(Hx & H)];
    [apply mirrors_calls; [by apply (mirrors_start cfg d)|done]|by left|right].
  split; [|exact H]. apply list_elem_of_bind in Hx as (c & Hx & Hc). destruct c; cbn in Hx; try by apply elem_of_nil in Hx.
  destruct (v_rm e) eqn:Er; [by apply elem_of_nil in Hx|]. apply list_elem_of_singleton in Hx as [= -> ->]. eauto.
Qed.

(** ** A concrete run *)

(** Three volumes, one attached and written to, one deleted, one whose removal fails; a creation that fails half-way. *)
Definition venv_of (uuid : string) (meta_ok rm_ok : bool) : venv := {|
  v_now := 5000; v_statfs := None; v_uuid := uuid; v_mkdir := true; v_made := MadeNone; v_chmod := true;
  v_writemeta := meta_ok; v_rm := rm_ok; v_remains := (true, Some 0); v_eval := Some |}.
Definition uuid2 : string := "21234567-89ab-cdef-0123-456789abcdef".
Definition vol2 : string := "vol_" +:+ uuid2.
Definition uuid3 : string := "41234567-89ab-cdef-0123-456789abcdef".
Definition vol3 : string := "vol_" +:+ uuid3.
Definition written (d : tree) : tree :=
  match tree_entry d "public" id0 with
  | Some e => tree_put d "public" id0 {| e_isdir := e_isdir e; e_meta := e_meta e; e_mtime := e_mtime e; e_data := Some 77 |}
  | None => d
  end.
Definition calls1 : list vcall :=
  [VCreate env0 "public" "notes"; VCreate (venv_of uuid2 true true) "0123456789abcdef" "scratch";
   VCreate (venv_of uuid3 true true) "public" "old"; VAttach env0 "public" id0 "s1" true].
Definition calls2 : list vcall :=
  [VDelete (venv_of "" true true) "0123456789abcdef" vol2; VDelete (venv_of "" true false) "public" vol3;
   VCreate (venv_of "31234567-89ab-cdef-0123-456789abcdef" false false) "public" "late"; VSweep env0 true].
Definition calls0 : list vcall := calls1 ++ VGuest (written (disk (foldl vexec start0 calls1))) :: calls2.
Definition ran0 : Manager := foldl vexec start0 calls0.
Lemma written_same d t id : option_Forall2 same_dir (tree_entry d t id) (tree_entry (written d) t id).
Proof.
  assert (Hr : Reflexive (option_Forall2 same_dir)) by (apply _ || (intros [x|]; constructor; by repeat split)).
  unfold written. destruct (tree_entry d "public" id0) as [e|] eqn:E; [|apply Hr]. rewrite put_entry.
  case_decide as H; [|apply Hr]. injection H as -> ->. rewrite E. constructor. split; [done|]. split; [done|]. by intros _.
Qed.
Lemma written_ok X m : mirrors X m → vcall_ok m (VGuest (written (disk m))).
Proof.
  intros Hm. split; [|intros t id; apply written_same]. unfold written. destruct (tree_entry _ _ _); [apply put_trees_ok|]; by destruct Hm.
Qed.
Lemma vcalls_app m l l' : vcalls_ok m l → vcalls_ok (foldl vexec m l) l' → vcalls_ok m (l ++ l').
Proof. revert m. induction l as [|c l IH]; intros m; [done|]. intros [Hc Hl] Hl'. split; [done|by apply IH]. Qed.
Lemma calls0_ok : tree_whole ∅ ∧ vcalls_ok start0 calls0.
Proof.
  assert (Hd : tree_whole ∅) by (split; [intros t td Htd|intros t id e He]; done). split; [done|].
  assert (H1 : vcalls_ok start0 calls1) by (cbn [vcalls_ok calls1 vcall_ok]; repeat split; vm_compute; reflexivity).
  apply vcalls_app; [done|]. split.
  - eapply written_ok, mirrors_calls; [|done]. by apply (mirrors_start cfg0 ∅).
  - cbn [vcalls_ok calls2 vcall_ok]. repeat split; vm_compute; reflexivity.
Qed.
Lemma restart_transparent_witness :
  Get (restart0 (disk ran0)) "public" id0 =
    Ok {| i_ID := id0; i_Name := "notes"; i_CreatedAt := 1000; i_DiskBytes := 77; i_AttachedRW := false |} ∧
  Get (restart0 (disk ran0)) "0123456789abcdef" vol2 = Err ErrVolNotFound ∧
  Get ran0 "public" vol3 = Err ErrVolNotFound ∧ is_Some (match Get (restart0 (disk ran0)) "public" vol3 with Ok i => Some i | Err _ => None end).
Proof.
  pose proof (restart_transparent cfg0 cfg0 ∅ calls0 start0 (restart0 (disk ran0)) (proj1 calls0_ok) eq_refl (proj2 calls0_ok)
    ltac:(vm_compute; reflexivity)) as H.
  split; [|split; [|split]].
  - destruct (H "public" id0) as [->|(_ & E & _)]; [vm_compute; reflexivity|vm_compute in E; discriminate E].
  - destruct (H "0123456789abcdef" vol2) as [->|(_ & _ & i & E & _)]; [vm_compute; reflexivity|vm_compute in E; discriminate E].
  - vm_compute. reflexivity.
  - vm_compute. by eexists.
Defined.
