(* ===== verification/ApiVolumes.v ===== *)
(** * internal/api/volumes.go: /v1/volumes

    The handlers over [Volume.Manager]; the tenant comes from the context only. *)

From S2P Require Import Prelude GoLib GoStrings Auth Volume VolumeSpec ApiHttp.

(** Shared with the attach of [POST /v1/sessions]. *)
Definition writeVolErr {A} (e : VolErr) : http A :=
  match e with
  | ErrVolNotFound => HErr 404 "volume_not_found" None
  | ErrExists => HErr 409 "volume_name_exists" None
  | ErrVolumeLocked => HErr 409 "volume_locked" None
  | ErrBusy => HErr 409 "volume_busy" None
  | ErrVolQuota => HErr 413 "volume_quota_exceeded" None
  | ErrDiskFull => HErr 507 "storage_full" None
  | ErrTooMany => HErr 429 "too_many_volumes" None
  | ErrBadName => HErr 400 "invalid_name" None
  | ErrBadID | ErrBadTenant | ErrContainment => HErr 400 "invalid_request" None
  | ErrMkdir | ErrChmod | ErrWriteMeta | ErrRemove => HErr 500 "internal" None
  end.

Inductive vreply := VInfo (i : Info) | VList (l : list Info) | VNoContent.

(** The body is [{"name": ...}], read up to 4 KiB. *)
Definition handleCreateVolume (m : Manager) (x : venv) (ctx : KeyStore.Context) (b : body string) :
    http vreply * Manager :=
  match Middleware.reqTenant ctx with
  | inr _ => (no_tenant, m)
  | inl tenant =>
      match b with
      | BadBody => (HErr 400 "invalid_json" None, m)
      | _ =>
          match Create m x tenant match b with Body name => name | _ => "" end with
          | (Err e, m) => (writeVolErr e, m)
          | (Ok info, m) => (HOk 201 (VInfo info), m)
          end
      end
  end.
Definition handleListVolumes (m : Manager) (ctx : KeyStore.Context) : http vreply :=
  match Middleware.reqTenant ctx with
  | inr _ => no_tenant
  | inl tenant => match List m tenant with Err e => writeVolErr e | Ok l => HOk 200 (VList l) end
  end.
Definition handleGetVolume (m : Manager) (ctx : KeyStore.Context) (id : string) : http vreply :=
  match Middleware.reqTenant ctx with
  | inr _ => no_tenant
  | inl tenant => match Get m tenant id with Err e => writeVolErr e | Ok i => HOk 200 (VInfo i) end
  end.
Definition handleDeleteVolume (m : Manager) (x : venv) (ctx : KeyStore.Context) (id : string) :
    http vreply * Manager :=
  match Middleware.reqTenant ctx with
  | inr _ => (no_tenant, m)
  | inl tenant =>
      match Delete m x tenant id with
      | (Err e, m) => (writeVolErr e, m)
      | (Ok _, m) => (HOk 204 VNoContent, m)
      end
  end.
