(* ===== verification/Executor.v ===== *)
(** * internal/executor: one-shot sandbox runs (executor.go, gvisor.go)

    [Gvisor.Execute] drives the docker command line.  Its effects are the events
    of a trace, and what it observes of the world (temporary directories, the
    commands' outcomes, the output chunks, the timer, the age of the firewall
    sentinel at each of the three times it is read) is a [xenv].  The shell that
    reads the launch script is modelled by [sh_words]: a POSIX reader of words
    without expansions. *)

From S2P Require Import Prelude GoLib GoStrings GoCodec GoFloat.
Import Strings.

(** ** Data (executor.go) *)
Record Language := { l_Name : string; l_Version : string }.
Record File := { f_Name : string; f_Content : string; f_Encoding : string }.
Record Mount := { HostPath : string; Target : string; m_RW : bool }.
Record Limits := {
  MemoryBytes : Z; CPUs : float; Pids : Z; OutputBytes : Z; WallTimeMs : Z; CompileTimeMs : Z }.
Record Spec := {
  Lang : Language; Image : string; Compile : list string; Run : list string; Workdir : string;
  Env : gmap string string; ScratchExec : bool; ScratchMB : Z; Mounts : list Mount;
  Files : list File; Stdin : string; Argv : list string; s_Limits : Limits; Network : bool }.
Record Result := {
  Stdout : string; Stderr : string; ExitCode : Z; TimedOut : bool; OOMKilled : bool;
  Truncated : bool; DurationMs : Z; CompileOutput : string; r_Network : bool }.
Definition no_result : Result := {|
  Stdout := ""; Stderr := ""; ExitCode := 0; TimedOut := false; OOMKilled := false;
  Truncated := false; DurationMs := 0; CompileOutput := ""; r_Network := false |}.

Inductive ExecErr :=
| ErrMkdirTemp | ErrChmod | ErrDecode (name : string) | ErrWrite (name : string)
| ErrPipe | ErrStart | errExecStartFailed | ErrBoot.
#[export] Instance ExecErr_eq_dec : EqDecision ExecErr.
Proof. solve_decision. Defined.

(** ** Small helpers (gvisor.go) *)

(** [strings.ToLower] is only compared with ASCII words here. *)
Definition decodeFile (uni_lower : string → string) (f : File) : option string :=
  let enc := ToLower uni_lower (f_Encoding f) in
  if existsb (String.eqb enc) [""; "utf8"; "utf-8"] then Some (f_Content f)
  else if String.eqb enc "base64" then Base64.DecodeString Base64.StdEncoding (f_Content f)
  else if String.eqb enc "hex" then Hex.DecodeString (f_Content f)
  else None.

Definition backslash : ascii := ascii_of_nat 92.
Definition quote : ascii := "'"%char.

Definition sanitizeName (name : string) : string :=
  let name := TrimSpace name in
  if String.eqb name "" then "" else
  let base := Filepath.Base name in
  if String.eqb base "." || String.eqb base ".." ||
     (contains_char Filepath.slash base || contains_char backslash base)
  then "" else base.

(** [strings.ReplaceAll(s, "'", `'\''`)] between quotes. *)
Definition quote_escape : string := String quote (String backslash (String quote (String quote ""))).
Definition shQuote (s : string) : string :=
  String quote (replace_char quote quote_escape s) +:+ String quote "".
Definition shJoin (parts : list string) : string := Join (map shQuote parts) " ".

(** *** capWriter *)
Record capWriter := { buf : string; limit : Z; n : Z; truncated : bool }.
Definition new_capWriter (limit : Z) : capWriter :=
  {| buf := ""; limit := limit; n := 0; truncated := false |}.
Definition Write (w : capWriter) (p : string) : capWriter :=
  if limit w <=? n w then
    {| buf := buf w; limit := limit w; n := n w; truncated := true |}
  else
    let room := limit w - n w in
    if room <? len p then
      {| buf := buf w +:+ str_take (Z.to_nat room) p; limit := limit w; n := limit w; truncated := true |}
    else
      {| buf := buf w +:+ p; limit := limit w; n := n w + len p; truncated := truncated w |}.

(** [pump]: the reads that returned data, in order; [Some] sink collects what it
    is given. *)
Fixpoint pump (w : capWriter) (sink : bool) (reads : list string) : capWriter * list string :=
  match reads with
  | [] => (w, [])
  | p :: reads =>
      let room := limit w - n w in
      let sent := if sink && (0 <? room)
                  then [if room <? len p then str_take (Z.to_nat room) p else p] else [] in
      let '(w', out) := pump (Write w p) sink reads in
      (w', sent ++ out)
  end.

(** *** inspectState *)
Fixpoint split2 (c : ascii) (s : string) : option (string * string) :=
  match s with
  | EmptyString => None
  | String a s => if Ascii.eqb a c then Some ("", s)
                  else match split2 c s with
                       | Some (x, y) => Some (String a x, y)
                       | None => None
                       end
  end.
(** [out]: the output of docker inspect, or an error. *)
Definition inspectState (out : option string) : option (bool * Z) :=
  match out with
  | None => None
  | Some o => match split2 "|" (TrimSpace o) with
              | Some (oom, code) => Some (String.eqb oom "true", (Atoi code).1)
              | None => None
              end
  end.

(** ** The backend *)
Record Gvisor := {
  Runtime : string; NetRuntime : string; Slice : string; JobRoot : string; User : string;
  AllowNetwork : bool; EgressNetwork : string; ResolvConf : string;
  Sentinel : string; SentinelMaxAge : Z }.
Definition NewGvisor : Gvisor := {|
  Runtime := "runsc-untrusted"; NetRuntime := "runsc-net"; Slice := "isobox.slice"; JobRoot := "";
  User := "65534:65534"; AllowNetwork := true; EgressNetwork := "isobox-egress";
  ResolvConf := "/etc/isobox/resolv.conf"; Sentinel := "/etc/isobox/egress-ok";
  SentinelMaxAge := 240 * 10 ^ 9 |}.

(** [stat]: the age of the sentinel file, or an error. *)
Definition egressFirewallFresh (g : Gvisor) (stat : option Z) : bool :=
  if String.eqb (Sentinel g) "" then true else
  match stat with Some age => age <? SentinelMaxAge g | None => false end.
Definition networkEnabled (g : Gvisor) (s : Spec) (stat : option Z) : bool :=
  Network s && AllowNetwork g && negb (String.eqb (EgressNetwork g) "") && egressFirewallFresh g stat.
Definition NetMode (g : Gvisor) (stat : option Z) : option (string * string * string) :=
  if AllowNetwork g && negb (String.eqb (EgressNetwork g) "") && egressFirewallFresh g stat
  then Some (NetRuntime g, EgressNetwork g, ResolvConf g) else None.

(** [docker info]'s runtimes, decoded, or an error. *)
Definition HealthCheck (g : Gvisor) (runtimes : option (gset string)) : bool :=
  match runtimes with Some rs => bool_decide (Runtime g ∈ rs) | None => false end.

Definition positive_or (v d : Z) : Z := if v <=? 0 then d else v.
Definition tmpfs_opt (execOpt : string) (mb : Z) : string :=
  "/tmp:rw," +:+ execOpt +:+ ",nosuid,nodev,size=" +:+ Itoa mb +:+ "m,nr_inodes=" +:+
  Itoa (wrap64 (mb * 64)).
(** The flags the cold and the warm path share, from the memory cap on. *)
Definition resource_args (mem : Z) (cpus : float) (pids : Z) : list string :=
  ["--memory"; Itoa mem; "--memory-swap"; Itoa mem; "--cpus"; FormatFloat2 cpus;
   "--pids-limit"; Itoa pids].
Definition isolation_args (g : Gvisor) : list string :=
  ["--cap-drop=ALL"; "--security-opt=no-new-privileges"; "--user=" +:+ User g;
   "--cgroup-parent=" +:+ Slice g; "--hostname=sandbox"; "--label"; "isobox.managed=true"].
Definition mount_args (m : Mount) : list string :=
  ["-v"; HostPath m +:+ ":" +:+ Target m +:+ ":" +:+ (if m_RW m then "rw" else "ro")].
Definition env_arg (flag : string) (kv : string * string) : list string :=
  [flag; kv.1 +:+ "=" +:+ kv.2].
(** [range env] in some order: [map_to_list] is one. *)
Definition run_env (s : Spec) : list (string * string) :=
  map_to_list (Env s ∪ {["HOME" := "/tmp"]}).

(** [stat1], [stat2]: the sentinel when the runtime and the resolver mount are
    chosen. *)
Definition buildRunArgs (g : Gvisor) (name jobDir : string) (s : Spec) (stat1 stat2 : option Z) :
    list string :=
  let l := s_Limits s in
  let cpus := if fleb (CPUs l) (of_Z 0) then of_Z 1 else CPUs l in
  let workdir := if String.eqb (Workdir s) "" then "/box" else Workdir s in
  let scratchMB := positive_or (ScratchMB s) 64 in
  let net := networkEnabled g s stat1 in
  ["--name"; name; "--runtime"; if net then NetRuntime g else Runtime g;
   if net then "--network=" +:+ EgressNetwork g else "--network=none"] ++
  (if networkEnabled g s stat2 && negb (String.eqb (ResolvConf g) "")
   then ["-v"; ResolvConf g +:+ ":/etc/resolv.conf:ro"] else []) ++
  ["--read-only"; "--tmpfs"; tmpfs_opt (if ScratchExec s then "exec" else "noexec") scratchMB;
   "-v"; jobDir +:+ ":/box:ro"; "-w"; workdir] ++
  resource_args (positive_or (MemoryBytes l) (Z.shiftl 256 20)) cpus (positive_or (Pids l) 128) ++
  isolation_args g ++
  flat_map mount_args (Mounts s) ++
  flat_map (env_arg "--env") (run_env s) ++
  [Image s].

(** ** Execute *)
Definition positional : string := " " +:+ String (ascii_of_nat 34) ("$@" +:+ String (ascii_of_nat 34) "").
Definition launch_script (s : Spec) : string :=
  "set -e; " +:+
  (match Compile s with [] => "" | c => shJoin c +:+ "; " end) +:+
  "exec " +:+ shJoin (Run s) +:+ positional.

(** [time.Duration(ms) * time.Millisecond], 10 s when not positive. *)
Definition wall_time (l : Limits) : Z :=
  let w := wrap64 (WallTimeMs l * 10 ^ 6) in if w <=? 0 then 10 * 10 ^ 9 else w.

Inductive event :=
| EMkdirTemp (dir : string) | EWriteFile (path data : string)
| EStart (args : list string) (stdin : option string)   (* docker <args> *)
| EKill (name : string) | EInspect (name : string) | ERemoveContainer (name : string)
| ERemoveAll (dir : string) | EBoot (args : list string).

Record xenv := {
  x_tmp : option string; x_chmod : bool; x_write : string → bool; x_uuid : string;
  x_pipes : bool; x_start : bool;
  x_stat : nat → option Z;                    (* the sentinel, at each reading *)
  x_out : list string; x_err : list string;   (* the chunks the pumps read *)
  x_timeout : bool;                           (* the timer fired before Wait returned *)
  x_inspect : option string; x_exit : option Z; x_ms : Z }.

Section exec.
Context (uni_lower : string → string).

(** The loop over the files: the events, and the error that stops it. *)
Fixpoint write_files (e : xenv) (jobDir : string) (fs : list File) : list event * option ExecErr :=
  match fs with
  | [] => ([], None)
  | f :: fs =>
      let name := sanitizeName (f_Name f) in
      if String.eqb name "" then write_files e jobDir fs else
      match decodeFile uni_lower f with
      | None => ([], Some (ErrDecode (f_Name f)))
      | Some data =>
          let path := Filepath.Join [jobDir; name] in
          if x_write e path then
            let '(tr, err) := write_files e jobDir fs in (EWriteFile path data :: tr, err)
          else ([EWriteFile path data], Some (ErrWrite name))
      end
  end.

Definition output_limit (l : Limits) : Z :=
  if OutputBytes l <=? 0 then Z.shiftl 64 10 else OutputBytes l.

(** What is read back once the process is gone. *)
Definition collect (e : xenv) (s : Spec) (sink : bool) (net : bool) (insp : option string) :
    Result * list string * list string :=
  let lim := output_limit (s_Limits s) in
  let '(outW, so) := pump (new_capWriter lim) sink (x_out e) in
  let '(errW, se) := pump (new_capWriter lim) sink (x_err e) in
  let '(oom, code) := match inspectState insp with
                      | Some oc => oc
                      | None => (false, default 0 (x_exit e))
                      end in
  ({| Stdout := buf outW; Stderr := buf errW; Truncated := truncated outW || truncated errW;
      TimedOut := x_timeout e; DurationMs := x_ms e; CompileOutput := ""; r_Network := net;
      ExitCode := if x_timeout e then 137 else code;
      OOMKilled := if x_timeout e then false else oom |}, so, se).

Definition failed (net : bool) : Result :=
  {| Stdout := ""; Stderr := ""; ExitCode := 0; TimedOut := false; OOMKilled := false;
     Truncated := false; DurationMs := 0; CompileOutput := ""; r_Network := net |}.

(** The result, the error, the trace, and what each sink received. *)
Record outcome := { o_res : Result; o_err : option ExecErr; o_trace : list event;
                    o_sink : list string * list string }.
Definition fail (net : bool) (err : ExecErr) (tr : list event) : outcome :=
  {| o_res := failed net; o_err := Some err; o_trace := tr; o_sink := ([], []) |}.

Definition Execute (g : Gvisor) (e : xenv) (s : Spec) (sink : bool) : outcome :=
  let net := networkEnabled g s (x_stat e 0%nat) in
  match x_tmp e with
  | None => fail net ErrMkdirTemp []
  | Some jobDir =>
      let cleanup := [ERemoveAll jobDir] in
      if negb (x_chmod e) then fail net ErrChmod (EMkdirTemp jobDir :: cleanup) else
      let '(tr, err) := write_files e jobDir (Files s) in
      match err with
      | Some err => fail net err (EMkdirTemp jobDir :: tr ++ cleanup)
      | None =>
          let name := "iso-" +:+ x_uuid e in
          let args := buildRunArgs g name jobDir s (x_stat e 1%nat) (x_stat e 2%nat) ++
                      ["sh"; "-c"; launch_script s; "iso"] ++ Argv s in
          if negb (x_pipes e) then fail net ErrPipe (EMkdirTemp jobDir :: tr ++ cleanup) else
          let cleanup := ERemoveContainer name :: cleanup in
          let start := EStart ("run" :: args) (if String.eqb (Stdin s) "" then None else Some (Stdin s)) in
          if negb (x_start e) then fail net ErrStart (EMkdirTemp jobDir :: tr ++ start :: cleanup) else
          let '(res, so, se) := collect e s sink net (x_inspect e) in
          {| o_res := res; o_err := None; o_sink := (so, se);
             o_trace := EMkdirTemp jobDir :: tr ++ start ::
                        (if x_timeout e then [EKill name] else []) ++ EInspect name :: cleanup |}
      end
  end.
End exec.

(** select.go *)
Definition Detect (kvm : bool) : Gvisor := if kvm then NewGvisor else NewGvisor.
