(* ===== verification/ExecutorJSON.v ===== *)
(** * internal/executor: its structs as JSON

    [executor.File] is part of request bodies; [executor.Spec] and [executor.Result]
    travel between the queue's submitter and its workers.  For each struct what
    [json.Marshal] writes, what [json.Unmarshal] stores, and the values that survive. *)

From S2P Require Import Prelude GoLib GoStrings GoFloat GoJSON GoUnmarshal Executor.
Import JSON.

(** ** Values *)

(** An empty slice is nil. *)
Definition jlist {A} (f : A → json) (l : list A) : json := match l with [] => JNull | _ => JArr (map f l) end.
Definition omitempty (k s : string) : list (string * json) := if String.eqb s "" then [] else [(k, JStr s)].
(** A map, in the order of its keys. *)
Definition pair_le (x y : string * string) : Prop := String.le x.1 y.1.
#[export] Instance pair_le_dec x y : Decision (pair_le x y).
Proof. unfold pair_le, String.le. apply _. Defined.
Definition env_json (e : gmap string string) : json :=
  if bool_decide (e = ∅) then JNull else JObj (prod_map id JStr <$> merge_sort pair_le (map_to_list e)).
Fixpoint dec_members (fs : list (string * jval)) (m : gmap string string) : option (gmap string string) :=
  match fs with
  | [] => Some m
  | (k, v) :: fs => x ← dec_string "" v; dec_members fs (<[k := x]> m)
  end.
Definition dec_map (old : gmap string string) (v : jval) : option (gmap string string) :=
  match v with VNull => Some ∅ | VObj fs => dec_members fs old | _ => None end.

(** ** The structs *)
Definition language_tags : list string := ["language"; "version"].
Definition zero_language : Language := {| l_Name := ""; l_Version := "" |}.
Definition language_json (l : Language) : json := JObj [("language", JStr (l_Name l)); ("version", JStr (l_Version l))].
Definition dec_language : Language → jval → option Language :=
  dec_struct (λ old fs,
    n ← field language_tags dec_string "language" (l_Name old) fs;
    v ← field language_tags dec_string "version" (l_Version old) fs;
    Some {| l_Name := n; l_Version := v |}).

Definition file_tags : list string := ["name"; "content"; "encoding"].
Definition zero_file : File := {| f_Name := ""; f_Content := ""; f_Encoding := "" |}.
Definition file_json (f : File) : json :=
  JObj ([("name", JStr (f_Name f)); ("content", JStr (f_Content f))] ++ omitempty "encoding" (f_Encoding f)).
Definition dec_file : File → jval → option File :=
  dec_struct (λ old fs,
    n ← field file_tags dec_string "name" (f_Name old) fs;
    c ← field file_tags dec_string "content" (f_Content old) fs;
    e ← field file_tags dec_string "encoding" (f_Encoding old) fs;
    Some {| f_Name := n; f_Content := c; f_Encoding := e |}).

Definition file_text (f : File) : Prop := valid_utf8 (f_Name f) ∧ valid_utf8 (f_Content f) ∧ valid_utf8 (f_Encoding f).
Definition mount_text (m : Mount) : Prop := valid_utf8 (HostPath m) ∧ valid_utf8 (Target m).

Definition mount_tags : list string := ["HostPath"; "Target"; "RW"].
Definition zero_mount : Mount := {| HostPath := ""; Target := ""; m_RW := false |}.
Definition mount_json (m : Mount) : json :=
  JObj [("HostPath", JStr (HostPath m)); ("Target", JStr (Target m)); ("RW", JBool (m_RW m))].
Definition dec_mount : Mount → jval → option Mount :=
  dec_struct (λ old fs,
    h ← field mount_tags dec_string "HostPath" (HostPath old) fs;
    t ← field mount_tags dec_string "Target" (Target old) fs;
    w ← field mount_tags dec_bool "RW" (m_RW old) fs;
    Some {| HostPath := h; Target := t; m_RW := w |}).

Definition result_tags : list string :=
  ["stdout"; "stderr"; "exitCode"; "timedOut"; "oomKilled"; "truncated"; "durationMs"; "compileOutput"; "network"].
Definition result_json (r : Result) : json := JObj ([
  ("stdout", JStr (Stdout r)); ("stderr", JStr (Stderr r)); ("exitCode", JInt (ExitCode r)); ("timedOut", JBool (TimedOut r));
  ("oomKilled", JBool (OOMKilled r)); ("truncated", JBool (Truncated r)); ("durationMs", JInt (DurationMs r))] ++
  omitempty "compileOutput" (CompileOutput r) ++ [("network", JBool (r_Network r))]).
Definition dec_result : Result → jval → option Result :=
  dec_struct (λ old fs,
    o ← field result_tags dec_string "stdout" (Stdout old) fs;
    e ← field result_tags dec_string "stderr" (Stderr old) fs;
    c ← field result_tags dec_int "exitCode" (ExitCode old) fs;
    t ← field result_tags dec_bool "timedOut" (TimedOut old) fs;
    k ← field result_tags dec_bool "oomKilled" (OOMKilled old) fs;
    u ← field result_tags dec_bool "truncated" (Truncated old) fs;
    d ← field result_tags dec_int "durationMs" (DurationMs old) fs;
    p ← field result_tags dec_string "compileOutput" (CompileOutput old) fs;
    n ← field result_tags dec_bool "network" (r_Network old) fs;
    Some {| Stdout := o; Stderr := e; ExitCode := c; TimedOut := t; OOMKilled := k; Truncated := u; DurationMs := d;
            CompileOutput := p; r_Network := n |}).
Definition result_text (r : Result) : Prop :=
  valid_utf8 (Stdout r) ∧ valid_utf8 (Stderr r) ∧ valid_utf8 (CompileOutput r) ∧ in64 (ExitCode r) ∧ in64 (DurationMs r).

(** ** They are read back *)
Ltac read_members := cbn [value_of map app fst snd dec_struct]; find_fields; cbn [mbind option_bind dec_bool].
Lemma dec_file_read f : file_text f → dec_file zero_file (value_of (file_json f)) = Some f.
Proof.
  intros (H1 & H2 & H3). unfold file_json, dec_file, omitempty. destruct f as [n c e]. cbn [f_Name f_Content f_Encoding] in *.
  destruct (String.eqb_spec e "") as [->|]; read_members; by rewrite !dec_string_read.
Qed.
Lemma dec_language_read l : valid_utf8 (l_Name l) → valid_utf8 (l_Version l) → dec_language zero_language (value_of (language_json l)) = Some l.
Proof. intros H1 H2. unfold language_json, dec_language. read_members. rewrite !dec_string_read by done. by destruct l. Qed.
Lemma dec_mount_read m : mount_text m → dec_mount zero_mount (value_of (mount_json m)) = Some m.
Proof. intros [H1 H2]. unfold mount_json, dec_mount. read_members. rewrite !dec_string_read by done. by destruct m. Qed.
Lemma dec_result_read r : result_text r → dec_result no_result (value_of (result_json r)) = Some r.
Proof.
  intros (H1 & H2 & H3 & H4 & H5). unfold result_json, dec_result, omitempty. destruct r as [o e c t k u d p n].
  cbn [Stdout Stderr CompileOutput ExitCode DurationMs TimedOut OOMKilled Truncated r_Network] in *.
  destruct (String.eqb_spec p "") as [->|]; read_members; rewrite !dec_string_read by done; cbn [mbind option_bind];
    rewrite !dec_int_read by done; done.
Qed.
Lemma jlist_read {A} (zero : A) (dec : A → jval → option A) (f : A → json) l : (∀ a, a ∈ l → dec zero (value_of (f a)) = Some a) →
  ∃ s, dec_slice zero dec nil_slice (value_of (jlist f l)) = Some s ∧ elems s = l.
Proof.
  intros H. destruct l as [|a l]; [by eexists|].
  pose proof (dec_slice_read zero dec (λ a, value_of (f a)) (a :: l) H) as (s & E & Es)%fmap_Some.
  exists s. split; [|done]. rewrite <- E. unfold jlist. cbn [value_of]. by rewrite map_map.
Qed.
Lemma jlist_strings l : Forall (λ x, valid_utf8 x : Prop) l →
  ∃ s, dec_slice "" dec_string nil_slice (value_of (jlist JStr l)) = Some s ∧ elems s = l.
Proof. intros H. apply jlist_read. intros a Ha. apply dec_string_read. by apply (proj1 (Forall_forall _ _) H). Qed.
Lemma dec_members_read (l : list (string * string)) m :
  Forall (λ kv, valid_utf8 kv.1 ∧ valid_utf8 kv.2) l → NoDup l.*1 → (∀ k, k ∈ l.*1 → m !! k = None) →
  dec_members (map (λ kv, (sanitize kv.1, VStr (sanitize kv.2))) l) m = Some (list_to_map l ∪ m).
Proof.
  revert m. induction l as [|[k x] l IH]; intros m Hf Hn Hm; [by rewrite list_to_map_nil, left_id_L by apply _|].
  apply Forall_cons in Hf as [[Hk Hx] Hf]. apply NoDup_cons in Hn as [Hk' Hn]. cbn [fst snd] in *.
  cbn [map dec_members fst snd]. rewrite (sanitize_valid k) by (by destruct (valid_utf8 k)). rewrite dec_string_read by done.
  cbn [mbind option_bind]. rewrite IH; [|done|done|].
  - f_equal. rewrite list_to_map_cons. rewrite <- insert_union_l. symmetry. by apply insert_union_r, not_elem_of_list_to_map_1.
  - intros k' Hk''. rewrite lookup_insert_ne by (intros ->; done). apply Hm. by right.
Qed.
Lemma env_read e : map_Forall (λ k x, valid_utf8 k ∧ valid_utf8 x) e → dec_map ∅ (value_of (env_json e)) = Some e.
Proof.
  intros H. unfold env_json. destruct (bool_decide_reflect (e = ∅)) as [->|_]; [done|]. cbn [value_of dec_map].
  pose proof (merge_sort_Permutation pair_le (map_to_list e)) as Hp. set (l := merge_sort pair_le (map_to_list e)) in *.
  transitivity (dec_members (map (λ kv, (sanitize kv.1, VStr (sanitize kv.2))) l) ∅).
  { f_equal. clear. induction l as [|kv l IH]; [done|]. cbn. by f_equal. }
  assert (Hn : NoDup l.*1) by (rewrite Hp; apply NoDup_fst_map_to_list).
  rewrite dec_members_read; [|rewrite Hp; apply map_Forall_to_list in H; by eapply Forall_impl; [apply H|intros []]|done|intros; apply lookup_empty].
  rewrite (right_id_L ∅ (∪)). f_equal. rewrite (list_to_map_proper l (map_to_list e) Hn Hp). apply list_to_map_to_list.
Qed.

Section spec.
(** [strconv.AppendFloat] as encoding/json calls it. *)
Context (fmt : float → string).

Definition spec_limit_tags : list string := ["memoryBytes"; "cpus"; "pids"; "outputBytes"; "wallTimeMs"; "compileTimeMs"].
Definition zero_limits : Limits := {|
  MemoryBytes := 0; CPUs := of_Z 0; Pids := 0; OutputBytes := 0; WallTimeMs := 0; CompileTimeMs := 0 |}.
Definition spec_limits_json (l : Limits) : json := JObj [
  ("memoryBytes", JInt (MemoryBytes l)); ("cpus", JNum (fmt (CPUs l))); ("pids", JInt (Pids l));
  ("outputBytes", JInt (OutputBytes l)); ("wallTimeMs", JInt (WallTimeMs l)); ("compileTimeMs", JInt (CompileTimeMs l))].
Definition dec_spec_limits : Limits → jval → option Limits :=
  dec_struct (λ old fs,
    m ← field spec_limit_tags dec_int "memoryBytes" (MemoryBytes old) fs;
    c ← field spec_limit_tags dec_float "cpus" (CPUs old) fs;
    p ← field spec_limit_tags dec_int "pids" (Pids old) fs;
    o ← field spec_limit_tags dec_int "outputBytes" (OutputBytes old) fs;
    w ← field spec_limit_tags dec_int "wallTimeMs" (WallTimeMs old) fs;
    t ← field spec_limit_tags dec_int "compileTimeMs" (CompileTimeMs old) fs;
    Some {| MemoryBytes := m; CPUs := c; Pids := p; OutputBytes := o; WallTimeMs := w; CompileTimeMs := t |}).

(** [executor.Spec] has no tags: its members are the names of its fields. *)
Definition spec_tags : list string :=
  ["Lang"; "Image"; "Compile"; "Run"; "Workdir"; "Env"; "ScratchExec"; "ScratchMB"; "Mounts"; "Files"; "Stdin"; "Argv"; "Limits"; "Network"].
Definition zero_spec : Spec := {|
  Lang := zero_language; Image := ""; Compile := []; Run := []; Workdir := ""; Env := ∅; ScratchExec := false; ScratchMB := 0;
  Mounts := []; Files := []; Stdin := ""; Argv := []; s_Limits := zero_limits; Network := false |}.
Definition spec_json (s : Spec) : json := JObj [
  ("Lang", language_json (Lang s)); ("Image", JStr (Image s)); ("Compile", jlist JStr (Compile s)); ("Run", jlist JStr (Run s));
  ("Workdir", JStr (Workdir s)); ("Env", env_json (Env s)); ("ScratchExec", JBool (ScratchExec s)); ("ScratchMB", JInt (ScratchMB s));
  ("Mounts", jlist mount_json (Mounts s)); ("Files", jlist file_json (Files s)); ("Stdin", JStr (Stdin s));
  ("Argv", jlist JStr (Argv s)); ("Limits", spec_limits_json (s_Limits s)); ("Network", JBool (Network s))].
Definition spec_fields (fs : list (string * jval)) : option Spec :=
  l ← field spec_tags dec_language "Lang" zero_language fs;
  i ← field spec_tags dec_string "Image" "" fs;
  c ← field spec_tags (dec_slice "" dec_string) "Compile" nil_slice fs;
  r ← field spec_tags (dec_slice "" dec_string) "Run" nil_slice fs;
  w ← field spec_tags dec_string "Workdir" "" fs;
  e ← field spec_tags dec_map "Env" ∅ fs;
  x ← field spec_tags dec_bool "ScratchExec" false fs;
  b ← field spec_tags dec_int "ScratchMB" 0 fs;
  m ← field spec_tags (dec_slice zero_mount dec_mount) "Mounts" nil_slice fs;
  f ← field spec_tags (dec_slice zero_file dec_file) "Files" nil_slice fs;
  i' ← field spec_tags dec_string "Stdin" "" fs;
  a ← field spec_tags (dec_slice "" dec_string) "Argv" nil_slice fs;
  l' ← field spec_tags dec_spec_limits "Limits" zero_limits fs;
  n ← field spec_tags dec_bool "Network" false fs;
  Some {| Lang := l; Image := i; Compile := elems c; Run := elems r; Workdir := w; Env := e; ScratchExec := x; ScratchMB := b;
          Mounts := elems m; Files := elems f; Stdin := i'; Argv := elems a; s_Limits := l'; Network := n |}.

(** What survives: UTF-8 text, [int64]s, a float that is read back. *)
Record spec_plain (s : Spec) : Prop := {
  sp_lang : valid_utf8 (l_Name (Lang s)) ∧ valid_utf8 (l_Version (Lang s));
  sp_text : valid_utf8 (Image s) ∧ valid_utf8 (Workdir s) ∧ valid_utf8 (Stdin s);
  sp_lists : Forall (λ x, valid_utf8 x : Prop) (Compile s ++ Run s ++ Argv s);
  sp_env : map_Forall (λ k x, valid_utf8 k ∧ valid_utf8 x) (Env s);
  sp_mounts : Forall mount_text (Mounts s); sp_files : Forall file_text (Files s);
  sp_ints : in64 (ScratchMB s) ∧ in64 (MemoryBytes (s_Limits s)) ∧ in64 (Pids (s_Limits s)) ∧ in64 (OutputBytes (s_Limits s)) ∧
    in64 (WallTimeMs (s_Limits s)) ∧ in64 (CompileTimeMs (s_Limits s));
  sp_cpus : float_reads fmt (CPUs (s_Limits s)) }.

Lemma dec_limits_read l : in64 (MemoryBytes l) → in64 (Pids l) → in64 (OutputBytes l) → in64 (WallTimeMs l) → in64 (CompileTimeMs l) →
  float_reads fmt (CPUs l) → dec_spec_limits zero_limits (value_of (spec_limits_json l)) = Some l.
Proof.
  intros H1 H2 H3 H4 H5 [_ H6]. unfold spec_limits_json, dec_spec_limits. read_members.
  rewrite !dec_int_read by done. cbn [mbind option_bind]. rewrite H6. cbn [mbind option_bind]. by destruct l.
Qed.
Lemma spec_read s : spec_plain s → ∃ fs, value_of (spec_json s) = VObj fs ∧ spec_fields fs = Some s.
Proof.
  intros [[H1 H2] (H3 & H4 & H5) Hl He Hm Hf (I1 & I2 & I3 & I4 & I5 & I6) Hc]. eexists. split; [reflexivity|].
  rewrite !Forall_app in Hl. destruct Hl as (L1 & L2 & L3). unfold spec_fields. cbn [map fst snd]. find_fields. fold value_of.
  rewrite dec_language_read by done. cbn [mbind option_bind]. rewrite !dec_string_read by done. cbn [mbind option_bind].
  destruct (jlist_strings _ L1) as (c & -> & Ec), (jlist_strings _ L2) as (r & -> & Er), (jlist_strings _ L3) as (a & -> & Ea).
  cbn [mbind option_bind]. rewrite env_read by done. cbn [mbind option_bind dec_bool value_of]. rewrite dec_int_read by done. cbn [mbind option_bind].
  destruct (jlist_read zero_mount dec_mount mount_json (Mounts s)) as (m & -> & Em);
    [intros x Hx; apply dec_mount_read; by apply (proj1 (Forall_forall _ _) Hm)|].
  destruct (jlist_read zero_file dec_file file_json (Files s)) as (f & -> & Ef);
    [intros x Hx; apply dec_file_read; by apply (proj1 (Forall_forall _ _) Hf)|].
  cbn [mbind option_bind]. rewrite dec_limits_read by done. cbn [mbind option_bind]. rewrite Ec, Er, Ea, Em, Ef. by destruct s.
Qed.

(** No number but the limits is a text, and nothing nests deep. *)
Lemma jlist_readable {A} (f : A → json) l : (∀ a, readable (f a) = true) → readable (jlist f l) = true.
Proof. intros H. destruct l as [|a l]; [done|]. apply forallb_forall. intros j (x & <- & _)%in_map_iff. apply H. Qed.
Lemma jlist_nesting {A} (f : A → json) l n : 0 ≤ n → (∀ a, nesting (f a) ≤ n) → nesting (jlist f l) ≤ n + 1.
Proof.
  intros Hn H. destruct l as [|a l]; [cbn; lia|]. unfold jlist. generalize (a :: l) as l'. clear a l. intros l. cbn [nesting].
  assert (foldr Z.max 0 (map nesting (map f l)) ≤ n); [|lia]. induction l as [|a l IH]; [done|].
  cbn [map foldr]. specialize (H a). lia.
Qed.
Lemma env_flat e : readable (env_json e) = true ∧ nesting (env_json e) ≤ 1.
Proof.
  unfold env_json. case_bool_decide; [done|]. generalize (merge_sort pair_le (map_to_list e)) as l. intros l.
  split; [by induction l|]. cbn [nesting]. assert (foldr Z.max 0 (map (λ kv, nesting kv.2) (prod_map id JStr <$> l)) ≤ 0); [|lia].
  induction l as [|kv l IH]; [done|]. by apply Z.max_lub.
Qed.
Lemma file_flat f : readable (file_json f) = true ∧ nesting (file_json f) ≤ 1.
Proof. unfold file_json, omitempty. by case_match. Qed.
Lemma spec_flat s : number_text (fmt (CPUs (s_Limits s))) = true → readable (spec_json s) = true ∧ nesting (spec_json s) ≤ 3.
Proof.
  intros Hc. destruct (env_flat (Env s)) as [E1 E2]. split.
  - unfold readable, spec_json in *. cbn [numbers forallb snd]. rewrite E1. rewrite !jlist_readable by (done || apply file_flat).
    unfold spec_limits_json. cbn [numbers forallb snd]. by rewrite Hc.
  - unfold spec_json. cbn [nesting map snd foldr]. pose proof (jlist_nesting JStr (Compile s) 0 ltac:(done) ltac:(done)).
    pose proof (jlist_nesting JStr (Run s) 0 ltac:(done) ltac:(done)). pose proof (jlist_nesting JStr (Argv s) 0 ltac:(done) ltac:(done)).
    pose proof (jlist_nesting mount_json (Mounts s) 1 ltac:(done) ltac:(done)).
    pose proof (jlist_nesting file_json (Files s) 1 ltac:(done) (λ f, proj2 (file_flat f))). cbn. lia.
Qed.
End spec.
