(* ===== verification/ExecutorSpec.v ===== *)
(** * Correctness of one-shot runs ([Executor]) *)

From S2P Require Import Prelude GoLib GoStrings GoFloat Executor.
Import Strings.

(** ** Quoting *)

(** A POSIX shell reader of words: quotes, escapes and blanks; [None] on anything
    that the shell would expand or interpret. *)
Inductive shmode := Plain | Quoted | Escaped.
Definition sh_literal (c : ascii) : bool :=
  is_lower c || is_upper c || is_digit c || existsb (Ascii.eqb c) ["_"; "-"; "."; "/"; ":"; "@"; "%"; "+"; ","]%char.
Definition snoc (s : string) (c : ascii) : string := s +:+ String c "".
Fixpoint sh_read (md : shmode) (cur : option string) (s : string) : option (list string) :=
  match s with
  | EmptyString => match md with
                   | Plain => Some (match cur with Some w => [w] | None => [] end)
                   | _ => None
                   end
  | String c s =>
      let w := default "" cur in
      match md with
      | Quoted => if Ascii.eqb c quote then sh_read Plain (Some w) s else sh_read Quoted (Some (snoc w c)) s
      | Escaped => sh_read Plain (Some (snoc w c)) s
      | Plain =>
          if Ascii.eqb c quote then sh_read Quoted (Some w) s
          else if Ascii.eqb c backslash then sh_read Escaped (Some w) s
          else if Ascii.eqb c " " then
            match cur with
            | Some w => match sh_read Plain None s with Some ws => Some (w :: ws) | None => None end
            | None => sh_read Plain None s
            end
          else if sh_literal c then sh_read Plain (Some (snoc w c)) s
          else None
      end
  end.
Definition sh_words (s : string) : option (list string) := sh_read Plain None s.

Lemma snoc_app w c s : snoc w c +:+ s = w +:+ String c s.
Proof. unfold snoc. by rewrite <- sapp_assoc. Qed.

Lemma sh_read_quoted w s rest :
  sh_read Quoted (Some w) (replace_char quote quote_escape s +:+ String quote rest) =
  sh_read Plain (Some (w +:+ s)) rest.
Proof.
  revert w. induction s as [|c s IH]; intros w.
  { cbn. by rewrite sapp_nil_r. }
  cbn [replace_char]. destruct (Ascii.eqb quote c) eqn:Hc.
  - apply Ascii.eqb_eq in Hc as <-. rewrite <- sapp_assoc.
    change (sh_read Quoted (Some w) (quote_escape +:+ ?x)) with (sh_read Quoted (Some (snoc w quote)) x).
    rewrite IH. by rewrite snoc_app.
  - cbn [String.append sh_read default]. assert (Ascii.eqb c quote = false) as ->.
    { apply Ascii.eqb_neq. apply Ascii.eqb_neq in Hc. congruence. }
    rewrite IH. by rewrite snoc_app.
Qed.

Lemma sh_read_word w rest :
  sh_read Plain None (shQuote w +:+ rest) = sh_read Plain (Some w) rest.
Proof.
  unfold shQuote. rewrite <- sapp_assoc. change (String quote "" +:+ rest) with (String quote rest).
  change (sh_read Plain None (String quote (replace_char quote quote_escape w) +:+ String quote rest))
    with (sh_read Quoted (Some "") (replace_char quote quote_escape w +:+ String quote rest)).
  apply sh_read_quoted.
Qed.

(** C35: whatever bytes the words hold (quotes, blanks, semicolons, dollars,
    newlines, nothing at all), a shell that reads the quoted and joined words
    gets back exactly those words, and nothing in them is interpreted. *)
Theorem shJoin_reads_back parts : sh_words (shJoin parts) = Some parts.
Proof.
  unfold sh_words, shJoin. induction parts as [|w parts IH]; [done|].
  destruct parts as [|w' parts].
  - cbn [map Join]. rewrite <- (sapp_nil_r (shQuote w)), sh_read_word. done.
  - cbn [map] in *. set (l := shQuote w' :: map shQuote parts) in *.
    change (Join (shQuote w :: l) " ") with (shQuote w +:+ " " +:+ Join l " ").
    rewrite sh_read_word. change (" " +:+ ?x) with (String " " x). cbn [sh_read default].
    change (Ascii.eqb " " quote) with false. change (Ascii.eqb " " backslash) with false.
    change (Ascii.eqb " " " ") with true. cbn iota. by rewrite IH.
Qed.

(** ** Output capping *)
Definition cat (l : list string) : string := foldr String.append "" l.

Lemma len_app s t : len (s +:+ t) = len s + len t.
Proof. unfold len. rewrite slength_app. lia. Qed.

(** [total] is everything written so far. *)
Definition cap_ok (w : capWriter) (total : string) : Prop :=
  0 < limit w ∧ n w = len (buf w) ∧ buf w = str_take (Z.to_nat (limit w)) total ∧
  truncated w = (limit w <? len total).

Lemma cap_n w total : cap_ok w total → n w = Z.min (limit w) (len total).
Proof.
  intros (H0 & H1 & H2 & _). rewrite H1, H2. unfold len. rewrite length_str_take. lia.
Qed.

Lemma Write_ok w total p : cap_ok w total → p ≠ "" →
  cap_ok (Write w p) (total +:+ p) ∧ limit (Write w p) = limit w ∧
  buf (Write w p) = buf w +:+
    (if 0 <? limit w - n w then (if limit w - n w <? len p then str_take (Z.to_nat (limit w - n w)) p else p) else "").
Proof.
  intros Hok Hp. pose proof (cap_n _ _ Hok) as Hn. pose proof (len_nonneg total).
  assert (0 < len p) by (destruct p; [done|unfold len; cbn; lia]).
  destruct Hok as (K0 & K1 & K2 & K3). unfold Write.
  destruct (limit w <=? n w) eqn:Hfull; boolp.
  { rewrite (proj2 (Z.ltb_ge 0 _)) by lia. rewrite sapp_nil_r. split; [|done].
    unfold cap_ok. cbn. rewrite len_app. repeat split; try done.
    - rewrite str_take_app_less by (unfold len in *; lia). done.
    - symmetry. apply Z.ltb_lt. lia. }
  rewrite (proj2 (Z.ltb_lt 0 _)) by lia.
  assert (Hbuf : buf w = total).
  { rewrite K2. apply str_take_all. unfold len in *. lia. }
  cbv zeta. destruct (limit w - n w <? len p) eqn:Hroom; boolp; (split; [|done]); unfold cap_ok; cbn;
    rewrite ?len_app, ?Hbuf; repeat split; try done.
  - unfold len in *. rewrite length_str_take. lia.
  - rewrite str_take_app_more by (unfold len in *; lia). f_equal. f_equal. unfold len in *. lia.
  - symmetry. apply Z.ltb_lt. lia.
  - lia.
  - symmetry. apply str_take_all. rewrite slength_app. unfold len in *. lia.
  - rewrite K3. transitivity false; [apply Z.ltb_ge|symmetry; apply Z.ltb_ge]; lia.
Qed.

Lemma pump_ok w total sink reads : cap_ok w total → Forall (.≠ "") reads →
  let '(w', out) := pump w sink reads in
  cap_ok w' (total +:+ cat reads) ∧ limit w' = limit w ∧
  (sink = true → buf w' = buf w +:+ cat out) ∧ (sink = false → out = []).
Proof.
  revert w total. induction reads as [|p reads IH]; intros w total Hok Hne.
  { cbn. rewrite !sapp_nil_r. done. }
  apply Forall_cons in Hne as [Hp Hne]. cbn [pump]. destruct (Write_ok w total p Hok Hp) as (Hok' & Hl & Hb).
  specialize (IH _ _ Hok' Hne). destruct (pump (Write w p) sink reads) as [w' out].
  destruct IH as (I1 & I2 & I3 & I4). cbn [cat foldr]. rewrite sapp_assoc.
  split; [done|split; [congruence|split]].
  - intros ->. rewrite I3 by done. rewrite Hb. cbn [andb].
    destruct (0 <? limit w - n w); cbn [app cat foldr]; [by rewrite <- sapp_assoc|by rewrite sapp_nil_r].
  - intros ->. by rewrite I4.
Qed.

(** output is capped exactly.  However the output is cut into reads, the
    buffer keeps its first [limit] bytes, the truncation flag says whether there
    were more, and a live sink receives exactly the bytes that are kept. *)
Theorem output_capped lim sink reads :
  0 < lim → Forall (.≠ "") reads →
  let '(w, out) := pump (new_capWriter lim) sink reads in
  buf w = str_take (Z.to_nat lim) (cat reads) ∧ truncated w = (lim <? len (cat reads)) ∧
  len (buf w) ≤ lim ∧ cat out = if sink then buf w else "".
Proof.
  intros Hl Hne. pose proof (pump_ok (new_capWriter lim) "" sink reads) as H.
  assert (Hok : cap_ok (new_capWriter lim) "").
  { unfold cap_ok. cbn. repeat split; [done|by destruct (Z.to_nat lim)|]. symmetry. apply Z.ltb_ge. change (len "") with 0. lia. }
  specialize (H Hok Hne). destruct (pump _ sink reads) as [w out]. destruct H as (H1 & H2 & H3 & H4).
  pose proof (cap_n _ _ H1) as Hn. destruct H1 as (K0 & K1 & K2 & K3). rewrite H2 in *. cbn in *.
  split; [done|split; [done|split; [lia|]]]. destruct sink; [|by rewrite H4]. by rewrite H3.
Qed.

Lemma output_capped_witness :
  buf (pump (new_capWriter 5) true ["abc"; "defg"]).1 = "abcde" ∧
  cat (pump (new_capWriter 5) true ["abc"; "defg"]).2 = "abcde".
Proof.
  assert (Hne : Forall (.≠ "") ["abc"; "defg"]) by (repeat constructor; done).
  pose proof (output_capped 5 true ["abc"; "defg"] ltac:(lia) Hne) as H.
  destruct (pump (new_capWriter 5) true ["abc"; "defg"]) as [w out]. destruct H as (H1 & _ & _ & H4).
  cbn [fst snd]. rewrite H4, H1. done.
Defined.

(** ** Files *)
Lemma sanitizeName_simple name : sanitizeName name = "" ∨ Filepath.simple (sanitizeName name).
Proof.
  unfold sanitizeName. destruct (String.eqb (TrimSpace name) "") eqn:Ht; [by left|].
  destruct (_ || _) eqn:Hb; [by left|]. boolp. right.
  assert (Hne : Filepath.Base (TrimSpace name) ≠ "").
  { unfold Filepath.Base. rewrite (proj2 (String.eqb_neq _ _) Ht).
    case_match eqn:E; [done|]. by boolp. }
  unfold Filepath.simple. auto.
Qed.

Section exec.
Context (uni_lower : string → string).

Lemma write_files_spec e jobDir fs tr err :
  jobDir ≠ "" → write_files uni_lower e jobDir fs = (tr, err) →
  Forall (λ ev, ∃ path data, ev = EWriteFile path data ∧ Filepath.Dir path = Filepath.Clean jobDir) tr.
Proof.
  intros Hj. revert tr err. induction fs as [|f fs IH]; intros tr err; cbn [write_files].
  { intros [= <- <-]. constructor. }
  destruct (String.eqb (sanitizeName (f_Name f)) "") eqn:Hs; [apply IH|]. boolp.
  destruct (decodeFile uni_lower f) as [data|]; [|intros [= <- <-]; constructor].
  assert (Hdir : Filepath.Dir (Filepath.Join [jobDir; sanitizeName (f_Name f)]) = Filepath.Clean jobDir).
  { apply Filepath.Dir_Join_simple; [done|]. by destruct (sanitizeName_simple (f_Name f)). }
  destruct (x_write e _); [|intros [= <- <-]; repeat constructor; eauto].
  destruct (write_files uni_lower e jobDir fs) as [tr' err'] eqn:E. intros [= <- <-].
  constructor; [eauto|]. by apply (IH _ err').
Qed.

Definition is_write (ev : event) : Prop := match ev with EWriteFile _ _ => True | _ => False end.

(** whatever names the caller gives its files (absolute, with dots,
    slashes or backslashes, blank), every file the run writes on the host lies
    directly in the job directory. *)
Theorem files_stay_in_job_dir g e s sink jobDir path data :
  x_tmp e = Some jobDir → jobDir ≠ "" →
  EWriteFile path data ∈ o_trace (Execute uni_lower g e s sink) →
  Filepath.Dir path = Filepath.Clean jobDir.
Proof.
  intros Htmp Hj. unfold Execute. rewrite Htmp.
  destruct (write_files uni_lower e jobDir (Files s)) as [tr err] eqn:Hw.
  pose proof (write_files_spec e jobDir (Files s) tr err Hj Hw) as Hall. rewrite Forall_forall in Hall.
  assert (Hin : EWriteFile path data ∈ tr → Filepath.Dir path = Filepath.Clean jobDir).
  { intros H%Hall. destruct H as (p & d & [= <- <-] & H). done. }
  assert (Hskip : ∀ l, Forall (λ ev, ¬ is_write ev) l → EWriteFile path data ∈ EMkdirTemp jobDir :: tr ++ l →
    Filepath.Dir path = Filepath.Clean jobDir).
  { intros l Hl [?|[H|H]%elem_of_app]%elem_of_cons; [done|auto|].
    rewrite Forall_forall in Hl. by destruct (Hl _ H). }
  destruct (x_chmod e); cbn [negb].
  2:{ cbn. intros H. repeat (apply elem_of_cons in H as [?|H]; [done|]). by apply elem_of_nil in H. }
  destruct err as [err|]; [apply Hskip; repeat constructor; intros []|].
  destruct (x_pipes e); cbn [negb]; [|apply Hskip; repeat constructor; intros []].
  destruct (x_start e); cbn [negb]; [|apply Hskip; repeat constructor; intros []].
  destruct (collect e s sink _ _) as [[res so] se]. cbn [o_trace].
  apply Hskip. destruct (x_timeout e); repeat constructor; intros [].
Qed.

(** ** Tear-down *)

(** The traces of [Execute]. *)
Inductive run_shape : list event → Prop :=
| shape_none : run_shape []
| shape_early dir ws : Forall is_write ws → run_shape (EMkdirTemp dir :: ws ++ [ERemoveAll dir])
| shape_started dir ws name rest stdin mid :
    Forall is_write ws → mid ∈ [[]; [EInspect name]; [EKill name; EInspect name]] →
    run_shape (EMkdirTemp dir :: ws ++ EStart ("run" :: "--name" :: name :: rest) stdin ::
               mid ++ [ERemoveContainer name; ERemoveAll dir]).

Lemma write_files_writes e jobDir fs : Forall is_write (write_files uni_lower e jobDir fs).1.
Proof.
  induction fs as [|f fs IH]; cbn [write_files]; [constructor|].
  case_match; [done|]. destruct (decodeFile _ _); [|constructor].
  destruct (x_write e _); [|by repeat constructor].
  destruct (write_files uni_lower e jobDir fs) as [tr err]. by constructor.
Qed.

Lemma execute_shape g e s sink : run_shape (o_trace (Execute uni_lower g e s sink)).
Proof.
  unfold Execute. destruct (x_tmp e) as [jobDir|]; [|constructor].
  pose proof (write_files_writes e jobDir (Files s)) as Hw.
  destruct (write_files uni_lower e jobDir (Files s)) as [tr err]. cbn [fst] in Hw.
  destruct (x_chmod e); cbn [negb]; [|by apply (shape_early jobDir [])].
  destruct err as [err|]; [by apply shape_early|].
  destruct (x_pipes e); cbn [negb]; [|by apply shape_early].
  destruct (x_start e); cbn [negb].
  - destruct (collect e s sink _ _) as [[res so] se]. cbn [o_trace].
    destruct (x_timeout e).
    + apply (shape_started jobDir tr _ _ _ [EKill ("iso-" +:+ x_uuid e); EInspect ("iso-" +:+ x_uuid e)]); [done|].
      right; right; left.
    + apply (shape_started jobDir tr _ _ _ [EInspect ("iso-" +:+ x_uuid e)]); [done|]. right; left.
  - apply (shape_started jobDir tr _ _ _ []); [done|]. left.
Qed.

Lemma in_shape ws l ev : ¬ is_write ev → Forall is_write ws → ev ∈ ws ++ l ↔ ev ∈ l.
Proof.
  intros Hev Hws. rewrite elem_of_app. split; [|by right]. intros [H|]; [|done].
  rewrite Forall_forall in Hws. by apply Hws in H.
Qed.

(** C30: every run cleans up after itself.  On every path, errors, timeouts and
    a failed start included, a job directory that was created is removed last;
    and if docker run was started, the very container it named is force-removed
    just before. *)
Theorem execute_reaps g e s sink :
  let tr := o_trace (Execute uni_lower g e s sink) in
  (∀ dir, EMkdirTemp dir ∈ tr → last tr = Some (ERemoveAll dir)) ∧
  (∀ args stdin, EStart args stdin ∈ tr →
     ∃ pre name dir rest, tr = pre ++ [ERemoveContainer name; ERemoveAll dir] ∧
       args = "run" :: "--name" :: name :: rest).
Proof.
  cbv zeta. destruct (execute_shape g e s sink) as [|dir ws Hws|dir ws name rest stdin mid Hws Hmid].
  - split; intros *; by intros ?%elem_of_nil.
  - rewrite app_comm_cons, last_snoc. split.
    + intros d. rewrite <- app_comm_cons, elem_of_cons, in_shape by (done || intros []).
      rewrite list_elem_of_singleton. by intros [[= ->]|].
    + intros args i. rewrite <- app_comm_cons, elem_of_cons, in_shape by (done || intros []).
      rewrite list_elem_of_singleton. by intros [|].
  - assert (Hm : ∀ ev, ev ∈ mid → (∀ d, ev ≠ EMkdirTemp d) ∧ ∀ a i, ev ≠ EStart a i).
    { intros ev. rewrite !elem_of_cons, elem_of_nil in Hmid.
      destruct Hmid as [->|[->|[->|[]]]]; rewrite ?elem_of_cons, ?elem_of_nil; naive_solver. }
    assert (Heq : EMkdirTemp dir :: ws ++ EStart ("run" :: "--name" :: name :: rest) stdin ::
                    mid ++ [ERemoveContainer name; ERemoveAll dir] =
      (EMkdirTemp dir :: ws ++ EStart ("run" :: "--name" :: name :: rest) stdin :: mid ++ [ERemoveContainer name]) ++ [ERemoveAll dir]).
    { cbn. f_equal. rewrite <- app_assoc. f_equal. cbn. f_equal. by rewrite <- app_assoc. }
    split.
    + intros d. rewrite elem_of_cons, in_shape, elem_of_cons, elem_of_app, !elem_of_cons, elem_of_nil
        by (done || intros []). rewrite Heq, last_snoc.
      intros [[= ->]|[?|[H|[?|[?|[]]]]]]; try done. by destruct (proj1 (Hm _ H) d).
    + intros args i. rewrite elem_of_cons, in_shape, elem_of_cons, elem_of_app, !elem_of_cons, elem_of_nil
        by (done || intros []).
      intros [?|[[= -> ->]|[H|[?|[?|[]]]]]]; try done; [|by destruct (proj2 (Hm _ H) args i)].
      exists (EMkdirTemp dir :: ws ++ EStart ("run" :: "--name" :: name :: rest) stdin :: mid), name, dir, rest.
      split; [|done]. cbn. f_equal. by rewrite <- app_assoc.
Qed.

(** ** Results *)

Lemma new_cap_ok s : cap_ok (new_capWriter (output_limit s)) "".
Proof.
  assert (0 < output_limit s) by (unfold output_limit; case_match; boolp; [reflexivity|done]).
  unfold cap_ok. cbn. repeat split; [done|by destruct (Z.to_nat _)|]. symmetry. apply Z.ltb_ge.
  change (len "") with 0. lia.
Qed.


(** what a completed run reports: at most the output limit per stream,
    and a timeout is always exit code 137 and never an out-of-memory kill. *)
Theorem result_bounds g e s sink :
  Forall (.≠ "") (x_out e) → Forall (.≠ "") (x_err e) →
  o_err (Execute uni_lower g e s sink) = None →
  let r := o_res (Execute uni_lower g e s sink) in
  let lim := output_limit (s_Limits s) in
  Stdout r = str_take (Z.to_nat lim) (cat (x_out e)) ∧ Stderr r = str_take (Z.to_nat lim) (cat (x_err e)) ∧
  Truncated r = (lim <? len (cat (x_out e))) || (lim <? len (cat (x_err e))) ∧
  TimedOut r = x_timeout e ∧ (TimedOut r = true → ExitCode r = 137 ∧ OOMKilled r = false) ∧
  (TimedOut r = false → ∀ oc, inspectState (x_inspect e) = Some oc → OOMKilled r = oc.1 ∧ ExitCode r = oc.2).
Proof.
  intros Ho He. unfold Execute. destruct (x_tmp e) as [jobDir|]; [|done].
  destruct (x_chmod e); [|done]. cbn [negb].
  destruct (write_files _ _ _ _) as [tr [err|]]; [done|].
  destruct (x_pipes e); [|done]. destruct (x_start e); [|done]. cbn [negb].
  unfold collect. pose proof (new_cap_ok (s_Limits s)) as Hok.
  pose proof (pump_ok (new_capWriter (output_limit (s_Limits s))) "" sink (x_out e)) as H1.
  pose proof (pump_ok (new_capWriter (output_limit (s_Limits s))) "" sink (x_err e)) as H2.
  specialize (H1 Hok Ho). specialize (H2 Hok He).
  destruct (pump _ sink (x_out e)) as [w1 o1], (pump _ sink (x_err e)) as [w2 o2].
  destruct H1 as ((_ & _ & B1 & T1) & L1 & _), H2 as ((_ & _ & B2 & T2) & L2 & _).
  rewrite L1 in *. rewrite L2 in *. cbn in B1, B2, T1, T2.
  destruct (match inspectState (x_inspect e) with Some _ => _ | None => _ end) as [oom code] eqn:Hi.
  intros _. cbn. rewrite T1, T2. do 4 (split; [done|]). split.
  - intros ->. done.
  - intros ->. intros oc Hoc. rewrite Hoc in Hi. by subst.
Qed.
End exec.

(** ** The docker arguments *)

Lemma networkEnabled_spec g s stat :
  networkEnabled g s stat = true ↔
    Network s = true ∧ AllowNetwork g = true ∧ EgressNetwork g ≠ "" ∧
    (Sentinel g ≠ "" → ∃ age, stat = Some age ∧ age < SentinelMaxAge g).
Proof.
  unfold networkEnabled, egressFirewallFresh. rewrite !andb_true_iff, negb_true_iff, String.eqb_neq.
  destruct (String.eqb (Sentinel g) "") eqn:Hs; boolp.
  - split; [|by intros (H1 & H2 & H3 & _)]. intros [[[H1 H2] H3] _]. do 3 (split; [done|]). done.
  - destruct stat as [age|].
    + rewrite Z.ltb_lt. split.
      * intros [[[H1 H2] H3] H4]. eauto 10.
      * intros (H1 & H2 & H3 & H4). destruct (H4 Hs) as (age' & [= <-] & H5). done.
    + split; [by intros [_ ?]|]. intros (_ & _ & _ & H). by destruct (H Hs) as (? & ? & _).
Qed.

(** The options of a docker command line, read on their own: [--flag=value] is one word,
    [--read-only] takes no value, and every other flag takes the next word. *)
Fixpoint options (args : list string) : list (string * string) :=
  match args with
  | [] => []
  | a :: args =>
      match split2 "=" a with
      | Some fv => fv :: options args
      | None => if String.eqb a "--read-only" then (a, "") :: options args else
                match args with [] => [(a, "")] | v :: args => (a, v) :: options args end
      end
  end.
Definition values (flag : string) (os : list (string * string)) : list string :=
  map snd (List.filter (λ o, String.eqb o.1 flag) os).
(** Every flag a sandbox is started with. *)
Definition run_flags : list string :=
  ["--name"; "--runtime"; "--network"; "-v"; "--read-only"; "--tmpfs"; "-w"; "--memory"; "--memory-swap"; "--cpus";
   "--pids-limit"; "--cap-drop"; "--security-opt"; "--user"; "--cgroup-parent"; "--hostname"; "--label"; "--env"].
Definition mount_value (m : Mount) : string := HostPath m +:+ ":" +:+ Target m +:+ ":" +:+ (if m_RW m then "rw" else "ro").
Definition env_value (kv : string * string) : string := kv.1 +:+ "=" +:+ kv.2.
Lemma options_mounts ms args : options (flat_map mount_args ms ++ args) = map (pair "-v") (map mount_value ms) ++ options args.
Proof. induction ms as [|m ms IH]; [done|]. cbn -[String.append]. by rewrite IH. Qed.
Lemma options_env kvs : options (flat_map (env_arg "--env") kvs) = map (pair "--env") (map env_value kvs).
Proof. induction kvs as [|kv kvs IH]; [done|]. cbn -[String.append]. by rewrite IH. Qed.
Lemma values_app flag os os' : values flag (os ++ os') = values flag os ++ values flag os'.
Proof. unfold values. by rewrite List.filter_app, map_app. Qed.
Lemma values_pair flag f vs : values flag (map (pair f) vs) = if String.eqb f flag then vs else [].
Proof.
  unfold values. induction vs as [|v vs IH]; [by destruct (String.eqb f flag)|]. cbn. destruct (String.eqb f flag); [|done].
  cbn. by rewrite IH.
Qed.
Lemma pair_flags f vs (fs : list string) : f ∈ fs → Forall (λ o : string * string, o.1 ∈ fs) (map (pair f) vs).
Proof. intros H. by induction vs; constructor. Qed.

(** The options of [buildRunArgs], in order. *)
Definition fixed_options (g : Gvisor) (s : Spec) (mem : Z) (cpus : float) (pids : Z) (tmpfs jobDir workdir : string) :
    list (string * string) :=
  [("--read-only", ""); ("--tmpfs", tmpfs); ("-v", jobDir +:+ ":/box:ro"); ("-w", workdir); ("--memory", Itoa mem);
   ("--memory-swap", Itoa mem); ("--cpus", FormatFloat2 cpus); ("--pids-limit", Itoa pids); ("--cap-drop", "ALL");
   ("--security-opt", "no-new-privileges"); ("--user", User g); ("--cgroup-parent", Slice g); ("--hostname", "sandbox");
   ("--label", "isobox.managed=true")].
Lemma run_options g name jobDir s stat1 stat2 : ∃ flags mem cpus pids tmpfs workdir,
  buildRunArgs g name jobDir s stat1 stat2 = flags ++ [Image s] ∧
  options flags = ("--name", name) :: ("--runtime", if networkEnabled g s stat1 then NetRuntime g else Runtime g) ::
    ("--network", if networkEnabled g s stat1 then EgressNetwork g else "none") ::
    map (pair "-v") (if networkEnabled g s stat2 && negb (String.eqb (ResolvConf g) "")
                     then [ResolvConf g +:+ ":/etc/resolv.conf:ro"] else []) ++
    fixed_options g s mem cpus pids tmpfs jobDir workdir ++
    map (pair "-v") (map mount_value (Mounts s)) ++ map (pair "--env") (map env_value (run_env s)).
Proof.
  unfold buildRunArgs. cbv zeta.
  generalize (positive_or (MemoryBytes (s_Limits s)) (Z.shiftl 256 20)), (positive_or (Pids (s_Limits s)) 128),
    (if fleb (CPUs (s_Limits s)) (of_Z 0) then of_Z 1 else CPUs (s_Limits s)),
    (tmpfs_opt (if ScratchExec s then "exec" else "noexec") (positive_or (ScratchMB s) 64)),
    (if String.eqb (Workdir s) "" then "/box" else Workdir s).
  intros mem pids cpus tmpfs workdir.
  exists (["--name"; name; "--runtime"; if networkEnabled g s stat1 then NetRuntime g else Runtime g;
     if networkEnabled g s stat1 then "--network=" +:+ EgressNetwork g else "--network=none"] ++
    (if networkEnabled g s stat2 && negb (String.eqb (ResolvConf g) "") then ["-v"; ResolvConf g +:+ ":/etc/resolv.conf:ro"] else []) ++
    ["--read-only"; "--tmpfs"; tmpfs; "-v"; jobDir +:+ ":/box:ro"; "-w"; workdir] ++
    resource_args mem cpus pids ++ isolation_args g ++ flat_map mount_args (Mounts s) ++ flat_map (env_arg "--env") (run_env s)),
    mem, cpus, pids, tmpfs, workdir.
  split; [by rewrite <- !app_assoc|]. rewrite <- options_env, <- options_mounts.
  by destruct (networkEnabled g s stat1), (networkEnabled g s stat2 && negb (String.eqb (ResolvConf g) "")).
Qed.

(** C38: network access fails closed.  Whatever the spec, the options of a container, read back
    from the whole command line up to its image, hold one [--runtime] and one [--network], and
    no flag outside a fixed list.  They are the no-network runtime and [none], unless the
    request asked for network, the operator allows it and configured an egress network, and
    the firewall sentinel, if one is configured, was read as present and fresh (an empty
    sentinel disables that check).  A resolver file is mounted only under the same
    conditions, and nothing else is but the job and the mounts of the spec. *)
Theorem network_fails_closed g name jobDir s stat1 stat2 :
  ∃ flags dns, buildRunArgs g name jobDir s stat1 stat2 = flags ++ [Image s] ∧
    Forall (λ o, o.1 ∈ run_flags) (options flags) ∧
    ((values "--runtime" (options flags) = [Runtime g] ∧ values "--network" (options flags) = ["none"]) ∨
     (values "--runtime" (options flags) = [NetRuntime g] ∧ values "--network" (options flags) = [EgressNetwork g] ∧
      Network s = true ∧ AllowNetwork g = true ∧ EgressNetwork g ≠ "" ∧
      (Sentinel g ≠ "" → ∃ age, stat1 = Some age ∧ age < SentinelMaxAge g))) ∧
    values "-v" (options flags) = dns ++ (jobDir +:+ ":/box:ro") :: map mount_value (Mounts s) ∧
    (dns = [] ∨ dns = [ResolvConf g +:+ ":/etc/resolv.conf:ro"] ∧ Network s = true ∧ AllowNetwork g = true ∧
      EgressNetwork g ≠ "" ∧ (Sentinel g ≠ "" → ∃ age, stat2 = Some age ∧ age < SentinelMaxAge g)).
Proof.
  destruct (run_options g name jobDir s stat1 stat2) as (flags & mem & cpus & pids & tmpfs & wd & E1 & E2).
  exists flags, (if networkEnabled g s stat2 && negb (String.eqb (ResolvConf g) "")
                 then [ResolvConf g +:+ ":/etc/resolv.conf:ro"] else []).
  split; [exact E1|]. rewrite E2. clear E1 E2 flags. split_and!.
  - do 3 (constructor; [set_solver|]). apply Forall_app; split; [apply pair_flags; set_solver|].
    apply Forall_app; split; [repeat constructor; set_solver|]. apply Forall_app; split; apply pair_flags; set_solver.
  - assert (H : ∀ flag os, flag = "--runtime" ∨ flag = "--network" → values flag (os ++ map (pair "-v") (map mount_value (Mounts s)) ++
      map (pair "--env") (map env_value (run_env s))) = values flag os).
    { intros flag os [-> | ->]; by rewrite !values_app, !values_pair, !app_nil_r. }
    rewrite !app_comm_cons, !app_assoc, <- (app_assoc _ (map (pair "-v") (map mount_value _))), !H by auto.
    rewrite <- !app_comm_cons.
    destruct (networkEnabled g s stat1) eqn:E; [right|left].
    + apply networkEnabled_spec in E as (H1 & H2 & H3 & H4). by destruct (_ && _).
    + by destruct (_ && _).
  - change (?a :: ?b :: ?c :: ?l) with ([a; b; c] ++ l). rewrite !values_app, !values_pair. cbn. by rewrite app_nil_r.
  - destruct (networkEnabled g s stat2) eqn:E; [|by left]. apply networkEnabled_spec in E as (H1 & H2 & H3 & H4).
    destruct (negb _); [|by left]. by right.
Qed.

Lemma started_args uni_lower g e s sink args i :
  EStart args i ∈ o_trace (Execute uni_lower g e s sink) →
  ∃ jobDir, x_tmp e = Some jobDir ∧
    args = "run" :: buildRunArgs g ("iso-" +:+ x_uuid e) jobDir s (x_stat e 1%nat) (x_stat e 2%nat) ++
           ["sh"; "-c"; launch_script s; "iso"] ++ Argv s ∧
    i = (if String.eqb (Stdin s) "" then None else Some (Stdin s)).
Proof.
  unfold Execute. destruct (x_tmp e) as [jobDir|]; [|by intros ?%elem_of_nil].
  pose proof (write_files_writes uni_lower e jobDir (Files s)) as Hw.
  destruct (write_files uni_lower e jobDir (Files s)) as [tr err]. cbn [fst] in Hw.
  assert (Hskip : ∀ l ev, ¬ is_write ev → ev ≠ EMkdirTemp jobDir → ev ∈ EMkdirTemp jobDir :: tr ++ l → ev ∈ l).
  { intros l ev Hev Hne. rewrite elem_of_cons, in_shape by done. by intros [?|]. }
  assert (Hlast : ∀ l, EStart args i ∈ l → Forall (λ ev, ∀ a j, ev ≠ EStart a j) l → False).
  { intros l Hin Hl. rewrite Forall_forall in Hl. by destruct (Hl _ Hin args i). }
  destruct (x_chmod e); cbn [negb].
  2:{ cbn. intros H. exfalso. apply (Hlast _ H). by repeat constructor. }
  destruct err as [err|].
  { intros H%Hskip; [|intros []|done]. exfalso. apply (Hlast _ H). by repeat constructor. }
  destruct (x_pipes e); cbn [negb].
  2:{ intros H%Hskip; [|intros []|done]. exfalso. apply (Hlast _ H). by repeat constructor. }
  assert (Hstart : ∀ l a j, Forall (λ ev, ∀ a j, ev ≠ EStart a j) l → EStart args i ∈ EStart a j :: l →
    args = a ∧ i = j).
  { intros l a j Hl. rewrite elem_of_cons. intros [[= -> ->]|H]; [done|]. by destruct (Hlast _ H). }
  destruct (x_start e); cbn [negb].
  - destruct (collect e s sink _ _) as [[res so] se]. cbn [o_trace].
    intros H%Hskip; [|intros []|done]. apply Hstart in H as [-> ->]; [by exists jobDir|].
    destruct (x_timeout e); by repeat constructor.
  - intros H%Hskip; [|intros []|done]. apply Hstart in H as [-> ->]; [by exists jobDir|].
    by repeat constructor.
Qed.

(** The caller's part of a request; the rest comes from the registry and the
    operator. *)
Definition with_user (s : Spec) (files : list File) (stdin : string) (argv : list string) : Spec :=
  {| Lang := Lang s; Image := Image s; Compile := Compile s; Run := Run s; Workdir := Workdir s;
     Env := Env s; ScratchExec := ScratchExec s; ScratchMB := ScratchMB s; Mounts := Mounts s;
     Files := files; Stdin := stdin; Argv := argv; s_Limits := s_Limits s; Network := Network s |}.

(** C31: what the caller sends is data.  The files, the standard input and the
    arguments of a request occur in the docker command line only as the
    positional parameters at its very end: everything before them, flags,
    image and shell script, is the same whatever the caller sent. *)
Theorem user_input_inert uni_lower g e s files stdin argv sink args i :
  EStart args i ∈ o_trace (Execute uni_lower g e (with_user s files stdin argv) sink) →
  ∃ jobDir, x_tmp e = Some jobDir ∧
    args = "run" :: buildRunArgs g ("iso-" +:+ x_uuid e) jobDir s (x_stat e 1%nat) (x_stat e 2%nat) ++
           ["sh"; "-c"; launch_script s; "iso"] ++ argv ∧
    i = (if String.eqb stdin "" then None else Some stdin).
Proof. apply (started_args uni_lower g e (with_user s files stdin argv)). Qed.

(** ** A concrete run *)
Definition demo_spec : Spec := {|
  Lang := {| l_Name := "python"; l_Version := "3.12" |}; Image := "py@sha256:0"; Compile := [];
  Run := ["python3"; "/box/main.py"]; Workdir := "/box"; Env := ∅; ScratchExec := false;
  ScratchMB := 0; Mounts := []; Files := [{| f_Name := "../../etc/main.py"; f_Content := "print(1)"; f_Encoding := "" |}];
  Stdin := ""; Argv := ["--x; rm -rf /"]; Network := true;
  s_Limits := {| MemoryBytes := 0; CPUs := of_Z 0; Pids := 0; OutputBytes := 4; WallTimeMs := 1000;
                 CompileTimeMs := 0 |} |}.
Definition demo_env : xenv := {|
  x_tmp := Some "/tmp/iso-job-1"; x_chmod := true; x_write := λ _, true; x_uuid := "u1"; x_pipes := true;
  x_start := true; x_stat := λ _, None; x_out := ["hello"]; x_err := []; x_timeout := true;
  x_inspect := Some "true|137"; x_exit := Some 137; x_ms := 1000 |}.
Definition demo_trace : list event := o_trace (Execute id NewGvisor demo_env demo_spec false).

Lemma files_stay_witness : Filepath.Dir "/tmp/iso-job-1/main.py" = "/tmp/iso-job-1".
Proof.
  apply (files_stay_in_job_dir id NewGvisor demo_env demo_spec false "/tmp/iso-job-1"
    "/tmp/iso-job-1/main.py" "print(1)"); [reflexivity|done|].
  unfold demo_trace. vm_compute. right; left.
Defined.

Lemma result_bounds_witness :
  Stdout (o_res (Execute id NewGvisor demo_env demo_spec false)) = "hell" ∧
  ExitCode (o_res (Execute id NewGvisor demo_env demo_spec false)) = 137.
Proof.
  destruct (result_bounds id NewGvisor demo_env demo_spec false) as (H1 & _ & _ & _ & H2 & _);
    [by repeat constructor|constructor|reflexivity|]. split; [rewrite H1; reflexivity|apply H2; reflexivity].
Defined.

Lemma user_input_inert_witness :
  ∃ args, EStart args None ∈ demo_trace ∧ ∃ front, args = front ++ ["--x; rm -rf /"].
Proof.
  set (args := "run" :: buildRunArgs NewGvisor "iso-u1" "/tmp/iso-job-1" demo_spec None None ++
    ["sh"; "-c"; launch_script demo_spec; "iso"; "--x; rm -rf /"]).
  assert (Hin : EStart args None ∈ o_trace (Execute id NewGvisor demo_env
    (with_user demo_spec (Files demo_spec) (Stdin demo_spec) (Argv demo_spec)) false)).
  { vm_compute. right; right; left. }
  exists args. split; [exact Hin|].
  destruct (user_input_inert id NewGvisor demo_env demo_spec _ _ _ false args None Hin)
    as (jobDir & _ & -> & _).
  exists ("run" :: buildRunArgs NewGvisor ("iso-" +:+ x_uuid demo_env) jobDir demo_spec
    (x_stat demo_env 1%nat) (x_stat demo_env 2%nat) ++ ["sh"; "-c"; launch_script demo_spec; "iso"]).
  generalize (buildRunArgs NewGvisor ("iso-" +:+ x_uuid demo_env) jobDir demo_spec
    (x_stat demo_env 1%nat) (x_stat demo_env 2%nat)) as l. intros l.
  change (Argv demo_spec) with ["--x; rm -rf /"]. cbn [app]. f_equal. by rewrite <- app_assoc.
Defined.
