(* ===== verification/Pumps.v ===== *)
(** * internal/executor: a run while it runs

    [Gvisor.Execute] (gvisor.go) and the warm path (warmpool.go) start the docker client,
    read its two pipes in goroutines ([pump]) and wait for it.  [Executor.Execute] and
    [WarmPool.Execute] take the chunks that the goroutines read as what they observe; here
    those chunks come from an interleaving of the client, the two goroutines and the caller
    in [cmd.Wait], which closes the pipes once the client has exited.  A pipe is
    unbounded: what the operating system buffers is not the program's. *)

From S2P Require Import Prelude GoLib GoStrings GoFloat Executor ExecutorSpec.

(** ** One stream *)

(** [st_written] and [st_reads] are a record of what happened: the bytes the client wrote
    and the chunks the goroutine read. *)
Record stream := {
  st_pipe : string; st_written : string; st_reads : list string;
  st_w : capWriter; st_sent : list string; st_done : bool }.
Definition new_stream (lim : Z) : stream := {|
  st_pipe := ""; st_written := ""; st_reads := []; st_w := new_capWriter lim; st_sent := []; st_done := false |}.
Definition client_writes (c : string) (st : stream) : stream := {|
  st_pipe := st_pipe st +:+ c; st_written := st_written st +:+ c; st_reads := st_reads st; st_w := st_w st;
  st_sent := st_sent st; st_done := st_done st |}.
(** The body of the loop of [pump], for a read of [c]. *)
Definition pump_body (sink : bool) (c rest : string) (st : stream) : stream :=
  let w := st_w st in
  let room := limit w - n w in
  let sent := if sink && (0 <? room) then [if room <? len c then str_take (Z.to_nat room) c else c] else [] in
  {| st_pipe := rest; st_written := st_written st; st_reads := st_reads st ++ [c]; st_w := Write w c;
     st_sent := st_sent st ++ sent; st_done := false |}.
(** [defer wg.Done()]. *)
Definition pump_ends (st : stream) : stream := {|
  st_pipe := st_pipe st; st_written := st_written st; st_reads := st_reads st; st_w := st_w st; st_sent := st_sent st;
  st_done := true |}.
Definition pump_buffer : Z := Z.shiftl 16 10.

(** A turn of the goroutine: data, the end of the file, or [os.ErrClosed].  [exited]: the
    write end is closed; [closed]: the read end is. *)
Inductive pump_turn (sink exited closed : bool) (st : stream) : stream → Prop :=
| pt_read c rest : st_done st = false → closed = false → st_pipe st = c +:+ rest → c ≠ "" → len c ≤ pump_buffer →
    pump_turn sink exited closed st (pump_body sink c rest st)
| pt_eof : st_done st = false → closed = false → exited = true → st_pipe st = "" →
    pump_turn sink exited closed st (pump_ends st)
| pt_closed : st_done st = false → closed = true → pump_turn sink exited closed st (pump_ends st).

(** ** A run *)
Record running := { ru_out : stream; ru_err : stream; ru_exited : bool; ru_waited : bool }.
Definition started (lim : Z) : running :=
  {| ru_out := new_stream lim; ru_err := new_stream lim; ru_exited := false; ru_waited := false |}.
(** [wg.Wait] after [cmd.Wait]: the results are read. *)
Definition finished (r : running) : bool := ru_waited r && st_done (ru_out r) && st_done (ru_err r).

(** [order]: whether [cmd.Wait] is only called once the goroutines are done, as os/exec asks; the code
    calls it at once ([false]). *)
Inductive run_step (order sink : bool) : running → running → Prop :=
| rs_stdout o e c : c ≠ "" →
    run_step order sink (Build_running o e false false) (Build_running (client_writes c o) e false false)
| rs_stderr o e c : c ≠ "" →
    run_step order sink (Build_running o e false false) (Build_running o (client_writes c e) false false)
| rs_exit o e : run_step order sink (Build_running o e false false) (Build_running o e true false)
| rs_pump_out o e x w o' : pump_turn sink x w o o' → run_step order sink (Build_running o e x w) (Build_running o' e x w)
| rs_pump_err o e x w e' : pump_turn sink x w e e' → run_step order sink (Build_running o e x w) (Build_running o e' x w)
| rs_wait o e : (order = true → st_done o = true ∧ st_done e = true) →
    run_step order sink (Build_running o e true false) (Build_running o e true true).
Notation steps order sink := (rtc (run_step order sink)).

(** ** What holds of a stream at any moment *)
Lemma pump_snoc w sink l c :
  pump w sink (l ++ [c]) = let '(w1, o1) := pump w sink l in let '(w2, o2) := pump w1 sink [c] in (w2, o1 ++ o2).
Proof.
  revert w. induction l as [|p l IH]; intros w; [cbn; by destruct (_ ++ [])|]. cbn [pump app]. rewrite IH.
  destruct (pump (Write w p) sink l) as [w1 o1]. cbn [pump]. by rewrite <- !app_assoc.
Qed.
Lemma cat_app l l' : cat (l ++ l') = cat l +:+ cat l'.
Proof.
  induction l as [|x l IH]; [done|]. change (cat ((x :: l) ++ l')) with (x +:+ cat (l ++ l')). rewrite IH. apply sapp_assoc.
Qed.

Record stream_ok (lim : Z) (sink : bool) (st : stream) : Prop := {
  so_bytes : st_written st = cat (st_reads st) +:+ st_pipe st;
  so_pump : pump (new_capWriter lim) sink (st_reads st) = (st_w st, st_sent st);
  so_reads : Forall (.≠ "") (st_reads st) }.
Lemma new_stream_ok lim sink : stream_ok lim sink (new_stream lim).
Proof. by split; [..|constructor]. Qed.
Lemma client_writes_ok lim sink c st : stream_ok lim sink st → stream_ok lim sink (client_writes c st).
Proof. intros [H1 H2 H3]. split; [|done..]. cbn. by rewrite H1, sapp_assoc. Qed.
Lemma pump_turn_ok lim sink x w st st' : pump_turn sink x w st st' → stream_ok lim sink st → stream_ok lim sink st'.
Proof.
  intros [c rest _ _ Hp Hc _|_ _ _ _|_ _] [H1 H2 H3]; [|by split..]. split; cbn.
  - rewrite H1, Hp, cat_app. cbn. by rewrite sapp_nil_r, sapp_assoc.
  - rewrite pump_snoc, H2. cbn [pump]. by rewrite app_nil_r.
  - apply Forall_app. split; [done|by repeat constructor].
Qed.
Definition run_ok (lim : Z) (sink : bool) (r : running) : Prop :=
  stream_ok lim sink (ru_out r) ∧ stream_ok lim sink (ru_err r) ∧ (ru_waited r = true → ru_exited r = true).
Lemma run_step_ok lim order sink r r' : run_step order sink r r' → run_ok lim sink r → run_ok lim sink r'.
Proof.
  intros [] (H1 & H2 & H3); unfold run_ok; cbn in *; split_and!; eauto using client_writes_ok, pump_turn_ok.
Qed.
Lemma steps_ok lim order sink r : steps order sink (started lim) r → run_ok lim sink r.
Proof.
  intros H. assert (H0 : run_ok lim sink (started lim)) by (split_and!; [apply new_stream_ok..|done]).
  induction H as [r|r r' r'' Hs _ IH]; [done|]. eauto using run_step_ok.
Qed.

(** A goroutine that is done saw the end of its pipe, if nobody closed it under it. *)
Definition drained (r : running) : Prop :=
  (st_done (ru_out r) = true → st_pipe (ru_out r) = "" ∧ ru_exited r = true) ∧
  (st_done (ru_err r) = true → st_pipe (ru_err r) = "" ∧ ru_exited r = true) ∧
  (ru_waited r = true → st_done (ru_out r) = true ∧ st_done (ru_err r) = true).
Lemma pump_turn_drains sink x w st st' : pump_turn sink x w st st' → st_done st = false ∧
  (st_done st' = true → w = false → st_pipe st' = "" ∧ x = true).
Proof. intros []; split; try done; cbn; congruence. Qed.
Lemma run_step_drained sink r r' : run_step true sink r r' → drained r → drained r'.
Proof.
  unfold drained. intros [o e c _|o e c _|o e|o e x w o' H|o e x w e' H|o e H]; cbn in *; intros (H1 & H2 & H3).
  - split_and!; [intros E; by destruct (H1 E)|exact H2|done].
  - split_and!; [exact H1|intros E; by destruct (H2 E)|done].
  - split_and!; [intros E; by destruct (H1 E)|intros E; by destruct (H2 E)|done].
  - apply pump_turn_drains in H as [Hd H]. destruct w; [by destruct (H3 eq_refl); congruence|]. split_and!; [by intros ?; apply H|done|done].
  - apply pump_turn_drains in H as [Hd H]. destruct w; [by destruct (H3 eq_refl); congruence|]. split_and!; [done|by intros ?; apply H|done].
  - split_and!; [intros E; by destruct (H1 E)|intros E; by destruct (H2 E)|intros _; by apply H].
Qed.

Lemma steps_drained lim sink r : steps true sink (started lim) r → drained r.
Proof.
  intros H. assert (H0 : drained (started lim)) by (by split_and!).
  induction H as [|r r' r'' Hs _ IH]; eauto using run_step_drained.
Qed.

(** ** Theorems *)

(** C12: the observations of a run are those of an interleaving.  Whenever a run is
    finished, what [collect] makes of the chunks that were read is what the goroutines
    left: the streams, the truncation flag and the chunks of the sink.  No byte is invented or
    moved: each stream of the result is the first [output_limit] bytes of a prefix of
    what the program wrote, a live sink got those same bytes and a run without a sink sent
    none, and the flag says whether more bytes were read.  That prefix would be
    all the program wrote if [cmd.Wait] came after the goroutines. *)
Theorem run_observed order sink s e net insp r :
  let lim := output_limit (s_Limits s) in
  steps order sink (started lim) r → finished r = true →
  x_out e = st_reads (ru_out r) → x_err e = st_reads (ru_err r) →
  let '(res, sent_out, sent_err) := collect e s sink net insp in
  (Stdout res = buf (st_w (ru_out r)) ∧ Stderr res = buf (st_w (ru_err r)) ∧
   Truncated res = truncated (st_w (ru_out r)) || truncated (st_w (ru_err r)) ∧
   sent_out = st_sent (ru_out r) ∧ sent_err = st_sent (ru_err r)) ∧
  (∃ lost_out lost_err,
     st_written (ru_out r) = cat (x_out e) +:+ lost_out ∧ st_written (ru_err r) = cat (x_err e) +:+ lost_err ∧
     Stdout res = str_take (Z.to_nat lim) (cat (x_out e)) ∧ Stderr res = str_take (Z.to_nat lim) (cat (x_err e)) ∧
     (order = true → lost_out = "" ∧ lost_err = "")) ∧
  (cat sent_out = if sink then str_take (Z.to_nat lim) (cat (x_out e)) else "") ∧
  (cat sent_err = if sink then str_take (Z.to_nat lim) (cat (x_err e)) else "") ∧
  (sink = false → sent_out = [] ∧ sent_err = []) ∧
  Truncated res = (lim <? len (cat (x_out e))) || (lim <? len (cat (x_err e))).
Proof.
  intros lim Hr Hf Eo Ee. destruct (steps_ok lim order sink r Hr) as ([B1 P1 R1] & [B2 P2 R2] & _).
  assert (Hd : order = true → st_pipe (ru_out r) = "" ∧ st_pipe (ru_err r) = "").
  { intros ->. unfold finished in Hf. boolp. destruct (steps_drained _ _ _ Hr) as (D1 & D2 & _). by destruct D1, D2. }
  pose proof (new_cap_ok (s_Limits s)) as Hok. fold lim in Hok.
  pose proof (pump_ok _ "" sink _ Hok R1) as C1. pose proof (pump_ok _ "" sink _ Hok R2) as C2.
  rewrite P1 in C1. rewrite P2 in C2. unfold collect. fold lim. rewrite Eo, Ee, P1, P2.
  destruct (match inspectState insp with Some oc => oc | None => _ end) as [oom code]. split; [done|].
  destruct C1 as ((_ & _ & C1 & T1) & L1 & S1 & N1), C2 as ((_ & _ & C2 & T2) & L2 & S2 & N2).
  rewrite L1 in C1, T1. rewrite L2 in C2, T2. cbn in C1, C2, T1, T2, S1, S2. split.
  { exists (st_pipe (ru_out r)), (st_pipe (ru_err r)). by split_and!. }
  split_and!.
  - destruct sink; [|by rewrite N1]. rewrite <- C1. symmetry. by apply S1.
  - destruct sink; [|by rewrite N2]. rewrite <- C2. symmetry. by apply S2.
  - intros E. by rewrite N1, N2.
  - cbn [Truncated]. by rewrite T1, T2.
Qed.

(** the tail of the output can be lost.  For every text a program writes, there
    is a run of the code as it is (with [cmd.Wait] called at once) that finishes with
    nothing of it in the result, and nothing that says so. *)
Theorem tail_lost lim sink text : ∃ r, steps false sink (started lim) r ∧ finished r = true ∧
  st_written (ru_out r) = text ∧ buf (st_w (ru_out r)) = "" ∧ truncated (st_w (ru_out r)) = false.
Proof.
  set (o := if String.eqb text "" then new_stream lim else client_writes text (new_stream lim)).
  exists (Build_running (pump_ends o) (pump_ends (new_stream lim)) true true). split.
  - transitivity (Build_running o (new_stream lim) false false).
    { subst o. destruct (String.eqb_spec text "") as [_|H]; [done|]. apply rtc_once. by apply rs_stdout. }
    eapply rtc_l; [apply rs_exit|]. eapply rtc_l; [by apply rs_wait|].
    eapply rtc_l; [apply rs_pump_out, pt_closed; [|done]; subst o; by case_match|].
    apply rtc_once, rs_pump_err. by apply pt_closed.
  - subst o. by destruct (String.eqb_spec text "") as [->|].
Qed.

(** What is left to do once the client has exited. *)
Definition pump_left (st : stream) : nat := String.length (st_pipe st) + (if st_done st then 0 else 1).
Definition run_left (r : running) : nat := pump_left (ru_out r) + pump_left (ru_err r) + (if ru_waited r then 0 else 1).
Lemma pump_turn_left sink x w st st' : pump_turn sink x w st st' → (pump_left st' < pump_left st)%nat.
Proof.
  intros [c rest Hd _ Hp Hc _|Hd _ _ _|Hd _]; unfold pump_left; rewrite Hd; cbn; try lia.
  rewrite Hp, slength_app. destruct c; [done|cbn; lia].
Qed.
Lemma run_step_left order sink r r' : run_step order sink r r' → ru_exited r = true →
  (run_left r' < run_left r)%nat ∧ ru_exited r' = true.
Proof.
  intros []; unfold run_left; cbn; try done; intros Hx; (split; [|done]);
    try match goal with H : pump_turn _ _ _ _ _ |- _ => apply pump_turn_left in H end; lia.
Qed.
Lemma pump_goes_on sink st w : st_done st = false → ∃ st', pump_turn sink true w st st'.
Proof.
  intros Hd. destruct w; [eexists; by apply pt_closed|]. destruct (st_pipe st) as [|a rest] eqn:Ep; [eexists; by apply pt_eof|].
  eexists. by apply (pt_read _ _ _ _ (String a "") rest).
Qed.
Lemma run_goes_on order sink r : ru_exited r = true → finished r = false → ∃ r', run_step order sink r r'.
Proof.
  destruct r as [o e x w]. unfold finished. cbn. intros -> Hf.
  destruct (st_done o) eqn:Ho; [|destruct (pump_goes_on sink o w Ho); eexists; by apply rs_pump_out].
  destruct (st_done e) eqn:He; [|destruct (pump_goes_on sink e w He); eexists; by apply rs_pump_err].
  destruct w; [done|]. eexists. by apply rs_wait.
Qed.

(** C34: a run whose client has exited ends.  Every sequence of steps from there is
    shorter than the bytes in the pipes plus four, and one that cannot be continued has
    finished: no order of the goroutines and of [cmd.Wait] hangs the caller. *)
Theorem run_terminates order sink r : ru_exited r = true →
  (∀ k r', nsteps (run_step order sink) k r r' → (k ≤ run_left r)%nat) ∧
  (run_left r ≤ String.length (st_pipe (ru_out r)) + String.length (st_pipe (ru_err r)) + 3)%nat ∧
  (∀ r', steps order sink r r' → (∀ r'', ¬ run_step order sink r' r'') → finished r' = true).
Proof.
  intros Hx. split; [|split].
  - intros k r' H. revert Hx. induction H as [r|k r r1 r' Hs _ IH]; intros Hx; [lia|].
    apply run_step_left in Hs as [Hl Hx']; [|done]. specialize (IH Hx'). lia.
  - unfold run_left, pump_left. repeat case_match; lia.
  - intros r' H Hstuck. assert (Hx' : ru_exited r' = true).
    { clear Hstuck. induction H as [|r r1 r' Hs _ IH]; [done|]. apply run_step_left in Hs as [_ ?]; auto. }
    destruct (finished r') eqn:Hf; [done|]. destruct (run_goes_on order sink r' Hx' Hf) as [r'' Hs]. by destruct (Hstuck r'').
Qed.

(** ** A run *)
Definition run_end : running := {|
  ru_out := pump_ends (pump_body true "hello" "" (client_writes "hello" (new_stream 4)));
  ru_err := pump_ends (new_stream 4); ru_exited := true; ru_waited := true |}.
Lemma run_end_reached : steps true true (started 4) run_end.
Proof.
  eapply rtc_l; [by apply (rs_stdout true true _ _ "hello")|].
  eapply rtc_l; [apply rs_pump_out; by apply (pt_read _ _ _ _ "hello" "")|]. eapply rtc_l; [apply rs_exit|].
  eapply rtc_l; [apply rs_pump_out; by apply pt_eof|]. eapply rtc_l; [apply rs_pump_err; by apply pt_eof|].
  apply rtc_once. by apply rs_wait.
Qed.
Lemma run_observed_witness : ∃ r, steps true true (started 4) r ∧ finished r = true ∧ st_written (ru_out r) = "hello" ∧
  let '(res, sent, _) := collect demo_env demo_spec true false (x_inspect demo_env) in
  Stdout res = "hell" ∧ Stdout res = buf (st_w (ru_out r)) ∧ cat sent = "hell" ∧ Truncated res = true.
Proof.
  exists run_end. split; [exact run_end_reached|]. split; [reflexivity|]. split; [reflexivity|].
  pose proof (run_observed true true demo_spec demo_env false (x_inspect demo_env) run_end run_end_reached
    eq_refl eq_refl eq_refl) as H.
  destruct (collect demo_env demo_spec true false (x_inspect demo_env)) as [[res so] se].
  destruct H as ((H1 & _) & (lo & le & _ & _ & H2 & _) & H3 & _ & _ & H4).
  split; [rewrite H2; vm_compute; reflexivity|]. split; [exact H1|]. split; [rewrite H3|rewrite H4]; vm_compute; reflexivity.
Defined.
Definition run_exited : running := {|
  ru_out := client_writes "a" (new_stream 4); ru_err := new_stream 4; ru_exited := true; ru_waited := false |}.
Lemma run_terminates_witness : run_left run_exited = 4%nat ∧
  ∀ k r', nsteps (run_step false true) k run_exited r' → (k ≤ 4)%nat.
Proof. split; [done|]. apply (run_terminates false true run_exited). reflexivity. Defined.
