(* ===== verification/WarmPool.v ===== *)
(** * internal/executor/warmpool.go: the pool of pre-booted containers

    The shared state ([ready], [closed], [booting]) changes in the critical
    sections of [take], [retire], the replenishing goroutine and [Close]; between them
    containers are booted and removed.  All of these are the steps of [pstep], in any order.
    [Execute] and [execInto] are on top of [Executor]. *)

From S2P Require Import Prelude GoLib GoStrings GoCodec GoFloat Executor ExecutorSpec.
Import Strings.

(** ** The pool *)
Record WarmPool := {
  gv : Gvisor; size : Z; image : string; memBytes : Z; cpus : float; pids : Z; scratchMB : Z;
  ready : list string; closed : bool; booting : Z; jobRoot : string }.
Record WarmPoolConfig := {
  c_Size : Z; c_Image : string; c_MemBytes : Z; c_CPUs : float; c_Pids : Z; c_ScratchMB : Z;
  c_JobRoot : string }.
Definition NewWarmPool (gv : Gvisor) (cfg : WarmPoolConfig) : WarmPool := {|
  gv := gv; size := c_Size cfg; image := c_Image cfg;
  memBytes := positive_or (c_MemBytes cfg) (Z.shiftl 384 20);
  cpus := if fleb (c_CPUs cfg) (of_Z 0) then of_decimal 15 1 else c_CPUs cfg;
  pids := positive_or (c_Pids cfg) 128; scratchMB := positive_or (c_ScratchMB cfg) 64;
  ready := []; closed := false; booting := 0; jobRoot := c_JobRoot cfg |}.
Definition set_pool (wp : WarmPool) (r : list string) (c : bool) (b : Z) : WarmPool := {|
  gv := gv wp; size := size wp; image := image wp; memBytes := memBytes wp; cpus := cpus wp;
  pids := pids wp; scratchMB := scratchMB wp; ready := r; closed := c; booting := b;
  jobRoot := jobRoot wp |}.

(** [None] is the nil pool. *)
Definition Enabled (wp : option WarmPool) : bool :=
  match wp with Some wp => 0 <? size wp | None => false end.
Definition Size (wp : option WarmPool) : Z := match wp with Some wp => size wp | None => 0 end.
Definition Ready (wp : option WarmPool) : Z :=
  match wp with Some wp => Z.of_nat (List.length (ready wp)) | None => 0 end.

(** [boot]: the docker command of a warm container. *)
Definition boot_args (wp : WarmPool) (name : string) : list string :=
  ["run"; "-d"; "--name"; name; "--runtime"; Runtime (gv wp); "--network=none"; "--read-only";
   "--tmpfs"; tmpfs_opt "noexec" (scratchMB wp)] ++
  resource_args (memBytes wp) (cpus wp) (pids wp) ++ isolation_args (gv wp) ++
  ["--label"; "isobox.warm=true"; "--env"; "HOME=/tmp"; image wp; "sleep"; "infinity"].
Definition warm_name (uuid : string) : string := "iso-warm-" +:+ uuid.

(** [Prime]: one boot per slot; [None] is a failed boot. *)
Definition Prime (wp : WarmPool) (boots : list (option string)) : WarmPool :=
  if negb (Enabled (Some wp)) then wp else
  foldl (λ wp b, match b with
                 | Some name => set_pool wp (ready wp ++ [name]) (closed wp) (booting wp)
                 | None => wp
                 end) wp (take (Z.to_nat (size wp)) boots).

(** [take] pops the last ready container. *)
Definition take_warm (wp : WarmPool) : option string * WarmPool :=
  if closed wp then (None, wp) else
  match rev (ready wp) with
  | [] => (None, wp)
  | name :: rest => (Some name, set_pool wp (rev rest) (closed wp) (booting wp))
  end.

(** [Close] returns the containers it removes. *)
Definition Close (wp : WarmPool) : WarmPool * list string :=
  (set_pool wp [] true (booting wp), ready wp).

(** [retire] after the removal: whether a replacement is booted. *)
Definition retire (wp : WarmPool) : WarmPool * bool :=
  if closed wp then (wp, false)
  else (set_pool wp (ready wp) (closed wp) (booting wp + 1), true).
(** The goroutine, once its boot returned; [Some] is a container to remove. *)
Definition replenish (wp : WarmPool) (boot : option string) : WarmPool * option string :=
  let wp := set_pool wp (ready wp) (closed wp) (booting wp - 1) in
  match boot with
  | None => (wp, None)
  | Some repl =>
      if closed wp then (wp, Some repl)
      else (set_pool wp (ready wp ++ [repl]) (closed wp) (booting wp), None)
  end.

(** ** The fast path *)
Definition poolable (wp : WarmPool) (s : Spec) : bool :=
  Enabled (Some wp) && String.eqb (Image s) (image wp) &&
  match Mounts s with [] => true | _ => false end &&
  match Compile s with [] => true | _ => false end && negb (Network s).

Definition rewriteBoxPath (p : string) : string :=
  if HasPrefix p "/box/" then "/tmp/box/" +:+ TrimPrefix p "/box/"
  else if String.eqb p "/box" then "/tmp/box" else p.
Definition rewriteBoxPaths (run : list string) : list string := map rewriteBoxPath run.

Section exec.
Context (uni_lower : string → string).

(** The staging part of the script. *)
Definition stage_file (name data : string) : string :=
  "printf %s " +:+ shQuote (Base64.EncodeToString Base64.StdEncoding data) +:+
  " | base64 -d > " +:+ shQuote name +:+ "; ".
Fixpoint stage_files (jobDir : string) (fs : list File) : list event * (string + ExecErr) :=
  match fs with
  | [] => ([], inl "")
  | f :: fs =>
      let nm := sanitizeName (f_Name f) in
      if String.eqb nm "" then stage_files jobDir fs else
      match decodeFile uni_lower f with
      | None => ([], inr (ErrDecode (f_Name f)))
      | Some data =>
          let '(tr, r) := stage_files jobDir fs in
          (EWriteFile (Filepath.Join [jobDir; nm]) data :: tr,
           match r with inl rest => inl (stage_file nm data +:+ rest) | inr e => inr e end)
      end
  end.
Definition warm_script (s : Spec) (staged : string) : string :=
  "set -e; mkdir -p /tmp/box; cd /tmp/box; " +:+ staged +:+
  "exec " +:+ shJoin (rewriteBoxPaths (Run s)) +:+ positional.
Definition exec_args (name : string) (s : Spec) (script : string) : list string :=
  ["exec"; "-i"; "-e"; "HOME=/tmp"] ++ flat_map (env_arg "-e") (map_to_list (Env s)) ++
  ["-w"; "/tmp"; name; "sh"; "-c"; script; "iso"] ++ Argv s.

(** [execInto], for a buffered job; the trace ends with the removal of the host
    staging directory. *)
Definition execInto (e : xenv) (name : string) (s : Spec) : outcome :=
  match x_tmp e with
  | None => fail false ErrMkdirTemp []
  | Some jobDir =>
      match stage_files jobDir (Files s) with
      | (tr, inr err) => fail false err (EMkdirTemp jobDir :: tr ++ [ERemoveAll jobDir])
      | (tr, inl staged) =>
          if negb (x_pipes e) then fail false ErrPipe (EMkdirTemp jobDir :: tr ++ [ERemoveAll jobDir]) else
          let start := EStart (exec_args name s (warm_script s staged))
                         (if String.eqb (Stdin s) "" then None else Some (Stdin s)) in
          if negb (x_start e) then fail false ErrStart (EMkdirTemp jobDir :: tr ++ [start; ERemoveAll jobDir]) else
          let '(res, so, se) := collect e s false false None in
          let tr := EMkdirTemp jobDir :: tr ++ start ::
                    (if x_timeout e then [EKill name] else []) ++ [ERemoveAll jobDir] in
          let infra := negb (TimedOut res) && String.eqb (Stdout res) "" &&
            ((ExitCode res =? 125) || (ExitCode res =? 126) || (ExitCode res =? 127)) &&
            Contains (Stderr res) "OCI runtime exec failed" in
          {| o_res := res; o_err := if infra then Some errExecStartFailed else None;
             o_trace := tr; o_sink := (so, se) |}
      end
  end.

(** [WarmPool.Execute]; [warm] and [cold] are what the two backends observe.
    The container is removed when the call returns, after a cold retry too; the
    boot of its replacement ([replenish]) happens later. *)
Definition pool_Execute (wp : WarmPool) (warm cold : xenv) (s : Spec) (sink : bool) : outcome * WarmPool :=
  if sink || negb (poolable wp s) then (Execute uni_lower (gv wp) cold s sink, wp) else
  match take_warm wp with
  | (None, wp) => (Execute uni_lower (gv wp) cold s sink, wp)
  | (Some name, wp) =>
      let o := execInto warm name s in
      let '(wp, _) := retire wp in
      match o_err o with
      | Some errExecStartFailed =>
          let o' := Execute uni_lower (gv wp) cold s sink in
          ({| o_res := o_res o'; o_err := o_err o'; o_sink := o_sink o';
              o_trace := o_trace o ++ o_trace o' ++ [ERemoveContainer name] |}, wp)
      | _ =>
          ({| o_res := o_res o; o_err := o_err o; o_sink := o_sink o;
              o_trace := o_trace o ++ [ERemoveContainer name] |}, wp)
      end
  end.
End exec.

(** ** Interleavings *)

(** The pool, and where every container is: [leased] to a job, [landing] in a goroutine whose [docker
    run] has made it, [doomed] to the [docker rm] of a goroutine or of [Close], or [removed], its
    [docker rm] done.  [retiring] counts the calls of [retire] between their removal and their look
    at [closed], [spawned] the goroutines before their [docker run].  [booted] lists every
    container ever made, [taken] every one ever handed to a job. *)
Record pstate := {
  pool : WarmPool; leased : list string; retiring : nat; spawned : nat; landing : list string;
  doomed : list string; removed : list string; booted : list string; taken : list string }.
Inductive pstep : pstate → pstate → Prop :=
| step_take st name wp' : take_warm (pool st) = (Some name, wp') →
    pstep st {| pool := wp'; leased := name :: leased st; retiring := retiring st; spawned := spawned st;
                landing := landing st; doomed := doomed st; removed := removed st; booted := booted st;
                taken := name :: taken st |}
| step_retire st name l1 l2 : leased st = l1 ++ name :: l2 →
    pstep st {| pool := pool st; leased := l1 ++ l2; retiring := S (retiring st); spawned := spawned st;
                landing := landing st; doomed := doomed st; removed := name :: removed st; booted := booted st;
                taken := taken st |}
| step_retired st k : retiring st = S k →
    pstep st {| pool := (retire (pool st)).1; leased := leased st; retiring := k;
                spawned := (if (retire (pool st)).2 then S (spawned st) else spawned st);
                landing := landing st; doomed := doomed st; removed := removed st; booted := booted st; taken := taken st |}
| step_boot st k name : spawned st = S k → name ∉ booted st →          (* uuids are fresh *)
    pstep st {| pool := pool st; leased := leased st; retiring := retiring st; spawned := k;
                landing := name :: landing st; doomed := doomed st; removed := removed st; booted := name :: booted st;
                taken := taken st |}
| step_boot_failed st k : spawned st = S k →
    pstep st {| pool := (replenish (pool st) None).1; leased := leased st; retiring := retiring st; spawned := k;
                landing := landing st; doomed := doomed st; removed := removed st; booted := booted st; taken := taken st |}
| step_land st name l1 l2 : landing st = l1 ++ name :: l2 →
    pstep st {| pool := (replenish (pool st) (Some name)).1; leased := leased st; retiring := retiring st;
                spawned := spawned st; landing := l1 ++ l2;
                doomed := option_list (replenish (pool st) (Some name)).2 ++ doomed st; removed := removed st;
                booted := booted st; taken := taken st |}
| step_close st :
    pstep st {| pool := (Close (pool st)).1; leased := leased st; retiring := retiring st; spawned := spawned st;
                landing := landing st; doomed := (Close (pool st)).2 ++ doomed st; removed := removed st;
                booted := booted st; taken := taken st |}
| step_remove st name l1 l2 : doomed st = l1 ++ name :: l2 →
    pstep st {| pool := pool st; leased := leased st; retiring := retiring st; spawned := spawned st;
                landing := landing st; doomed := l1 ++ l2; removed := name :: removed st; booted := booted st;
                taken := taken st |}.
Inductive reach (st : pstate) : pstate → Prop :=
| reach_refl : reach st st
| reach_step st' st'' : reach st st' → pstep st' st'' → reach st st''.

Record pool_ok (st : pstate) : Prop := {
  po_nodup : NoDup (booted st);
  po_perm : booted st ≡ₚ ready (pool st) ++ leased st ++ landing st ++ doomed st ++ removed st;
  po_taken : ∀ n, n ∈ taken st → n ∈ leased st ++ removed st;
  po_taken_nodup : NoDup (taken st);
  po_closed : closed (pool st) = true → ready (pool st) = [] }.

Lemma take_warm_some wp name wp' : take_warm wp = (Some name, wp') →
  closed wp = false ∧ ready wp = ready wp' ++ [name] ∧ closed wp' = false.
Proof.
  unfold take_warm. destruct (closed wp) eqn:Hc; [done|].
  destruct (rev (ready wp)) as [|n rest] eqn:Hr; [done|]. intros [= -> <-]. cbn. split; [done|split; [|done]].
  rewrite <- (rev_involutive (ready wp)), Hr. done.
Qed.

Lemma pstep_ok st st' : pool_ok st → pstep st st' → pool_ok st'.
Proof.
  intros [Hnd Hp Ht Htn Hc] Hs.
  destruct Hs as [st name wp' Hk|st name l1 l2 Hl|st k Hk|st k name Hk Hn|st k Hk|st name l1 l2 Hl|st|st name l1 l2 Hl].
  - destruct (take_warm_some _ _ _ Hk) as (K1 & K2 & K3). rewrite K2 in Hp.
    assert (Hp' : booted st ≡ₚ ready wp' ++ (name :: leased st) ++ landing st ++ doomed st ++ removed st).
    { rewrite Hp, <- app_assoc. done. }
    split; cbn; [done|exact Hp'| | |congruence].
    + intros n [->|H]%elem_of_cons; [by left|]. right. by apply Ht.
    + constructor; [|done]. intros H%Ht. rewrite Hp' in Hnd. apply NoDup_app in Hnd as (_ & _ & Hnd).
      apply NoDup_cons in Hnd as [Hnd _]. apply Hnd. rewrite !elem_of_app in *. tauto.
  - rewrite Hl in *. split; cbn; [done| | |done|done].
    + rewrite Hp. solve_Permutation.
    + intros n H%Ht. rewrite !elem_of_app, elem_of_cons in H. rewrite elem_of_app, elem_of_app, elem_of_cons. tauto.
  - unfold retire. destruct (closed (pool st)) eqn:E; (split; cbn; [done|done|done|done|]); intros ?; by (apply Hc || congruence).
  - split; cbn; [by constructor| |done|done|done]. rewrite Hp. solve_Permutation.
  - by split.
  - unfold replenish. rewrite Hl in Hp. cbn [closed set_pool]. destruct (closed (pool st)) eqn:E; (split; cbn; [done| |done|done|]).
    + rewrite Hp. solve_Permutation.
    + intros _. by apply Hc.
    + rewrite Hp. solve_Permutation.
    + intros ?. congruence.
  - split; cbn; try done. rewrite Hp. solve_Permutation.
  - rewrite Hl in *. split; cbn; [done| | |done|done].
    + rewrite Hp. solve_Permutation.
    + intros n H%Ht. rewrite elem_of_app in *. rewrite elem_of_cons. tauto.
Qed.

(** What is left to do once the pool is closed. *)
Definition work (st : pstate) : nat :=
  2 * List.length (leased st) + retiring st + 3 * spawned st + 2 * List.length (landing st) + List.length (doomed st).
Lemma closed_step st st' : pool_ok st → closed (pool st) = true → pstep st st' →
  closed (pool st') = true ∧ ((work st' < work st)%nat ∨ st' = st).
Proof.
  intros Hok Hc Hs. pose proof (po_closed _ Hok Hc) as Hr.
  destruct Hs as [st name wp' Hk|st name l1 l2 Hl|st k Hk|st k name Hk Hn|st k Hk|st name l1 l2 Hl|st|st name l1 l2 Hl]; cbn.
  - unfold take_warm in Hk. by rewrite Hc in Hk.
  - split; [done|left]. unfold work. cbn. rewrite Hl, !length_app. cbn. lia.
  - unfold retire. rewrite Hc. cbn. split; [done|left]. unfold work. cbn. lia.
  - split; [done|left]. unfold work. cbn. lia.
  - split; [done|left]. unfold work. cbn. lia.
  - unfold replenish. cbn [closed set_pool]. rewrite Hc. cbn. split; [done|left]. unfold work. cbn. rewrite Hl, !length_app. cbn. lia.
  - split; [done|right]. rewrite Hr. destruct st as [[] ? ? ? ? ? ? ? ?]. cbn in *. by subst.
  - split; [done|left]. unfold work. cbn. rewrite Hl, !length_app. cbn. lia.
Qed.
Lemma closed_progress st : closed (pool st) = true → (0 < work st)%nat → ∃ st', pstep st st' ∧ (work st' < work st)%nat.
Proof.
  intros Hc Hw. destruct (leased st) as [|n l] eqn:E1; [|eexists; split; [by apply (step_retire st n [] l)|unfold work; cbn; rewrite E1; cbn; lia]].
  destruct (retiring st) as [|k] eqn:E2.
  2: { eexists. split; [by apply (step_retired st k)|]. unfold work. cbn. unfold retire. rewrite Hc. cbn. lia. }
  destruct (spawned st) as [|k] eqn:E3; [|eexists; split; [by apply (step_boot_failed st k)|unfold work; cbn; lia]].
  destruct (landing st) as [|n l] eqn:E4.
  2: { eexists. split; [by apply (step_land st n [] l)|]. unfold work, replenish. cbn [closed set_pool]. rewrite Hc. cbn. rewrite E4. cbn. lia. }
  destruct (doomed st) as [|n l] eqn:E5; [|eexists; split; [by apply (step_remove st n [] l)|unfold work; cbn; rewrite E5; cbn; lia]].
  exfalso. unfold work in Hw. rewrite E1, E2, E3, E4, E5 in Hw. cbn in Hw. lia.
Qed.

Definition fresh_pool (gv : Gvisor) (cfg : WarmPoolConfig) (boots : list string) : pstate :=
  let wp := Prime (NewWarmPool gv cfg) (map Some boots) in
  {| pool := wp; leased := []; retiring := 0; spawned := 0; landing := []; doomed := []; removed := [];
     booted := ready wp; taken := [] |}.

Lemma Prime_ready wp boots : 0 ≤ size wp →
  ready (Prime wp (map Some boots)) =
    ready wp ++ (if Enabled (Some wp) then take (Z.to_nat (size wp)) boots else []) ∧
  closed (Prime wp (map Some boots)) = closed wp.
Proof.
  intros _. unfold Prime. destruct (Enabled (Some wp)); cbn [negb]; [|by rewrite app_nil_r].
  generalize (Z.to_nat (size wp)) as k. intros k. revert wp k.
  induction boots as [|b boots IH]; intros wp [|k]; cbn; rewrite ?app_nil_r; try done.
  destruct (IH (set_pool wp (ready wp ++ [b]) (closed wp) (booting wp)) k) as [-> ->]. cbn.
  by rewrite <- app_assoc.
Qed.

Lemma reach_ok gv cfg boots st : 0 ≤ c_Size cfg → NoDup boots → reach (fresh_pool gv cfg boots) st → pool_ok st.
Proof.
  intros Hsz Hb Hr. induction Hr as [|st' st'' _ IH Hs]; [|by apply (pstep_ok st')].
  destruct (Prime_ready (NewWarmPool gv cfg) boots Hsz) as [E1 E2].
  unfold fresh_pool. split; cbn [booted pool leased landing doomed removed taken].
  - rewrite E1. cbn [NewWarmPool ready app]. destruct (Enabled _); [|constructor].
    eapply sublist_NoDup; [done|]. apply sublist_take.
  - by rewrite !app_nil_r.
  - intros n H. by apply elem_of_nil in H.
  - constructor.
  - by rewrite E2.
Qed.

(** C29: single use.  From a freshly primed pool, in any interleaving of
    leases, retirements, replacements and a shutdown, no container is ever
    handed to two jobs, and a leased container is not in the pool.  At any moment after
    [Close] every container ever made, from its [docker run] on, is removed, leased to a job that
    still runs, in the hands of a goroutine, or about to be removed; nothing but work that ends
    these happens: every further step but a second [Close] leaves less of it, there is such a step
    while any is left, and then every container has been removed. *)
Theorem warm_containers_single_use gv cfg boots st :
  0 ≤ c_Size cfg → NoDup boots → reach (fresh_pool gv cfg boots) st →
  NoDup (taken st) ∧ (∀ n, n ∈ leased st → n ∉ ready (pool st)) ∧
  (closed (pool st) = true →
     NoDup (booted st) ∧ booted st ≡ₚ leased st ++ landing st ++ doomed st ++ removed st ∧
     (∀ st', pstep st st' → closed (pool st') = true ∧ ((work st' < work st)%nat ∨ st' = st)) ∧
     ((0 < work st)%nat → ∃ st', pstep st st' ∧ (work st' < work st)%nat) ∧
     (work st = 0%nat → booted st ≡ₚ removed st)).
Proof.
  intros Hsz Hb Hr. pose proof (reach_ok gv cfg boots st Hsz Hb Hr) as Hok.
  pose proof Hok as [Hnd Hp Ht Htn Hc]. split; [done|split].
  - intros n Hn Hrd. rewrite Hp in Hnd. apply NoDup_app in Hnd as (_ & Hnd & _).
    apply (Hnd n Hrd). apply elem_of_app. by left.
  - intros Hcl. rewrite (Hc Hcl) in Hp. split; [done|split; [done|split; [|split]]].
    + intros st' Hs. by apply closed_step.
    + by apply closed_progress.
    + unfold work. intros Hw. rewrite Hp. destruct (leased st), (landing st), (doomed st); cbn in Hw; (done || lia).
Qed.

(** with the pool disabled, for streaming requests and for requests it
    cannot serve, the pool is the wrapped backend, and its state is untouched. *)
Theorem pool_passthrough uni_lower wp warm cold s sink :
  size wp ≤ 0 ∨ sink = true ∨ Image s ≠ image wp ∨ Mounts s ≠ [] ∨ Compile s ≠ [] ∨ Network s = true →
  pool_Execute uni_lower wp warm cold s sink = (Execute uni_lower (gv wp) cold s sink, wp).
Proof.
  intros H. unfold pool_Execute.
  assert (sink || negb (poolable wp s) = true) as ->; [|done].
  unfold poolable. cbn [Enabled].
  destruct H as [H|[->|[H|[H|[H|H]]]]]; [|done|..]; apply orb_true_iff; right; apply negb_true_iff.
  - by rewrite (proj2 (Z.ltb_ge 0 _)).
  - rewrite (proj2 (String.eqb_neq _ _) H). by rewrite andb_false_r.
  - destruct (Mounts s); [done|]. by rewrite andb_false_r.
  - destruct (Compile s); [done|]. by rewrite andb_false_r.
  - rewrite H. by rewrite andb_false_r.
Qed.

(** ** Clean-up *)
Lemma stage_files_writes uni_lower jobDir fs :
  Forall (λ ev, ∃ p d, ev = EWriteFile p d) (stage_files uni_lower jobDir fs).1.
Proof.
  induction fs as [|f fs IH]; cbn [stage_files]; [constructor|].
  destruct (String.eqb (sanitizeName (f_Name f)) ""); [done|].
  destruct (decodeFile uni_lower f); [|constructor].
  destruct (stage_files uni_lower jobDir fs) as [tr r]. cbn in *. constructor; [by eexists _, _|done].
Qed.

Lemma execInto_dir uni_lower e name s dir :
  EMkdirTemp dir ∈ o_trace (execInto uni_lower e name s) →
  last (o_trace (execInto uni_lower e name s)) = Some (ERemoveAll dir).
Proof.
  unfold execInto. destruct (x_tmp e) as [d|]; [|by intros ?%elem_of_nil].
  pose proof (stage_files_writes uni_lower d (Files s)) as Hw.
  destruct (stage_files uni_lower d (Files s)) as [tr r]; cbn [fst] in Hw.
  assert (Hno : EMkdirTemp dir ∉ tr).
  { intros H. rewrite Forall_forall in Hw. by destruct (Hw _ H) as (? & ? & ?). }
  assert (Hlast : ∀ l, last (EMkdirTemp d :: l ++ [ERemoveAll d]) = Some (ERemoveAll d)).
  { intros l. by rewrite app_comm_cons, last_snoc. }
  assert (Hin : ∀ mid, EMkdirTemp dir ∉ mid →
            EMkdirTemp dir ∈ EMkdirTemp d :: (tr ++ mid) ++ [ERemoveAll d] → d = dir).
  { intros mid Hm H. rewrite elem_of_cons, !elem_of_app, list_elem_of_singleton in H.
    destruct H as [[= ->]|[[H|H]|H]]; done. }
  destruct r as [staged|err].
  2: { cbn [o_trace fail]. intros H. rewrite (Hlast tr). f_equal. f_equal.
       apply (Hin []); [by intros ?%elem_of_nil|]. by rewrite app_nil_r. }
  destruct (x_pipes e); cbn [negb].
  2: { cbn [o_trace fail]. intros H. rewrite (Hlast tr). f_equal. f_equal.
       apply (Hin []); [by intros ?%elem_of_nil|]. by rewrite app_nil_r. }
  set (start := EStart _ _).
  destruct (x_start e); cbn [negb].
  2: { cbn [o_trace fail]. intros H.
       change [start; ERemoveAll d] with ([start] ++ [ERemoveAll d]) in *.
       rewrite app_assoc in *. rewrite Hlast. f_equal. f_equal.
       apply (Hin [start]); [|done]. by intros ?%list_elem_of_singleton. }
  destruct (collect e s false false None) as [[res so] se]. cbn [o_trace]. intros H.
  set (mid := start :: (if x_timeout e then [EKill name] else [])).
  assert (E : tr ++ start :: (if x_timeout e then [EKill name] else []) ++ [ERemoveAll d] =
              (tr ++ mid) ++ [ERemoveAll d]) by (rewrite <- app_assoc; done).
  rewrite E in *. rewrite Hlast. f_equal. f_equal. apply (Hin mid); [|done].
  unfold mid. destruct (x_timeout e); rewrite ?elem_of_cons, ?elem_of_nil; naive_solver.
Qed.

(** a leased container serves one job.  If the call leased a container it
    is no longer in the pool, its removal is the last thing the call does (after
    a cold retry too), and it is only ever the target of this call's docker exec;
    the pool is otherwise unchanged, its closed flag included. *)
Theorem warm_lease_reaped uni_lower wp warm cold s name rest :
  poolable wp s = true → closed wp = false → ready wp = rest ++ [name] →
  let '(o, wp') := pool_Execute uni_lower wp warm cold s false in
  ready wp' = rest ∧ closed wp' = false ∧ booting wp' = booting wp + 1 ∧
  last (o_trace o) = Some (ERemoveContainer name) ∧
  (∀ dir, EMkdirTemp dir ∈ o_trace (execInto uni_lower warm name s) →
     ∃ l1 l2, o_trace o = l1 ++ ERemoveAll dir :: l2).
Proof.
  intros Hp Hc Hr. unfold pool_Execute. rewrite Hp. cbn [negb orb].
  unfold take_warm. rewrite Hc, Hr, rev_unit, rev_involutive. cbn.
  assert (Hd : ∀ dir, EMkdirTemp dir ∈ o_trace (execInto uni_lower warm name s) →
     ∃ l1, o_trace (execInto uni_lower warm name s) = l1 ++ [ERemoveAll dir]).
  { intros dir H%execInto_dir. apply last_Some in H as [l H]. by exists l. }
  unfold retire. cbn [closed set_pool].
  set (o := execInto uni_lower warm name s) in *.
  assert (Hdir : ∀ l dir, EMkdirTemp dir ∈ o_trace o → ∃ l1 l2, o_trace o ++ l = l1 ++ ERemoveAll dir :: l2).
  { intros l dir [l1 ->]%Hd. exists l1, l. by rewrite <- app_assoc. }
  destruct (o_err o) as [[]|]; cbn [ready closed booting set_pool o_trace];
    (split; [done|split; [done|split; [done|split]]]); rewrite ?app_assoc, ?last_snoc; try done;
    intros dir H; rewrite <- ?app_assoc; by apply Hdir.
Qed.

(** the test for a failed start reads only what the user's process can
    produce itself.  A job that was started, prints nothing to its standard
    output, prints the banner to its standard error and exits with 126 is taken for
    one that never ran: it is started a second time, cold, and the result
    reported is that of the second run. *)
Theorem warm_job_rerun uni_lower wp warm cold s name rest jobDir staged tr :
  poolable wp s = true → closed wp = false → ready wp = rest ++ [name] →
  x_tmp warm = Some jobDir → stage_files uni_lower jobDir (Files s) = (tr, inl staged) →
  x_pipes warm = true → x_start warm = true → x_timeout warm = false →
  x_out warm = [] → x_err warm = ["OCI runtime exec failed"] → 23 ≤ output_limit (s_Limits s) →
  x_exit warm = Some 126 →
  let o := (pool_Execute uni_lower wp warm cold s false).1 in
  let o' := Execute uni_lower (gv wp) cold s false in
  o_res o = o_res o' ∧ o_err o = o_err o' ∧
  ∃ stdin l1 l2, o_trace o = l1 ++ EStart (exec_args name s (warm_script s staged)) stdin ::
                             l2 ++ o_trace o' ++ [ERemoveContainer name].
Proof.
  intros Hp Hc Hr Htmp Hst Hpi Hs Hto Hout Herr Hlim Hex. cbv zeta.
  assert (Ho : let o := execInto uni_lower warm name s in
    o_err o = Some errExecStartFailed ∧
    ∃ stdin l1 l2, o_trace o = l1 ++ EStart (exec_args name s (warm_script s staged)) stdin :: l2).
  { unfold execInto. rewrite Htmp, Hst, Hpi, Hs. cbn [negb]. unfold collect.
    assert (Hw : Write (new_capWriter (output_limit (s_Limits s))) "OCI runtime exec failed" =
      {| buf := "OCI runtime exec failed"; limit := output_limit (s_Limits s);
         n := len "OCI runtime exec failed"; truncated := false |}).
    { unfold Write. cbn [limit n buf new_capWriter truncated].
      change (len "OCI runtime exec failed") with 23.
      rewrite (proj2 (Z.leb_gt (output_limit (s_Limits s)) 0)) by lia.
      by rewrite (proj2 (Z.ltb_ge (output_limit (s_Limits s) - 0) 23)) by lia. }
    rewrite Hout, Herr, Hto, Hex. cbn [pump andb app]. rewrite Hw.
    cbn [buf inspectState default fst snd o_err o_trace TimedOut Stdout Stderr ExitCode]. split; [reflexivity|].
    eexists _, (EMkdirTemp jobDir :: tr), _. rewrite <- app_comm_cons. reflexivity. }
  cbv zeta in Ho. destruct Ho as (He & stdin & l1 & l2 & Htr).
  unfold pool_Execute. rewrite Hp. cbn [negb orb].
  unfold take_warm. rewrite Hc, Hr, rev_unit. unfold retire. cbn [closed set_pool]. rewrite He.
  cbn [fst o_res o_err o_trace]. split; [done|split; [done|]].
  exists stdin, l1, l2. rewrite Htr. by rewrite <- !app_assoc.
Qed.

(** ** A concrete pool *)
Definition demo_cfg : WarmPoolConfig := {|
  c_Size := 2; c_Image := "py@sha256:0"; c_MemBytes := 0; c_CPUs := of_Z 0; c_Pids := 0;
  c_ScratchMB := 0; c_JobRoot := "" |}.
Definition demo_pool : WarmPool := pool (fresh_pool NewGvisor demo_cfg ["w1"; "w2"]).
Definition demo_job : Spec := {|
  Lang := {| l_Name := "python"; l_Version := "3.12" |}; Image := "py@sha256:0"; Compile := [];
  Run := ["python3"; "/box/main.py"]; Workdir := "/box"; Env := ∅; ScratchExec := false;
  ScratchMB := 0; Mounts := []; Files := [{| f_Name := "main.py"; f_Content := "x"; f_Encoding := "" |}];
  Stdin := ""; Argv := []; Network := false;
  s_Limits := {| MemoryBytes := 0; CPUs := of_Z 0; Pids := 0; OutputBytes := 0; WallTimeMs := 1000;
                 CompileTimeMs := 0 |} |}.
Definition faking_env : xenv := {|
  x_tmp := Some "/tmp/iso-warm-job-1"; x_chmod := true; x_write := λ _, true; x_uuid := "u1"; x_pipes := true;
  x_start := true; x_stat := λ _, None; x_out := []; x_err := ["OCI runtime exec failed"];
  x_timeout := false; x_inspect := None; x_exit := Some 126; x_ms := 5 |}.

Example demo_paths : rewriteBoxPaths (Run demo_job) = ["python3"; "/tmp/box/main.py"].
Proof. reflexivity. Qed.

(** Two boots, one lease, its retirement, a shutdown while its replacement boots, and what follows. *)
Definition demo_start : pstate := fresh_pool NewGvisor demo_cfg ["w1"; "w2"].
Definition pool_at (wp : WarmPool) (ls : list string) (ret sp : nat) (la dm rm bt : list string) : pstate := {|
  pool := wp; leased := ls; retiring := ret; spawned := sp; landing := la; doomed := dm; removed := rm; booted := bt; taken := ["w2"] |}.
Definition demo_taken : WarmPool := (take_warm demo_pool).2.
Definition demo_retired : WarmPool := (retire demo_taken).1.
Definition demo_closed : WarmPool := (Close demo_retired).1.
Definition demo_shut : pstate := pool_at demo_closed [] 0 0 ["w3"] ["w1"] ["w2"] ["w3"; "w1"; "w2"].
Definition demo_end : pstate :=
  pool_at (replenish demo_closed (Some "w3")).1 [] 0 0 [] [] ["w1"; "w3"; "w2"] ["w3"; "w1"; "w2"].
Lemma reach_one st st' : pstep st st' → reach st st'.
Proof. intros H. by eapply reach_step; [apply reach_refl|]. Qed.
Lemma reach_trans st1 st2 st3 : reach st1 st2 → reach st2 st3 → reach st1 st3.
Proof. intros H12 H23. induction H23 as [|st st' _ IH Hs]; [done|]. by eapply reach_step. Qed.
Lemma demo_shut_reached : reach demo_start demo_shut.
Proof.
  apply (reach_trans _ (pool_at demo_taken ["w2"] 0 0 [] [] [] ["w1"; "w2"])).
  { apply reach_one. exact (step_take demo_start "w2" demo_taken eq_refl). }
  eapply reach_trans; [apply reach_one; refine (step_retire _ "w2" [] [] _); reflexivity|].
  eapply reach_trans; [apply reach_one; refine (step_retired _ 0 _); reflexivity|].
  eapply reach_trans; [apply reach_one; refine (step_boot _ 0 "w3" _ _); [reflexivity|]; refine (bool_decide_unpack _ _); vm_compute; exact I|].
  apply reach_one. exact (step_close _).
Qed.
Lemma demo_end_reached : reach demo_shut demo_end.
Proof.
  eapply reach_trans; [apply reach_one; refine (step_land _ "w3" [] [] _); reflexivity|].
  eapply reach_trans; [apply reach_one; refine (step_remove _ "w3" [] ["w1"] _); reflexivity|].
  apply reach_one. refine (step_remove _ "w1" [] [] _); reflexivity.
Qed.
Lemma warm_containers_single_use_witness :
  reach demo_start demo_shut ∧ reach demo_shut demo_end ∧ closed (pool demo_shut) = true ∧ leased demo_start = [] ∧
  landing demo_shut = ["w3"] ∧ doomed demo_shut = ["w1"] ∧ NoDup (taken demo_end) ∧ booted demo_end ≡ₚ removed demo_end.
Proof.
  assert (Hb : NoDup ["w1"; "w2"]).
  { apply NoDup_cons; split; [rewrite list_elem_of_singleton; done|]. apply NoDup_singleton. }
  split; [exact demo_shut_reached|]. split; [exact demo_end_reached|]. do 4 (split; [reflexivity|]).
  destruct (warm_containers_single_use NewGvisor demo_cfg ["w1"; "w2"] demo_end ltac:(cbn; lia) Hb
    (reach_trans _ _ _ demo_shut_reached demo_end_reached)) as (K1 & _ & K2).
  split; [exact K1|]. by apply K2.
Defined.

Lemma pool_passthrough_witness :
  pool_Execute id demo_pool faking_env faking_env demo_spec false =
  (Execute id NewGvisor faking_env demo_spec false, demo_pool).
Proof. apply pool_passthrough. right; right; right; right; right. reflexivity. Defined.

Lemma warm_lease_reaped_witness :
  ready (pool_Execute id demo_pool faking_env faking_env demo_job false).2 = ["w1"].
Proof.
  pose proof (warm_lease_reaped id demo_pool faking_env faking_env demo_job "w2" ["w1"]
    eq_refl eq_refl eq_refl) as H.
  destruct (pool_Execute id demo_pool faking_env faking_env demo_job false) as [o wp']. apply H.
Defined.

Lemma warm_job_rerun_witness :
  o_res (pool_Execute id demo_pool faking_env faking_env demo_job false).1 =
  o_res (Execute id NewGvisor faking_env demo_job false).
Proof.
  eapply (warm_job_rerun id demo_pool faking_env faking_env demo_job "w2" ["w1"]
    "/tmp/iso-warm-job-1"); try reflexivity. vm_compute. discriminate.
Defined.
