(* ===== verification/Registry.v ===== *)
(** * internal/registry: the language catalogue

    The parsed YAML document is an argument ([yaml.Unmarshal]'s result).  The
    index maps a key to a position of [all], the pointer [&r.all[i]] of the
    source. *)

From S2P Require Import Prelude GoLib GoStrings GoFloat Executor.
Import Strings.

Record RegistryLimits := {
  rl_MemoryBytes : Z; rl_CPUs : string; PidsLimit : Z; WallTimeSec : Z; CompileTimeSec : Z;
  rl_OutputBytes : Z }.

(** ** The catalogue *)
Module Catalogue.
Record Language := {
  Name : string; Version : string; Aliases : list string; Image : string; SourceFile : string;
  Compile : list string; Run : list string; Workdir : string; Env : gmap string string;
  ScratchExec : bool; ScratchMB : Z; lang_Limits : RegistryLimits }.
Record Registry := { byKey : gmap string nat; all : list Language }.

Inductive LoadErr := ErrRead | ErrParse | ErrNoLanguages | ErrEntry (i : nat).

Definition with_workdir (l : Language) : Language :=
  if String.eqb (Workdir l) "" then
    {| Name := Name l; Version := Version l; Aliases := Aliases l; Image := Image l;
       SourceFile := SourceFile l; Compile := Compile l; Run := Run l; Workdir := "/box";
       Env := Env l; ScratchExec := ScratchExec l; ScratchMB := ScratchMB l;
       lang_Limits := lang_Limits l |}
  else l.
Definition incomplete (l : Language) : bool :=
  String.eqb (Name l) "" || String.eqb (Image l) "" || match Run l with [] => true | _ => false end.

Section lower.
Context (uni_lower : string → string).

(** The keys of one entry, each stored bare and with the version. *)
Definition keys (l : Language) : list string := map (ToLower uni_lower) (Name l :: Aliases l).
Definition index_entry (i : nat) (l : Language) (m : gmap string nat) : gmap string nat :=
  foldl (λ m lk, <[lk +:+ "@" +:+ Version l := i]> (<[lk := i]> m)) m (keys l).

(** The loop over the entries, from position [i]. *)
Fixpoint load_entries (i : nat) (ls : list Language) (m : gmap string nat) : result LoadErr (gmap string nat) :=
  match ls with
  | [] => Ok m
  | l :: ls => if incomplete l then Err (ErrEntry i) else load_entries (S i) ls (index_entry i l m)
  end.

(** [doc]: the file's content after [os.ReadFile] and [yaml.Unmarshal]. *)
Definition Load (doc : result LoadErr (list Language)) : result LoadErr Registry :=
  languages <-? doc;
  match languages with
  | [] => Err ErrNoLanguages
  | _ => let ls := map with_workdir languages in
         m <-? load_entries 0 ls ∅; Ok {| byKey := m; all := ls |}
  end.

(** [Reload]: the catalogue is only replaced by one that loads. *)
Definition Reload (r : Registry) (doc : result LoadErr (list Language)) : result LoadErr unit * Registry :=
  match Load doc with
  | Err e => (Err e, r)
  | Ok nr => (Ok tt, {| byKey := byKey nr; all := all nr |})
  end.

Definition at_key (r : Registry) (k : string) : option Language := byKey r !! k ≫= λ i, all r !! i.
Definition Resolve (r : Registry) (name version : string) : option Language :=
  let name := ToLower uni_lower (TrimSpace name) in
  if negb (String.eqb version "") then
    match at_key r (name +:+ "@" +:+ TrimSpace version) with
    | Some l => Some l
    | None => at_key r name
    end
  else at_key r name.
Definition All (r : Registry) : list Language := all r.
End lower.

(** ** What a loaded catalogue resolves *)
Section spec.
Context (uni_lower : string → string).
Implicit Types (l : Language) (k : string).

(** [k] is one of the keys the entry is stored under. *)
Definition has_key k l : bool :=
  existsb (λ lk, String.eqb k lk || String.eqb k (lk +:+ "@" +:+ Version l)) (keys uni_lower l).
Definition named k l : bool := existsb (String.eqb k) (keys uni_lower l).
Definition last_with (p : Language → bool) (ls : list Language) : option Language := last (List.filter p ls).

Lemma index_entry_lookup i l m k :
  index_entry uni_lower i l m !! k = if has_key k l then Some i else m !! k.
Proof.
  unfold index_entry, has_key. generalize (keys uni_lower l) as ks. intros ks. revert m.
  induction ks as [|lk ks IH]; intros m; [done|]. cbn [foldl existsb]. rewrite IH.
  destruct (existsb _ ks); [by rewrite orb_true_r|]. rewrite orb_false_r.
  destruct (String.eqb_spec k (lk +:+ "@" +:+ Version l)) as [->|Hne].
  - by rewrite lookup_insert_eq, orb_true_r.
  - rewrite lookup_insert_ne by congruence. rewrite orb_false_r.
    destruct (String.eqb_spec k lk) as [->|Hne']; [by rewrite lookup_insert_eq|by rewrite lookup_insert_ne].
Qed.

Lemma last_with_cons p l ls :
  last_with p (l :: ls) = match last_with p ls with Some x => Some x | None => if p l then Some l else None end.
Proof.
  unfold last_with. cbn [List.filter]. destruct (p l); [|by destruct (last _)].
  rewrite last_cons. by destruct (last _).
Qed.

Lemma load_entries_at pre ls m m' k : load_entries uni_lower (List.length pre) ls m = Ok m' →
  (m' !! k ≫= λ i, (pre ++ ls) !! i) =
  match last_with (has_key k) ls with
  | Some l => Some l
  | None => m !! k ≫= λ i, (pre ++ ls) !! i
  end.
Proof.
  revert pre m. induction ls as [|l ls IH]; intros pre m; cbn [load_entries]; [by intros [= <-]|].
  destruct (incomplete l); [done|]. intros H.
  replace (S (List.length pre)) with (List.length (pre ++ [l])) in H by (rewrite length_app; cbn; lia).
  replace (pre ++ l :: ls) with ((pre ++ [l]) ++ ls) by (by rewrite <- app_assoc).
  rewrite (IH _ _ H), last_with_cons. destruct (last_with (has_key k) ls); [done|].
  rewrite index_entry_lookup. destruct (has_key k l); [|done]. cbn [mbind option_bind].
  rewrite <- app_assoc. by apply list_lookup_middle.
Qed.

Lemma load_entries_complete i ls m m' : load_entries uni_lower i ls m = Ok m' →
  Forall (λ l, incomplete l = false) ls.
Proof.
  revert i m. induction ls as [|l ls IH]; intros i m; cbn; [constructor|].
  destruct (incomplete l) eqn:E; [done|]. intros H. constructor; [done|]. by eapply IH.
Qed.

Lemma Load_inv doc r : Load uni_lower doc = Ok r →
  load_entries uni_lower 0 (all r) ∅ = Ok (byKey r) ∧
  ∃ langs, doc = Ok langs ∧ all r = map with_workdir langs ∧ langs ≠ [].
Proof.
  unfold Load. destruct doc as [[|l ls]|]; [done| |done].
  destruct (load_entries _ _ _ _) as [m|] eqn:E; [|done]. intros [= <-]. cbn [all byKey].
  split; [done|]. by eexists.
Qed.

Lemma at_key_loaded doc r k : Load uni_lower doc = Ok r → at_key r k = last_with (has_key k) (all r).
Proof.
  intros [H _]%Load_inv. pose proof (load_entries_at [] (all r) ∅ _ k H) as E. cbn [app] in E.
  unfold at_key. rewrite E. rewrite lookup_empty. by destruct (last_with _ _).
Qed.

Lemma loaded_ok doc r l : Load uni_lower doc = Ok r → l ∈ all r →
  incomplete l = false ∧ Workdir l ≠ "".
Proof.
  intros [H (langs & _ & E & _)]%Load_inv Hl. split.
  - apply load_entries_complete in H. rewrite Forall_forall in H. by apply H.
  - rewrite E, list_elem_of_fmap in Hl. destruct Hl as (l' & -> & _). unfold with_workdir.
    destruct (String.eqb_spec (Workdir l') ""); done.
Qed.

Lemma Resolve_in r name version l : Resolve uni_lower r name version = Some l → l ∈ all r.
Proof.
  assert (Hk : ∀ k, at_key r k = Some l → l ∈ all r).
  { intros k. unfold at_key. destruct (byKey r !! k); [|done]. apply list_elem_of_lookup_2. }
  unfold Resolve. destruct (negb (String.eqb version "")); [|apply Hk].
  destruct (at_key r (_ +:+ _)) as [l'|] eqn:E; [|apply Hk]. intros [= ->]. by eapply Hk.
Qed.

Lemma at_split a b v w : contains_char "@" a = false → contains_char "@" b = false →
  a +:+ "@" +:+ v = b +:+ "@" +:+ w → a = b ∧ v = w.
Proof.
  revert b. induction a as [|c a IH]; intros [|d b]; cbn [String.append].
  - by intros _ _ [= ->].
  - intros _ Hb [= <- _]. done.
  - intros Ha _ [= -> _]. done.
  - cbn [contains_char]. destruct (Ascii.eqb_spec "@" c), (Ascii.eqb_spec "@" d); try done.
    intros Ha Hb [= -> E]. by destruct (IH b Ha Hb E) as [-> ->].
Qed.

Lemma existsb_ext_in {A} (p q : A → bool) (ls : list A) : (∀ x, x ∈ ls → p x = q x) → existsb p ls = existsb q ls.
Proof.
  induction ls as [|x ls IH]; [done|]. intros H. cbn. rewrite (H x) by (by left). f_equal. apply IH.
  intros y Hy. apply H. by right.
Qed.
Lemma last_with_ext p q ls : (∀ l, l ∈ ls → p l = q l) → last_with p ls = last_with q ls.
Proof.
  induction ls as [|l ls IH]; [done|]. intros H. rewrite !last_with_cons, (H l), IH; [done| |by left].
  intros x Hx. apply H. by right.
Qed.

(** resolution agrees with a search of the catalogue.  In a loaded
    catalogue whose names and aliases hold no ['@'], a name resolves to the last
    entry that has it as name or alias, whatever the case and the surrounding
    white space; with a version, to the last such entry of that version.  If no
    entry has the version, the request is not refused: the unversioned entry is
    used.  What is found is complete (name, image and run are set). *)
Theorem Resolve_loaded doc r name version :
  Load uni_lower doc = Ok r →
  (∀ l k, l ∈ All r → k ∈ keys uni_lower l → contains_char "@" k = false) →
  let q := Strings.ToLower uni_lower (Strings.TrimSpace name) in
  contains_char "@" q = false →
  Resolve uni_lower r name version =
    match (if String.eqb version "" then None
           else last_with (λ l, named q l && String.eqb (Version l) (Strings.TrimSpace version)) (All r)) with
    | Some l => Some l
    | None => last_with (named q) (All r)
    end ∧
  ∀ l, Resolve uni_lower r name version = Some l → incomplete l = false ∧ Workdir l ≠ "".
Proof.
  intros HL Hat q Hq. split.
  2: { intros l Hl. eapply loaded_ok; [done|]. by eapply Resolve_in. }
  unfold Resolve. fold q. rewrite !(at_key_loaded doc r _ HL). unfold All in *. clearbody q.
  assert (E1 : last_with (has_key q) (all r) = last_with (named q) (all r)).
  { apply last_with_ext. intros l Hl. apply existsb_ext_in. intros k Hk.
    destruct (String.eqb_spec q (k +:+ "@" +:+ Version l)) as [E|_]; [|by rewrite orb_false_r].
    rewrite E, contains_char_app in Hq. cbn in Hq. by rewrite orb_true_r in Hq. }
  assert (E2 : last_with (has_key (q +:+ "@" +:+ Strings.TrimSpace version)) (all r) =
    last_with (λ l, named q l && String.eqb (Version l) (Strings.TrimSpace version)) (all r)).
  { apply last_with_ext. intros l Hl. unfold has_key, named.
    transitivity (existsb (λ k, String.eqb q k && String.eqb (Version l) (Strings.TrimSpace version)) (keys uni_lower l)).
    - apply existsb_ext_in. intros k Hk. specialize (Hat l k Hl Hk).
      destruct (String.eqb_spec (q +:+ "@" +:+ Strings.TrimSpace version) k) as [E|_].
      { rewrite <- E, contains_char_app in Hat. cbn in Hat. by rewrite orb_true_r in Hat. }
      cbn [orb]. destruct (String.eqb_spec (q +:+ "@" +:+ Strings.TrimSpace version) (k +:+ "@" +:+ Version l)) as [E|Hne].
      + destruct (at_split _ _ _ _ Hq Hat E) as [-> <-]. by rewrite !String.eqb_refl.
      + destruct (String.eqb_spec q k) as [<-|]; [|done].
        destruct (String.eqb_spec (Version l) (Strings.TrimSpace version)) as [E|]; [|done].
        by rewrite E in Hne.
    - induction (keys uni_lower l) as [|k ks IH]; [done|]. cbn [existsb].
      by rewrite IH, andb_orb_distrib_l. }
  rewrite E1, E2. by destruct (String.eqb version "").
Qed.
End spec.

Definition nonzero (v def : Z) : Z := if v <=? 0 then def else v.
Definition nonzero64 (v def : Z) : Z := if v <=? 0 then def else v.

Definition DefaultLimits (l : Language) : Limits :=
  let lim := lang_Limits l in
  let cpus := ParseFloat (rl_CPUs lim) in
  {| MemoryBytes := nonzero64 (rl_MemoryBytes lim) (Z.shiftl 256 20);
     CPUs := if fleb cpus (of_Z 0) then of_Z 1 else cpus;
     Pids := nonzero (PidsLimit lim) 128;
     OutputBytes := nonzero64 (rl_OutputBytes lim) (Z.shiftl 64 10);
     WallTimeMs := wrap64 (nonzero (WallTimeSec lim) 10 * 1000);
     CompileTimeMs := wrap64 (CompileTimeSec lim * 1000) |}.

Definition BuildSpec (l : Language) (files : list File) (stdin : string) (argv : list string)
    (limits : Limits) (network : bool) : Spec := {|
  Lang := {| l_Name := Name l; l_Version := Version l |}; Executor.Image := Image l;
  Executor.Compile := Compile l; Executor.Run := Run l; Executor.Workdir := Workdir l;
  Executor.Env := Env l; Executor.ScratchExec := ScratchExec l; Executor.ScratchMB := ScratchMB l;
  Mounts := []; Files := files; Stdin := stdin; Argv := argv; s_Limits := limits; Network := network |}.
End Catalogue.
