(* ===== verification/ApiExec.v ===== *)
(** * internal/api/execute.go: POST /execute

    The handler from the decoded request to the reply, through the catalogue,
    the limits, the concurrency gate and the queue seam.  The backend is an
    argument (Executor and WarmPool are two); it returns an [outcome].  A Go
    panic of the semaphore is [None]. *)

From S2P Require Import Prelude GoLib GoStrings GoFloat Sched Executor Registry.
Import Strings.

(** ** Ceilings and requests (router.go, execute.go) *)
Definition maxMemoryBytes : Z := Z.shiftl 512 20.
Definition maxOutputBytes : Z := Z.shiftl 256 10.
Definition maxWallTimeMs : Z := 20000.
Definition maxPids : Z := 256.
Definition maxCPUs : float := of_Z 2.

Record limitsOverride := {
  o_MemoryBytes : option Z; o_CPUs : option float; o_Pids : option Z; o_OutputBytes : option Z;
  o_WallTimeMs : option Z }.
Record execRequest := {
  q_Language : string; q_Version : string; q_Code : string; q_Files : list File; q_Stdin : string;
  q_Args : list string; q_Limits : option limitsOverride; q_Network : bool }.

Definition clamp64 (v lo hi : Z) : Z := if v <? lo then lo else if hi <? v then hi else v.
Definition clampInt (v lo hi : Z) : Z := if v <? lo then lo else if hi <? v then hi else v.

Definition apply_overrides (def : Limits) (o : option limitsOverride) : Limits :=
  match o with
  | None => def
  | Some o => {|
      MemoryBytes := default (MemoryBytes def) (o_MemoryBytes o);
      CPUs := default (CPUs def) (o_CPUs o); Pids := default (Pids def) (o_Pids o);
      OutputBytes := default (OutputBytes def) (o_OutputBytes o);
      WallTimeMs := default (WallTimeMs def) (o_WallTimeMs o); CompileTimeMs := CompileTimeMs def |}
  end.
Definition clampLimits (def : Limits) (o : option limitsOverride) : Limits :=
  let l := apply_overrides def o in
  let c := if fltb (CPUs l) (of_decimal 1 1) then of_decimal 1 1 else CPUs l in
  {| MemoryBytes := clamp64 (MemoryBytes l) (Z.shiftl 8 20) maxMemoryBytes;
     OutputBytes := clamp64 (OutputBytes l) (Z.shiftl 1 10) maxOutputBytes;
     Pids := clampInt (Pids l) 1 maxPids;
     WallTimeMs := clampInt (WallTimeMs l) 100 maxWallTimeMs;
     CPUs := if fltb maxCPUs c then maxCPUs else c;
     CompileTimeMs := CompileTimeMs l |}.

(** [None]: [errNoSource]. *)
Definition buildSpec (lang : Catalogue.Language) (req : execRequest) : option Spec :=
  let files := match q_Files req with
               | [] => if String.eqb (q_Code req) "" then []
                       else [{| f_Name := Catalogue.SourceFile lang; f_Content := q_Code req; f_Encoding := "" |}]
               | fs => fs
               end in
  match files with
  | [] => None
  | _ => Some (Catalogue.BuildSpec lang files (q_Stdin req) (q_Args req)
                 (clampLimits (Catalogue.DefaultLimits lang) (q_Limits req)) (q_Network req))
  end.

(** [Accept] header and [stream] query parameter. *)
Definition wantsSSE (accept stream : string) : bool :=
  Contains accept "text/event-stream" || String.eqb stream "1".

(** ** Replies *)
Record runResult := {
  r_Stdout : string; r_Stderr : string; r_ExitCode : Z; r_TimedOut : bool; r_OOMKilled : bool;
  r_Truncated : bool; r_DurationMs : Z; r_Net : bool }.
Definition toRunResult (res : Result) : runResult := {|
  r_Stdout := Stdout res; r_Stderr := Stderr res; r_ExitCode := ExitCode res;
  r_TimedOut := TimedOut res; r_OOMKilled := OOMKilled res; r_Truncated := Truncated res;
  r_DurationMs := DurationMs res; r_Net := r_Network res |}.
Record execResponse := {
  e_Language : string; e_Version : string; e_Backend : string; e_Run : runResult; e_Warning : bool }.
Inductive reply :=
| JError (status : Z) (code : string) (retryAfter : option Z)
| JExec (r : execResponse)                              (* 200 *)
| SSE (out err : list string) (fin : option execResponse) (* chunks, then done or error *).

Definition net_warning (s : Spec) (res : Result) : bool := Network s && negb (r_Network res).
Definition response (lang : Catalogue.Language) (backend : string) (s : Spec) (res : Result) : execResponse := {|
  e_Language := Catalogue.Name lang; e_Version := Catalogue.Version lang; e_Backend := backend;
  e_Run := toRunResult res; e_Warning := net_warning s res |}.

(** ** The handler *)
Inductive SubmitErr := errCapacity | errExec (e : ExecErr) | errQueue.

Section handler.
Context {W : Type} {SW : Weighted W} (uni_lower : string → string).
(** The backend, with its name; [true] asks for a live sink. *)
Context (backend_name : string) (backend : Spec → bool → outcome).

(** What a handler leaves behind: the limiter, and every spec given to the
    backend. *)
Definition ran (A : Type) : Type := option (A * Limiter W * list Spec).

(** [localRunner.Run]; [late] says that no slot became free in time. *)
Definition Run_local (l : Limiter W) (late : bool) (s : Spec) : ran (result SubmitErr Result) :=
  let '(ok, l) := Acquire l late in
  if negb ok then Some (Err errCapacity, l, []) else
  let o := backend s false in
  l ← Release l;
  Some (match o_err o with Some e => Err (errExec e) | None => Ok (o_res o) end, l, [s]).

(** The queue seam: [Submit] of the configured driver. *)
Class Queue := { Submit : Limiter W → bool → Spec → ran (result SubmitErr Result) }.
(** [InProc]. *)
Definition InProc : Queue := {| Submit := Run_local |}.

Definition executeSSE (flusher : bool) (lang : Catalogue.Language) (s : Spec) : reply * list Spec :=
  if negb flusher then (JError 500 "streaming_unsupported" None, []) else
  let o := backend s true in
  (SSE (o_sink o).1 (o_sink o).2
     match o_err o with
     | Some _ => None
     | None => Some (response lang backend_name s (o_res o))
     end, [s]).

Definition handleExecute `{Queue} (reg : Catalogue.Registry) (l : Limiter W) (late flusher : bool)
    (accept stream : string) (body : option execRequest) : ran reply :=
  match body with
  | None => Some (JError 400 "invalid_json" None, l, [])
  | Some req =>
      if String.eqb (TrimSpace (q_Language req)) "" then Some (JError 400 "language_required" None, l, []) else
      match Catalogue.Resolve uni_lower reg (q_Language req) (q_Version req) with
      | None => Some (JError 400 "unknown_language" None, l, [])
      | Some lang =>
          match buildSpec lang req with
          | None => Some (JError 400 "no_source" None, l, [])
          | Some spec =>
              if wantsSSE accept stream then
                let '(ok, l) := Acquire l late in
                if negb ok then Some (JError 429 "capacity" (Some 1), l, []) else
                let '(rep, log) := executeSSE flusher lang spec in
                l ← Release l; Some (rep, l, log)
              else
                '(r, l, log) ← Submit l late spec;
                Some (match r with
                      | Err errCapacity => JError 429 "capacity" (Some 1)
                      | Err _ => JError 500 "execution_failed" None
                      | Ok res => JExec (response lang backend_name spec res)
                      end, l, log)
          end
      end
  end.
End handler.
Arguments Queue W : clear implicits.

(** ** The ceilings *)
Record within_ceiling (l : Limits) : Prop := {
  wc_memory : 8 * 2 ^ 20 ≤ MemoryBytes l ≤ 512 * 2 ^ 20;
  wc_output : 2 ^ 10 ≤ OutputBytes l ≤ 256 * 2 ^ 10;
  wc_pids : 1 ≤ Pids l ≤ 256;
  wc_wall : 100 ≤ WallTimeMs l ≤ 20000;
  wc_cpus : fleb (of_decimal 1 1) (CPUs l) = true ∧ fleb (CPUs l) (of_Z 2) = true }.

Lemma clamp64_bounds v lo hi : lo ≤ hi → lo ≤ clamp64 v lo hi ≤ hi.
Proof. intros ?. unfold clamp64. split_ifs; lia. Qed.
Lemma clamp64_id v lo hi : lo ≤ v ≤ hi → clamp64 v lo hi = v.
Proof. intros ?. unfold clamp64. split_ifs; lia. Qed.

Definition cpus_not_nan (def : Limits) (o : option limitsOverride) : Prop :=
  is_nan (CPUs def) = false ∧ ∀ c, o ≫= o_CPUs = Some c → is_nan c = false.

Lemma clampLimits_within def o : cpus_not_nan def o → within_ceiling (clampLimits def o).
Proof.
  intros [Hd Ho]. unfold clampLimits.
  assert (Hc : is_nan (CPUs (apply_overrides def o)) = false).
  { destruct o as [o|]; [|done]. cbn in *. destruct (o_CPUs o) as [c|]; [|done]. by apply Ho. }
  generalize dependent (apply_overrides def o). intros l Hc. split; cbn [MemoryBytes OutputBytes Pids WallTimeMs CPUs].
  1,2: by apply clamp64_bounds.
  1,2: by apply (clamp64_bounds _ _ _).
  set (c := if fltb (CPUs l) (of_decimal 1 1) then of_decimal 1 1 else CPUs l).
  assert (H1 : fleb (of_decimal 1 1) c = true ∧ is_nan c = false).
  { unfold c. destruct (fltb (CPUs l) (of_decimal 1 1)) eqn:E; [by split; vm_compute|].
    split; [|done]. by apply fltb_false. }
  destruct (fltb maxCPUs c) eqn:E; [by split; vm_compute|].
  split; [apply H1|]. apply fltb_false; [by vm_compute|apply H1|done].
Qed.

(** What the caller gets inside the ceilings is what was asked for. *)
Lemma clampLimits_id def o : within_ceiling (apply_overrides def o) →
  fltb (CPUs (apply_overrides def o)) (of_decimal 1 1) = false →
  fltb maxCPUs (CPUs (apply_overrides def o)) = false →
  clampLimits def o = apply_overrides def o.
Proof.
  intros [H1 H2 H3 H4 _] H5 H6. unfold clampLimits. rewrite H5, H6.
  change clampInt with clamp64. rewrite !clamp64_id by done.
  by destruct (apply_overrides def o).
Qed.

(** ** The handler *)
Section handler.
Context {W : Type} {SW : Weighted W} {SWS : WeightedSpec W} (uni_lower : string → string).
Context (backend_name : string) (backend : Spec → bool → outcome).

(** A spec the handler may run: everything but files, stdin and arguments comes
    from a catalogue entry, and the limits are within the ceilings. *)
Definition admissible (reg : Catalogue.Registry) (s : Spec) : Prop :=
  Mounts s = [] ∧ within_ceiling (s_Limits s) ∧
  ∃ l, l ∈ Catalogue.All reg ∧ Image s = Catalogue.Image l ∧ Compile s = Catalogue.Compile l ∧
    Run s = Catalogue.Run l ∧ Workdir s = Catalogue.Workdir l ∧ Env s = Catalogue.Env l ∧
    ScratchExec s = Catalogue.ScratchExec l ∧ ScratchMB s = Catalogue.ScratchMB l.

(** What a queue driver promises the handler: it returns; a slot is held while the backend
    runs, the slot is given back, and only this spec is run, at most once; and its refusal means
    that no slot was free.  [InProc] keeps it, and so does the caller's side of the Valkey driver
    ([QueueSpec.RemoteQueue_spec]). *)
Class QueueSpec (Q : Queue W) : Prop :=
  submit_spec l late s : lim_ok l → ∃ r l' log, Submit l late s = Some (r, l', log) ∧
    lim_ok l' ∧ inUse l' = inUse l ∧ max l' = max l ∧
    (log = [] ∨ (log = [s] ∧ inUse l < max l)) ∧
    (r = Err errCapacity → late = false → inUse l = max l).

Lemma with_slot l late : lim_ok l →
  (Acquire l late).1 = false ∧ (Acquire l late).2 = l ∧ (late = false → inUse l = max l) ∨
  (Acquire l late).1 = true ∧ inUse l < max l ∧
    ∃ l', Release (Acquire l late).2 = Some l' ∧ lim_ok l' ∧ inUse l' = inUse l ∧ max l' = max l.
Proof.
  intros Hok. destruct (Acquire_ok l late Hok) as (H1 & H2 & H3).
  pose proof (Acquire_granted_lt l late Hok) as Hlt.
  destruct (Acquire l late).1 eqn:E.
  - right. split; [done|]. split; [by apply Hlt|].
    destruct (Release_ok (Acquire l late).2 H1) as (l' & K1 & K2 & K3 & K4).
    { destruct Hok as (_ & _ & _ & ?). lia. }
    exists l'. split; [done|]. split; [done|]. lia.
  - left. split; [done|]. split.
    + revert E. unfold Acquire. by destruct (sem_acquire (sem l) late).
    + intros ->. destruct (decide (inUse l < max l)) as [Hl|]; [|destruct Hok as (_ & _ & _ & ?); lia].
      apply Acquire_free in Hl; [|done]. congruence.
Qed.

#[export] Instance InProc_spec : QueueSpec (InProc backend).
Proof.
  intros l late s Hok. cbn [Submit InProc]. unfold Run_local.
  destruct (with_slot l late Hok) as [(H1 & H2 & H3)|(H1 & H2 & l' & H3 & H4 & H5 & H6)];
    destruct (Acquire l late) as [ok l1]; cbn in *; subst ok; cbn.
  - subst l1. eexists _, _, _. split; [done|]. do 3 (split; [done|]). split; [by left|]. by intros _.
  - rewrite H3. cbn. eexists _, _, _. split; [done|]. do 3 (split; [done|]). split; [by right|].
    by destruct (o_err (backend s false)).
Qed.

Lemma buildSpec_admissible doc reg name version req lang s :
  Catalogue.Load uni_lower doc = Ok reg →
  Catalogue.Resolve uni_lower reg name version = Some lang →
  cpus_not_nan (Catalogue.DefaultLimits lang) (q_Limits req) →
  buildSpec lang req = Some s → admissible reg s.
Proof.
  intros HL HR Hn. unfold buildSpec.
  destruct (match q_Files req with [] => _ | fs => fs end); [done|]. intros [= <-].
  split; [done|]. split; [by apply clampLimits_within|].
  exists lang. split; [by eapply Catalogue.Resolve_in|done].
Qed.

(** A request runs the backend at most once, inside the bounds, whatever the driver. *)
Lemma execute_ok `{!Queue W} `{!QueueSpec _} doc reg l late flusher accept stream body :
  lim_ok l → Catalogue.Load uni_lower doc = Ok reg →
  (∀ lang req, lang ∈ Catalogue.All reg → body = Some req →
     cpus_not_nan (Catalogue.DefaultLimits lang) (q_Limits req)) →
  ∃ rep l' log,
    handleExecute uni_lower backend_name backend reg l late flusher accept stream body = Some (rep, l', log) ∧
    lim_ok l' ∧ inUse l' = inUse l ∧ max l' = max l ∧ (List.length log ≤ 1)%nat ∧
    (∀ s, s ∈ log → admissible reg s ∧ inUse l < max l) ∧
    (rep = JError 429 "capacity" (Some 1) → late = false → inUse l = max l).
Proof.
  intros Hok HL Hn. unfold handleExecute.
  assert (Hrej : ∀ st code, code ≠ "capacity" → ∃ rep l' log,
    Some (JError st code None, l, []) = Some (rep, l', log) ∧
    lim_ok l' ∧ inUse l' = inUse l ∧ max l' = max l ∧ (List.length log ≤ 1)%nat ∧
    (∀ s, s ∈ log → admissible reg s ∧ inUse l < max l) ∧
    (rep = JError 429 "capacity" (Some 1) → late = false → inUse l = max l)).
  { intros st code _. eexists _, _, _. split; [done|]. do 3 (split; [done|]). split; [cbn; lia|].
    split; [|done]. by intros s ?%elem_of_nil. }
  destruct body as [req|]; [|by apply Hrej].
  destruct (String.eqb (TrimSpace (q_Language req)) ""); [by apply Hrej|].
  destruct (Catalogue.Resolve _ _ _ _) as [lang|] eqn:HR; [|by apply Hrej].
  destruct (buildSpec lang req) as [spec|] eqn:HB; [|by apply Hrej].
  assert (Hadm : admissible reg spec).
  { eapply buildSpec_admissible; [done|done| |done]. apply Hn; [|done]. by eapply Catalogue.Resolve_in. }
  destruct (wantsSSE accept stream).
  - destruct (with_slot l late Hok) as [(H1 & H2 & H3)|(H1 & H2 & l' & H3 & H4 & H5 & H6)];
      destruct (Acquire l late) as [ok l1]; cbn in *; subst ok; cbn.
    + subst l1. eexists _, _, _. split; [done|]. do 3 (split; [done|]). split; [cbn; lia|].
      split; [|done]. by intros s ?%elem_of_nil.
    + destruct (executeSSE _ _ _ _ _) as [rep log] eqn:HE. rewrite H3. cbn.
      assert (Hlog : (log = [] ∨ log = [spec]) ∧ rep ≠ JError 429 "capacity" (Some 1)).
      { revert HE. unfold executeSSE. destruct (negb flusher); intros [= <- <-]; auto. }
      eexists _, _, _. split; [done|]. do 3 (split; [done|]). destruct Hlog as [[->| ->] Hrep].
      * split; [cbn; lia|]. split; [|done]. by intros s ?%elem_of_nil.
      * split; [cbn; lia|]. split; [|done]. by intros s ->%list_elem_of_singleton.
  - destruct (submit_spec l late spec Hok) as (r & l' & log & -> & H1 & H2 & H3 & H4 & H5). cbn.
    eexists _, _, _. split; [done|]. do 3 (split; [done|]).
    split; [destruct H4 as [->|[-> _]]; cbn; lia|]. split.
    + intros s Hs. destruct H4 as [->|[-> Hlt]]; [by apply elem_of_nil in Hs|].
      by apply list_elem_of_singleton in Hs as ->.
    + intros Hrep Hl. apply H5; [|done]. by destruct r as [?|[]].
Qed.
End handler.

(** ** A concrete server *)
Definition demo_python : Catalogue.Language := {|
  Catalogue.Name := "python"; Catalogue.Version := "3.14"; Catalogue.Aliases := ["py"];
  Catalogue.Image := "py@sha256:0"; Catalogue.SourceFile := "main.py"; Catalogue.Compile := [];
  Catalogue.Run := ["python3"; "/box/main.py"]; Catalogue.Workdir := ""; Catalogue.Env := ∅;
  Catalogue.ScratchExec := false; Catalogue.ScratchMB := 0;
  Catalogue.lang_Limits := {| rl_MemoryBytes := 0; rl_CPUs := "1.5"; PidsLimit := 0; WallTimeSec := 0;
    CompileTimeSec := 0; rl_OutputBytes := 0 |} |}.
Definition demo_reg : Catalogue.Registry :=
  match Catalogue.Load id (Ok [demo_python]) with
  | Ok r => r
  | Err _ => {| Catalogue.byKey := ∅; Catalogue.all := [] |}
  end.
Definition demo_request : execRequest := {|
  q_Language := " PY "; q_Version := "2.7"; q_Code := "print(1)"; q_Files := []; q_Stdin := "";
  q_Args := []; q_Network := false;
  q_Limits := Some {| o_MemoryBytes := Some (2 ^ 40); o_CPUs := Some (of_Z 64); o_Pids := Some (-1);
                      o_OutputBytes := None; o_WallTimeMs := Some 0 |} |}.
Definition demo_backend (s : Spec) (sink : bool) : outcome :=
  {| o_res := no_result; o_err := None; o_trace := []; o_sink := ([], []) |}.

Example demo_limits :
  let l := clampLimits (Catalogue.DefaultLimits demo_python) (q_Limits demo_request) in
  (MemoryBytes l, Pids l, OutputBytes l, WallTimeMs l, FormatFloat2 (CPUs l)) =
  (536870912, 1, 65536, 100, "2.00").
Proof. vm_compute. reflexivity. Qed.

(** The unknown version 2.7 is served by the entry there is. *)
Lemma Resolve_loaded_witness :
  Catalogue.Resolve id demo_reg " PY " "2.7" = Some (Catalogue.with_workdir demo_python).
Proof.
  destruct (Catalogue.Resolve_loaded id (Ok [demo_python]) demo_reg " PY " "2.7") as [H _];
    [reflexivity| |vm_compute; reflexivity|rewrite H; vm_compute; reflexivity].
  intros l k Hl Hk. assert (l = Catalogue.with_workdir demo_python) as -> by (by apply list_elem_of_singleton in Hl).
  cbn in Hk. rewrite !elem_of_cons, elem_of_nil in Hk. by destruct Hk as [->|[->|[]]].
Defined.
