(* ===== verification/ExecBounds.v ===== *)
(** * What one request to /execute starts

    The handler over the in-process driver and the backend of the daemon, the warm pool in front of
    gVisor (which with no pool configured is gVisor alone): the sandboxes of a request. *)

From S2P Require Import Prelude GoLib GoStrings GoFloat Sched Executor ExecutorSpec WarmPool Registry ApiExec.



Section bounds.
Context {W : Type} {SW : Weighted W} {SWS : WeightedSpec W} (uni_lower : string → string) (backend_name : string).
(** What the two backends observe of a run. *)
Context (wp : WarmPool) (warm cold : Spec → bool → xenv).

End bounds.

