(* ===== verification/Kernel.v ===== *)
(** * internal/session/kernel.go: resident kernels

    A kernel is an object shared between the engine's table, its session and
    the calls in flight, so the table maps a session id to a location of
    [kheap].  What the engine does to docker is a list of [kevent]s.  A step observes
    the lines of the attach channel, as bytes, each with the time elapsed when it is handled and
    whether the soft timer's goroutine has run by then; [read_frame] is what [json.Unmarshal] makes
    of one.  The hard timer's [docker kill] ends the channel ([channel]); the interrupts of the
    soft timer and of a client that leaves change only what the container sends. *)

From S2P Require Import Prelude GoLib GoStrings GoFloat GoJSON GoUnmarshal Sched Executor.

(** ** Configuration *)
Record KernelConfig := {
  k_Slots : Z; k_MemoryBytes : Z; k_CPUs : float; k_Pids : Z; k_OutputBytes : Z; StartTimeout : Z;
  DefaultStepMs : Z; MaxStepMs : Z; k_IdleTTL : Z; MaxLifetime : Z; k_AcquireWait : Z }.
Definition second : Z := 10 ^ 9.
Definition applyDefaults (c : KernelConfig) : KernelConfig := {|
  k_Slots := positive_or (k_Slots c) 6; k_MemoryBytes := positive_or (k_MemoryBytes c) (Z.shiftl 128 20);
  k_CPUs := if fleb (k_CPUs c) (of_Z 0) then of_Z 1 else k_CPUs c;
  k_Pids := positive_or (k_Pids c) 128; k_OutputBytes := positive_or (k_OutputBytes c) (Z.shiftl 64 10);
  StartTimeout := positive_or (StartTimeout c) (30 * second);
  DefaultStepMs := positive_or (DefaultStepMs c) 20000; MaxStepMs := positive_or (MaxStepMs c) 60000;
  k_IdleTTL := positive_or (k_IdleTTL c) (30 * 60 * second);
  MaxLifetime := positive_or (MaxLifetime c) (4 * 3600 * second);
  k_AcquireWait := positive_or (k_AcquireWait c) (2 * second) |}.

(** ** Frames *)
Inductive kOp := OpExec | OpPing | OpShutdown.
Record kReq := { rq_ID : string; rq_Op : kOp; rq_Code : string }.
Definition op_name (o : kOp) : string := match o with OpExec => "exec" | OpPing => "ping" | OpShutdown => "shutdown" end.
(** [json.Marshal] of a request; an empty [code] is omitted. *)
Definition request_json (r : kReq) : list (string * json) :=
  [("id", JStr (rq_ID r)); ("op", JStr (op_name (rq_Op r)))] ++
  (if String.eqb (rq_Code r) "" then [] else [("code", JStr (rq_Code r))]).
Definition request_frame (r : kReq) : string := marshal (JObj (request_json r)) +:+ String newline "".

Record kResp := {
  p_ID : string; p_Type : string; p_Stream : string; p_Data : string; p_OK : bool; p_Error : string;
  p_Exc : string; p_DurationMs : Z; p_Truncated : bool; p_Proto : Z; p_Python : string }.
Definition resp_tags : list string :=
  ["id"; "type"; "stream"; "data"; "ok"; "error"; "exc"; "durationMs"; "truncated"; "proto"; "python"].
Definition resp_fields (fs : list (string * JSON.jval)) : option kResp :=
  i ← JSON.field resp_tags JSON.dec_string "id" "" fs;
  t ← JSON.field resp_tags JSON.dec_string "type" "" fs;
  s ← JSON.field resp_tags JSON.dec_string "stream" "" fs;
  d ← JSON.field resp_tags JSON.dec_string "data" "" fs;
  o ← JSON.field resp_tags JSON.dec_bool "ok" false fs;
  e ← JSON.field resp_tags JSON.dec_string "error" "" fs;
  x ← JSON.field resp_tags JSON.dec_string "exc" "" fs;
  m ← JSON.field resp_tags JSON.dec_int "durationMs" 0 fs;
  c ← JSON.field resp_tags JSON.dec_bool "truncated" false fs;
  v ← JSON.field resp_tags JSON.dec_int "proto" 0 fs;
  y ← JSON.field resp_tags JSON.dec_string "python" "" fs;
  Some {| p_ID := i; p_Type := t; p_Stream := s; p_Data := d; p_OK := o; p_Error := e; p_Exc := x; p_DurationMs := m;
          p_Truncated := c; p_Proto := v; p_Python := y |}.
Definition zero_resp : kResp := {|
  p_ID := ""; p_Type := ""; p_Stream := ""; p_Data := ""; p_OK := false; p_Error := ""; p_Exc := ""; p_DurationMs := 0;
  p_Truncated := false; p_Proto := 0; p_Python := "" |}.
Definition dec_resp (v : JSON.jval) : option kResp := JSON.dec_struct (λ _, resp_fields) zero_resp v.

(** What a read of the channel gives: an error, an empty line, a line that
    [json.Unmarshal] refuses, or a frame. *)
Inductive frame := FEOF | FEmpty | FNoise | FResp (r : kResp).
(** [None]: [ReadBytes] failed. *)
Definition read_frame (line : option string) : frame :=
  match line with
  | None => FEOF
  | Some l =>
      if String.eqb l "" then FEmpty else
      match JSON.Unmarshal dec_resp l with Some r => FResp r | None => FNoise end
  end.
Record arrival := { a_line : option string; a_late : bool; a_ms : Z }.
Definition a_frame (a : arrival) : frame := read_frame (a_line a).
(** [timedOut.Load()] when a line is handled: [a_late] says whether the soft timer's goroutine ran,
    which it does once [wall] milliseconds are over, not before. *)
Definition timed (wall : Z) (a : arrival) : bool := (wall <=? a_ms a) && a_late a.

(** ** Kernels and the engine *)
Record kernel := {
  k_id : string; k_container : string; k_image : string; k_createdAt : Z; k_lastUsed : Z; k_dead : bool }.
Definition set_dead (k : kernel) : kernel := {|
  k_id := k_id k; k_container := k_container k; k_image := k_image k; k_createdAt := k_createdAt k;
  k_lastUsed := k_lastUsed k; k_dead := true |}.
Definition set_used (now : Z) (k : kernel) : kernel := {|
  k_id := k_id k; k_container := k_container k; k_image := k_image k; k_createdAt := k_createdAt k;
  k_lastUsed := now; k_dead := k_dead k |}.

Inductive kevent :=
| KRun (args : list string) | KAttach (container : string) | KCancel (container : string)
| KRemove (container : string) | KSweepAll.

Section engine.
Context {W : Type} {SW : Weighted W}.

Record KernelEngine := {
  kcfg : KernelConfig; Slots : Limiter W; kgv : Gvisor;
  kernels : gmap string nat;     (* session id -> location *)
  kheap : list kernel }.
Definition set_kernels (e : KernelEngine) (ks : gmap string nat) (h : list kernel) : KernelEngine :=
  {| kcfg := kcfg e; Slots := Slots e; kgv := kgv e; kernels := ks; kheap := h |}.
Definition set_slots (e : KernelEngine) (l : Limiter W) : KernelEngine :=
  {| kcfg := kcfg e; Slots := l; kgv := kgv e; kernels := kernels e; kheap := kheap e |}.

(** [backend]: [None] when it is not the gVisor executor.  The orphans of an
    earlier process are removed first. *)
Definition NewKernelEngine (backend : option Gvisor) (cfg : KernelConfig) : option (KernelEngine * list kevent) :=
  match backend with
  | None => None
  | Some gv =>
      let cfg := applyDefaults cfg in
      Some ({| kcfg := cfg; Slots := New (k_Slots cfg); kgv := gv; kernels := ∅; kheap := [] |}, [KSweepAll])
  end.

(** [stat]: the age of the firewall sentinel when the runtime is chosen. *)
Definition buildKernelRunArgs (e : KernelEngine) (name sessionID image : string) (mounts : list Mount)
    (network : bool) (stat : option Z) : list string :=
  let c := kcfg e in
  let '(runtime, netFlag, resolvMount) :=
    match (if network then NetMode (kgv e) stat else None) with
    | Some (rt, net, resolv) =>
        (rt, "--network=" +:+ net,
         if String.eqb resolv "" then [] else ["-v"; resolv +:+ ":/etc/resolv.conf:ro"])
    | None => (Runtime (kgv e), "--network=none", [])
    end in
  ["-d"; "-i"; "--name"; name; "--runtime"; runtime; netFlag; "--read-only"; "--tmpfs";
   tmpfs_opt "noexec" 64; "-w"; "/workspace"] ++
  resource_args (k_MemoryBytes c) (k_CPUs c) (k_Pids c) ++ isolation_args (kgv e) ++
  ["--label"; "isobox.kernel=true"; "--label"; "isobox.session=" +:+ sessionID;
   "--env"; "HOME=/tmp"; "--env"; "ISOBOX_KERNEL_OUTPUT_BYTES=" +:+ Itoa (k_OutputBytes c);
   "--env"; "PYTHONDONTWRITEBYTECODE=1"] ++ resolvMount ++ flat_map mount_args mounts ++ [image].

(** *** NewKernel *)
Inductive KernelErr := ErrKRun | ErrKPipe | ErrKStart | ErrKReady | ErrKDead | ErrKWrite | ErrKStream | ErrKFatal.
(** The first line read; [None]: the start timeout. *)
Definition awaitReady (first : option (option string)) : bool :=
  match read_frame <$> first with Some (FResp r) => String.eqb (p_Type r) "ready" | _ => false end.

Record nkenv := {
  nk_uuid : string; nk_run : bool; nk_stdin : bool; nk_stdout : bool; nk_start : bool; nk_now : Z;
  nk_first : option (option string); nk_stat : option Z }.
Context (harnessPy : string).

(** The new kernel's location, the events. *)
Definition NewKernel (e : KernelEngine) (x : nkenv) (id image : string) (mounts : list Mount) (network : bool) :
    result KernelErr nat * KernelEngine * list kevent :=
  let name := "iso-kernel-" +:+ nk_uuid x in
  let run := KRun ("run" :: buildKernelRunArgs e name id image mounts network (nk_stat x) ++
                   ["python"; "-u"; "-c"; harnessPy]) in
  if negb (nk_run x) then (Err ErrKRun, e, [run]) else
  if negb (nk_stdin x && nk_stdout x) then (Err ErrKPipe, e, [run; KCancel name; KRemove name]) else
  if negb (nk_start x) then (Err ErrKStart, e, [run; KCancel name; KRemove name]) else
  if negb (awaitReady (nk_first x))
  then (Err ErrKReady, e, [run; KAttach name; KCancel name; KRemove name]) else
  let k := {| k_id := id; k_container := name; k_image := image; k_createdAt := nk_now x;
              k_lastUsed := nk_now x; k_dead := false |} in
  (Ok (List.length (kheap e)),
   set_kernels e (<[id := List.length (kheap e)]> (kernels e)) (kheap e ++ [k]), [run; KAttach name]).

(** *** Exec *)
Definition step_ms (c : KernelConfig) (stepMs : Z) : Z :=
  let s := if stepMs <=? 0 then DefaultStepMs c else stepMs in
  let s := if MaxStepMs c <? s then MaxStepMs c else s in
  if s <? 1000 then 1000 else s.

(** [capBuf] has the fields and the [Write] of [capWriter]; [clip] is called after
    the write. *)
Definition capBuf : Type := capWriter.
Definition clip (b : string) (w : capBuf) : string := if truncated w then "" else b.

(** How a step ended: the result and the error, whether the kernel was marked
    dead or its activity recorded, and what the sinks received. *)
Record step_end := {
  z_res : Result; z_err : option KernelErr; z_dead : bool; z_touch : bool;
  z_out : list string; z_errs : list string }.
Definition mk_result (so se : string) (code : Z) (timed truncated : bool) (ms : Z) : Result := {|
  Stdout := so; Stderr := se; ExitCode := code; TimedOut := timed; OOMKilled := false;
  Truncated := truncated; DurationMs := ms; CompileOutput := ""; r_Network := false |}.

(** The read loop; [None] is a loop still waiting for the next line. *)
Fixpoint exec_loop (wall : Z) (stepID : string) (sink : bool) (out errb : capBuf) (sent sent' : list string)
    (xs : list arrival) : option step_end :=
  match xs with
  | [] => None
  | a :: xs =>
      match a_frame a with
      | FEOF => Some {|
          z_res := mk_result (buf out) (buf errb) 137 (timed wall a) false (a_ms a);
          z_err := if timed wall a then None else Some ErrKStream; z_dead := true; z_touch := false;
          z_out := sent; z_errs := sent' |}
      | FEmpty | FNoise => exec_loop wall stepID sink out errb sent sent' xs
      | FResp r =>
          if negb (String.eqb (p_ID r) stepID) then exec_loop wall stepID sink out errb sent sent' xs else
          if String.eqb (p_Type r) "stream" then
            if String.eqb (p_Stream r) "stderr" then
              let errb := Write errb (p_Data r) in
              exec_loop wall stepID sink out errb sent (if sink then sent' ++ [clip (p_Data r) errb] else sent') xs
            else
              let out := Write out (p_Data r) in
              exec_loop wall stepID sink out errb (if sink then sent ++ [clip (p_Data r) out] else sent) sent' xs
          else if String.eqb (p_Type r) "result" then Some {|
            z_res := mk_result (buf out) (buf errb)
              (if timed wall a then 137 else if negb (p_OK r) then 1 else 0) (timed wall a)
              (p_Truncated r || truncated out || truncated errb)
              (if p_DurationMs r =? 0 then a_ms a else p_DurationMs r);
            z_err := None; z_dead := false; z_touch := true; z_out := sent; z_errs := sent' |}
          else if String.eqb (p_Type r) "fatal" then Some {|
            z_res := mk_result "" (buf out +:+ p_Error r) 1 false false (a_ms a);
            z_err := Some ErrKFatal; z_dead := true; z_touch := false; z_out := sent; z_errs := sent' |}
          else exec_loop wall stepID sink out errb sent sent' xs
      end
  end.

(** [kx_lines]: what the container sends; [kx_killed]: how long after the hard timer
    [docker kill] has ended the stream, or [None] when it does not. *)
Record kxenv := { kx_uuid : string; kx_write : bool; kx_lines : list arrival; kx_killed : option Z; kx_now : Z }.
(** The lines the container gets out before the kill, and the end of the stream. *)
Fixpoint lines_before (end_ms : Z) (xs : list arrival) : list arrival :=
  match xs with
  | [] => []
  | a :: xs => if a_ms a <? end_ms then a :: lines_before end_ms xs else []
  end.
Definition hard_timer (wall : Z) : Z := wall + 5000.
(** What the loop reads of a step whose deadline is [wall] milliseconds. *)
Definition channel (wall : Z) (x : kxenv) : list arrival :=
  match kx_killed x with
  | None => kx_lines x
  | Some t =>
      let end_ms := hard_timer wall + t in
      lines_before end_ms (kx_lines x) ++ [{| a_line := None; a_late := true; a_ms := end_ms |}]
  end.
Definition the_kernel (e : KernelEngine) (p : nat) : kernel :=
  default {| k_id := ""; k_container := ""; k_image := ""; k_createdAt := 0; k_lastUsed := 0; k_dead := true |}
    (kheap e !! p).
Definition alter_kernel (e : KernelEngine) (p : nat) (f : kernel → kernel) : KernelEngine :=
  set_kernels e (kernels e) (alter f p (kheap e)).
(** What [request_frame] is written from. *)
Definition request (x : kxenv) (code : string) : kReq :=
  {| rq_ID := kx_uuid x; rq_Op := OpExec; rq_Code := code |}.
Definition dead_end (err : KernelErr) (dead : bool) : step_end := {|
  z_res := no_result; z_err := Some err; z_dead := dead; z_touch := false; z_out := []; z_errs := [] |}.
Definition exec_step (e : KernelEngine) (x : kxenv) (p : nat) (stepMs : Z) (sink : bool) : option step_end :=
  if k_dead (the_kernel e p) then Some (dead_end ErrKDead false) else
  if negb (kx_write x) then Some (dead_end ErrKWrite true) else
  let w := new_capWriter (k_OutputBytes (kcfg e)) in
  let wall := step_ms (kcfg e) stepMs in
  exec_loop wall (kx_uuid x) sink w w [] [] (channel wall x).
(** What is written to the channel, with the time in milliseconds after which the step is
    interrupted. *)
Definition sent_frame (e : KernelEngine) (x : kxenv) (p : nat) (code : string) (stepMs : Z) : option (string * Z) :=
  if k_dead (the_kernel e p) then None else Some (request_frame (request x code), step_ms (kcfg e) stepMs).
Definition Exec (e : KernelEngine) (x : kxenv) (p : nat) (code : string) (stepMs : Z) (sink : bool) :
    option (step_end * KernelEngine * option (string * Z)) :=
  z ← exec_step e x p stepMs sink;
  Some (z, if z_dead z then alter_kernel e p set_dead
           else if z_touch z then alter_kernel e p (set_used (kx_now x)) else e,
        sent_frame e x p code stepMs).

(** *** Destroy, Reap *)
Definition teardown (e : KernelEngine) (p : nat) : KernelEngine * list kevent :=
  (alter_kernel e p set_dead,
   [KCancel (k_container (the_kernel e p)); KRemove (k_container (the_kernel e p))]).
Definition Destroy (e : KernelEngine) (id : string) : KernelEngine * list kevent :=
  match kernels e !! id with
  | None => (e, [])
  | Some p => teardown (set_kernels e (delete id (kernels e)) (kheap e)) p
  end.

Definition doomed (e : KernelEngine) (now : Z) (p : nat) : bool :=
  let k := the_kernel e p in
  k_dead k || (k_IdleTTL (kcfg e) <? now - k_lastUsed k) || (MaxLifetime (kcfg e) <? now - k_createdAt k).
(** The snapshot and the inspection, and the removal, as [Reap] runs them. *)
Definition reap_snapshot (e : KernelEngine) (now : Z) : list nat :=
  List.filter (doomed e now) (map snd (map_to_list (kernels e))).
Definition reap_unlink (e : KernelEngine) (ps : list nat) : KernelEngine :=
  set_kernels e (foldl (λ ks p, delete (k_id (the_kernel e p)) ks) (kernels e) ps) (kheap e).
Definition reap_kill (acc : KernelEngine * list kevent) (p : nat) : KernelEngine * list kevent :=
  let '(e, ev) := teardown acc.1 p in (e, acc.2 ++ ev).
Definition reap_commit (e : KernelEngine) (ps : list nat) : list string * KernelEngine * list kevent :=
  let '(e', ev) := foldl reap_kill (reap_unlink e ps, []) ps in
  (map (λ p, k_id (the_kernel e p)) ps, e', ev).
Definition Reap (e : KernelEngine) (now : Z) : list string * KernelEngine * list kevent :=
  reap_commit e (reap_snapshot e now).

Definition KCount (e : KernelEngine) : Z := Z.of_nat (size (kernels e)).
Definition DestroyAll (e : KernelEngine) : KernelEngine * list kevent :=
  foldl reap_kill (set_kernels e ∅ (kheap e), []) (map snd (map_to_list (kernels e))).
End engine.
Arguments KernelEngine W : clear implicits.
