(* ===== verification/KernelSpec.v ===== *)
(** * Kernel steps: the protocol, the deadline, the network *)

From S2P Require Import Prelude GoLib GoStrings GoFloat GoJSON GoUnmarshal Sched Executor ExecutorSpec Kernel.

(** ** Frames *)

(** What a reader of the request line finds under [id], [op] and [code]. *)
Definition request_fields (line : string) : option (string * string * string) :=
  JSON.Unmarshal (JSON.dec_struct (λ _ fs,
    i ← JSON.field ["id"; "op"; "code"] JSON.dec_string "id" "" fs;
    o ← JSON.field ["id"; "op"; "code"] JSON.dec_string "op" "" fs;
    c ← JSON.field ["id"; "op"; "code"] JSON.dec_string "code" "" fs;
    Some (i, o, c)) ("", "", "")) line.

(** C37: a step crosses the channel whole.  The request of a step is one line, whatever
    its code, from which the step's id, the operation and the code are read back: the code exactly
    when it is valid UTF-8, and otherwise with each byte that is not replaced by U+FFFD. *)
Theorem frames_read_back r : ∃ l, request_frame r = l +:+ String newline "" ∧ str_forall printable l = true ∧
  request_fields (request_frame r) = Some (sanitize (rq_ID r), op_name (rq_Op r), sanitize (rq_Code r)) ∧
  (valid_utf8 (rq_ID r) → valid_utf8 (rq_Code r) →
     request_fields (request_frame r) = Some (rq_ID r, op_name (rq_Op r), rq_Code r)).
Proof.
  assert (H : request_fields (request_frame r) = Some (sanitize (rq_ID r), op_name (rq_Op r), sanitize (rq_Code r))).
  { unfold request_fields, request_frame. rewrite JSON.Unmarshal_object; [|by unfold request_json; case_match..|done].
    unfold request_json. destruct (String.eqb_spec (rq_Code r) "") as [->|Hc];
      cbn [app JSON.value_of map fst snd JSON.dec_struct]; JSON.find_fields; cbn [JSON.dec_string mbind option_bind];
      by destruct (rq_Op r). }
  exists (marshal (JObj (request_json r))). split; [done|].
  split; [apply marshal_printable; by unfold request_json; case_match|]. split; [exact H|].
  intros H1 H2. by rewrite H, !sanitize_valid by (by apply Is_true_true).
Qed.

(** ** The read loop *)

(** A line the loop of step [id] acts on: the end of the stream, or a frame that
    carries the step's id. *)
Definition mine (id : string) (a : arrival) : bool :=
  match a_frame a with
  | FEOF => true
  | FResp r => String.eqb (p_ID r) id
  | FEmpty | FNoise => false
  end.
(** A line that ends the loop. *)
Definition terminal (id : string) (a : arrival) : bool :=
  match a_frame a with
  | FEOF => true
  | FResp r => String.eqb (p_ID r) id && (String.eqb (p_Type r) "result" || String.eqb (p_Type r) "fatal")
  | FEmpty | FNoise => false
  end.

Lemma exec_loop_filter wall id sink out errb so se xs :
  exec_loop wall id sink out errb so se xs = exec_loop wall id sink out errb so se (List.filter (mine id) xs).
Proof.
  revert out errb so se. induction xs as [|a xs IH]; intros; [done|].
  cbn [List.filter]. unfold mine. destruct (a_frame a) as [| | |r] eqn:Ef; cbn [exec_loop]; rewrite Ef; try done.
  destruct (String.eqb (p_ID r) id) eqn:Eid; cbn [exec_loop negb]; rewrite ?Ef, ?Eid; cbn [negb]; [|done].
  destruct (String.eqb (p_Type r) "stream"); [destruct (String.eqb (p_Stream r) "stderr"); apply IH|].
  destruct (String.eqb (p_Type r) "result"); [done|].
  destruct (String.eqb (p_Type r) "fatal"); [done|]. apply IH.
Qed.

Lemma exec_loop_returns wall id sink out errb so se xs :
  is_Some (exec_loop wall id sink out errb so se xs) ↔ existsb (terminal id) xs = true.
Proof.
  revert out errb so se. induction xs as [|a xs IH]; intros; cbn [exec_loop existsb].
  { split; [by intros []|done]. }
  unfold terminal at 1. destruct (a_frame a) as [| | |r] eqn:Ef; cbn [orb].
  - split; [done|by eexists].
  - apply IH.
  - apply IH.
  - destruct (String.eqb (p_ID r) id); cbn [andb orb negb]; [|apply IH].
    destruct (String.eqb_spec (p_Type r) "stream") as [->|].
    { destruct (String.eqb (p_Stream r) "stderr"); apply IH. }
    destruct (String.eqb (p_Type r) "result"); cbn [orb]; [split; [done|by eexists]|].
    destruct (String.eqb (p_Type r) "fatal"); cbn [orb]; [split; [done|by eexists]|]. apply IH.
Qed.

(** C15: forged frames are inert.  Whatever lines the sandboxed code gets onto
    the channel, a step's outcome depends only on the end of the stream and the
    frames that carry the id minted for the step; lines without it neither end
    the step nor add output. The step returns exactly when the
    stream ends or such a terminal frame arrives. *)
Theorem forged_frames_inert wall id sink lim xs :
  let w := new_capWriter lim in
  (∀ ys, List.filter (mine id) ys = List.filter (mine id) xs →
     exec_loop wall id sink w w [] [] ys = exec_loop wall id sink w w [] [] xs) ∧
  (is_Some (exec_loop wall id sink w w [] [] xs) ↔ existsb (terminal id) xs = true).
Proof.
  cbv zeta. split; [|apply exec_loop_returns]. intros ys E.
  by rewrite exec_loop_filter, (exec_loop_filter _ _ _ _ _ _ _ xs), E.
Qed.

(** ** Output *)

(** The data of the step's own stream frames before the first terminal line. *)
Definition is_stream (id : string) (err : bool) (a : arrival) : option string :=
  match a_frame a with
  | FResp r => if String.eqb (p_ID r) id && String.eqb (p_Type r) "stream" &&
                  Bool.eqb (String.eqb (p_Stream r) "stderr") err
               then Some (p_Data r) else None
  | _ => None
  end.
Fixpoint chunks (id : string) (err : bool) (xs : list arrival) : list string :=
  match xs with
  | [] => []
  | a :: xs => if terminal id a then [] else
      match is_stream id err a with Some d => d :: chunks id err xs | None => chunks id err xs end
  end.

(** The buffer after [total] was written, which may include empty chunks. *)
Definition kept (w : capWriter) (total : string) : Prop :=
  0 < limit w ∧ n w = len (buf w) ∧ buf w = str_take (Z.to_nat (limit w)) total ∧
  (truncated w = false → buf w = total).

Lemma Write_kept w total p : kept w total → kept (Write w p) (total +:+ p) ∧ limit (Write w p) = limit w.
Proof.
  intros (H0 & H1 & H2 & H3). pose proof (len_nonneg total).
  assert (Hn : n w = Z.min (limit w) (len total)).
  { rewrite H1, H2. unfold len. rewrite length_str_take. lia. }
  unfold Write. destruct (limit w <=? n w) eqn:Hfull; boolp.
  { split; [|done]. repeat split; cbn; try done.
    rewrite str_take_app_less by (unfold len in *; lia). done. }
  assert (Hb : buf w = total) by (rewrite H2; apply str_take_all; unfold len in *; lia).
  cbv zeta. destruct (limit w - n w <? len p) eqn:Hroom; boolp; (split; [|done]); repeat split; cbn;
    rewrite ?len_app, ?Hb; try done.
  - unfold len in *. rewrite length_str_take. lia.
  - rewrite str_take_app_more by (unfold len in *; lia). f_equal. f_equal. unfold len in *. lia.
  - lia.
  - symmetry. apply str_take_all. rewrite slength_app. unfold len in *. lia.
Qed.

Lemma Write_extends w p : ∃ q, buf (Write w p) = buf w +:+ q ∧
  (truncated (Write w p) = false → q = p ∧ truncated w = false).
Proof.
  unfold Write. destruct (limit w <=? n w); [by exists ""; rewrite sapp_nil_r|]. cbv zeta.
  destruct (limit w - n w <? len p); [by eexists|]. by exists p.
Qed.

(** What a live sink received is a prefix of what is kept. *)
Definition streamed (sink : bool) (w : capWriter) (sent : list string) : Prop :=
  if sink then ∃ r, buf w = cat sent +:+ r ∧ (truncated w = false → r = "") else sent = [].
Lemma cat_snoc l x : cat (l ++ [x]) = cat l +:+ x.
Proof.
  induction l as [|y l IH]; [apply sapp_nil_r|].
  change (y +:+ cat (l ++ [x]) = (y +:+ cat l) +:+ x). by rewrite IH, sapp_assoc.
Qed.
Lemma Write_streamed sink w sent p : streamed sink w sent →
  streamed sink (Write w p) (if sink then sent ++ [clip p (Write w p)] else sent).
Proof.
  unfold streamed. destruct sink; [|done]. intros (r & Hb & Hr). rewrite cat_snoc.
  destruct (Write_extends w p) as (q & Hq & Ht). unfold clip. destruct (truncated (Write w p)).
  - exists (r +:+ q). rewrite sapp_nil_r, Hq, Hb, sapp_assoc. done.
  - destruct (Ht eq_refl) as [-> Hw]. exists "". rewrite Hq, Hb, (Hr Hw), !sapp_nil_r. done.
Qed.

(** What the result of a step shows, of the two streams it kept: both, or after a fatal
    frame of the step the first one with that frame's error, as its standard error. *)
Definition fatal_frame (id : string) (a : arrival) (r : kResp) : Prop :=
  a_frame a = FResp r ∧ p_ID r = id ∧ p_Type r = "fatal".
Definition shows (id : string) (xs : list arrival) (o e : string) (z : step_end) : Prop :=
  (z_err z ≠ Some ErrKFatal → Stdout (z_res z) = o ∧ Stderr (z_res z) = e) ∧
  (z_err z = Some ErrKFatal → Stdout (z_res z) = "" ∧
     ∃ a r, a ∈ xs ∧ fatal_frame id a r ∧ Stderr (z_res z) = o +:+ p_Error r).
Lemma shows_cons id a xs o e z : shows id xs o e z → shows id (a :: xs) o e z.
Proof.
  intros [H1 H2]. split; [done|]. intros H. destruct (H2 H) as (E & a' & r & Ha & Hr). split; [done|].
  exists a', r. split; [by right|done].
Qed.

Lemma exec_loop_output wall id sink xs z : ∀ out errb so se T1 T2,
  kept out T1 → kept errb T2 → streamed sink out so → streamed sink errb se →
  exec_loop wall id sink out errb so se xs = Some z →
  ∃ w1 w2, streamed sink w1 (z_out z) ∧ streamed sink w2 (z_errs z) ∧
    buf w1 = str_take (Z.to_nat (limit out)) (T1 +:+ cat (chunks id false xs)) ∧
    buf w2 = str_take (Z.to_nat (limit errb)) (T2 +:+ cat (chunks id true xs)) ∧ shows id xs (buf w1) (buf w2) z.
Proof.
  induction xs as [|a xs IH]; intros out errb so se T1 T2 K1 K2 S1 S2; cbn [exec_loop]; [done|].
  assert (Hstop : ∀ z', z_out z' = so → z_errs z' = se → terminal id a = true →
    shows id (a :: xs) (buf out) (buf errb) z' → Some z' = Some z →
    ∃ w1 w2, streamed sink w1 (z_out z) ∧ streamed sink w2 (z_errs z) ∧
      buf w1 = str_take (Z.to_nat (limit out)) (T1 +:+ cat (chunks id false (a :: xs))) ∧
      buf w2 = str_take (Z.to_nat (limit errb)) (T2 +:+ cat (chunks id true (a :: xs))) ∧
      shows id (a :: xs) (buf w1) (buf w2) z).
  { intros z' E3 E4 Ht Hz [= <-]. exists out, errb. cbn [chunks]. rewrite Ht, E3, E4. cbn [cat foldr].
    rewrite !sapp_nil_r. destruct K1 as (_ & _ & ? & _), K2 as (_ & _ & ? & _). done. }
  assert (Hskip : terminal id a = false → is_stream id false a = None → is_stream id true a = None →
    exec_loop wall id sink out errb so se xs = Some z →
    ∃ w1 w2, streamed sink w1 (z_out z) ∧ streamed sink w2 (z_errs z) ∧
      buf w1 = str_take (Z.to_nat (limit out)) (T1 +:+ cat (chunks id false (a :: xs))) ∧
      buf w2 = str_take (Z.to_nat (limit errb)) (T2 +:+ cat (chunks id true (a :: xs))) ∧
      shows id (a :: xs) (buf w1) (buf w2) z).
  { intros Ht E1 E2 H. cbn [chunks]. rewrite Ht, E1, E2.
    destruct (IH _ _ _ _ _ _ K1 K2 S1 S2 H) as (w1 & w2 & H1 & H2 & H3 & H4 & H5). exists w1, w2. split_and!; eauto using shows_cons. }
  unfold terminal, is_stream in Hstop, Hskip. destruct (a_frame a) as [| | |r] eqn:Ef.
  - apply Hstop; try done. split; [done|]. cbn. by destruct (timed wall a).
  - by apply Hskip.
  - by apply Hskip.
  - destruct (String.eqb (p_ID r) id) eqn:Eid; cbn [negb andb] in *; [|by apply Hskip].
    destruct (String.eqb_spec (p_Type r) "stream") as [Et|Et]; cbn [andb] in *.
    + clear Hstop Hskip. cbn [chunks]. unfold terminal, is_stream. rewrite Ef, Eid, Et. cbn [andb orb String.eqb Ascii.eqb Bool.eqb].
      destruct (String.eqb (p_Stream r) "stderr"); cbn [Bool.eqb].
      * destruct (Write_kept errb T2 (p_Data r) K2) as [K2' L2]. intros H.
        destruct (IH _ _ _ _ _ _ K1 K2' S1 (Write_streamed sink errb se (p_Data r) S2) H) as (w1 & w2 & I1 & I2 & I3 & I4 & I5).
        exists w1, w2. rewrite L2 in I4. change (cat (p_Data r :: ?l)) with (p_Data r +:+ cat l). rewrite sapp_assoc.
        split_and!; eauto using shows_cons.
      * destruct (Write_kept out T1 (p_Data r) K1) as [K1' L1]. intros H.
        destruct (IH _ _ _ _ _ _ K1' K2 (Write_streamed sink out so (p_Data r) S1) S2 H) as (w1 & w2 & I1 & I2 & I3 & I4 & I5).
        exists w1, w2. rewrite L1 in I3. change (cat (p_Data r :: ?l)) with (p_Data r +:+ cat l). rewrite sapp_assoc.
        split_and!; eauto using shows_cons.
    + destruct (String.eqb (p_Type r) "result"); cbn [orb] in *; [by apply Hstop|].
      destruct (String.eqb_spec (p_Type r) "fatal") as [Ht|]; [|by apply Hskip]. apply Hstop; try done.
      split; [done|]. intros _. split; [done|]. exists a, r. split; [by left|]. split; [|done]. apply String.eqb_eq in Eid. done.
Qed.

Lemma kept_new lim : 0 < lim → kept (new_capWriter lim) "".
Proof. intros H. repeat split; cbn; try done. by destruct (Z.to_nat lim). Qed.

(** C36: a step's output.  Of each stream a step keeps the first [lim] bytes of the data of its
    own stream frames.  When it returns, however that is, these are its
    standard output and error; except after a fatal frame of the step, when the output is empty and
    the error is what the output kept with the frame's error text.  A live sink received a
    prefix of each, and nothing is sent without one. *)
Theorem kernel_step_output wall id sink lim xs z : 0 < lim →
  exec_loop wall id sink (new_capWriter lim) (new_capWriter lim) [] [] xs = Some z →
  let o := str_take (Z.to_nat lim) (cat (chunks id false xs)) in
  let e := str_take (Z.to_nat lim) (cat (chunks id true xs)) in
  (z_err z ≠ Some ErrKFatal → Stdout (z_res z) = o ∧ Stderr (z_res z) = e) ∧
  (z_err z = Some ErrKFatal → Stdout (z_res z) = "" ∧
     ∃ a r, a ∈ xs ∧ a_frame a = FResp r ∧ p_ID r = id ∧ p_Type r = "fatal" ∧ Stderr (z_res z) = o +:+ p_Error r) ∧
  (∃ r, o = cat (z_out z) +:+ r) ∧ (∃ r, e = cat (z_errs z) +:+ r) ∧
  (sink = false → z_out z = [] ∧ z_errs z = []).
Proof.
  intros Hl H. pose proof (kept_new lim Hl) as K.
  assert (S : streamed sink (new_capWriter lim) []) by (destruct sink; [by exists ""|done]).
  destruct (exec_loop_output wall id sink xs z _ _ _ _ _ _ K K S S H) as (w1 & w2 & S1 & S2 & B1 & B2 & D1 & D2).
  change (limit (new_capWriter lim)) with lim in B1, B2. cbn [String.append] in B1, B2. intros o e.
  fold o in B1. fold e in B2. rewrite B1, B2 in *. unfold streamed in *. split; [done|]. split.
  { intros E. destruct (D2 E) as (E1 & a & r & Ha & (Hf & Hi & Ht) & Hs). split; [done|]. by exists a, r. }
  rewrite B1, B2 in *. destruct sink.
  - destruct S1 as (r1 & E1 & _), S2 as (r2 & E2 & _). split; [by exists r1|split; [by exists r2|done]].
  - rewrite S1, S2. split; [by eexists|split; [by eexists|done]].
Qed.



Lemma NetMode_spec g stat rt net resolv : NetMode g stat = Some (rt, net, resolv) →
  rt = NetRuntime g ∧ net = EgressNetwork g ∧ resolv = ResolvConf g ∧
  AllowNetwork g = true ∧ EgressNetwork g ≠ "" ∧
  (Sentinel g ≠ "" → ∃ age, stat = Some age ∧ age < SentinelMaxAge g).
Proof.
  unfold NetMode, egressFirewallFresh. destruct (_ && _) eqn:E; [|done]. intros [= <- <- <-]. boolp.
  do 3 (split; [done|]). split; [done|split; [done|]]. intros Hs.
  rewrite (proj2 (String.eqb_neq _ _) Hs) in *. destruct stat as [age|]; [|done]. boolp. by exists age.
Qed.

Section flags.
Context {W : Type} {SW : Weighted W} {SWS : WeightedSpec W}.
Implicit Types (e : KernelEngine W).

(** The container sends a line that ends the step, or [docker kill] ends the stream. *)
Definition kernel_yields (x : kxenv) : Prop := is_Some (kx_killed x) ∨ existsb (terminal (kx_uuid x)) (kx_lines x) = true.
Lemma channel_ends wall x : kernel_yields x → existsb (terminal (kx_uuid x)) (channel wall x) = true.
Proof.
  unfold kernel_yields, channel. destruct (kx_killed x) as [t|].
  - intros _. rewrite existsb_app. apply orb_true_iff. by right.
  - by intros [[? ?]|H].
Qed.
Lemma step_returns e x p stepMs sink : kernel_yields x → is_Some (exec_step e x p stepMs sink).
Proof.
  intros H. unfold exec_step. destruct (k_dead _); [by eexists|]. destruct (negb _); [by eexists|].
  by apply exec_loop_returns, channel_ends.
Qed.


(** a resident kernel is sandboxed like a one-shot job.  Its command names
    the no-network runtime and [--network=none] first, unless the network was
    asked for, is allowed, and the firewall sentinel was present and fresh when
    the kernel was started; no resolver file is mounted otherwise; the root is
    read-only, the memory cap equals the swap cap, and the isolation flags are
    those of a one-shot run. *)
Theorem kernel_network_fails_closed e name sid image mounts network stat :
  ∃ rt net dns, buildKernelRunArgs e name sid image mounts network stat =
    ["-d"; "-i"; "--name"; name; "--runtime"; rt; net; "--read-only"; "--tmpfs"; tmpfs_opt "noexec" 64;
     "-w"; "/workspace"] ++
    ["--memory"; Itoa (k_MemoryBytes (kcfg e)); "--memory-swap"; Itoa (k_MemoryBytes (kcfg e));
     "--cpus"; FormatFloat2 (k_CPUs (kcfg e)); "--pids-limit"; Itoa (k_Pids (kcfg e))] ++
    isolation_args (kgv e) ++
    ["--label"; "isobox.kernel=true"; "--label"; "isobox.session=" +:+ sid; "--env"; "HOME=/tmp";
     "--env"; "ISOBOX_KERNEL_OUTPUT_BYTES=" +:+ Itoa (k_OutputBytes (kcfg e));
     "--env"; "PYTHONDONTWRITEBYTECODE=1"] ++ dns ++ flat_map mount_args mounts ++ [image] ∧
    ((rt = Runtime (kgv e) ∧ net = "--network=none" ∧ dns = []) ∨
     (rt = NetRuntime (kgv e) ∧ net = "--network=" +:+ EgressNetwork (kgv e) ∧ network = true ∧
      AllowNetwork (kgv e) = true ∧ EgressNetwork (kgv e) ≠ "" ∧
      (Sentinel (kgv e) ≠ "" → ∃ age, stat = Some age ∧ age < SentinelMaxAge (kgv e)))).
Proof.
  unfold buildKernelRunArgs. destruct network.
  2: { eexists _, _, _. split; [reflexivity|]. by left. }
  destruct (NetMode (kgv e) stat) as [[[rt net] resolv]|] eqn:E.
  2: { eexists _, _, _. split; [reflexivity|]. by left. }
  apply NetMode_spec in E as (-> & -> & -> & H1 & H2 & H3).
  eexists _, _, _. split; [reflexivity|]. by right.
Qed.

(** ** Reap *)

(** A table whose entries point to the kernel of that id. *)
Definition engine_ok e : Prop :=
  ∀ id p, kernels e !! id = Some p → ∃ k, kheap e !! p = Some k ∧ k_id k = id.
Definition reapable e (now : Z) (k : kernel) : Prop :=
  k_dead k = true ∨ k_IdleTTL (kcfg e) < now - k_lastUsed k ∨ MaxLifetime (kcfg e) < now - k_createdAt k.

Lemma doomed_spec e now p k : kheap e !! p = Some k → doomed e now p = true ↔ reapable e now k.
Proof.
  intros Hk. unfold doomed, the_kernel, reapable. rewrite Hk. cbn. rewrite !orb_true_iff, !Z.ltb_lt. tauto.
Qed.

Lemma reap_kill_kernels (acc : KernelEngine W * list kevent) ps :
  kernels (foldl reap_kill acc ps).1 = kernels acc.1.
Proof. revert acc. induction ps as [|p ps IH]; intros acc; [done|]. cbn [foldl]. by rewrite IH. Qed.

Lemma unlink_lookup e ps id : foldl (λ ks p, delete (k_id (the_kernel e p)) ks) (kernels e) ps !! id =
  if bool_decide (id ∈ map (λ p, k_id (the_kernel e p)) ps) then None else kernels e !! id.
Proof.
  generalize (kernels e) as ks. induction ps as [|p ps IH]; intros ks; [done|]. cbn [foldl map]. rewrite IH.
  destruct (bool_decide_reflect (id ∈ map (λ p, k_id (the_kernel e p)) ps)) as [H|H].
  - by rewrite bool_decide_true by (by right).
  - destruct (decide (id = k_id (the_kernel e p))) as [->|Hne].
    + rewrite bool_decide_true by (by left). apply lookup_delete_eq.
    + rewrite bool_decide_false by (by rewrite elem_of_cons; intros [?|?]). by apply lookup_delete_ne.
Qed.

Lemma Reap_ids e now id : engine_ok e →
  id ∈ (Reap e now).1.1 ↔ ∃ p k, kernels e !! id = Some p ∧ kheap e !! p = Some k ∧ reapable e now k.
Proof.
  intros Hok. unfold Reap, reap_commit. destruct (foldl _ _ _) as [e' ev]. cbn [fst].
  rewrite list_elem_of_fmap. split.
  - intros (p & -> & Hp). apply list_elem_of_In, filter_In in Hp as [Hp Hd].
    apply list_elem_of_In, list_elem_of_fmap in Hp as ([id p'] & -> & Hin%elem_of_map_to_list).
    destruct (Hok id p' Hin) as (k & Hk & Hid). unfold the_kernel. cbn [snd] in *. rewrite Hk. cbn.
    exists p', k. rewrite <- (doomed_spec e now p' k Hk). split; [|done]. cbn. by rewrite Hid.
  - intros (p & k & Hin & Hk & Hr). exists p. split.
    + unfold the_kernel. rewrite Hk. cbn. destruct (Hok id p Hin) as (k' & Hk' & <-). congruence.
    + apply list_elem_of_In, filter_In. split.
      * apply list_elem_of_In, list_elem_of_fmap. exists (id, p). by rewrite elem_of_map_to_list.
      * by apply (doomed_spec e now p k Hk).
Qed.

(** reaping is exact.  [Reap] reports and unlinks exactly the kernels that are
    dead, idle longer than the idle limit, or older than the lifetime limit; every
    other kernel stays.  Whether a step is running is not looked at: idleness is
    counted from the end of the last finished step. *)
Theorem reap_exact e now : engine_ok e →
  (∀ id, id ∈ (Reap e now).1.1 ↔
     ∃ p k, kernels e !! id = Some p ∧ kheap e !! p = Some k ∧ reapable e now k) ∧
  (∀ id, kernels (Reap e now).1.2 !! id =
     if bool_decide (id ∈ (Reap e now).1.1) then None else kernels e !! id).
Proof.
  intros Hok. split; [intros id; by apply Reap_ids|]. intros id. unfold Reap, reap_commit.
  pose proof (reap_kill_kernels (reap_unlink e (reap_snapshot e now), []) (reap_snapshot e now)) as H.
  destruct (foldl reap_kill _ _) as [e' ev]. cbn [fst snd] in *. rewrite H. apply unlink_lookup.
Qed.
End flags.

(** ** Concrete steps *)
Definition frame_of (id type stream data : string) (ok : bool) : arrival :=
  {| a_line := Some (marshal (JObj [("id", JStr id); ("type", JStr type); ("stream", JStr stream); ("data", JStr data);
       ("ok", JBool ok)]) +:+ String newline "");
     a_late := false; a_ms := 5 |}.
Definition demo_lines : list arrival :=
  [frame_of "u" "stream" "stdout" "ab" false; frame_of "" "result" "" "" true;
   frame_of "u" "stream" "stdout" "cde" false; frame_of "u" "result" "" "" true].
Definition demo_step (lim : Z) : step_end :=
  default (dead_end ErrKDead false)
    (exec_loop 1000 "u" true (new_capWriter lim) (new_capWriter lim) [] [] demo_lines).

Lemma forged_frames_inert_witness :
  exec_loop 1000 "u" true (new_capWriter 4) (new_capWriter 4) [] [] demo_lines =
  exec_loop 1000 "u" true (new_capWriter 4) (new_capWriter 4) [] []
    [frame_of "u" "stream" "stdout" "ab" false; frame_of "u" "stream" "stdout" "cde" false;
     frame_of "u" "result" "" "" true].
Proof. symmetry. apply (forged_frames_inert 1000 "u" true 4 demo_lines). reflexivity. Defined.

Lemma kernel_step_output_witness : Stdout (z_res (demo_step 4)) = "abcd".
Proof.
  destruct (kernel_step_output 1000 "u" true 4 demo_lines (demo_step 4)) as [H _]; [lia|reflexivity|].
  destruct H as [-> _]; vm_compute; [discriminate|reflexivity].
Defined.

Definition demo_kernel : kernel := {|
  k_id := "sess_1"; k_container := "iso-kernel-1"; k_image := "py"; k_createdAt := 0; k_lastUsed := 0; k_dead := false |}.
Definition busy_engine : KernelEngine (Z * Z) := {|
  kcfg := applyDefaults {| k_Slots := 0; k_MemoryBytes := 0; k_CPUs := of_Z 0; k_Pids := 0;
    k_OutputBytes := 0; StartTimeout := 0; DefaultStepMs := 0; MaxStepMs := 0; k_IdleTTL := 0;
    MaxLifetime := 0; k_AcquireWait := 0 |};
  Slots := New 6; kgv := NewGvisor; kernels := {["sess_1" := 0%nat]}; kheap := [demo_kernel] |}.

Lemma busy_engine_ok : engine_ok busy_engine.
Proof. intros id p H. apply (lookup_singleton_Some "sess_1" id 0%nat p) in H as [<- <-]. by exists demo_kernel. Qed.

(** A kernel last used 31 minutes ago is reaped; its session may have just begun a step. *)
Lemma reap_exact_witness : "sess_1" ∈ (Reap busy_engine (31 * 60 * 10 ^ 9)).1.1.
Proof.
  apply (proj1 (reap_exact busy_engine (31 * 60 * 10 ^ 9) busy_engine_ok)).
  exists 0%nat, demo_kernel. split; [reflexivity|split; [reflexivity|]]. right; left. vm_compute. reflexivity.
Defined.

Definition demo_request : kReq := {| rq_ID := "s1"; rq_Op := OpExec; rq_Code := "print('x')" |}.
Lemma frames_read_back_witness : request_fields (request_frame demo_request) = Some ("s1", "exec", "print('x')").
Proof. destruct (frames_read_back demo_request) as (l & _ & _ & _ & H). by apply H; vm_compute. Defined.
