(* ===== verification/Session.v ===== *)
(** * internal/session/manager.go: stateful sessions

    A session is an object shared between the manager's table, the sweeps'
    snapshots and the calls in flight: the table maps an id to a location of
    [sheap].  [Create], [Destroy] and the drops are composed of their critical
    sections ([alloc], [kslot], [kstart], [insert], [claim], [kdestroy],
    [krelease]), which SessionSpec interleaves.  A Go panic is [None]; effects on the
    file system, on docker and the [OnDrop] callback are [sevent]s. *)

From S2P Require Import Prelude GoLib GoStrings GoCodec GoFloat Sched Executor Registry Kernel.
Import Strings.

Inductive SessErr :=
| ErrNotFound | ErrForbidden | ErrCapacity | ErrQuota | ErrPath | ErrIsDir | ErrDiskFull | ErrTooMany
| ErrKernelDisabled | ErrKernelBusy | ErrWrongType
| ErrRuntime | ErrToken | ErrWorkspace | ErrStartKernel (e : KernelErr) | ErrKernel (e : KernelErr)
| ErrBackend (e : ExecErr) | ErrOS.

Record Session := {
  s_ID : string; s_Token : string; s_Runtime : string; s_Type : string; s_Workspace : string;
  s_CreatedAt : Z; s_IdleTTL : Z; s_Tenant : string; s_ExtraMounts : list Mount;
  s_k : option nat;             (* location in the engine's [kheap] *)
  s_lastActivity : Z }.
Definition set_k (k : option nat) (s : Session) : Session := {|
  s_ID := s_ID s; s_Token := s_Token s; s_Runtime := s_Runtime s; s_Type := s_Type s;
  s_Workspace := s_Workspace s; s_CreatedAt := s_CreatedAt s; s_IdleTTL := s_IdleTTL s;
  s_Tenant := s_Tenant s; s_ExtraMounts := s_ExtraMounts s; s_k := k; s_lastActivity := s_lastActivity s |}.
Definition touch (now : Z) (s : Session) : Session := {|
  s_ID := s_ID s; s_Token := s_Token s; s_Runtime := s_Runtime s; s_Type := s_Type s;
  s_Workspace := s_Workspace s; s_CreatedAt := s_CreatedAt s; s_IdleTTL := s_IdleTTL s;
  s_Tenant := s_Tenant s; s_ExtraMounts := s_ExtraMounts s; s_k := s_k s; s_lastActivity := now |}.
Definition set_mounts (ms : list Mount) (s : Session) : Session := {|
  s_ID := s_ID s; s_Token := s_Token s; s_Runtime := s_Runtime s; s_Type := s_Type s;
  s_Workspace := s_Workspace s; s_CreatedAt := s_CreatedAt s; s_IdleTTL := s_IdleTTL s;
  s_Tenant := s_Tenant s; s_ExtraMounts := ms; s_k := s_k s; s_lastActivity := s_lastActivity s |}.

Record Info := { n_ID : string; n_Runtime : string; n_Type : string; n_CreatedAt : Z; n_DiskBytes : Z }.
Record CreateOpts := {
  o_TTL : Z; o_ID : string; o_Tenant : string; o_Type : string; o_ExtraMounts : list Mount; o_Network : bool }.
Record SConfig := { sc_Root : string; sc_DiskQuota : Z; sc_GlobalDiskMax : Z; sc_MaxSessions : Z; sc_TTL : Z }.

Inductive sevent :=
| SMkdir (dir : string) | SRemoveAll (dir : string) | SWrite (path data : string)
| SOnDrop (id : string) | SKernel (e : kevent).

Definition is_kernel (s : Session) : bool := match s_k s with Some _ => true | None => false end.

Section manager.
Context {W : Type} {SW : Weighted W} (uni_lower : string → string) (harnessPy : string).
Context (backend : Spec → bool → outcome).

Record Manager := {
  Reg : Catalogue.Registry; Sema : Limiter W; Kernels : option (KernelEngine W); Root : string;
  DiskQuota : Z; GlobalDiskMax : Z; MaxSessions : Z; DefaultTTL : Z; OnDrop : bool;
  sessions : gmap string nat; used : Z; sheap : list Session }.
Definition put (m : Manager) (se : Limiter W) (ks : option (KernelEngine W)) (ss : gmap string nat) (u : Z)
    (h : list Session) : Manager := {|
  Reg := Reg m; Sema := se; Kernels := ks; Root := Root m; DiskQuota := DiskQuota m;
  GlobalDiskMax := GlobalDiskMax m; MaxSessions := MaxSessions m; DefaultTTL := DefaultTTL m;
  OnDrop := OnDrop m; sessions := ss; used := u; sheap := h |}.
Definition set_engine (m : Manager) (ks : option (KernelEngine W)) : Manager :=
  put m (Sema m) ks (sessions m) (used m) (sheap m).
Definition set_sessions (m : Manager) (ss : gmap string nat) : Manager :=
  put m (Sema m) (Kernels m) ss (used m) (sheap m).
Definition alter_session (m : Manager) (p : nat) (f : Session → Session) : Manager :=
  put m (Sema m) (Kernels m) (sessions m) (used m) (alter f p (sheap m)).
Definition no_session : Session := {|
  s_ID := ""; s_Token := ""; s_Runtime := ""; s_Type := ""; s_Workspace := ""; s_CreatedAt := 0;
  s_IdleTTL := 0; s_Tenant := ""; s_ExtraMounts := []; s_k := None; s_lastActivity := 0 |}.
Definition the_session (m : Manager) (p : nat) : Session := default no_session (sheap m !! p).

(** [ents]: the names found in the root, removed at start-up. *)
Definition NewManager (reg : Catalogue.Registry) (sema : Limiter W) (cfg : SConfig) (mkdir : bool)
    (ents : list string) (ondrop : bool) (eng : option (KernelEngine W)) : option (Manager * list sevent) :=
  if String.eqb (sc_Root cfg) "" then None
  else if negb mkdir then None
  else Some ({|
    Reg := reg; Sema := sema; Kernels := eng; Root := sc_Root cfg;
    DiskQuota := positive_or (sc_DiskQuota cfg) (Z.shiftl 512 20);
    GlobalDiskMax := positive_or (sc_GlobalDiskMax cfg) (Z.shiftl 10 30);
    MaxSessions := positive_or (sc_MaxSessions cfg) 200;
    DefaultTTL := positive_or (sc_TTL cfg) (24 * 3600 * second); OnDrop := ondrop;
    sessions := ∅; used := 0; sheap := [] |},
    SMkdir (sc_Root cfg) :: map (λ n, SRemoveAll (Filepath.Join [sc_Root cfg; n])) ents).

(** ** Critical sections *)
Definition alloc (m : Manager) (s : Session) : nat * Manager :=
  (List.length (sheap m), put m (Sema m) (Kernels m) (sessions m) (used m) (sheap m ++ [s])).
(** [Kernels.Slots.Acquire]. *)
Definition kslot (m : Manager) (e : KernelEngine W) (late : bool) : bool * Manager :=
  let '(ok, l) := Acquire (Slots e) late in (ok, set_engine m (Some (set_slots e l))).
(** [Kernels.Slots.Release]. *)
Definition krelease (m : Manager) (e : KernelEngine W) : option Manager :=
  l ← Release (Slots e); Some (set_engine m (Some (set_slots e l))).
(** [Kernels.NewKernel], whose result is stored in the session. *)
Definition kstart (m : Manager) (e : KernelEngine W) (x : nkenv) (p : nat) (image : string)
    (mounts : list Mount) (network : bool) : option KernelErr * Manager * list sevent :=
  let '(r, e, ev) := NewKernel harnessPy e x (s_ID (the_session m p)) image mounts network in
  let m := set_engine m (Some e) in
  match r with
  | Ok k => (None, alter_session m p (set_k (Some k)), map SKernel ev)
  | Err err => (Some err, m, map SKernel ev)
  end.
Definition insert (m : Manager) (p : nat) : Manager :=
  set_sessions m (<[s_ID (the_session m p) := p]> (sessions m)).
(** The removal from the table that a teardown starts with: whether this call made it. *)
Definition claim (m : Manager) (id : string) : bool * Manager :=
  (bool_decide (is_Some (sessions m !! id)), set_sessions m (delete id (sessions m))).
Definition kdestroy (m : Manager) (e : KernelEngine W) (id : string) : Manager * list sevent :=
  let '(e, ev) := Kernel.Destroy e id in (set_engine m (Some e), map SKernel ev).

(** ** Create *)
Record cenv := {
  c_token : option string; c_uuid : string; c_mkdir : bool; c_now : Z; c_late : bool; c_kernel : nkenv }.
Definition create_check (m : Manager) (runtime : string) : result SessErr Catalogue.Language :=
  match Catalogue.Resolve uni_lower (Reg m) runtime "" with
  | None => Err ErrRuntime
  | Some lang =>
      if MaxSessions m <=? Z.of_nat (size (sessions m)) then Err ErrTooMany
      else if GlobalDiskMax m <=? used m then Err ErrDiskFull
      else Ok lang
  end.
(** [c_token]: 32 random bytes. *)
Definition mintToken (x : cenv) : option string := (λ b, "tok_" +:+ Hex.EncodeToString b) <$> c_token x.
Definition MintID (uuid : string) : string := "sess_" +:+ uuid.
Definition session_id (x : cenv) (o : CreateOpts) : string :=
  if String.eqb (o_ID o) "" then MintID (c_uuid x) else o_ID o.
Definition session_type (o : CreateOpts) : string := if String.eqb (o_Type o) "" then "filesystem" else o_Type o.
Definition workspace (m : Manager) (id : string) : string := Filepath.Join [Root m; id; "workspace"].
Definition new_session (m : Manager) (x : cenv) (o : CreateOpts) (lang : Catalogue.Language) (tok : string) : Session :=
  let id := session_id x o in {|
  s_ID := id; s_Token := tok; s_Runtime := Catalogue.Name lang; s_Type := session_type o;
  s_Workspace := workspace m id; s_CreatedAt := c_now x; s_IdleTTL := positive_or (o_TTL o) (DefaultTTL m);
  s_Tenant := o_Tenant o; s_ExtraMounts := o_ExtraMounts o; s_k := None; s_lastActivity := c_now x |}.
Definition session_dir (s : Session) : string := Filepath.Dir (s_Workspace s).

Definition Create (m : Manager) (x : cenv) (runtime : string) (o : CreateOpts) :
    option (result SessErr nat * Manager * list sevent) :=
  match create_check m runtime with
  | Err err => Some (Err err, m, [])
  | Ok lang =>
      match mintToken x with
      | None => Some (Err ErrToken, m, [])
      | Some tok =>
          let s := new_session m x o lang tok in
          let ws := s_Workspace s in
          if negb (c_mkdir x) then Some (Err ErrWorkspace, m, [SMkdir ws]) else
          let '(p, m) := alloc m s in
          let made := [SMkdir ws] in
          let undo := [SRemoveAll (session_dir s)] in
          if negb (String.eqb (s_Type s) "kernel") then Some (Ok p, insert m p, made) else
          match Kernels m with
          | None => Some (Err ErrKernelDisabled, m, made ++ undo)
          | Some e =>
              let '(ok, m) := kslot m e (c_late x) in
              if negb ok then Some (Err ErrKernelBusy, m, made ++ undo) else
              match Kernels m with
              | None => None
              | Some e =>
                  let mounts := {| HostPath := ws; Target := "/workspace"; m_RW := true |} :: o_ExtraMounts o in
                  match kstart m e (c_kernel x) p (Catalogue.Image lang) mounts (o_Network o) with
                  | (None, m, ev) => Some (Ok p, insert m p, made ++ ev)
                  | (Some err, m, ev) =>
                      e ← Kernels m; m ← krelease m e;
                      Some (Err (ErrStartKernel err), m, made ++ ev ++ undo)
                  end
              end
          end
      end
  end.

(** ** Access *)
Definition authed (m : Manager) (id token tenant : string) : result SessErr nat :=
  match sessions m !! id with
  | None => Err ErrNotFound
  | Some p =>
      let s := the_session m p in
      if negb (String.eqb token (s_Token s)) then Err ErrForbidden
      else if negb (String.eqb tenant "") && negb (String.eqb (s_Tenant s) tenant) then Err ErrForbidden
      else Ok p
  end.
Definition SetMounts (m : Manager) (id token tenant : string) (ms : list Mount) : result SessErr unit * Manager :=
  match authed m id token tenant with
  | Err e => (Err e, m)
  | Ok p => (Ok tt, alter_session m p (set_mounts ms))
  end.
Definition SessionRuntime (m : Manager) (id token tenant : string) : result SessErr string :=
  p <-? authed m id token tenant; Ok (s_Runtime (the_session m p)).
(** [sz]: [dirSize]. *)
Definition Get (m : Manager) (sz : string → Z) (id token tenant : string) : result SessErr Info :=
  p <-? authed m id token tenant;
  let s := the_session m p in
  Ok {| n_ID := s_ID s; n_Runtime := s_Runtime s; n_Type := s_Type s; n_CreatedAt := s_CreatedAt s;
        n_DiskBytes := sz (s_Workspace s) |}.
Definition Count (m : Manager) : Z := Z.of_nat (size (sessions m)).
Definition IsKernel (m : Manager) (id token tenant : string) : result SessErr bool :=
  p <-? authed m id token tenant; Ok (is_kernel (the_session m p)).

(** ** Steps *)
Definition step_spec (s : Session) (spec : Spec) : Spec := {|
  Lang := Lang spec; Image := Image spec; Compile := Compile spec; Run := Run spec;
  Workdir := "/workspace"; Env := Env spec; ScratchExec := ScratchExec spec; ScratchMB := ScratchMB spec;
  Mounts := (Mounts spec ++ [{| HostPath := s_Workspace s; Target := "/workspace"; m_RW := true |}]) ++
            s_ExtraMounts s;
  Files := Files spec; Stdin := Stdin spec; Argv := Argv spec; s_Limits := s_Limits spec; Network := Network spec |}.
(** The spec given to the backend, if it was run. *)
Definition Exec (m : Manager) (late : bool) (now : Z) (id token tenant : string) (spec : Spec) (sink : bool) :
    option (result SessErr Result * Manager * option Spec) :=
  match authed m id token tenant with
  | Err e => Some (Err e, m, None)
  | Ok p =>
      let spec := step_spec (the_session m p) spec in
      let '(ok, l) := Acquire (Sema m) late in
      if negb ok then Some (Err ErrCapacity, m, None) else
      let o := backend spec sink in
      l ← Release l;
      Some (match o_err o with Some e => Err (ErrBackend e) | None => Ok (o_res o) end,
            put m l (Kernels m) (sessions m) (used m) (alter (touch now) p (sheap m)), Some spec)
  end.
(** With the frame written and its deadline; [None] is also a step still waiting for the kernel. *)
Definition KernelExec (m : Manager) (x : kxenv) (id token tenant code : string) (stepMs : Z) (sink : bool) :
    option (result SessErr step_end * Manager * option (string * Z)) :=
  match authed m id token tenant with
  | Err e => Some (Err e, m, None)
  | Ok p =>
      match s_k (the_session m p), Kernels m with
      | Some k, Some e =>
          '(z, e, sent) ← Kernel.Exec e x k code stepMs sink;
          Some (match z_err z with Some err => Err (ErrKernel err) | None => Ok z end,
                alter_session (set_engine m (Some e)) p (touch (kx_now x)), sent)
      | Some _, None => None
      | None, _ => Some (Err ErrWrongType, m, None)
      end
  end.

(** ** Teardown *)
(** What follows a successful claim of [s]: the container (unless it is gone
    already), the slot, the callback, the directory. *)
Definition teardown_session (m : Manager) (s : Session) (reaped : bool) : option (Manager * list sevent) :=
  '(m, ev) ← match Kernels m with
             | Some e =>
                 if negb (is_kernel s) then Some (m, []) else
                 let '(m, ev) := if reaped then (m, []) else kdestroy m e (s_ID s) in
                 e ← Kernels m; m ← krelease m e; Some (m, ev)
             | None => Some (m, [])
             end;
  Some (m, ev ++ (if OnDrop m then [SOnDrop (s_ID s)] else []) ++ [SRemoveAll (session_dir s)]).
(** [rm]: whether the directory could be removed. *)
Definition Destroy (m : Manager) (rm : bool) (id token tenant : string) :
    option (result SessErr unit * Manager * list sevent) :=
  match authed m id token tenant with
  | Err e => Some (Err e, m, [])
  | Ok p =>
      let s := the_session m p in
      let '(present, m) := claim m id in
      if negb present then Some (Err ErrNotFound, m, []) else
      '(m, ev) ← teardown_session m s false; Some (if rm then Ok tt else Err ErrOS, m, ev)
  end.
(** [drop], and [dropReaped] with [reaped = true]. *)
Definition drop (m : Manager) (s : Session) (reaped : bool) : option (Manager * list sevent) :=
  let '(present, m) := claim m (s_ID s) in
  if negb present then Some (m, []) else teardown_session m s reaped.

(** ** Sweeps *)
Definition andthen (acc : Manager * list sevent) (f : Manager → option (Manager * list sevent)) :
    option (Manager * list sevent) :=
  '(m, ev) ← f acc.1; Some (m, acc.2 ++ ev).
(** The first loop: [live] sessions with their sizes, and their [total], an [int64]. *)
Definition idle (m : Manager) (now : Z) (s : Session) : bool :=
  negb (is_kernel s) && (s_IdleTTL s <? now - s_lastActivity s).
Fixpoint sweep_idle (now : Z) (sz : string → Z) (acc : Manager * list sevent) (total : Z)
    (live : list (Session * Z)) (snap : list nat) : option ((Manager * list sevent) * Z * list (Session * Z)) :=
  match snap with
  | [] => Some (acc, total, live)
  | p :: snap =>
      let s := the_session acc.1 p in
      if idle acc.1 now s then
        acc ← andthen acc (λ m, drop m s false); sweep_idle now sz acc total live snap
      else
        let z := sz (s_Workspace s) in
        if DiskQuota acc.1 <? z then
          acc ← andthen acc (λ m, drop m s false); sweep_idle now sz acc total live snap
        else sweep_idle now sz acc (wrap64 (total + z)) (live ++ [(s, z)]) snap
  end.
(** The second loop, over [live] by decreasing size. *)
Fixpoint sweep_big (acc : Manager * list sevent) (total : Z) (live : list (Session * Z)) :
    option ((Manager * list sevent) * Z) :=
  match live with
  | [] => Some (acc, total)
  | (s, z) :: live =>
      if total <=? GlobalDiskMax acc.1 then Some (acc, total)
      else acc ← andthen acc (λ m, drop m s false); sweep_big acc (wrap64 (total - z)) live
  end.
Definition bigger (a b : Session * Z) : Prop := b.2 ≤ a.2.
#[export] Instance bigger_dec a b : Decision (bigger a b).
Proof. unfold bigger. apply _. Defined.
(** [sort.Slice] leaves the order of equal sizes open; [merge_sort] gives one. *)
Definition Sweep (m : Manager) (now : Z) (sz : string → Z) : option (Manager * list sevent) :=
  '(acc, total, live) ← sweep_idle now sz (m, []) 0 [] (map snd (map_to_list (sessions m)));
  '(acc, total) ← (if GlobalDiskMax m <? total then sweep_big acc total (merge_sort bigger live)
                   else Some (acc, total));
  Some (put acc.1 (Sema acc.1) (Kernels acc.1) (sessions acc.1) total (sheap acc.1), acc.2).

Fixpoint drop_reaped (acc : Manager * list sevent) (ids : list string) : option (Manager * list sevent) :=
  match ids with
  | [] => Some acc
  | id :: ids =>
      match sessions acc.1 !! id with
      | None => drop_reaped acc ids
      | Some p => acc ← andthen acc (λ m, drop m (the_session m p) true); drop_reaped acc ids
      end
  end.
Definition SweepKernels (m : Manager) (now : Z) : option (Manager * list sevent) :=
  match Kernels m with
  | None => Some (m, [])
  | Some e =>
      let '(ids, e, ev) := Reap e now in
      drop_reaped (set_engine m (Some e), map SKernel ev) ids
  end.

(** ** Files *)
Record FileInfo := { fi_Name : string; fi_Size : Z; fi_Dir : bool; fi_ModTime : Z }.
(** What the file system answers ([f_readdir] lists the entries whose [Info] succeeds). *)
Record fsenv := {
  f_stat : string → option FileInfo; f_read : string → option string;
  f_readdir : string → option (list FileInfo); f_size : string → Z;
  f_mkdir : string → bool; f_write : string → bool; f_rm : bool; f_now : Z }.
Definition safePath (s : Session) (rel : string) : result SessErr string :=
  let clean := Filepath.Clean ("/" +:+ TrimSpace rel) in
  let p := Filepath.Join [s_Workspace s; clean] in
  if negb (String.eqb p (s_Workspace s)) && negb (HasPrefix p (s_Workspace s +:+ "/")) then Err ErrPath else Ok p.
Definition resolve_path (m : Manager) (id token tenant rel : string) : result SessErr (nat * string) :=
  p <-? authed m id token tenant; path <-? safePath (the_session m p) rel; Ok (p, path).

Definition Stat (m : Manager) (x : fsenv) (id token tenant rel : string) : result SessErr FileInfo :=
  pp <-? resolve_path m id token tenant rel;
  match f_stat x (snd pp) with Some fi => Ok fi | None => Err ErrOS end.
Definition ReadFile (m : Manager) (x : fsenv) (id token tenant rel : string) : result SessErr string :=
  pp <-? resolve_path m id token tenant rel;
  if from_option fi_Dir false (f_stat x (snd pp)) then Err ErrIsDir else
  match f_read x (snd pp) with Some d => Ok d | None => Err ErrOS end.
Definition info_le (a b : FileInfo) : Prop := String.le (fi_Name a) (fi_Name b).
#[export] Instance info_le_dec a b : Decision (info_le a b).
Proof. unfold info_le, String.le. apply _. Defined.
Definition ListDir (m : Manager) (x : fsenv) (id token tenant rel : string) : result SessErr (list FileInfo) :=
  pp <-? resolve_path m id token tenant rel;
  match f_readdir x (snd pp) with Some l => Ok (merge_sort info_le l) | None => Err ErrOS end.
Definition WriteFile (m : Manager) (x : fsenv) (id token tenant rel data : string) :
    result SessErr unit * Manager * list sevent :=
  match resolve_path m id token tenant rel with
  | Err e => (Err e, m, [])
  | Ok (p, path) =>
      let old := from_option fi_Size 0 (f_stat x path) in
      if DiskQuota m <? wrap64 (wrap64 (f_size x (s_Workspace (the_session m p)) - old) + len data)
      then (Err ErrQuota, m, []) else
      let mk := SMkdir (Filepath.Dir path) in
      if negb (f_mkdir x (Filepath.Dir path)) then (Err ErrOS, m, [mk]) else
      if negb (f_write x path) then (Err ErrOS, m, [mk; SWrite path data]) else
      (Ok tt, alter_session m p (touch (f_now x)), [mk; SWrite path data])
  end.
Definition DeletePath (m : Manager) (x : fsenv) (id token tenant rel : string) :
    result SessErr unit * list sevent :=
  match resolve_path m id token tenant rel with
  | Err e => (Err e, [])
  | Ok (p, path) =>
      if String.eqb path (s_Workspace (the_session m p)) then (Err ErrPath, [])
      else (if f_rm x then Ok tt else Err ErrOS, [SRemoveAll path])
  end.
End manager.
Arguments Manager W : clear implicits.
