(* ===== verification/SessionSlots.v ===== *)
(** * Kernel slots under interleaving

    [Create], [Destroy], the sweeps and the kernel calls of any number of
    goroutines, interleaved at their critical sections.  A call in flight is a
    [flight]: it owns a session object that is not in the table, and perhaps a
    slot of the kernel limiter. *)

From S2P Require Import Prelude GoLib GoStrings GoJSON Sched Executor Registry Kernel Session.

Inductive flight :=
| FSlot (p : nat)       (* Create, after the slot was acquired *)
| FReady (p : nat)      (* Create, before the session enters the table *)
| FClaim (p : nat)      (* a teardown, after it removed the session from the table *)
| FDone (p : nat).      (* a teardown, after it gave back the slot *)
Definition loc (f : flight) : nat :=
  match f with FSlot p | FReady p | FClaim p | FDone p => p end.

Section slots.
Context {W : Type} {SW : Weighted W} {SWS : WeightedSpec W} (harnessPy : string).

Record gstate := { gm : Manager W; flights : list flight }.

(** One critical section of one call.  [e] is the engine, which never goes away. *)
Inductive gstep : gstate → gstate → Prop :=
(* Create *)
| g_alloc m fl s : s_ID s ∉ map s_ID (sheap m) → s_k s = None →      (* a fresh id *)
    s_Type s ≠ "kernel" →
    gstep {| gm := m; flights := fl |} {| gm := (alloc m s).2; flights := FReady (alloc m s).1 :: fl |}
| g_garbage m fl s : s_ID s ∉ map s_ID (sheap m) → s_k s = None →   (* refused for want of a slot *)
    gstep {| gm := m; flights := fl |} {| gm := (alloc m s).2; flights := fl |}
| g_slot m fl s e late m' : s_ID s ∉ map s_ID (sheap m) → s_k s = None → s_Type s = "kernel" →
    Kernels m = Some e → kslot (alloc m s).2 e late = (true, m') →
    gstep {| gm := m; flights := fl |} {| gm := m'; flights := FSlot (alloc m s).1 :: fl |}
| g_start m f1 f2 p e x image mounts net m' ev : Kernels m = Some e →
    kstart harnessPy m e x p image mounts net = (None, m', ev) →
    gstep {| gm := m; flights := f1 ++ FSlot p :: f2 |} {| gm := m'; flights := f1 ++ FReady p :: f2 |}
| g_start_failed m f1 f2 p e x image mounts net err m1 ev e1 m' : Kernels m = Some e →
    kstart harnessPy m e x p image mounts net = (Some err, m1, ev) →
    Kernels m1 = Some e1 → krelease m1 e1 = Some m' →
    gstep {| gm := m; flights := f1 ++ FSlot p :: f2 |} {| gm := m'; flights := f1 ++ f2 |}
| g_insert m f1 f2 p :
    gstep {| gm := m; flights := f1 ++ FReady p :: f2 |} {| gm := insert m p; flights := f1 ++ f2 |}
(* Destroy, drop, dropReaped: [p] is any session object the call holds *)
| g_claim m fl p m' : (p < List.length (sheap m))%nat → claim m (s_ID (the_session m p)) = (true, m') →
    gstep {| gm := m; flights := fl |} {| gm := m'; flights := FClaim p :: fl |}
| g_kdestroy m fl e id : Kernels m = Some e →
    gstep {| gm := m; flights := fl |} {| gm := (kdestroy m e id).1; flights := fl |}
| g_release m f1 f2 p e m' : Kernels m = Some e → is_kernel (the_session m p) = true →
    krelease m e = Some m' →
    gstep {| gm := m; flights := f1 ++ FClaim p :: f2 |} {| gm := m'; flights := f1 ++ FDone p :: f2 |}
| g_no_kernel m f1 f2 p : is_kernel (the_session m p) = false →
    gstep {| gm := m; flights := f1 ++ FClaim p :: f2 |} {| gm := m; flights := f1 ++ FDone p :: f2 |}
| g_finish m f1 f2 p :
    gstep {| gm := m; flights := f1 ++ FDone p :: f2 |} {| gm := m; flights := f1 ++ f2 |}
(* the other calls *)
| g_kexec m fl e x k code stepMs sink z e' sent : Kernels m = Some e → Kernel.Exec e x k code stepMs sink = Some (z, e', sent) →
    gstep {| gm := m; flights := fl |} {| gm := set_engine m (Some e'); flights := fl |}
| g_reap m fl e ps : Kernels m = Some e →
    gstep {| gm := m; flights := fl |} {| gm := set_engine m (Some (reap_commit e ps).1.2); flights := fl |}
| g_touch m fl p now : gstep {| gm := m; flights := fl |} {| gm := alter_session m p (touch now); flights := fl |}
| g_mounts m fl p ms : gstep {| gm := m; flights := fl |} {| gm := alter_session m p (set_mounts ms); flights := fl |}
| g_used m fl u : gstep {| gm := m; flights := fl |}
    {| gm := put m (Sema m) (Kernels m) (sessions m) u (sheap m); flights := fl |}.

Inductive greach (g : gstate) : gstate → Prop :=
| gr_refl : greach g g
| gr_step g' g'' : greach g g' → gstep g' g'' → greach g g''.

(** ** Counting slots *)
Definition holds (h : list Session) (p : nat) : Z :=
  match h !! p with Some s => if is_kernel s then 1 else 0 | None => 0 end.
Definition flight_holds (h : list Session) (f : flight) : Z :=
  match f with FSlot _ => 1 | FReady p | FClaim p => holds h p | FDone _ => 0 end.
Definition in_table (m : Manager W) : Z := map_sum (λ _ p, holds (sheap m) p) (sessions m).
Definition in_flight (m : Manager W) (fl : list flight) : Z :=
  foldr (λ f acc, flight_holds (sheap m) f + acc) 0 fl.
Arguments in_flight : simpl never.
Lemma in_flight_cons m f fl : in_flight m (f :: fl) = flight_holds (sheap m) f + in_flight m fl.
Proof. done. Qed.

Record slots_ok (g : gstate) : Prop := {
  so_ids : NoDup (map s_ID (sheap (gm g)));
  so_table : ∀ id p, sessions (gm g) !! id = Some p →
     ∃ s, sheap (gm g) !! p = Some s ∧ s_ID s = id ∧ p ∉ map loc (flights g);
  so_flights : NoDup (map loc (flights g));
  so_alive : ∀ f, f ∈ flights g → (loc f < List.length (sheap (gm g)))%nat;
  so_slot : ∀ p, FSlot p ∈ flights g → holds (sheap (gm g)) p = 0;
  so_count : ∃ e, Kernels (gm g) = Some e ∧ lim_ok (Slots e) ∧
     inUse (Slots e) = in_table (gm g) + in_flight (gm g) (flights g) }.

Lemma holds_range h p : 0 ≤ holds h p ≤ 1.
Proof. unfold holds. destruct (h !! p) as [s|]; [destruct (is_kernel s)|]; lia. Qed.
Lemma in_table_nonneg m : 0 ≤ in_table m.
Proof. apply map_sum_nonneg. intros k p _. apply holds_range. Qed.
Lemma flight_holds_range h f : 0 ≤ flight_holds h f ≤ 1.
Proof. destruct f; cbn; try apply holds_range; lia. Qed.
Lemma in_flight_app m f1 f2 : in_flight m (f1 ++ f2) = in_flight m f1 + in_flight m f2.
Proof. unfold in_flight. induction f1 as [|f f1 IH]; [done|]. cbn. rewrite IH. lia. Qed.
Lemma in_flight_nonneg m fl : 0 ≤ in_flight m fl.
Proof.
  unfold in_flight. induction fl as [|f fl IH]; cbn; [done|].
  pose proof (flight_holds_range (sheap m) f). lia.
Qed.

(** Objects that count the same in two heaps. *)
Lemma in_table_ext m m' : sessions m' = sessions m →
  (∀ id p, sessions m !! id = Some p → holds (sheap m') p = holds (sheap m) p) → in_table m' = in_table m.
Proof. intros E H. unfold in_table. rewrite E. apply map_sum_ext. done. Qed.
Lemma in_flight_ext m m' fl :
  (∀ f, f ∈ fl → holds (sheap m') (loc f) = holds (sheap m) (loc f)) → in_flight m' fl = in_flight m fl.
Proof.
  induction fl as [|f fl IH]; intros H; [done|]. rewrite !in_flight_cons, IH.
  - f_equal. pose proof (H f ltac:(by left)). by destruct f.
  - intros f' Hf. apply H. by right.
Qed.

Lemma holds_app (h : list Session) s p : (p < List.length h)%nat → holds (h ++ [s]) p = holds h p.
Proof. intros H. unfold holds. by rewrite lookup_app_l. Qed.
Lemma holds_app_new (h : list Session) s : s_k s = None → holds (h ++ [s]) (List.length h) = 0.
Proof.
  intros H. unfold holds. rewrite lookup_app_r, Nat.sub_diag by done. cbn. unfold is_kernel. by rewrite H.
Qed.
Lemma holds_alter_same (h : list Session) (p q : nat) f : (∀ s, is_kernel (f s) = is_kernel s) → holds (alter f p h) q = holds h q.
Proof.
  intros H. unfold holds. destruct (decide (p = q)) as [->|Hne].
  - rewrite list_lookup_alter_eq. destruct (h !! q) as [s|]; cbn; [by rewrite H|done].
  - by rewrite list_lookup_alter_ne.
Qed.
Lemma holds_alter_ne (h : list Session) (p q : nat) f : p ≠ q → holds (alter f p h) q = holds h q.
Proof. intros H. unfold holds. by rewrite list_lookup_alter_ne. Qed.
Lemma ids_alter (h : list Session) (p : nat) f : (∀ s, s_ID (f s) = s_ID s) → map s_ID (alter f p h) = map s_ID h.
Proof.
  intros H. apply list_eq. intros i. rewrite !list_lookup_fmap. destruct (decide (p = i)) as [->|Hne].
  - rewrite list_lookup_alter_eq. destruct (h !! i); cbn; [by rewrite H|done].
  - by rewrite list_lookup_alter_ne.
Qed.
Lemma table_alter (h : list Session) (p : nat) f (q : nat) s : (∀ s, s_ID (f s) = s_ID s) → h !! q = Some s →
  ∃ s', alter f p h !! q = Some s' ∧ s_ID s' = s_ID s.
Proof.
  intros H Hq. destruct (decide (p = q)) as [->|Hne].
  - rewrite list_lookup_alter_eq, Hq. eexists. split; [done|]. apply H.
  - rewrite list_lookup_alter_ne by done. by eexists.
Qed.

(** ** Steps that do not move a slot *)
Record same_slots (m m' : Manager W) : Prop := {
  ss_table : sessions m' = sessions m;
  ss_ids : map s_ID (sheap m') = map s_ID (sheap m);
  ss_holds : ∀ p, holds (sheap m') p = holds (sheap m) p;
  ss_engine : ∀ e, Kernels m = Some e → ∃ e', Kernels m' = Some e' ∧ Slots e' = Slots e }.

Lemma ids_lookup (h h' : list Session) p s : map s_ID h' = map s_ID h → h !! p = Some s →
  ∃ s', h' !! p = Some s' ∧ s_ID s' = s_ID s.
Proof.
  intros E Hp. assert (Hm : map s_ID h' !! p = Some (s_ID s)).
  { rewrite E, list_lookup_fmap, Hp. done. }
  rewrite list_lookup_fmap in Hm. destruct (h' !! p) as [s'|]; [|done]. exists s'. split; [done|].
  by injection Hm.
Qed.
Lemma same_ok m m' fl : same_slots m m' → slots_ok {| gm := m; flights := fl |} →
  slots_ok {| gm := m'; flights := fl |}.
Proof.
  intros [T I Hh He] [K1 K2 K3 K4 K5 (e & K6 & K7 & K8)]. cbn in *.
  assert (Hlen : List.length (sheap m') = List.length (sheap m)).
  { rewrite <- (length_map s_ID (sheap m')), I. apply length_map. }
  split; cbn; try done.
  - by rewrite I.
  - intros id p Hp. rewrite T in Hp. destruct (K2 id p Hp) as (s & Hs & Hid & Hfl).
    destruct (ids_lookup _ _ p s I Hs) as (s' & -> & E). exists s'. by rewrite E.
  - intros f Hf. rewrite Hlen. by apply K4.
  - intros p Hp. rewrite Hh. by apply K5.
  - destruct (He e K6) as (e' & E1 & E2). exists e'. rewrite E2. split; [done|split; [done|]].
    rewrite K8. f_equal; symmetry; [by apply in_table_ext|apply in_flight_ext; auto].
Qed.
Lemma same_engine m e e' : Kernels m = Some e → Slots e' = Slots e → same_slots m (set_engine m (Some e')).
Proof.
  intros E Hs. split; try done. intros e2 E2. exists e'. split; [done|]. congruence.
Qed.
Lemma same_alter m p f : (∀ s, s_ID (f s) = s_ID s) → (∀ s, is_kernel (f s) = is_kernel s) →
  same_slots m (alter_session m p f).
Proof.
  intros H1 H2. split; [done|by apply ids_alter|intros q; by apply holds_alter_same|]. intros e E. by exists e.
Qed.

Lemma reap_kill_slots (acc : KernelEngine W * list kevent) ps : Slots (foldl reap_kill acc ps).1 = Slots acc.1.
Proof. revert acc. induction ps as [|p ps IH]; intros acc; [done|]. cbn [foldl]. by rewrite IH. Qed.
Lemma reap_commit_slots (e : KernelEngine W) ps : Slots (reap_commit e ps).1.2 = Slots e.
Proof.
  unfold reap_commit. pose proof (reap_kill_slots (reap_unlink e ps, []) ps) as H.
  by destruct (foldl reap_kill (reap_unlink e ps, []) ps).
Qed.
Lemma Exec_slots (e : KernelEngine W) x k code stepMs sink z e' sent : Kernel.Exec e x k code stepMs sink = Some (z, e', sent) → Slots e' = Slots e.
Proof.
  unfold Kernel.Exec. destruct (exec_step e x k stepMs sink) as [z'|]; [|done]. cbn. intros [= <- <- _].
  by destruct (z_dead z'), (z_touch z').
Qed.
Lemma Destroy_slots (e : KernelEngine W) id : Slots (Kernel.Destroy e id).1 = Slots e.
Proof. unfold Kernel.Destroy. by destruct (kernels e !! id). Qed.

(** ** Steps that move one *)
Lemma ok_perm m fl fl' : fl ≡ₚ fl' → slots_ok {| gm := m; flights := fl |} → slots_ok {| gm := m; flights := fl' |}.
Proof.
  intros P [K1 K2 K3 K4 K5 (e & K6 & K7 & K8)]. cbn in *.
  assert (PL : map loc fl ≡ₚ map loc fl') by (by apply Permutation_map).
  assert (PF : in_flight m fl = in_flight m fl').
  { clear -P. unfold in_flight. induction P; cbn; [done|lia|lia|congruence]. }
  split; cbn; [done| |by rewrite <- PL| | |].
  - intros id p Hp. destruct (K2 id p Hp) as (s & Hs & Hid & Hfl). exists s. by rewrite <- PL.
  - intros f. rewrite <- P. apply K4.
  - intros p. rewrite <- P. apply K5.
  - exists e. split; [done|split; [done|]]. unfold in_flight in *. lia.
Qed.

Lemma alloc_ok m fl s : slots_ok {| gm := m; flights := fl |} → s_ID s ∉ map s_ID (sheap m) → s_k s = None →
  slots_ok {| gm := (alloc m s).2; flights := FReady (alloc m s).1 :: fl |}.
Proof.
  intros [K1 K2 K3 K4 K5 (e & K6 & K7 & K8)] Hid Hk. cbn in *.
  assert (Hnew : ∀ f, f ∈ fl → loc f ≠ List.length (sheap m)).
  { intros f Hf E. apply K4 in Hf. lia. }
  assert (Hnl : List.length (sheap m) ∉ map loc fl).
  { intros (f & E & Hf)%list_elem_of_fmap. by apply (Hnew f). }
  split; cbn.
  - rewrite map_app. cbn. apply NoDup_app. split; [done|split; [|apply NoDup_singleton]].
    intros x Hx ->%list_elem_of_singleton. done.
  - intros id p Hp. destruct (K2 id p Hp) as (s' & Hs & Hid' & Hfl). exists s'.
    split; [by apply lookup_app_l_Some|split; [done|]]. rewrite elem_of_cons.
    intros [->|]; [|done]. apply lookup_lt_Some in Hs. lia.
  - by constructor.
  - intros f. rewrite length_app, elem_of_cons. cbn. intros [->|Hf%K4]; cbn; lia.
  - intros p. rewrite elem_of_cons. intros [|Hp]; [done|]. rewrite holds_app; [by apply K5|]. by apply (K4 (FSlot p)).
  - exists e. split; [done|split; [done|]]. rewrite in_flight_cons. cbn [flight_holds sheap put]. rewrite K8, holds_app_new, Z.add_0_l by done. f_equal.
    + symmetry. apply in_table_ext; [done|]. intros id p Hp. apply holds_app.
      destruct (K2 id p Hp) as (s' & Hs & _). by apply lookup_lt_Some in Hs.
    + symmetry. apply in_flight_ext. intros f Hf. by apply holds_app, K4.
Qed.

(** Changing the stage of one flight and the limiter together. *)
Lemma move_ok m fl f f' e l : slots_ok {| gm := m; flights := f :: fl |} → loc f' = loc f →
  Kernels m = Some e → lim_ok l →
  inUse l - flight_holds (sheap m) f' = inUse (Slots e) - flight_holds (sheap m) f →
  (∀ p, f' = FSlot p → holds (sheap m) p = 0) →
  slots_ok {| gm := set_engine m (Some (set_slots e l)); flights := f' :: fl |}.
Proof.
  intros [K1 K2 K3 K4 K5 (e' & K6 & K7 & K8)] E Hk Hl Hi Hs. cbn in *.
  assert (e' = e) as -> by congruence. rewrite <- E in *. split; cbn; try done.
  - intros g [->|Hg]%elem_of_cons; [rewrite E; apply K4; by left|]. apply K4. by right.
  - intros p [<-|Hp]%elem_of_cons; [by apply Hs|]. apply K5. by right.
  - eexists. split; [done|split; [done|]]. cbn [set_slots Slots]. rewrite in_flight_cons in *. cbn [sheap set_engine put].
    change (in_table (set_engine m (Some (set_slots e l)))) with (in_table m).
    change (in_flight (set_engine m (Some (set_slots e l))) fl) with (in_flight m fl). lia.
Qed.
Lemma forget_ok m fl f : slots_ok {| gm := m; flights := f :: fl |} → flight_holds (sheap m) f = 0 →
  slots_ok {| gm := m; flights := fl |}.
Proof.
  intros [K1 K2 K3 K4 K5 (e & K6 & K7 & K8)] H0. cbn in *. apply NoDup_cons in K3 as [K3 K3'].
  split; cbn; try done.
  - intros id p Hp. destruct (K2 id p Hp) as (s & Hs & Hid & Hfl). exists s. rewrite elem_of_cons in Hfl. tauto.
  - intros g Hg. apply K4. by right.
  - intros p Hp. apply K5. by right.
  - exists e. split; [done|split; [done|]]. rewrite in_flight_cons in K8. lia.
Qed.

Lemma start_ok m fl p k : slots_ok {| gm := m; flights := FSlot p :: fl |} →
  slots_ok {| gm := alter_session m p (set_k (Some k)); flights := FReady p :: fl |}.
Proof.
  intros [K1 K2 K3 K4 K5 (e & K6 & K7 & K8)]. cbn in *. apply NoDup_cons in K3 as [K3 K3'].
  assert (Hlt : (p < List.length (sheap m))%nat) by (apply (K4 (FSlot p)); by left).
  assert (Hne : ∀ f, f ∈ fl → holds (alter (set_k (Some k)) p (sheap m)) (loc f) = holds (sheap m) (loc f)).
  { intros f Hf. apply holds_alter_ne. intros ->. apply K3, list_elem_of_fmap. by exists f. }
  assert (H1 : holds (alter (set_k (Some k)) p (sheap m)) p = 1).
  { unfold holds. rewrite list_lookup_alter_eq. apply lookup_lt_is_Some_2 in Hlt as [s ->]. done. }
  split; cbn; try (by constructor).
  - by rewrite ids_alter.
  - intros id q Hq. destruct (K2 id q Hq) as (s & Hs & Hid & Hfl).
    destruct (table_alter _ p (set_k (Some k)) q s ltac:(done) Hs) as (s' & -> & E'). exists s'. by rewrite E'.
  - intros f Hf. rewrite length_alter. apply elem_of_cons in Hf as [->|Hf]; [done|]. apply K4. by right.
  - intros q [|Hq]%elem_of_cons; [done|]. pose proof (Hne (FSlot q) Hq) as E'. cbn in E'. rewrite E'. apply K5. by right.
  - exists e. split; [done|split; [done|]]. rewrite in_flight_cons in *. cbn [flight_holds sheap alter_session put].
    rewrite H1, K8. f_equal; [|cbn [flight_holds]; f_equal]; symmetry.
    + apply in_table_ext; [done|]. intros id q Hq. apply holds_alter_ne. intros ->.
      destruct (K2 id q Hq) as (_ & _ & _ & Hfl). apply Hfl. by left.
    + by apply in_flight_ext.
Qed.

Lemma the_session_id (m : Manager W) p s : sheap m !! p = Some s → the_session m p = s.
Proof. intros H. unfold the_session. by rewrite H. Qed.

Lemma insert_ok m fl p : slots_ok {| gm := m; flights := FReady p :: fl |} →
  slots_ok {| gm := insert m p; flights := fl |}.
Proof.
  intros [K1 K2 K3 K4 K5 (e & K6 & K7 & K8)]. cbn in *. apply NoDup_cons in K3 as [K3 K3'].
  destruct (lookup_lt_is_Some_2 (sheap m) p ltac:(by apply (K4 (FReady p)); left)) as [s Hs].
  unfold insert. rewrite (the_session_id _ _ _ Hs).
  assert (Hnone : sessions m !! s_ID s = None).
  { destruct (sessions m !! s_ID s) as [q|] eqn:E; [|done]. destruct (K2 _ q E) as (s' & Hs' & Hid & Hfl).
    exfalso. apply Hfl. assert (q = p) as ->; [|by left].
    eapply (NoDup_lookup (map s_ID (sheap m))); [done|..];
      rewrite list_lookup_fmap, ?Hs, ?Hs'; cbn; [|done]. by rewrite Hid. }
  split; cbn; try done.
  - intros id q. rewrite lookup_insert_Some. intros [[<- <-]|[Hne Hq]]; [by exists s|].
    destruct (K2 id q Hq) as (s' & Hs' & Hid & Hfl). exists s'. rewrite elem_of_cons in Hfl. tauto.
  - intros f Hf. apply K4. by right.
  - intros q Hq. apply K5. by right.
  - exists e. split; [done|split; [done|]]. unfold in_table. cbn. rewrite map_sum_insert_fresh by done.
    rewrite in_flight_cons in K8. unfold in_table in K8. cbn in K8.
    change (in_flight (insert m p) fl) with (in_flight m fl). unfold in_flight in *. cbn in *. lia.
Qed.

Lemma claim_ok m fl p m' : slots_ok {| gm := m; flights := fl |} → (p < List.length (sheap m))%nat →
  claim m (s_ID (the_session m p)) = (true, m') → slots_ok {| gm := m'; flights := FClaim p :: fl |}.
Proof.
  intros [K1 K2 K3 K4 K5 (e & K6 & K7 & K8)] Hlt. cbn in *.
  destruct (lookup_lt_is_Some_2 _ _ Hlt) as [s Hs]. rewrite (the_session_id _ _ _ Hs).
  unfold claim. intros [= Hp <-]. boolp. destruct Hp as [q Hq].
  destruct (K2 _ q Hq) as (s' & Hs' & Hid & Hfl).
  assert (q = p) as ->.
  { eapply (NoDup_lookup (map s_ID (sheap m))); [done|..]; rewrite list_lookup_fmap, ?Hs, ?Hs'; cbn; [done|by rewrite Hid]. }
  split; cbn; try done.
  - intros id r. rewrite lookup_delete_Some. intros [Hne Hr]. destruct (K2 id r Hr) as (s2 & Hs2 & Hid2 & Hfl2).
    exists s2. split; [done|split; [done|]]. rewrite elem_of_cons. intros [->|]; [|done]. congruence.
  - by constructor.
  - intros f [->|Hf]%elem_of_cons; [done|]. by apply K4.
  - intros r [|Hr]%elem_of_cons; [done|]. by apply K5.
  - exists e. split; [done|split; [done|]]. unfold in_table in *. cbn.
    rewrite (map_sum_delete _ _ _ _ Hq) in K8. rewrite in_flight_cons. unfold in_flight in *. cbn in *. lia.
Qed.

Lemma loc_ne_middle (f1 f2 : list flight) f : f1 ++ f :: f2 ≡ₚ f :: f1 ++ f2.
Proof. symmetry. apply Permutation_middle. Qed.

Lemma NewKernel_slots (e : KernelEngine W) x id image ms net :
  Slots (NewKernel harnessPy e x id image ms net).1.2 = Slots e.
Proof.
  unfold NewKernel. repeat case_match; done.
Qed.
Lemma kstart_inv (m : Manager W) e x p image ms net err m' ev : kstart harnessPy m e x p image ms net = (err, m', ev) →
  ∃ e', Slots e' = Slots e ∧
  match err with
  | None => ∃ k, m' = alter_session (set_engine m (Some e')) p (set_k (Some k))
  | Some _ => m' = set_engine m (Some e')
  end.
Proof.
  unfold kstart. pose proof (NewKernel_slots e x (s_ID (the_session m p)) image ms net) as Hs.
  destruct (NewKernel _ _ _ _ _ _ _) as [[r e'] ev']. cbn in Hs.
  destruct r as [k|er]; intros [= <- <- <-]; exists e'; (split; [done|]); [by exists k|done].
Qed.

Lemma release_inv (m : Manager W) e m' : krelease m e = Some m' → lim_ok (Slots e) →
  ∃ l, m' = set_engine m (Some (set_slots e l)) ∧ lim_ok l ∧ inUse l = inUse (Slots e) - 1.
Proof.
  unfold krelease. intros H Hok. destruct (decide (0 < inUse (Slots e))) as [Hp|Hp].
  - destruct (Release_ok _ Hok Hp) as (l & E & H1 & _ & H3). rewrite E in H. injection H as <-.
    by exists l.
  - rewrite (proj2 (Release_panics _ Hok)) in H; [done|]. destruct Hok as (_ & _ & _ & ?). lia.
Qed.

Lemma gstep_ok g g' : slots_ok g → gstep g g' → slots_ok g'.
Proof.
  intros Hok Hs. destruct Hs as
    [m fl s Hid Hk Ht|m fl s Hid Hk|m fl s e late m' Hid Hk Ht He Hsl|m f1 f2 p e x image ms net m' ev He Hst
    |m f1 f2 p e x image ms net err m1 ev e1 m' He Hst He1 Hr|m f1 f2 p|m fl p m' Hp Hc|m fl e id He
    |m f1 f2 p e m' He Hker Hr|m f1 f2 p Hker|m f1 f2 p|m fl e x k sink z e' He Hx|m fl e ps He|m fl p now|m fl p ms|m fl u].
  - by apply alloc_ok.
  - apply (forget_ok _ _ (FReady (alloc m s).1)); [by apply alloc_ok|]. by apply holds_app_new.
  - pose proof (alloc_ok m fl s Hok Hid Hk) as Ha. unfold kslot in Hsl.
    assert (Hl : lim_ok (Slots e)).
    { destruct Ha as [_ _ _ _ _ (e' & E & L & _)]. cbn in E. congruence. }
    destruct (Acquire_ok (Slots e) late Hl) as (L1 & L2 & L3).
    destruct (Acquire (Slots e) late) as [ok l]. cbn in *. injection Hsl as -> <-.
    assert (H0 : holds (sheap (alloc m s).2) (List.length (sheap m)) = 0) by (by apply holds_app_new).
    eapply move_ok; [exact Ha|done|exact He|done| |].
    + cbn [flight_holds fst snd alloc sheap put set_engine]. cbn [alloc snd sheap put] in H0. lia.
    + by intros q [= <-].
  - destruct (kstart_inv _ _ _ _ _ _ _ _ _ _ Hst) as (e' & Hs & k & ->).
    apply (ok_perm _ (FReady p :: f1 ++ f2)); [by rewrite loc_ne_middle|]. apply start_ok.
    eapply same_ok; [by apply (same_engine m e)|].
    eapply ok_perm; [|exact Hok]. by rewrite loc_ne_middle.
  - destruct (kstart_inv _ _ _ _ _ _ _ _ _ _ Hst) as (e' & Hs & ->). injection He1 as <-.
    assert (H1 : slots_ok {| gm := set_engine m (Some e'); flights := FSlot p :: f1 ++ f2 |}).
    { eapply same_ok; [by apply (same_engine m e)|]. eapply ok_perm; [|exact Hok]. by rewrite loc_ne_middle. }
    assert (Hl : lim_ok (Slots e')).
    { destruct H1 as [_ _ _ _ _ (e2 & E & L & _)]. cbn in E. congruence. }
    destruct (release_inv _ _ _ Hr Hl) as (l & -> & L1 & L2).
    apply (forget_ok _ _ (FDone p)); [|done].
    apply (move_ok (set_engine m (Some e')) _ (FSlot p) _ e'); try done. cbn [flight_holds]. lia.
  - apply insert_ok. eapply ok_perm; [|exact Hok]. by rewrite loc_ne_middle.
  - by eapply claim_ok.
  - unfold kdestroy. pose proof (Destroy_slots e id) as E. destruct (Kernel.Destroy e id) as [e' ev]. cbn in *.
    eapply same_ok; [by apply (same_engine m e)|exact Hok].
  - assert (H1 : slots_ok {| gm := m; flights := FClaim p :: f1 ++ f2 |}).
    { eapply ok_perm; [|exact Hok]. by rewrite loc_ne_middle. }
    assert (Hl : lim_ok (Slots e)).
    { destruct H1 as [_ _ _ _ _ (e2 & E & L & _)]. cbn in E. congruence. }
    destruct (release_inv _ _ _ Hr Hl) as (l & -> & L1 & L2).
    eapply ok_perm; [symmetry; apply loc_ne_middle|]. apply (move_ok m _ (FClaim p) _ e); try done.
    cbn [flight_holds]. assert (holds (sheap m) p = 1); [|lia].
    destruct H1 as [_ _ _ K4 _ _]. cbn in K4.
    destruct (lookup_lt_is_Some_2 (sheap m) p ltac:(apply (K4 (FClaim p)); by left)) as [s Hs].
    unfold holds. rewrite (the_session_id _ _ _ Hs) in Hker. by rewrite Hs, Hker.
  - assert (H1 : slots_ok {| gm := m; flights := FClaim p :: f1 ++ f2 |}).
    { eapply ok_perm; [|exact Hok]. by rewrite loc_ne_middle. }
    pose proof H1 as [_ _ _ _ _ (e & E & L & _)]. cbn in E.
    eapply ok_perm; [symmetry; apply loc_ne_middle|].
    eapply (same_ok (set_engine m (Some (set_slots e (Slots e))))).
    { split; try done. intros e2 [= <-]. by exists e. }
    apply (move_ok m _ (FClaim p) _ e); try done. cbn [flight_holds]. assert (holds (sheap m) p = 0); [|lia].
    unfold holds. unfold the_session in Hker. destruct (sheap m !! p); [|done]. cbn in Hker. by rewrite Hker.
  - apply (forget_ok _ _ (FDone p)); [|done]. eapply ok_perm; [|exact Hok]. by rewrite loc_ne_middle.
  - eapply same_ok; [|exact Hok]. apply (same_engine m e); [done|]. by eapply Exec_slots.
  - eapply same_ok; [|exact Hok]. apply (same_engine m e); [done|]. apply reap_commit_slots.
  - eapply same_ok; [|exact Hok]. by apply same_alter.
  - eapply same_ok; [|exact Hok]. by apply same_alter.
  - eapply same_ok; [|exact Hok]. split; try done. intros e E. by exists e.
Qed.

(** A manager as the daemon starts it: no session, a fresh engine. *)
Definition fresh_manager (m : Manager W) : Prop :=
  sessions m = ∅ ∧ sheap m = [] ∧ ∃ e n, Kernels m = Some e ∧ Slots e = New n.
Lemma fresh_ok m : fresh_manager m → slots_ok {| gm := m; flights := [] |}.
Proof.
  intros (Hs & Hh & e0 & n & He0 & Hn). split; cbn; rewrite ?Hs, ?Hh.
  - constructor.
  - intros id p. by rewrite lookup_empty.
  - constructor.
  - by intros f ?%elem_of_nil.
  - by intros p ?%elem_of_nil.
  - exists e0. rewrite Hn. split; [done|split; [apply New_ok|]]. unfold in_table. by rewrite Hs.
Qed.

(** C5: kernel slots are exact.  From a fresh daemon, in every interleaving of
    session creations, destructions, sweeps, reaps and kernel steps: the slots
    in use are those of the kernel sessions in the table plus those of the
    creations and teardowns in flight, never more than the limit; no release in flight
    can panic, whether of a failed start or of a teardown; and when nothing is in flight
    the slots in use are the kernel sessions, so none is lost. *)
Theorem kernel_slots_exact m g : fresh_manager m → greach {| gm := m; flights := [] |} g →
  ∃ e, Kernels (gm g) = Some e ∧ 0 ≤ inUse (Slots e) ≤ max (Slots e) ∧
  inUse (Slots e) = in_table (gm g) + in_flight (gm g) (flights g) ∧
  (∀ p, FSlot p ∈ flights g → is_Some (krelease (gm g) e)) ∧
  (∀ p, FClaim p ∈ flights g → is_kernel (the_session (gm g) p) = true → is_Some (krelease (gm g) e)) ∧
  (flights g = [] → inUse (Slots e) = in_table (gm g)).
Proof.
  intros Hfresh Hr.
  assert (Hok : slots_ok g).
  { induction Hr as [|g' g'' _ IH Hst]; [by apply fresh_ok|by eapply gstep_ok]. }
  destruct Hok as [K1 K2 K3 K4 K5 (e & K6 & K7 & K8)]. exists e. pose proof (in_table_nonneg (gm g)).
  assert (Hrel : ∀ f, f ∈ flights g → flight_holds (sheap (gm g)) f = 1 → is_Some (krelease (gm g) e)).
  { intros f Hf H1. apply list_elem_of_split in Hf as (f1 & f2 & Hf). rewrite Hf, in_flight_app, in_flight_cons in K8.
    pose proof (in_flight_nonneg (gm g) f1). pose proof (in_flight_nonneg (gm g) f2).
    destruct (Release_ok (Slots e) K7) as (l & E & _); [lia|]. unfold krelease. rewrite E. by eexists. }
  split; [done|split; [by destruct K7 as (_ & _ & _ & ?)|split; [done|split; [|split]]]].
  - intros p Hp. by apply (Hrel (FSlot p)).
  - intros p Hp Hk. apply (Hrel (FClaim p) Hp). cbn.
    destruct (lookup_lt_is_Some_2 (sheap (gm g)) p ltac:(by apply (K4 (FClaim p)))) as [s Hsp].
    unfold holds. rewrite (the_session_id _ _ _ Hsp) in Hk. by rewrite Hsp, Hk.
  - intros E. rewrite K8, E. unfold in_flight. cbn. lia.
Qed.

(** ** The calls themselves *)
Context (uni_lower : string → string).

Lemma greach_trans g1 g2 g3 : greach g1 g2 → greach g2 g3 → greach g1 g3.
Proof. intros H1 H2. induction H2; [done|]. by eapply gr_step. Qed.
Lemma greach_ok g g' : slots_ok g → greach g g' → slots_ok g'.
Proof. intros H Hr. induction Hr; [done|]. by eapply gstep_ok. Qed.
Lemma engine_of g : slots_ok g → ∃ e, Kernels (gm g) = Some e ∧ lim_ok (Slots e).
Proof. intros [_ _ _ _ _ (e & ? & ? & _)]. by exists e. Qed.
Lemma release_flight m fl f e : slots_ok {| gm := m; flights := f :: fl |} → flight_holds (sheap m) f = 1 →
  Kernels m = Some e → ∃ m', krelease m e = Some m' ∧ sheap m' = sheap m ∧ OnDrop m' = OnDrop m.
Proof.
  intros [_ _ _ _ _ (e' & E & L & C)] H1 He. cbn in *. assert (e' = e) as -> by congruence.
  rewrite in_flight_cons in C. pose proof (in_table_nonneg m). pose proof (in_flight_nonneg m fl).
  destruct (Release_ok (Slots e) L) as (l & El & _); [lia|]. unfold krelease. rewrite El. by eexists.
Qed.

Definition quiet_call (m : Manager W) fl (m' : Manager W) : Prop :=
  greach {| gm := m; flights := fl |} {| gm := m'; flights := fl |}.

Lemma teardown_steps m fl p reaped : slots_ok {| gm := m; flights := FClaim p :: fl |} →
  ∃ m' ev, teardown_session m (the_session m p) reaped = Some (m', ev) ∧ sheap m' = sheap m ∧
    greach {| gm := m; flights := FClaim p :: fl |} {| gm := m'; flights := fl |}.
Proof.
  intros Hok. destruct (engine_of _ Hok) as (e & He & Hl). cbn in He.
  assert (Hp : (p < List.length (sheap m))%nat).
  { destruct Hok as [_ _ _ K _ _]. apply (K (FClaim p)). by left. }
  destruct (lookup_lt_is_Some_2 _ _ Hp) as [s Hs]. rewrite (the_session_id _ _ _ Hs).
  unfold teardown_session. rewrite He. destruct (is_kernel s) eqn:Hk; cbn [negb].
  2: { cbn. eexists m, _. split; [done|split; [done|]].
       eapply gr_step; [eapply gr_step; [apply gr_refl|]|apply (g_finish m [] fl p)].
       apply (g_no_kernel m [] fl p). by rewrite (the_session_id _ _ _ Hs). }
  set (m1 := if reaped then m else (kdestroy m e (s_ID s)).1).
  assert (Hstep : greach {| gm := m; flights := FClaim p :: fl |} {| gm := m1; flights := FClaim p :: fl |}).
  { unfold m1. destruct reaped; [apply gr_refl|]. eapply gr_step; [apply gr_refl|]. by apply g_kdestroy. }
  assert (Hm1 : (if reaped then (m, []) else kdestroy m e (s_ID s)) =
                (m1, if reaped then [] else (kdestroy m e (s_ID s)).2)).
  { unfold m1. destruct reaped; [done|]. by destruct (kdestroy m e (s_ID s)). }
  assert (Hh : sheap m1 = sheap m).
  { unfold m1. destruct reaped; [done|]. unfold kdestroy. by destruct (Kernel.Destroy e (s_ID s)). }
  rewrite Hm1. pose proof (greach_ok _ _ Hok Hstep) as Hok1. destruct (engine_of _ Hok1) as (e1 & He1 & Hl1).
  cbn in He1. rewrite He1. cbn [mbind option_bind].
  assert (Hf : flight_holds (sheap m1) (FClaim p) = 1) by (cbn; unfold holds; by rewrite Hh, Hs, Hk).
  destruct (release_flight _ _ _ _ Hok1 Hf He1) as (m2 & E2 & Hh2 & _). rewrite E2. cbn [mbind option_bind].
  eexists m2, _. split; [done|split; [congruence|]]. eapply greach_trans; [exact Hstep|].
  eapply gr_step; [eapply gr_step; [apply gr_refl|]|apply (g_finish m2 [] fl p)].
  apply (g_release m1 [] fl p e1 m2); [done| |].
  - unfold the_session. by rewrite Hh, Hs.
  - exact E2.
Qed.

Lemma drop_steps m fl p reaped : slots_ok {| gm := m; flights := fl |} → (p < List.length (sheap m))%nat →
  ∃ m' ev, drop m (the_session m p) reaped = Some (m', ev) ∧ sheap m' = sheap m ∧ quiet_call m fl m'.
Proof.
  intros Hok Hp. unfold drop. destruct (claim m (s_ID (the_session m p))) as [pr m1] eqn:Hc.
  pose proof Hc as Hc'. unfold claim in Hc'. injection Hc' as Hpr Hm1. destruct pr; cbn [negb].
  - pose proof (claim_ok m fl p m1 Hok Hp Hc) as Hok1.
    destruct (teardown_steps m1 fl p reaped Hok1) as (m' & ev & E & Hh & Hr).
    assert (Ht : the_session m1 p = the_session m p) by (by rewrite <- Hm1).
    rewrite Ht in E. exists m', ev. split; [done|]. split; [by rewrite Hh, <- Hm1|].
    eapply greach_trans; [|exact Hr]. eapply gr_step; [apply gr_refl|]. by apply g_claim.
  - boolp. exists m1, []. split; [done|]. rewrite <- Hm1. split; [done|].
    assert (set_sessions m (delete (s_ID (the_session m p)) (sessions m)) = m) as ->; [|apply gr_refl].
    rewrite delete_id by (by apply eq_None_not_Some). by destruct m.
Qed.

Lemma authed_loc m fl id token tenant p : slots_ok {| gm := m; flights := fl |} →
  authed m id token tenant = Ok p → (p < List.length (sheap m))%nat ∧ s_ID (the_session m p) = id ∧
  sessions m !! id = Some p.
Proof.
  intros [_ K2 _ _ _ _]. cbn in K2. unfold authed. destruct (sessions m !! id) as [q|] eqn:E; [|done].
  destruct (K2 id q E) as (s & Hs & Hid & _).
  destruct (negb _); [done|]. destruct (_ && _); [done|]. intros [= <-].
  split; [by eapply lookup_lt_Some|]. by rewrite (the_session_id _ _ _ Hs).
Qed.

Lemma Destroy_steps m fl rm id token tenant : slots_ok {| gm := m; flights := fl |} →
  ∃ r m' ev, Destroy m rm id token tenant = Some (r, m', ev) ∧ sheap m' = sheap m ∧ quiet_call m fl m'.
Proof.
  intros Hok. unfold Destroy. destruct (authed m id token tenant) as [p|err] eqn:Ha.
  2: { eexists _, _, _. split; [done|]. split; [done|apply gr_refl]. }
  destruct (authed_loc _ _ _ _ _ _ Hok Ha) as (Hp & Hid & Hin).
  destruct (drop_steps m fl p false Hok Hp) as (m' & ev & E & Hh & Hr). unfold drop in E. rewrite Hid in E.
  unfold claim in *. rewrite Hin in *. rewrite bool_decide_true in * by done. cbn [negb] in *.
  rewrite E. by eexists _, _, _.
Qed.

Lemma Create_steps m fl x rt o : slots_ok {| gm := m; flights := fl |} →
  session_id x o ∉ map s_ID (sheap m) →
  ∃ r m' ev, Create uni_lower harnessPy m x rt o = Some (r, m', ev) ∧ quiet_call m fl m'.
Proof.
  intros Hok Hid. unfold Create.
  destruct (create_check uni_lower m rt) as [lang|err]; [|by eexists _, _, _; split; [done|apply gr_refl]].
  destruct (mintToken x) as [tok|]; [|by eexists _, _, _; split; [done|apply gr_refl]].
  destruct (c_mkdir x); cbn [negb]; [|by eexists _, _, _; split; [done|apply gr_refl]].
  set (s := new_session m x o lang tok).
  assert (Hs : s_ID s ∉ map s_ID (sheap m)) by done. assert (Hk : s_k s = None) by done.
  destruct (alloc m s) as [p m1] eqn:Ha.
  assert (Hp : p = (alloc m s).1) by (by rewrite Ha). assert (Hm1 : m1 = (alloc m s).2) by (by rewrite Ha).
  destruct (String.eqb_spec (s_Type s) "kernel") as [Ht|Ht]; cbn [negb].
  2: { eexists _, _, _. split; [done|].
       eapply gr_step; [eapply gr_step; [apply gr_refl|by apply (g_alloc m fl s)]|].
       rewrite <- Hp, <- Hm1. apply (g_insert m1 [] fl p). }
  destruct (engine_of _ Hok) as (e & He & _). cbn in He.
  assert (He1 : Kernels m1 = Some e) by (by rewrite Hm1). rewrite He1.
  destruct (kslot m1 e (c_late x)) as [ok m2] eqn:Hsl. destruct ok; cbn [negb].
  2: { eexists _, _, _. split; [done|]. revert Hsl. unfold kslot, Acquire.
       destruct (sem_acquire (sem (Slots e)) (c_late x)); [done|]. intros [= <-].
       assert (set_engine m1 (Some (set_slots e (Slots e))) = m1) as ->.
       { destruct m1; cbn in *. rewrite He1. by destruct e. }
       rewrite Hm1. eapply gr_step; [apply gr_refl|]. by apply g_garbage. }
  assert (H2 : greach {| gm := m; flights := fl |} {| gm := m2; flights := FSlot p :: fl |}).
  { eapply gr_step; [apply gr_refl|]. rewrite Hp. eapply (g_slot m fl s e); try done. by rewrite <- Hm1. }
  pose proof (greach_ok _ _ Hok H2) as Hok2. destruct (engine_of _ Hok2) as (e2 & He2 & _). cbn in He2. rewrite He2.
  destruct (kstart _ _ _ _ _ _ _ _) as [[err m3] ev] eqn:Hst. destruct err as [err|].
  - destruct (kstart_inv _ _ _ _ _ _ _ _ _ _ Hst) as (e3 & Hs3 & Hm3).
    assert (He3 : Kernels m3 = Some e3) by (by rewrite Hm3). rewrite He3. cbn [mbind option_bind].
    assert (Hok3 : slots_ok {| gm := m3; flights := FSlot p :: fl |}).
    { rewrite Hm3. eapply same_ok; [by apply (same_engine m2 e2)|done]. }
    destruct (release_flight m3 fl (FSlot p) e3 Hok3 eq_refl He3) as (m4 & E4 & _). rewrite E4. cbn.
    eexists _, _, _. split; [done|]. eapply greach_trans; [exact H2|]. eapply gr_step; [apply gr_refl|].
    by eapply (g_start_failed m2 [] fl p e2).
  - eexists _, _, _. split; [done|]. eapply greach_trans; [exact H2|].
    eapply gr_step; [eapply gr_step; [apply gr_refl|by eapply (g_start m2 [] fl p e2)]|].
    apply (g_insert m3 [] fl p).
Qed.

Definition valid_at (m : Manager W) (s : Session) : Prop :=
  ∃ p, (p < List.length (sheap m))%nat ∧ s = the_session m p.
Lemma andthen_drop acc fl s reaped : slots_ok {| gm := acc.1; flights := fl |} → valid_at acc.1 s →
  ∃ acc', andthen acc (λ m, drop m s reaped) = Some acc' ∧ sheap acc'.1 = sheap acc.1 ∧ quiet_call acc.1 fl acc'.1.
Proof.
  intros Hok (p & Hp & ->). destruct (drop_steps _ _ p reaped Hok Hp) as (m' & ev & E & Hh & Hr).
  unfold andthen. rewrite E. cbn. by eexists.
Qed.

Lemma sweep_idle_steps now sz fl snap acc total live : slots_ok {| gm := acc.1; flights := fl |} →
  Forall (λ p, p < List.length (sheap acc.1))%nat snap → Forall (λ sz, valid_at acc.1 sz.1) live →
  ∃ acc' total' live', sweep_idle now sz acc total live snap = Some (acc', total', live') ∧
    sheap acc'.1 = sheap acc.1 ∧ quiet_call acc.1 fl acc'.1 ∧ Forall (λ sz, valid_at acc'.1 sz.1) live'.
Proof.
  revert acc total live. induction snap as [|p snap IH]; intros acc total live Hok Hsn Hl.
  { eexists _, _, _. split; [done|]. split; [done|]. split; [apply gr_refl|done]. }
  apply Forall_cons in Hsn as [Hp Hsn]. cbn [sweep_idle].
  set (s := the_session acc.1 p). assert (Hv : valid_at acc.1 s) by (by exists p).
  assert (Hdrop : ∃ acc' total' live',
    (acc ← andthen acc (λ m, drop m s false); sweep_idle now sz acc total live snap) = Some (acc', total', live') ∧
    sheap acc'.1 = sheap acc.1 ∧ quiet_call acc.1 fl acc'.1 ∧ Forall (λ sz, valid_at acc'.1 sz.1) live').
  { destruct (andthen_drop acc fl s false Hok Hv) as (acc1 & -> & Hh & Hr). cbn [mbind option_bind].
    assert (Hok1 : slots_ok {| gm := acc1.1; flights := fl |}) by (by eapply greach_ok).
    destruct (IH acc1 total live Hok1) as (a & t & l & E & Hh' & Hr' & Hl'); [by rewrite Hh| |].
    - eapply Forall_impl; [exact Hl|]. intros [s' z] (q & Hq & E). exists q. unfold the_session in *. by rewrite Hh.
    - exists a, t, l. split; [done|]. split; [congruence|]. split; [by eapply greach_trans|done]. }
  destruct (idle acc.1 now s); [done|]. destruct (DiskQuota acc.1 <? sz (s_Workspace s)); [done|].
  apply IH; [done|done|]. apply Forall_app. split; [done|]. by apply Forall_singleton.
Qed.

Lemma sweep_big_steps fl live acc total : slots_ok {| gm := acc.1; flights := fl |} →
  Forall (λ sz, valid_at acc.1 sz.1) live →
  ∃ acc' total', sweep_big acc total live = Some (acc', total') ∧ quiet_call acc.1 fl acc'.1.
Proof.
  revert acc total. induction live as [|[s z] live IH]; intros acc total Hok Hl.
  { eexists _, _. split; [done|apply gr_refl]. }
  apply Forall_cons in Hl as [Hv Hl]. cbn [sweep_big].
  destruct (total <=? GlobalDiskMax acc.1); [by eexists _, _; split; [done|apply gr_refl]|].
  destruct (andthen_drop acc fl s false Hok Hv) as (acc1 & -> & Hh & Hr). cbn [mbind option_bind].
  assert (Hok1 : slots_ok {| gm := acc1.1; flights := fl |}) by (by eapply greach_ok).
  destruct (IH acc1 (wrap64 (total - z)) Hok1) as (a & t & E & Hr').
  - eapply Forall_impl; [exact Hl|]. intros [s' z'] (q & Hq & E). exists q. unfold the_session in *. by rewrite Hh.
  - exists a, t. split; [done|]. by eapply greach_trans.
Qed.

Lemma table_locs m fl : slots_ok {| gm := m; flights := fl |} →
  Forall (λ p, p < List.length (sheap m))%nat (map snd (map_to_list (sessions m))).
Proof.
  intros [_ K2 _ _ _ _]. apply Forall_forall. intros p. rewrite list_elem_of_fmap.
  intros ([id q] & -> & H%elem_of_map_to_list). destruct (K2 id q H) as (s & Hs & _). by eapply lookup_lt_Some.
Qed.

Lemma Sweep_steps m fl now sz : slots_ok {| gm := m; flights := fl |} →
  ∃ m' ev, Sweep m now sz = Some (m', ev) ∧ quiet_call m fl m'.
Proof.
  intros Hok. unfold Sweep.
  destruct (sweep_idle_steps now sz fl _ (m, []) 0 [] Hok (table_locs _ _ Hok) (Forall_nil_2 _))
    as (acc & total & live & -> & Hh & Hr & Hl). cbn [mbind option_bind].
  assert (Hok1 : slots_ok {| gm := acc.1; flights := fl |}) by (by eapply greach_ok).
  assert (∃ acc' total', (if GlobalDiskMax m <? total then sweep_big acc total (merge_sort bigger live)
    else Some (acc, total)) = Some (acc', total') ∧ quiet_call acc.1 fl acc'.1) as (acc' & total' & -> & Hr').
  { destruct (GlobalDiskMax m <? total); [|by eexists _, _; split; [done|apply gr_refl]].
    apply sweep_big_steps; [done|]. by rewrite merge_sort_Permutation. }
  cbn. eexists _, _. split; [done|]. eapply greach_trans; [exact Hr|]. eapply greach_trans; [exact Hr'|].
  eapply gr_step; [apply gr_refl|]. apply g_used.
Qed.

Lemma drop_reaped_steps fl ids acc : slots_ok {| gm := acc.1; flights := fl |} →
  ∃ acc', drop_reaped acc ids = Some acc' ∧ quiet_call acc.1 fl acc'.1.
Proof.
  revert acc. induction ids as [|id ids IH]; intros acc Hok; [by eexists; split; [done|apply gr_refl]|].
  cbn [drop_reaped]. destruct (sessions acc.1 !! id) as [p|] eqn:E; [|by apply IH].
  assert (Hv : valid_at acc.1 (the_session acc.1 p)).
  { exists p. split; [|done]. destruct Hok as [_ K2 _ _ _ _]. destruct (K2 id p E) as (s & Hs & _).
    by eapply lookup_lt_Some. }
  destruct (andthen_drop acc fl _ true Hok Hv) as (acc1 & Ea & Hh & Hr).
  unfold andthen in Ea. cbn beta in Ea. unfold andthen. rewrite Ea. cbn [mbind option_bind].
  assert (Hok1 : slots_ok {| gm := acc1.1; flights := fl |}) by (by eapply greach_ok).
  destruct (IH acc1 Hok1) as (a & -> & Hr'). exists a. split; [done|]. by eapply greach_trans.
Qed.

Lemma SweepKernels_steps m fl now : slots_ok {| gm := m; flights := fl |} →
  ∃ m' ev, SweepKernels m now = Some (m', ev) ∧ quiet_call m fl m'.
Proof.
  intros Hok. unfold SweepKernels. destruct (engine_of _ Hok) as (e & He & _). cbn in He. rewrite He.
  unfold Reap. pose proof (g_reap m fl e (reap_snapshot e now) He) as Hg.
  destruct (reap_commit e (reap_snapshot e now)) as [[ids e'] ev]. cbn in Hg.
  assert (Hr : quiet_call m fl (set_engine m (Some e'))) by (eapply gr_step; [apply gr_refl|done]).
  assert (Hok1 : slots_ok {| gm := set_engine m (Some e'); flights := fl |}) by (by eapply greach_ok).
  destruct (drop_reaped_steps fl ids (set_engine m (Some e'), map SKernel ev) Hok1) as ([m' ev'] & -> & Hr').
  eexists _, _. split; [done|]. by eapply greach_trans.
Qed.

(** the calls refine their critical sections.  In any state reachable from
    a fresh daemon, with any other calls in flight, [Create] (with a fresh id),
    [Destroy], [Sweep] and [SweepKernels], run without interference, return
    (the semaphore does not panic) and amount to a run of the steps that leaves the
    other calls where they were. *)
Theorem session_calls_refine m0 m fl :
  fresh_manager m0 → greach {| gm := m0; flights := [] |} {| gm := m; flights := fl |} →
  (∀ x rt o, session_id x o ∉ map s_ID (sheap m) → ∃ r m' ev,
     Create uni_lower harnessPy m x rt o = Some (r, m', ev) ∧ quiet_call m fl m') ∧
  (∀ rm id token tenant, ∃ r m' ev, Destroy m rm id token tenant = Some (r, m', ev) ∧ quiet_call m fl m') ∧
  (∀ now sz, ∃ m' ev, Sweep m now sz = Some (m', ev) ∧ quiet_call m fl m') ∧
  (∀ now, ∃ m' ev, SweepKernels m now = Some (m', ev) ∧ quiet_call m fl m').
Proof.
  intros Hf Hr. assert (Hok : slots_ok {| gm := m; flights := fl |}).
  { eapply greach_ok; [|exact Hr]. by apply fresh_ok. }
  split; [|split; [|split]].
  - intros. by apply Create_steps.
  - intros. destruct (Destroy_steps m fl rm id token tenant Hok) as (r & m' & ev & E & _ & Hq). by eexists _, _, _.
  - intros. by apply Sweep_steps.
  - intros. by apply SweepKernels_steps.
Qed.
End slots.

(** ** A concrete daemon *)
Definition demo_engine : KernelEngine (Z * Z) := {|
  kcfg := applyDefaults {| k_Slots := 1; k_MemoryBytes := 0; k_CPUs := GoFloat.of_Z 0; k_Pids := 0;
    k_OutputBytes := 0; StartTimeout := 0; DefaultStepMs := 0; MaxStepMs := 0; k_IdleTTL := 0;
    MaxLifetime := 0; k_AcquireWait := 0 |};
  Slots := New 1; kgv := NewGvisor; kernels := ∅; kheap := [] |}.
Definition demo_language : Catalogue.Language := {|
  Catalogue.Name := "python"; Catalogue.Version := "3.14"; Catalogue.Aliases := ["py"];
  Catalogue.Image := "py@sha256:0"; Catalogue.SourceFile := "main.py"; Catalogue.Compile := [];
  Catalogue.Run := ["python3"; "/box/main.py"]; Catalogue.Workdir := "/box"; Catalogue.Env := ∅;
  Catalogue.ScratchExec := false; Catalogue.ScratchMB := 0;
  Catalogue.lang_Limits := {| rl_MemoryBytes := 0; rl_CPUs := "1"; PidsLimit := 0; WallTimeSec := 0;
    CompileTimeSec := 0; rl_OutputBytes := 0 |} |}.
Definition demo_manager : Manager (Z * Z) := {|
  Reg := {| Catalogue.byKey := {["python" := 0%nat]}; Catalogue.all := [demo_language] |};
  Sema := New 4; Kernels := Some demo_engine; Root := "/s"; DiskQuota := 100; GlobalDiskMax := 150;
  MaxSessions := 2; DefaultTTL := 10 ^ 9; OnDrop := true; sessions := ∅; used := 0; sheap := [] |}.
Definition demo_boot (ready : bool) : nkenv := {|
  nk_uuid := "k"; nk_run := true; nk_stdin := true; nk_stdout := true; nk_start := true; nk_now := 0;
  nk_first := if ready then Some (Some (marshal (JObj [("type", JStr "ready")]) +:+ String newline "")) else None;
  nk_stat := None |}.
Definition demo_create (uuid : string) (ready : bool) : cenv := {|
  c_token := Some "0123456789abcdef0123456789abcdef"; c_uuid := uuid; c_mkdir := true; c_now := 0;
  c_late := false; c_kernel := demo_boot ready |}.
Definition kernel_opts : CreateOpts := {|
  o_TTL := 0; o_ID := ""; o_Tenant := "public"; o_Type := "kernel"; o_ExtraMounts := []; o_Network := false |}.
Definition demo_state (ready : bool) : Manager (Z * Z) :=
  match Create id "harness" demo_manager (demo_create "1" ready) "python" kernel_opts with
  | Some (_, m, _) => m
  | None => demo_manager
  end.
Lemma demo_fresh : fresh_manager demo_manager.
Proof. split; [done|split; [done|]]. by exists demo_engine, 1. Qed.
Lemma demo_reach ready : greach "harness" {| gm := demo_manager; flights := [] |}
  {| gm := demo_state ready; flights := [] |}.
Proof.
  destruct (Create_steps "harness" id demo_manager [] (demo_create "1" ready) "python" kernel_opts) as (r & m' & ev & E & Hq).
  - by apply fresh_ok, demo_fresh.
  - by intros ?%elem_of_nil.
  - unfold demo_state. by rewrite E.
Qed.

(** One kernel holds the only slot; a start that failed gave it back. *)
Lemma kernel_slots_exact_witness :
  (inUse (Slots (default demo_engine (Kernels (demo_state true)))) = 1 ∧ in_table (demo_state true) = 1) ∧
  inUse (Slots (default demo_engine (Kernels (demo_state false)))) = 0.
Proof.
  destruct (kernel_slots_exact "harness" demo_manager _ demo_fresh (demo_reach true)) as (e & E & _ & _ & _ & _ & H).
  destruct (kernel_slots_exact "harness" demo_manager _ demo_fresh (demo_reach false)) as (e' & E' & _ & _ & _ & _ & H').
  cbn [gm flights] in *. rewrite E, E'. unfold default. cbn [from_option id]. unfold id. rewrite (H eq_refl), (H' eq_refl). split; [split|]; vm_compute; reflexivity.
Defined.

Lemma session_calls_refine_witness :
  ∃ m' ev, Destroy (demo_state true) true "sess_1" "tok_" "public" = Some (Err ErrForbidden, m', ev) ∧
    is_Some (Sweep (demo_state true) 0 (λ _, 0)).
Proof.
  destruct (session_calls_refine "harness" id demo_manager (demo_state true) [] demo_fresh (demo_reach true))
    as (_ & H & H2 & _).
  destruct (H true "sess_1" "tok_" "public") as (r & m' & ev & E & _).
  destruct (H2 0 (λ _, 0)) as (m2 & ev2 & E2 & _).
  exists m', ev. rewrite E2. split; [|by eexists]. rewrite E. vm_compute in E. by injection E as <- _ _.
Defined.
