(* ===== verification/SessionSpec.v ===== *)
(** * Sessions: access, files, sweeps *)

From S2P Require Import Prelude GoLib GoStrings GoCodec Sched Executor Registry Kernel Session SessionSlots.
Import Strings.

Section spec.
Context {W : Type} {SW : Weighted W} {SWS : WeightedSpec W} (uni_lower : string → string) (harnessPy : string).
Context (backend : Spec → bool → outcome).
Implicit Types (m : Manager W) (x : fsenv).

(** ** Access *)
Lemma authed_spec m id token tenant p : authed m id token tenant = Ok p ↔
  sessions m !! id = Some p ∧ token = s_Token (the_session m p) ∧
  (tenant = "" ∨ tenant = s_Tenant (the_session m p)).
Proof.
  unfold authed. destruct (sessions m !! id) as [q|]; [|by split; [|intros (? & _)]].
  destruct (String.eqb_spec token (s_Token (the_session m q))) as [->|Ht]; cbn [negb].
  2: { split; [done|]. by intros ([= ->] & ? & _). }
  destruct (String.eqb_spec tenant "") as [->|Hn]; cbn [negb andb].
  { split; [intros [= ->]; auto|by intros ([= ->] & _)]. }
  destruct (String.eqb_spec (s_Tenant (the_session m q)) tenant) as [E|E]; cbn [negb].
  - split; [intros [= ->]; auto|by intros ([= ->] & _)].
  - split; [done|]. intros ([= ->] & _ & [?|?]); congruence.
Qed.

(** a session is reachable only with its token and by its tenant.  The one check
    all calls share passes exactly for the session's id with its own capability token and
    (for a request with a tenant) its own tenant; when it fails, every call
    returns that error, runs nothing, touches no file and leaves the state as it was. *)
Theorem session_access m id token tenant :
  (∀ p, authed m id token tenant = Ok p ↔
     sessions m !! id = Some p ∧ token = s_Token (the_session m p) ∧
     (tenant = "" ∨ tenant = s_Tenant (the_session m p))) ∧
  (∀ err, authed m id token tenant = Err err →
     (∀ late now spec sink, Exec backend m late now id token tenant spec sink = Some (Err err, m, None)) ∧
     (∀ kx code stepMs sink, KernelExec m kx id token tenant code stepMs sink = Some (Err err, m, None)) ∧
     (∀ rm, Destroy m rm id token tenant = Some (Err err, m, [])) ∧
     (∀ ms, SetMounts m id token tenant ms = (Err err, m)) ∧
     (∀ x rel data, WriteFile m x id token tenant rel data = (Err err, m, [])) ∧
     (∀ x rel, DeletePath m x id token tenant rel = (Err err, [])) ∧
     (∀ x rel, ReadFile m x id token tenant rel = Err err ∧ Stat m x id token tenant rel = Err err ∧
        ListDir m x id token tenant rel = Err err) ∧
     (∀ sz, Get m sz id token tenant = Err err) ∧ SessionRuntime m id token tenant = Err err).
Proof.
  split; [intros p; apply authed_spec|]. intros err H.
  unfold Exec, KernelExec, Destroy, SetMounts, WriteFile, DeletePath, ReadFile, Stat, ListDir, Get,
    SessionRuntime, resolve_path. by rewrite H.
Qed.

(** When the directory cannot be removed the call fails, but the session is gone, its
    slot and its lock are free: only the answer differs. *)
Lemma Destroy_unremovable m id token tenant :
  Destroy m false id token tenant =
  (λ y, (match y.1.1 with Ok _ => Err ErrOS | Err e => Err e end, y.1.2, y.2)) <$> Destroy m true id token tenant.
Proof.
  unfold Destroy. destruct (authed m id token tenant) as [p|e]; [|done].
  destruct (claim m id) as [[] m']; [|done]. cbn [negb]. by destruct (teardown_session _ _ _) as [[m2 ev]|].
Qed.

(** ** Files *)

(** A workspace path: absolute, clean, not the root. *)
Definition ws_ok (ws : string) : Prop :=
  Filepath.is_rooted ws = true ∧ Filepath.Clean ws = ws ∧ ws ≠ "/".
(** [p] is [ws], or [ws/c1/.../cn] for components that are proper names. *)
Definition below (ws p : string) (strict : bool) : Prop :=
  ∃ l, Forall Filepath.simple l ∧ (strict = true → l ≠ []) ∧
    p = if decide (l = []) then ws else ws +:+ "/" +:+ Strings.Join l "/".

Lemma safePath_below s rel : ws_ok (s_Workspace s) → ∃ p, safePath s rel = Ok p ∧ below (s_Workspace s) p false ∧
  (p ≠ s_Workspace s → below (s_Workspace s) p true).
Proof.
  intros (Hr & Hc & Hn). destruct (Filepath.Join_rooted (s_Workspace s) (TrimSpace rel) Hr Hc) as (l & Hl & E).
  unfold safePath. change ("/" +:+ TrimSpace rel) with (String Filepath.slash (TrimSpace rel)). rewrite E.
  rewrite (decide_False (P := s_Workspace s = "/")) by done.
  destruct (decide (l = [])) as [->|Hne]; cbv zeta.
  - rewrite String.eqb_refl. cbn [negb andb]. exists (s_Workspace s). split; [done|]. split; [|done].
    exists []. split; [constructor|done].
  - assert (HasPrefix (s_Workspace s +:+ "/" +:+ Strings.Join l "/") (s_Workspace s +:+ "/") = true) as ->.
    { apply HasPrefix_spec. exists (Strings.Join l "/"). by rewrite <- sapp_assoc. }
    rewrite andb_false_r. eexists. split; [done|].
    assert (Hb : ∀ b, below (s_Workspace s) (s_Workspace s +:+ "/" +:+ Strings.Join l "/") b).
    { intros b. exists l. by rewrite decide_False. }
    split; [apply Hb|intros _; apply Hb].
Qed.

(** C19: file calls stay in the workspace.  Whatever path a caller sends, it
    resolves (without an error) to a name inside the session's own workspace; an
    upload writes only there and only within the quota as measured at the call, and a
    deletion removes only what is strictly below the workspace. *)
Theorem session_files_contained m x id token tenant rel p :
  authed m id token tenant = Ok p → ws_ok (s_Workspace (the_session m p)) →
  let ws := s_Workspace (the_session m p) in
  (∃ path, resolve_path m id token tenant rel = Ok (p, path) ∧ below ws path false) ∧
  (∀ data path d, SWrite path d ∈ (WriteFile m x id token tenant rel data).2 → below ws path false ∧ d = data ∧
     wrap64 (wrap64 (f_size x ws - from_option fi_Size 0 (f_stat x path)) + len data) ≤ DiskQuota m) ∧
  (∀ path, SRemoveAll path ∈ (DeletePath m x id token tenant rel).2 → below ws path true).
Proof.
  intros Ha Hws. cbv zeta. destruct (safePath_below _ rel Hws) as (path & E & Hb & Hs).
  assert (Hr : resolve_path m id token tenant rel = Ok (p, path)) by (unfold resolve_path; by rewrite Ha, E).
  split; [by exists path|split].
  - intros data path' d. unfold WriteFile. rewrite Hr. cbn [snd].
    destruct (DiskQuota m <? _) eqn:Hq; [by intros ?%elem_of_nil|]. boolp.
    destruct (f_mkdir x _); cbn [negb]; [|by intros ?%list_elem_of_singleton].
    destruct (f_write x _); cbn [negb snd]; rewrite elem_of_cons, list_elem_of_singleton;
      (intros [|[= -> ->]]; [done|]); done.
  - intros path'. unfold DeletePath. rewrite Hr. destruct (String.eqb_spec path (s_Workspace (the_session m p))) as [|Hne].
    + by intros ?%elem_of_nil.
    + intros [= ->]%list_elem_of_singleton. by apply Hs.
Qed.

(** The workspace of a session created under an absolute root is such a path. *)
Lemma Clean_last_simple d c : Filepath.is_rooted d = true → Filepath.simple c → ws_ok (Filepath.Clean (d +:+ "/" +:+ c)).
Proof.
  intros Hr Hc. assert (Hr' : Filepath.is_rooted (d +:+ "/" +:+ c) = true).
  { unfold Filepath.is_rooted in *. apply HasPrefix_spec in Hr as [r ->]. apply HasPrefix_spec. by eexists. }
  set (out := Filepath.clean_elems true (split_on Filepath.slash (d +:+ "/" +:+ c))).
  assert (Hn : Filepath.normal true out) by (apply Filepath.clean_elems_normal, split_on_elems).
  assert (Ho : out ≠ []).
  { unfold out, Filepath.clean_elems. change (d +:+ "/" +:+ c) with (d +:+ String Filepath.slash c).
    rewrite split_on_sep, foldl_app, (split_on_none _ c) by apply Hc. cbn [foldl].
    by rewrite Filepath.clean_step_simple. }
  assert (E : Filepath.Clean (d +:+ "/" +:+ c) = Filepath.render true out).
  { unfold Filepath.Clean. rewrite Hr'. fold out. cbv zeta.
    pose proof (Filepath.render_nonempty true out Hn (or_introl eq_refl)) as H. apply String.eqb_neq in H. by rewrite H. }
  split; [|split].
  - rewrite E. by apply Filepath.rooted_render.
  - apply Filepath.Clean_idem.
  - rewrite E. by apply Filepath.render_longer.
Qed.
Lemma workspace_ok m id : Filepath.is_rooted (Root m) = true → id ≠ "" → ws_ok (workspace m id).
Proof.
  intros Hr Hid. unfold workspace. cbn [Filepath.Join].
  destruct (String.eqb_spec (Root m) "") as [E|_]; [by rewrite E in Hr|].
  change (Strings.Join [Root m; id; "workspace"] "/") with (Root m +:+ "/" +:+ (id +:+ "/" +:+ "workspace")).
  assert ((Root m +:+ "/" +:+ (id +:+ "/" +:+ "workspace")) = (Root m +:+ "/" +:+ id) +:+ "/" +:+ "workspace") as ->
    by (by rewrite !sapp_assoc).
  apply Clean_last_simple; [|by vm_compute].
  unfold Filepath.is_rooted in *. apply HasPrefix_spec in Hr as [r ->]. apply HasPrefix_spec. by eexists.
Qed.

(** ** Sweeps *)
Section sweep.
Context (now : Z) (sz : string → Z).
(** The size a sweep sees for a session, and the sessions it has no reason to drop. *)
Definition disk m (p : nat) : Z := sz (s_Workspace (the_session m p)).
Definition healthy m (p : nat) : bool := negb (idle m now (the_session m p)) && (disk m p <=? DiskQuota m).
Definition total_disk m : Z := map_sum (λ _ p, disk m p) (sessions m).

Definition same_disk m m' : Prop := sheap m' = sheap m ∧ GlobalDiskMax m' = GlobalDiskMax m ∧ DiskQuota m' = DiskQuota m.

Lemma release_keeps m e m' : krelease m e = Some m' → same_disk m m' ∧ sessions m' = sessions m.
Proof. unfold krelease. destruct (Release (Slots e)); [|done]. intros [= <-]. done. Qed.
Lemma teardown_keeps m s reaped m' ev : teardown_session m s reaped = Some (m', ev) →
  same_disk m m' ∧ sessions m' = sessions m.
Proof.
  unfold teardown_session. destruct (Kernels m) as [e|]; [|by intros [= <- <-]].
  destruct (is_kernel s); cbn [negb]; [|by intros [= <- <-]].
  assert (Hd : ∀ id, same_disk m (kdestroy m e id).1 ∧ sessions (kdestroy m e id).1 = sessions m).
  { intros id. unfold kdestroy. by destruct (Kernel.Destroy e id). }
  assert (H1 : ∃ m1 ev1, (if reaped then (m, []) else kdestroy m e (s_ID s)) = (m1, ev1) ∧
    same_disk m m1 ∧ sessions m1 = sessions m).
  { destruct reaped; [by exists m, []|]. specialize (Hd (s_ID s)). destruct (kdestroy m e (s_ID s)) as [m1 ev1].
    by exists m1, ev1. }
  destruct H1 as (m1 & ev1 & -> & (D1 & D2 & D3) & S1).
  destruct (Kernels m1) as [e1|]; [|done]. cbn [mbind option_bind].
  destruct (krelease m1 e1) as [m2|] eqn:E; [|done]. cbn. intros [= <- <-].
  apply release_keeps in E as [(R1 & R2 & R3) R4]. split; [|congruence]. repeat split; congruence.
Qed.
Lemma drop_keeps m s reaped m' ev : drop m s reaped = Some (m', ev) →
  same_disk m m' ∧ sessions m' = delete (s_ID s) (sessions m).
Proof.
  unfold drop, claim. destruct (bool_decide _); cbn [negb]; [|by intros [= <- <-]].
  intros [(D1 & D2 & D3) S]%teardown_keeps. done.
Qed.

Lemma same_disk_trans m1 m2 m3 : same_disk m1 m2 → same_disk m2 m3 → same_disk m1 m3.
Proof. unfold same_disk. intuition congruence. Qed.
Lemma same_disk_the m m' p : same_disk m m' → the_session m' p = the_session m p.
Proof. intros (E & _). unfold the_session. by rewrite E. Qed.
Lemma same_disk_healthy m m' p : same_disk m m' → healthy m' p = healthy m p.
Proof. intros H. unfold healthy, disk, idle. rewrite (same_disk_the _ _ _ H). by destruct H as (_ & _ & ->). Qed.

Definition entries m (l : list (string * nat)) : Prop := map_to_list (sessions m) ≡ₚ l.
Definition sized m (kp : string * nat) : Session * Z := (the_session m kp.2, disk m kp.2).
Definition zsum (l : list Z) : Z := foldr Z.add 0 l.
Arguments zsum : simpl never.
Lemma zsum_cons z l : zsum (z :: l) = z + zsum l.
Proof. done. Qed.
Definition ids_ok m (l : list (string * nat)) : Prop := Forall (λ kp, s_ID (the_session m kp.2) = kp.1) l.

Lemma entries_drop m m' k p l1 l2 : entries m (l1 ++ (k, p) :: l2) → sessions m' = delete k (sessions m) →
  entries m' (l1 ++ l2).
Proof.
  unfold entries. intros H ->. assert (Hk : sessions m !! k = Some p).
  { apply elem_of_map_to_list. rewrite H. apply elem_of_app. right. by left. }
  rewrite <- (map_to_list_delete _ _ _ Hk) in H. rewrite <- Permutation_middle in H.
  by apply Permutation_cons_inv in H.
Qed.
Lemma zsum_app l1 l2 : zsum (l1 ++ l2) = zsum l1 + zsum l2.
Proof. induction l1 as [|z l1 IH]; [done|]. cbn [app]. rewrite !zsum_cons, IH. lia. Qed.
Lemma zsum_perm l1 l2 : l1 ≡ₚ l2 → zsum l1 = zsum l2.
Proof. induction 1; rewrite ?zsum_cons; try done; lia. Qed.

Lemma andthen_drop_inv (acc acc' : Manager W * list sevent) s : andthen acc (λ m, drop m s false) = Some acc' →
  same_disk acc.1 acc'.1 ∧ sessions acc'.1 = delete (s_ID s) (sessions acc.1).
Proof.
  unfold andthen. destruct (drop acc.1 s false) as [[m ev]|] eqn:E; [|done]. cbn. intros [= <-].
  by eapply drop_keeps.
Qed.

(** Sizes whose sum is an [int64]. *)
Definition fit m0 (l : list (string * nat)) : Prop :=
  Forall (λ kp, 0 ≤ disk m0 kp.2) l ∧ zsum (map (λ kp, disk m0 kp.2) l) < 2 ^ 63.
Lemma zsum_nonneg l : Forall (λ z, 0 ≤ z) l → 0 ≤ zsum l.
Proof. induction 1; rewrite ?zsum_cons; [done|lia]. Qed.
Lemma fit_app m0 l1 l2 : fit m0 (l1 ++ l2) → fit m0 l1 ∧ fit m0 l2.
Proof.
  intros [[H1 H2]%Forall_app H]. rewrite map_app, zsum_app in H.
  pose proof (zsum_nonneg _ (proj2 (Forall_map _ _ _) H1)). pose proof (zsum_nonneg _ (proj2 (Forall_map _ _ _) H2)).
  cbn in *. unfold fit. repeat split; try done; lia.
Qed.
Lemma fit_sum m0 l : fit m0 l → in64 (zsum (map (λ kp, disk m0 kp.2) l)).
Proof. intros [H1 H2]. pose proof (zsum_nonneg _ (proj2 (Forall_map _ _ _) H1)). cbn in *. unfold in64. lia. Qed.
Lemma fit_perm m0 l1 l2 : l1 ≡ₚ l2 → fit m0 l1 → fit m0 l2.
Proof. intros H [H1 H2]. split; [by rewrite <- H|]. by rewrite <- (zsum_perm _ _ (Permutation_map _ H)). Qed.

Lemma sweep_idle_spec m0 snap : ∀ acc total done acc' total' live',
  same_disk m0 acc.1 → entries acc.1 (done ++ snap) → ids_ok m0 (done ++ snap) → fit m0 (done ++ snap) →
  Forall (λ kp, healthy m0 kp.2 = true) done → total = zsum (map (λ kp, disk m0 kp.2) done) →
  sweep_idle now sz acc total (map (sized m0) done) (map snd snap) = Some (acc', total', live') →
  same_disk m0 acc'.1 ∧
  let kept := done ++ List.filter (λ kp, healthy m0 kp.2) snap in
  entries acc'.1 kept ∧ live' = map (sized m0) kept ∧ total' = zsum (map (λ kp, disk m0 kp.2) kept).
Proof.
  induction snap as [|[k p] snap IH]; intros acc total done acc' total' live' Hd He Hi Hf Hh Ht.
  { cbn. rewrite !app_nil_r in *. intros [= <- <- <-]. done. }
  cbn [map sweep_idle snd]. rewrite (same_disk_the _ _ p Hd).
  assert (Hhp : healthy m0 p = negb (idle m0 now (the_session m0 p)) && (disk m0 p <=? DiskQuota m0)) by done.
  assert (Hid : s_ID (the_session m0 p) = k).
  { apply Forall_app in Hi as [_ [Hi _]%Forall_cons]. done. }
  assert (Hbad : healthy m0 p = false →
    (acc1 ← andthen acc (λ m, drop m (the_session m0 p) false);
     sweep_idle now sz acc1 total (map (sized m0) done) (map snd snap)) = Some (acc', total', live') →
    same_disk m0 acc'.1 ∧
    let kept := done ++ List.filter (λ kp, healthy m0 kp.2) ((k, p) :: snap) in
    entries acc'.1 kept ∧ live' = map (sized m0) kept ∧ total' = zsum (map (λ kp, disk m0 kp.2) kept)).
  { intros Hb. destruct (andthen acc _) as [acc1|] eqn:E; [|done]. cbn [mbind option_bind].
    apply andthen_drop_inv in E as [E1 E2]. rewrite Hid in E2. cbn [List.filter snd]. rewrite Hb.
    apply IH; [by eapply same_disk_trans|by eapply entries_drop| | |done|done].
    - apply Forall_app in Hi as [Hi1 [_ Hi2]%Forall_cons]. by apply Forall_app.
    - assert (Hf' : fit m0 ([(k, p)] ++ (done ++ snap))) by (exact (fit_perm m0 _ _ (Permutation_sym (Permutation_middle done snap (k, p))) Hf)).
      exact (proj2 (fit_app m0 _ _ Hf')). }
  assert (Hidle : idle acc.1 now (the_session m0 p) = idle m0 now (the_session m0 p)) by done.
  rewrite Hidle. destruct (idle m0 now (the_session m0 p)); [by apply Hbad|]. cbn [negb andb] in Hhp.
  change (sz (s_Workspace (the_session m0 p))) with (disk m0 p).
  assert (DiskQuota acc.1 = DiskQuota m0) as -> by apply Hd.
  destruct (DiskQuota m0 <? disk m0 p) eqn:Hq; boolp.
  { apply Hbad. rewrite Hhp. by apply Z.leb_gt. }
  assert (Hg : healthy m0 p = true) by (rewrite Hhp; by apply Z.leb_le).
  change [(the_session m0 p, disk m0 p)] with (map (sized m0) [(k, p)]). rewrite <- map_app.
  cbn [List.filter snd]. rewrite Hg. intros H.
  change ((k, p) :: List.filter (λ kp, healthy m0 kp.2) snap) with ([(k, p)] ++ List.filter (λ kp, healthy m0 kp.2) snap).
  rewrite (app_assoc done). eapply IH; [done|by rewrite <- app_assoc|by rewrite <- app_assoc|by rewrite <- app_assoc| | |exact H].
  - apply Forall_app. split; [done|]. by apply Forall_singleton.
  - assert (Hf' : fit m0 ((done ++ [(k, p)]) ++ snap)) by (by rewrite <- app_assoc).
    apply fit_app in Hf' as [Hf'%fit_sum _]. rewrite <- (wrap64_id _ Hf'), map_app, zsum_app, Ht. f_equal. cbn [map]. rewrite zsum_cons. change (zsum []) with 0. cbn [snd]. lia.
Qed.

Lemma List_filter_split {A} (f : A → bool) l : ∃ r, l ≡ₚ List.filter f l ++ r.
Proof.
  induction l as [|x l [r IH]]; [by exists []|]. cbn. destruct (f x); [exists r|exists (x :: r)]; cbn; [by constructor|].
  rewrite <- Permutation_middle. by constructor.
Qed.
Lemma sweep_big_spec m0 l : ∀ acc total acc' total',
  same_disk m0 acc.1 → entries acc.1 l → ids_ok m0 l → fit m0 l → total = zsum (map (λ kp, disk m0 kp.2) l) →
  0 ≤ GlobalDiskMax m0 →
  sweep_big acc total (map (sized m0) l) = Some (acc', total') →
  same_disk m0 acc'.1 ∧ total' ≤ GlobalDiskMax m0 ∧
  ∃ l1 l2, l = l1 ++ l2 ∧ entries acc'.1 l2 ∧ total' = zsum (map (λ kp, disk m0 kp.2) l2).
Proof.
  induction l as [|[k p] l IH]; intros acc total acc' total' Hd He Hi Hf Ht H0; cbn [map sweep_big].
  { intros [= <- <-]. split; [done|]. rewrite Ht. split; [done|]. by exists [], []. }
  assert (GlobalDiskMax acc.1 = GlobalDiskMax m0) as -> by apply Hd. unfold sized at 1. cbn [snd].
  destruct (total <=? GlobalDiskMax m0) eqn:E; boolp.
  { intros [= <- <-]. split; [done|split; [done|]]. by exists [], ((k, p) :: l). }
  destruct (andthen acc _) as [acc1|] eqn:Ea; [|done]. cbn [mbind option_bind].
  apply andthen_drop_inv in Ea as [E1 E2]. apply Forall_cons in Hi as [Hid Hi]. cbn [snd fst] in Hid. rewrite Hid in E2.
  apply (fit_app m0 [_]) in Hf as [_ Hf].
  intros H. destruct (IH acc1 (wrap64 (total - disk m0 p)) acc' total') as (I1 & I2 & l1 & l2 & -> & I3 & I4); try done.
  - by eapply same_disk_trans.
  - apply (entries_drop _ _ k p [] l He E2).
  - rewrite <- (wrap64_id _ (fit_sum _ _ Hf)), Ht. f_equal. cbn [map]. rewrite zsum_cons. cbn [snd]. lia.
  - split; [done|split; [done|]]. by exists ((k, p) :: l1), l2.
Qed.

Lemma total_disk_entries m0 m l : same_disk m0 m → entries m l → total_disk m = zsum (map (λ kp, disk m0 kp.2) l).
Proof.
  intros Hd He. unfold total_disk. rewrite map_sum_foldr. unfold entries in He.
  assert (Hz : ∀ l : list (string * nat), foldr (λ kv acc, disk m kv.2 + acc) 0 l = zsum (map (λ kp, disk m0 kp.2) l)).
  { clear -Hd. induction l as [|[k p] l IH]; [done|]. cbn [map foldr]. rewrite IH, zsum_cons. unfold disk at 1. cbn [snd].
    by rewrite (same_disk_the _ _ p Hd). }
  rewrite Hz. by apply zsum_perm, Permutation_map.
Qed.

(** C14: a sweep enforces its bounds and spares the rest.  A sweep of the workspaces that runs
    without other calls in between always finishes; afterwards the sessions left were there
    before, none is a filesystem session past its idle limit (idle kernel sessions are left to the
    reaper of kernels), no session of either type is over the disk quota, and the space they use
    together, which is what [used] is set to, is within the global ceiling. If
    the sessions without a defect fit below the ceiling, exactly those are left.  The sizes
    measured must add up to an [int64], in which the code sums them. *)
Theorem sweep_bounds m fl : slots_ok {| gm := m; flights := fl |} → 0 ≤ GlobalDiskMax m →
  (∀ id p, sessions m !! id = Some p → 0 ≤ disk m p) → total_disk m < 2 ^ 63 →
  ∃ m' ev, Sweep m now sz = Some (m', ev) ∧
  (∀ id p, sessions m' !! id = Some p → sessions m !! id = Some p ∧ healthy m p = true) ∧
  used m' = total_disk m' ∧ total_disk m' ≤ GlobalDiskMax m ∧
  (map_sum (λ _ p, if healthy m p then disk m p else 0) (sessions m) ≤ GlobalDiskMax m →
   ∀ id p, sessions m' !! id = Some p ↔ sessions m !! id = Some p ∧ healthy m p = true).
Proof.
  intros Hok H0 Hpos Hfit. destruct (Sweep_steps harnessPy m fl now sz Hok) as (m' & ev & HS & _).
  exists m', ev. split; [done|]. revert HS. unfold Sweep.
  set (snap := map_to_list (sessions m)).
  assert (Hf : fit m snap).
  { split; [|rewrite <- (total_disk_entries m m snap); [exact Hfit|done|by unfold entries]].
    apply Forall_forall. intros [k p] Hk%elem_of_map_to_list. by eapply Hpos. }
  assert (Hids : ids_ok m snap).
  { apply Forall_forall. intros [k p] Hk%elem_of_map_to_list. destruct (so_table _ Hok k p Hk) as (s & Hs & Hid & _).
    unfold the_session. cbn in *. by rewrite Hs. }
  destruct (sweep_idle now sz (m, []) 0 [] (map snd snap)) as [[[acc total] live]|] eqn:E1; [|done].
  assert (He0 : entries m snap) by (unfold entries; done).
  destruct (sweep_idle_spec m snap (m, []) 0 [] acc total live) as (D1 & He & Hl & Ht);
    [done|done|done|exact Hf|constructor|done|done|].
  cbn [app] in *. set (kept := List.filter (λ kp, healthy m kp.2) snap) in *. cbn [mbind option_bind].
  assert (Hkept : ∀ k p, (k, p) ∈ kept ↔ sessions m !! k = Some p ∧ healthy m p = true).
  { intros k p. unfold kept. rewrite list_elem_of_In, filter_In, <- list_elem_of_In. unfold snap.
    by rewrite elem_of_map_to_list. }
  assert (Hgood : map_sum (λ _ p, if healthy m p then disk m p else 0) (sessions m) = total).
  { rewrite Ht, map_sum_foldr. fold snap. unfold kept. clear. induction snap as [|[k p] l IH]; [done|].
    cbn [foldr List.filter snd]. rewrite IH. destruct (healthy m p); [done|]. lia. }
  destruct (GlobalDiskMax m <? total) eqn:Hc; boolp.
  - assert (Pm : merge_sort bigger live ≡ₚ map (sized m) kept) by (rewrite Hl; apply merge_sort_Permutation).
    destruct (Permutation_map_inv _ _ Pm) as (l & El & Pl).
    rewrite El. destruct (sweep_big acc total (map (sized m) l)) as [[acc' total']|] eqn:E2; [|done].
    destruct (sweep_big_spec m l acc total acc' total') as (D2 & Hmax & l1 & l2 & Hl12 & He2 & Ht2); try done.
    + unfold entries in *. by rewrite He, Pl.
    + apply Forall_forall. intros [k p] Hk. rewrite <- Pl in Hk. apply Hkept in Hk as [Hk _].
      unfold ids_ok in Hids. rewrite Forall_forall in Hids. apply (Hids (k, p)). by apply elem_of_map_to_list.
    + apply (fit_perm m kept); [done|]. destruct (List_filter_split (λ kp : string * nat, healthy m kp.2) snap) as [r Hr].
      apply (fit_perm m _ _ Hr) in Hf. by apply fit_app in Hf as [Hf _].
    + rewrite Ht. apply zsum_perm. by apply Permutation_map.
    + cbn. intros [= <- <-]. cbn [sessions used put].
      assert (Ht' : total_disk acc'.1 = total') by (rewrite Ht2; by apply total_disk_entries).
      change (total_disk (put _ _ _ (sessions acc'.1) _ (sheap acc'.1))) with (total_disk acc'.1).
      split; [|split; [done|split; [lia|intros; lia]]].
      intros id p Hp. apply Hkept. rewrite Pl, Hl12, elem_of_app. right. rewrite <- He2. by apply elem_of_map_to_list.
  - cbn. intros [= <- <-]. cbn [sessions used put].
    change (total_disk (put _ _ _ (sessions acc.1) _ (sheap acc.1))) with (total_disk acc.1).
    assert (Ht' : total_disk acc.1 = total) by (rewrite Ht; by apply total_disk_entries).
    assert (Hiff : ∀ id p, sessions acc.1 !! id = Some p ↔ sessions m !! id = Some p ∧ healthy m p = true).
    { intros id p. rewrite <- Hkept, <- elem_of_map_to_list. unfold entries in He. by rewrite He. }
    split; [by intros id p Hp%Hiff|split; [done|split; [lia|done]]].
Qed.
End sweep.

(** ** Create *)
Definition kernel_slots_used m : Z := from_option (λ e, inUse (Slots e)) 0 (Kernels m).

Lemma alloc_the m s : the_session (alloc m s).2 (alloc m s).1 = s.
Proof. unfold the_session. cbn. by rewrite lookup_app_r, Nat.sub_diag by done. Qed.
Lemma alter_the m p f : (p < List.length (sheap m))%nat → the_session (alter_session m p f) p = f (the_session m p).
Proof.
  intros [s Hs]%lookup_lt_is_Some_2. unfold the_session. cbn. by rewrite list_lookup_alter_eq, Hs.
Qed.

(** a session is created whole or not at all.  On success the ceilings had
    room, the table gains exactly the new session, which carries the caller's tenant,
    mounts and type and is opened by its fresh token; on any failure the table and the
    kernel slots in use are as before, and a workspace that was made is removed
    last. *)
Theorem create_effect m fl c rt o r m' ev :
  slots_ok {| gm := m; flights := fl |} → Create uni_lower harnessPy m c rt o = Some (r, m', ev) →
  match r with
  | Ok p => ∃ lang tok, create_check uni_lower m rt = Ok lang ∧ mintToken c = Some tok ∧
      Z.of_nat (size (sessions m)) < MaxSessions m ∧ used m < GlobalDiskMax m ∧
      sessions m' = <[session_id c o := p]> (sessions m) ∧
      authed m' (session_id c o) tok (o_Tenant o) = Ok p ∧
      let s := the_session m' p in
      s_Tenant s = o_Tenant o ∧ s_Workspace s = workspace m (session_id c o) ∧
      s_ExtraMounts s = o_ExtraMounts o ∧ is_kernel s = String.eqb (session_type o) "kernel"
  | Err _ => sessions m' = sessions m ∧ kernel_slots_used m' = kernel_slots_used m ∧
      (c_mkdir c = true → ∀ ws, SMkdir ws ∈ ev → last ev = Some (SRemoveAll (Filepath.Dir ws)))
  end.
Proof.
  intros Hok. unfold Create. destruct (create_check uni_lower m rt) as [lang|] eqn:Hc.
  2: { intros [= <- <- <-]. do 2 (split; [done|]). by intros _ ws ?%elem_of_nil. }
  assert (Hroom : Z.of_nat (size (sessions m)) < MaxSessions m ∧ used m < GlobalDiskMax m).
  { revert Hc. unfold create_check. destruct (Catalogue.Resolve _ _ _ _); [|done].
    destruct (MaxSessions m <=? _) eqn:E1; [done|]. destruct (GlobalDiskMax m <=? _) eqn:E2; [done|]. by boolp. }
  destruct (mintToken c) as [tok|] eqn:Htok.
  2: { intros [= <- <- <-]. do 2 (split; [done|]). by intros _ ws ?%elem_of_nil. }
  set (s := new_session m c o lang tok).
  destruct (c_mkdir c); cbn [negb].
  2: { intros [= <- <- <-]. done. }
  destruct (alloc m s) as [p m1] eqn:Ha.
  assert (Hp : p = (alloc m s).1) by (by rewrite Ha). assert (Hm1 : m1 = (alloc m s).2) by (by rewrite Ha). clear Ha.
  assert (Hsucc : ∀ m2, sessions m2 = sessions m →
    s_ID (the_session m2 p) = s_ID s ∧ s_Token (the_session m2 p) = tok ∧ s_Tenant (the_session m2 p) = o_Tenant o ∧
    s_Workspace (the_session m2 p) = s_Workspace s ∧ s_ExtraMounts (the_session m2 p) = o_ExtraMounts o ∧
    is_kernel (the_session m2 p) = String.eqb (session_type o) "kernel" →
    let m' := insert m2 p in ∃ lang' tok', Ok lang = @Ok SessErr _ lang' ∧ Some tok = Some tok' ∧
      Z.of_nat (size (sessions m)) < MaxSessions m ∧ used m < GlobalDiskMax m ∧
      sessions m' = <[session_id c o := p]> (sessions m) ∧ authed m' (session_id c o) tok' (o_Tenant o) = Ok p ∧
      let s := the_session m' p in
      s_Tenant s = o_Tenant o ∧ s_Workspace s = workspace m (session_id c o) ∧
      s_ExtraMounts s = o_ExtraMounts o ∧ is_kernel s = String.eqb (session_type o) "kernel").
  { intros m2 Hs2 (E1 & E2 & E3 & E4 & E5 & E6). cbv zeta. exists lang, tok. do 4 (split; [tauto|]).
    assert (Hses : sessions (insert m2 p) = <[session_id c o := p]> (sessions m)).
    { unfold insert. cbn. by rewrite E1, Hs2. }
    assert (Hthe : the_session (insert m2 p) p = the_session m2 p) by done.
    split; [done|split; [|by rewrite Hthe]]. apply authed_spec. rewrite Hses, lookup_insert_eq, Hthe.
    split; [done|split; [done|]]. by right. }
  assert (Hundo : ∀ mid, (∀ ws, SMkdir ws ∉ mid) → true = true → ∀ ws,
    SMkdir ws ∈ SMkdir (s_Workspace s) :: mid ++ [SRemoveAll (session_dir s)] →
    last (SMkdir (s_Workspace s) :: mid ++ [SRemoveAll (session_dir s)]) = Some (SRemoveAll (Filepath.Dir ws))).
  { intros mid Hmid _ ws. rewrite app_comm_cons, last_snoc, elem_of_app, elem_of_cons, list_elem_of_singleton.
    by intros [[[= ->]|H%Hmid]|H]. }
  destruct (String.eqb_spec (s_Type s) "kernel") as [Ht|Ht]; cbn [negb].
  2: { intros [= <- <- <-]. apply Hsucc; [by rewrite Hm1|]. rewrite Hm1, Hp, alloc_the.
       do 5 (split; [done|]). symmetry. apply String.eqb_neq. exact Ht. }
  destruct (engine_of _ Hok) as (e & He & Hl). cbn in He.
  assert (He1 : Kernels m1 = Some e) by (by rewrite Hm1). rewrite He1.
  destruct (Acquire_ok (Slots e) (c_late c) Hl) as (L1 & L2 & L3).
  destruct (kslot m1 e (c_late c)) as [ok m2] eqn:Hsl. unfold kslot in Hsl.
  destruct (Acquire (Slots e) (c_late c)) as [ok' l] eqn:HA. cbn [fst snd] in *. injection Hsl as -> <-.
  destruct ok; cbn [negb].
  2: { intros [= <- <- <-]. split; [by rewrite Hm1|]. split.
       - unfold kernel_slots_used. rewrite He. cbn. lia.
       - apply (Hundo []). intros ws. apply not_elem_of_nil. }
  cbn [Kernels set_engine put]. destruct (kstart _ _ _ _ _ _ _ _) as [[err m3] kev] eqn:Hst.
  assert (Hkev : ∀ ws, SMkdir ws ∉ kev).
  { revert Hst. unfold kstart. destruct (NewKernel _ _ _ _ _ _ _) as [[rr e'] ev']. intros Hst ws.
    assert (kev = map SKernel ev') as -> by (by destruct rr; injection Hst).
    intros (k & [=] & _)%list_elem_of_fmap. }
  destruct (kstart_inv _ _ _ _ _ _ _ _ _ _ _ Hst) as (e3 & Hs3 & Hm3). destruct err as [err|].
  - assert (He3 : Kernels m3 = Some e3) by (by rewrite Hm3). rewrite He3. cbn [mbind option_bind].
    assert (Hl3 : lim_ok (Slots e3)) by (by rewrite Hs3).
    destruct (krelease m3 e3) as [m4|] eqn:Hr; [|done]. cbn [mbind option_bind]. intros [= <- <- <-].
    destruct (release_inv _ _ _ Hr Hl3) as (l4 & -> & _ & Hi). split; [by rewrite Hm3, Hm1|]. split.
    + unfold kernel_slots_used. rewrite He. cbn [Kernels set_engine put from_option set_slots Slots].
      rewrite Hi, Hs3. cbn. lia.
    + cbn [app]. apply Hundo. done.
  - destruct Hm3 as [k Hm3]. intros [= <- <- <-]. apply Hsucc; [by rewrite Hm3, Hm1|]. rewrite Hm3.
    assert (Hlt : (p < List.length (sheap m1))%nat) by (rewrite Hm1, Hp; cbn; rewrite length_app; cbn; lia).
    rewrite alter_the by done.
    match goal with |- context [set_k _ (the_session ?mm p)] => assert (Hthe : the_session mm p = s) end.
    { transitivity (the_session m1 p); [done|]. rewrite Hm1, Hp. apply alloc_the. }
    rewrite Hthe. do 5 (split; [done|]). symmetry. apply String.eqb_eq. exact Ht.
Qed.
End spec.

(** ** Concrete sessions *)
Definition fs_opts : CreateOpts := {|
  o_TTL := 0; o_ID := ""; o_Tenant := "public"; o_Type := ""; o_ExtraMounts := []; o_Network := false |}.
Definition fs_state : Manager (Z * Z) :=
  match Create id "harness" demo_manager (demo_create "1" true) "python" fs_opts with
  | Some (_, m, _) => m
  | None => demo_manager
  end.
Definition tok1 : string := "tok_" +:+ Hex.EncodeToString "0123456789abcdef0123456789abcdef".

Lemma session_access_witness : Destroy fs_state true "sess_1" "tok_guess" "public" = Some (Err ErrForbidden, fs_state, []).
Proof.
  apply (session_access (λ _ _, {| o_res := no_result; o_err := None; o_trace := []; o_sink := ([], []) |})
    fs_state "sess_1" "tok_guess" "public"). reflexivity.
Defined.

Definition demo_fs : fsenv := {|
  f_stat := λ _, None; f_read := λ _, None; f_readdir := λ _, None; f_size := λ _, 0; f_mkdir _ := true;
  f_write _ := true; f_rm := true; f_now := 0 |}.
Lemma session_files_witness :
  ∃ path, resolve_path fs_state "sess_1" tok1 "public" "../../etc/passwd" = Ok (0%nat, path) ∧
    path = "/s/sess_1/workspace/etc/passwd".
Proof.
  destruct (session_files_contained fs_state demo_fs "sess_1" tok1 "public" "../../etc/passwd" 0)
    as ((path & E & _) & _).
  - reflexivity.
  - split; [reflexivity|split; [reflexivity|discriminate]].
  - exists path. split; [done|]. vm_compute in E. by injection E as <-.
Defined.

Lemma sweep_bounds_witness : ∃ m' ev, Sweep fs_state (2 * 10 ^ 9) (λ _, 60) = Some (m', ev) ∧ used m' ≤ 150.
Proof.
  assert (Hok : slots_ok {| gm := fs_state; flights := [] |}).
  { destruct (Create_steps "harness" id demo_manager [] (demo_create "1" true) "python" fs_opts) as (r & m' & ev & E & Hq).
    - by apply fresh_ok, demo_fresh.
    - by intros ?%elem_of_nil.
    - unfold fs_state. rewrite E. eapply greach_ok; [|exact Hq]. by apply fresh_ok, demo_fresh. }
  destruct (sweep_bounds id "harness" (2 * 10 ^ 9) (λ _, 60) fs_state [] Hok) as (m' & ev & E & _ & E2 & H & _).
  - vm_compute. discriminate.
  - intros id0 q _. vm_compute. discriminate.
  - vm_compute. reflexivity.
  - exists m', ev. split; [done|]. rewrite E2. exact H.
Defined.

Lemma create_effect_witness : authed fs_state "sess_1" tok1 "public" = Ok 0%nat.
Proof.
  destruct (Create id "harness" demo_manager (demo_create "1" true) "python" fs_opts) as [[[r m'] ev]|] eqn:E.
  - pose proof (create_effect id "harness" demo_manager [] (demo_create "1" true) "python" fs_opts r m' ev
      (fresh_ok _ demo_fresh) E) as H.
    assert (fs_state = m') as -> by (unfold fs_state; by rewrite E).
    vm_compute in E. injection E as <- _ _. destruct H as (lang & tok & _ & [= <-] & _ & _ & _ & H & _). exact H.
  - vm_compute in E. discriminate.
Defined.
