(* ===== verification/ApiSessions.v ===== *)
(** * internal/api/sessions.go: /v1/sessions

    The handlers over [Session.Manager], the volumes and the callback between
    the two: [OnDrop] is [Volume.Manager.ReleaseAll] (cmd/isoboxd/main.go), run for
    every [SOnDrop] a session call emits.  A handler returns the reply, the state
    it leaves and what it did to files, docker and volumes; [None] is a Go panic or
    a call that has not returned. *)

From S2P Require Import Prelude GoLib GoStrings GoCodec GoFloat Sched Auth Volume Executor Registry Kernel Session ApiExec ApiHttp ApiVolumes.

Definition maxSessionUpload : Z := Z.shiftl 16 20.

Record createSessionRequest := {
  cs_Runtime : string; cs_TTLSec : Z; cs_VolumeID : string; cs_Network : bool; cs_Type : string }.
Record createSessionResponse := {
  cr_ID : string; cr_Token : string; cr_Runtime : string; cr_Type : string; cr_CreatedAt : Z }.

(** The last event of a stream: [error], or [done] with its fields. *)
Inductive sdone := DError | DStep (r : execResponse) | DKernel (backend : string) (r : runResult).
Inductive sreply :=
| RCreated (r : createSessionResponse)
| RExec (r : execResponse)
| RStream (out err : list string) (fin : sdone)
| RDir (path : string) (entries : list FileInfo)
| RFile (data : string)
| RWritten (path : string) (bytes : Z)
| RNoContent.

(** ** Errors *)
Definition writeCreateSessErr {A} (e : SessErr) : http A :=
  match e with
  | Session.ErrTooMany => HErr 429 "too_many_sessions" (Some 5)
  | Session.ErrDiskFull => HErr 507 "storage_full" None
  | ErrKernelDisabled => HErr 400 "kernel_disabled" None
  | ErrKernelBusy => HErr 429 "kernel_busy" (Some 5)
  | _ => HErr 400 "create_failed" None
  end.
(** [enoent]: [errors.Is(err, os.ErrNotExist)], for an error that is not one of the package. *)
Definition writeSessErr {A} (enoent : bool) (e : SessErr) : http A :=
  match e with
  | ErrNotFound => HErr 404 "session_not_found" None
  | ErrForbidden => HErr 401 "invalid_session_token" None
  | ErrCapacity => HErr 429 "capacity" (Some 1)
  | ErrQuota => HErr 413 "quota_exceeded" None
  | ErrPath => HErr 400 "invalid_path" None
  | ErrIsDir => HErr 400 "is_a_directory" None
  | ErrKernelDisabled => HErr 400 "kernel_disabled" None
  | ErrKernelBusy => HErr 429 "kernel_busy" (Some 5)
  | ErrWrongType => HErr 409 "wrong_session_type" None
  | _ => if enoent then HErr 404 "not_found" None else HErr 500 "internal" None
  end.

Section sessions.
Context {W : Type} {SW : Weighted W} (uni_lower : string → string) (harnessPy : string).
Context (backend_name : string) (backend : Spec → bool → outcome).

(** The server: the session manager, the volumes if they are enabled. *)
Record server := { Sessions : Session.Manager W; Volumes : option Volume.Manager }.

Definition on_drop (vs : option Volume.Manager) (ev : list sevent) : option Volume.Manager :=
  foldl (λ vs e, match e with SOnDrop id => (λ v, ReleaseAll v id) <$> vs | _ => vs end) vs ev.
Definition after (s : server) (m : Session.Manager W) (ev : list sevent) : server :=
  {| Sessions := m; Volumes := on_drop (Volumes s) ev |}.
Definition set_volumes (s : server) (v : Volume.Manager) : server :=
  {| Sessions := Sessions s; Volumes := Some v |}.

Abbreviation handled A := (option (http A * server * list sevent)).

(** [s.Sessions.Destroy], its error ignored (so that the removal's does not matter),
    before the reply [r]. *)
Definition rolled_back {A} (s : server) (id token tenant : string) (ev : list sevent) (r : http A) : handled A :=
  '(_, m, ev') ← Destroy (Sessions s) true id token tenant; Some (r, after s m ev', ev ++ ev').

(** ** POST /v1/sessions *)
Record hcenv := { hc_create : cenv; hc_volume : venv }.
Definition created (s : Session) : createSessionResponse := {|
  cr_ID := s_ID s; cr_Token := s_Token s; cr_Runtime := s_Runtime s; cr_Type := s_Type s;
  cr_CreatedAt := s_CreatedAt s |}.
Definition memory_mount (hp : string) : Mount := {| HostPath := hp; Target := "/memory"; m_RW := true |}.
Definition create_opts (req : createSessionRequest) (tenant stype id : string) (extra : list Mount) (net : bool) :
    CreateOpts := {|
  o_TTL := wrap64 (cs_TTLSec req * second); o_ID := id; o_Tenant := tenant; o_Type := stype;
  o_ExtraMounts := extra; o_Network := net |}.

Definition createKernelSession (s : server) (x : hcenv) (tenant : string) (req : createSessionRequest) :
    handled sreply :=
  let id := MintID (c_uuid (hc_create x)) in
  let start (s : server) (extra : list Mount) : handled sreply :=
    '(r, m, ev) ← Create uni_lower harnessPy (Sessions s) (hc_create x) (cs_Runtime req)
                    (create_opts req tenant "kernel" id extra (cs_Network req));
    let s := after s m ev in
    match r with
    | Err e =>
        let s := match Volumes s with
                 | Some v => if String.eqb (cs_VolumeID req) "" then s
                             else set_volumes s (Release v tenant (cs_VolumeID req) id)
                 | None => s
                 end in
        Some (writeCreateSessErr e, s, ev)
    | Ok p => Some (HOk 201 (RCreated (created (the_session m p))), s, ev)
    end in
  if String.eqb (cs_VolumeID req) "" then start s [] else
  match Volumes s with
  | None => Some (HErr 400 "volumes_disabled" None, s, [])
  | Some v =>
      match Attach v (hc_volume x) tenant (cs_VolumeID req) id true with
      | (Err e, v) => Some (writeVolErr e, set_volumes s v, [])
      | (Ok (hp, _), v) => start (set_volumes s v) [memory_mount hp]
      end
  end.

(** The volume of a filesystem session just created. *)
Definition attachVolume (s : server) (x : hcenv) (tenant vid : string) (sess : Session) (ev : list sevent) :
    handled sreply :=
  match Volumes s with
  | None => rolled_back s (s_ID sess) (s_Token sess) tenant ev (HErr 400 "volumes_disabled" None)
  | Some v =>
      match Attach v (hc_volume x) tenant vid (s_ID sess) true with
      | (Err e, v) => rolled_back (set_volumes s v) (s_ID sess) (s_Token sess) tenant ev (writeVolErr e)
      | (Ok (hp, _), v) =>
          match SetMounts (Sessions s) (s_ID sess) (s_Token sess) tenant [memory_mount hp] with
          | (Err e, m) =>
              rolled_back {| Sessions := m; Volumes := Some (Release v tenant vid (s_ID sess)) |}
                (s_ID sess) (s_Token sess) tenant ev (writeSessErr false e)
          | (Ok _, m) => Some (HOk 201 (RCreated (created sess)), {| Sessions := m; Volumes := Some v |}, ev)
          end
      end
  end.
Definition createFilesystemSession (s : server) (x : hcenv) (tenant stype : string) (req : createSessionRequest) :
    handled sreply :=
  '(r, m, ev) ← Create uni_lower harnessPy (Sessions s) (hc_create x) (cs_Runtime req)
                  (create_opts req tenant stype "" [] false);
  let s := after s m ev in
  match r with
  | Err e => Some (writeCreateSessErr e, s, ev)
  | Ok p =>
      let sess := the_session m p in
      if String.eqb (cs_VolumeID req) "" then Some (HOk 201 (RCreated (created sess)), s, ev)
      else attachVolume s x tenant (cs_VolumeID req) sess ev
  end.

Definition no_request : createSessionRequest :=
  {| cs_Runtime := ""; cs_TTLSec := 0; cs_VolumeID := ""; cs_Network := false; cs_Type := "" |}.
Definition handleCreateSession (s : server) (x : hcenv) (ctx : KeyStore.Context) (b : body createSessionRequest) :
    handled sreply :=
  match b with
  | BadBody => Some (HErr 400 "invalid_json" None, s, [])
  | _ =>
      let req := match b with Body r => r | _ => no_request end in
      if String.eqb (cs_Runtime req) "" then Some (HErr 400 "runtime_required" None, s, []) else
      match Middleware.reqTenant ctx with
      | inr _ => Some (no_tenant, s, [])
      | inl tenant =>
          let stype := if String.eqb (cs_Type req) "" then "filesystem" else cs_Type req in
          if String.eqb stype "kernel" then createKernelSession s x tenant req
          else createFilesystemSession s x tenant stype req
      end
  end.

(** ** POST /v1/sessions/{id}/exec *)

(** What the exec handlers observe: whether the execution slot came too late, the
    clock, the channel of the kernel, the kind of a system error, the request's headers and
    the response writer. *)
Record hxenv := {
  hx_late : bool; hx_now : Z; hx_kernel : kxenv; hx_enoent : bool;
  hx_accept : string; hx_stream : string; hx_flusher : bool }.
(** What was run: a spec by the backend, or a frame written to the kernel, with its deadline. *)
Inductive job := JSpec (s : Spec) | JKernel (sent : string) (ms : Z).
Abbreviation stepped A := (option (http A * server * list job)).
Definition set_manager (s : server) (m : Session.Manager W) : server :=
  {| Sessions := m; Volumes := Volumes s |}.

(** The chunks the sink was given, also by a step that failed. *)
Definition kernel_sent (m : Session.Manager W) (x : kxenv) (id token tenant : string) (stepMs : Z) : list string * list string :=
  match authed m id token tenant with
  | Ok p =>
      match s_k (the_session m p), Kernels m with
      | Some k, Some e => match exec_step e x k stepMs true with Some z => (z_out z, z_errs z) | None => ([], []) end
      | _, _ => ([], [])
      end
  | Err _ => ([], [])
  end.
Definition handleKernelExec (s : server) (x : hxenv) (id token tenant : string) (req : execRequest) :
    stepped sreply :=
  let code := if String.eqb (q_Code req) "" then from_option f_Content "" (head (q_Files req)) else q_Code req in
  if String.eqb code "" then Some (HErr 400 "no_source" None, s, []) else
  let stepMs := default 0 (q_Limits req ≫= o_WallTimeMs) in
  let sse := wantsSSE (hx_accept x) (hx_stream x) in
  if sse && negb (hx_flusher x) then Some (HErr 500 "streaming_unsupported" None, s, []) else
  let out := kernel_sent (Sessions s) (hx_kernel x) id token tenant stepMs in
  '(r, m, sent) ← KernelExec (Sessions s) (hx_kernel x) id token tenant code stepMs sse;
  let run := match sent with Some (frame, ms) => [JKernel frame ms] | None => [] end in
  let rep := match r with
             | Err e => if sse then HOk 200 (RStream out.1 out.2 DError) else writeSessErr (hx_enoent x) e
             | Ok z =>
                 let res := toRunResult (z_res z) in
                 if sse then HOk 200 (RStream out.1 out.2 (DKernel backend_name res))
                 else HOk 200 (RExec {| e_Language := ""; e_Version := ""; e_Backend := backend_name;
                                        e_Run := res; e_Warning := false |})
             end in
  Some (rep, set_manager s m, run).

Definition handleSpecExec (s : server) (x : hxenv) (id token tenant : string)
    (lang : Catalogue.Language) (spec : Spec) : stepped sreply :=
  let sse := wantsSSE (hx_accept x) (hx_stream x) in
  if sse && negb (hx_flusher x) then Some (HErr 500 "streaming_unsupported" None, s, []) else
  '(r, m, ran) ← Session.Exec backend (Sessions s) (hx_late x) (hx_now x) id token tenant spec sse;
  let sent := match ran with Some sp => o_sink (backend sp true) | None => ([], []) end in
  let rep := match r with
             | Err e => if sse then HOk 200 (RStream sent.1 sent.2 DError) else writeSessErr (hx_enoent x) e
             | Ok res =>
                 let resp := response lang backend_name spec res in
                 if sse then HOk 200 (RStream sent.1 sent.2 (DStep resp)) else HOk 200 (RExec resp)
             end in
  Some (rep, set_manager s m, match ran with Some sp => [JSpec sp] | None => [] end).

Definition handleSessionExec (s : server) (x : hxenv) (ctx : KeyStore.Context) (id token : string)
    (b : body execRequest) : stepped sreply :=
  match Middleware.reqTenant ctx with
  | inr _ => Some (no_tenant, s, [])
  | inl tenant =>
      match IsKernel (Sessions s) id token tenant with
      | Err e => Some (writeSessErr false e, s, [])
      | Ok isK =>
          match b with
          | Body req =>
              if isK then handleKernelExec s x id token tenant req else
              match SessionRuntime (Sessions s) id token tenant with
              | Err e => Some (writeSessErr false e, s, [])
              | Ok runtime =>
                  match Catalogue.Resolve uni_lower (Session.Reg (Sessions s)) runtime "" with
                  | None => Some (HErr 500 "runtime_gone" None, s, [])
                  | Some lang =>
                      match buildSpec lang req with
                      | None => Some (HErr 400 "no_source" None, s, [])
                      | Some spec => handleSpecExec s x id token tenant lang spec
                      end
                  end
              end
          | _ => Some (HErr 400 "invalid_json" None, s, [])
          end
      end
  end.

(** ** /v1/sessions/{id}/fs and DELETE /v1/sessions/{id} *)
Definition handleSessionFSGet (s : server) (x : fsenv) (enoent : bool) (ctx : KeyStore.Context)
    (id token path : string) : http sreply :=
  match Middleware.reqTenant ctx with
  | inr _ => no_tenant
  | inl tenant =>
      match Stat (Sessions s) x id token tenant path with
      | Err e => writeSessErr enoent e
      | Ok fi =>
          if fi_Dir fi then
            match ListDir (Sessions s) x id token tenant path with
            | Err e => writeSessErr enoent e
            | Ok entries => HOk 200 (RDir path entries)
            end
          else
            match ReadFile (Sessions s) x id token tenant path with
            | Err e => writeSessErr enoent e
            | Ok data => HOk 200 (RFile data)
            end
      end
  end.
(** [b]: the body, or an error of reading it (over [maxSessionUpload], say). *)
Definition handleSessionFSPut (s : server) (x : fsenv) (enoent : bool) (ctx : KeyStore.Context)
    (id token path : string) (b : option string) : http sreply * server * list sevent :=
  match Middleware.reqTenant ctx with
  | inr _ => (no_tenant, s, [])
  | inl tenant =>
      if String.eqb path "" then (HErr 400 "path_required" None, s, []) else
      match b with
      | None => (HErr 413 "too_large" None, s, [])
      | Some data =>
          let '(r, m, ev) := WriteFile (Sessions s) x id token tenant path data in
          (match r with Err e => writeSessErr enoent e | Ok _ => HOk 200 (RWritten path (len data)) end,
           set_manager s m, ev)
      end
  end.
Definition handleSessionFSDelete (s : server) (x : fsenv) (enoent : bool) (ctx : KeyStore.Context)
    (id token path : string) : http sreply * list sevent :=
  match Middleware.reqTenant ctx with
  | inr _ => (no_tenant, [])
  | inl tenant =>
      let '(r, ev) := DeletePath (Sessions s) x id token tenant path in
      (match r with Err e => writeSessErr enoent e | Ok _ => HOk 204 RNoContent end, ev)
  end.
Definition handleDestroySession (s : server) (rm : bool) (ctx : KeyStore.Context) (id token : string) : handled sreply :=
  match Middleware.reqTenant ctx with
  | inr _ => Some (no_tenant, s, [])
  | inl tenant =>
      '(r, m, ev) ← Destroy (Sessions s) rm id token tenant;
      Some (match r with Err e => writeSessErr false e | Ok _ => HOk 204 RNoContent end, after s m ev, ev)
  end.
End sessions.
Arguments server W : clear implicits.
