(* ===== verification/ApiBodies.v ===== *)
(** * internal/api: the JSON of the request bodies

    The structs that [Decode] fills ([execRequest] of execute.go, [createSessionRequest]
    of sessions.go, [createVolumeRequest] of volumes.go) with their tags, as functions from
    the bytes of a body to what the handlers are given; and the JSON a client writes
    for a request, which is read back as that request. *)

From S2P Require Import Prelude GoLib GoStrings GoFloat GoJSON GoUnmarshal GoUnmarshalSpec Executor ExecutorJSON ApiHttp ApiExec ApiSessions.
Import JSON.

(** ** The structs *)
Definition limit_tags : list string := ["memoryBytes"; "cpus"; "pids"; "outputBytes"; "wallTimeMs"].
Definition no_override : limitsOverride := {|
  o_MemoryBytes := None; o_CPUs := None; o_Pids := None; o_OutputBytes := None; o_WallTimeMs := None |}.
Definition dec_limits : limitsOverride → jval → option limitsOverride :=
  dec_struct (λ old fs,
    m ← field limit_tags (dec_ptr 0 dec_int) "memoryBytes" (o_MemoryBytes old) fs;
    c ← field limit_tags (dec_ptr (of_Z 0) dec_float) "cpus" (o_CPUs old) fs;
    p ← field limit_tags (dec_ptr 0 dec_int) "pids" (o_Pids old) fs;
    o ← field limit_tags (dec_ptr 0 dec_int) "outputBytes" (o_OutputBytes old) fs;
    w ← field limit_tags (dec_ptr 0 dec_int) "wallTimeMs" (o_WallTimeMs old) fs;
    Some {| o_MemoryBytes := m; o_CPUs := c; o_Pids := p; o_OutputBytes := o; o_WallTimeMs := w |}).

Definition exec_tags : list string := ["language"; "version"; "code"; "files"; "stdin"; "args"; "limits"; "network"].
Definition exec_fields (fs : list (string * jval)) : option execRequest :=
  l ← field exec_tags dec_string "language" "" fs;
  v ← field exec_tags dec_string "version" "" fs;
  c ← field exec_tags dec_string "code" "" fs;
  f ← field exec_tags (dec_slice zero_file dec_file) "files" nil_slice fs;
  i ← field exec_tags dec_string "stdin" "" fs;
  a ← field exec_tags (dec_slice "" dec_string) "args" nil_slice fs;
  o ← field exec_tags (dec_ptr no_override dec_limits) "limits" None fs;
  n ← field exec_tags dec_bool "network" false fs;
  Some {| q_Language := l; q_Version := v; q_Code := c; q_Files := elems f; q_Stdin := i; q_Args := elems a;
          q_Limits := o; q_Network := n |}.
Definition zero_request : execRequest := {|
  q_Language := ""; q_Version := ""; q_Code := ""; q_Files := []; q_Stdin := ""; q_Args := []; q_Limits := None;
  q_Network := false |}.
Definition dec_exec (v : jval) : option execRequest := dec_struct (λ _, exec_fields) zero_request v.

Definition create_tags : list string := ["runtime"; "ttlSec"; "volumeId"; "network"; "type"].
Definition create_fields (fs : list (string * jval)) : option createSessionRequest :=
  r ← field create_tags dec_string "runtime" "" fs;
  t ← field create_tags dec_int "ttlSec" 0 fs;
  v ← field create_tags dec_string "volumeId" "" fs;
  n ← field create_tags dec_bool "network" false fs;
  k ← field create_tags dec_string "type" "" fs;
  Some {| cs_Runtime := r; cs_TTLSec := t; cs_VolumeID := v; cs_Network := n; cs_Type := k |}.
Definition dec_create (v : jval) : option createSessionRequest :=
  dec_struct (λ _, create_fields)
    {| cs_Runtime := ""; cs_TTLSec := 0; cs_VolumeID := ""; cs_Network := false; cs_Type := "" |} v.
(** The name of [createVolumeRequest]. *)
Definition dec_volume (v : jval) : option string := dec_struct (λ _, field ["name"] dec_string "name" "") "" v.

(** ** The bodies *)
Definition decode_exec (limit : option Z) (b : string) : body execRequest := Decode dec_exec limit b.
Definition decode_create (limit : option Z) (b : string) : body createSessionRequest := Decode dec_create limit b.
(** Under [io.LimitReader], whose end is that of the body. *)
Definition decode_volume (b : string) : body string := Decode dec_volume None (str_take 4096 b).

(** A body as it is written in the examples, with single quotes for the double ones. *)
Definition jtext (s : string) : string := str_map (λ c, if Ascii.eqb c "'" then dquote else c) s.
Example body_forms :
  decode_exec None (jtext "{'Language':'python','CODE':'print(1)','x':[{}],'limits':{'cpus':1.5,'pids':null}} more") =
    Body {| q_Language := "python"; q_Version := ""; q_Code := "print(1)"; q_Files := []; q_Stdin := ""; q_Args := [];
            q_Limits := Some {| o_MemoryBytes := None; o_CPUs := Some (of_dyadic 3 (-1)); o_Pids := None; o_OutputBytes := None;
                                o_WallTimeMs := None |}; q_Network := false |} ∧
  map (decode_volume ∘ jtext) ["{'name':'a','NAME':'b'}"; "null"; " "; "{'name':1}"; "{'name':'a'"; "[]"] =
    [Body "b"; Body ""; NoBody; BadBody; BadBody; BadBody] ∧
  decode_volume (jtext "{'name':'\ud83d\ude00\ud83d'}") = Body (encode_rune 128512 +:+ fffd) ∧
  decode_create (Some 16) (jtext "{'runtime':'py'}  ") = Body {|
    cs_Runtime := "py"; cs_TTLSec := 0; cs_VolumeID := ""; cs_Network := false; cs_Type := "" |} ∧
  decode_create (Some 15) (jtext "{'runtime':'py'}  ") = BadBody.
Proof. vm_compute. auto 10. Qed.
(** A second [files] stores into the elements of the first. *)
Example files_twice :
  (match decode_exec None (jtext "{'files':[{'name':'a','content':'x'}],'files':[{'name':'b'}]}") with Body r => q_Files r | _ => [] end) =
  [{| f_Name := "b"; f_Content := "x"; f_Encoding := "" |}].
Proof. vm_compute. reflexivity. Qed.

(** ** What a decoded body can hold *)
Definition opt64 (o : option Z) : Prop := ∀ z, o = Some z → in64 z.
Definition override_ints (o : limitsOverride) : Prop :=
  opt64 (o_MemoryBytes o) ∧ opt64 (o_Pids o) ∧ opt64 (o_OutputBytes o) ∧ opt64 (o_WallTimeMs o).
(** Every string is UTF-8 and every integer an [int64]. *)
Record exec_typed (r : execRequest) : Prop := {
  ty_strings : valid_utf8 (q_Language r) ∧ valid_utf8 (q_Version r) ∧ valid_utf8 (q_Code r) ∧ valid_utf8 (q_Stdin r);
  ty_files : Forall file_text (q_Files r); ty_args : Forall (λ s, valid_utf8 s : Prop) (q_Args r);
  ty_limits : ∀ o, q_Limits r = Some o → override_ints o }.
Definition create_typed (r : createSessionRequest) : Prop :=
  valid_utf8 (cs_Runtime r) ∧ valid_utf8 (cs_VolumeID r) ∧ valid_utf8 (cs_Type r) ∧ in64 (cs_TTLSec r).

Lemma keeps_file : keeps file_text dec_file.
Proof.
  apply keeps_struct. intros old fs f (H1 & H2 & H3) Hf E. unfold file_text. take_fields E. cbn [f_Name f_Content f_Encoding]. eauto 6 with utf8.
Qed.
Lemma zero64 : in64 0.
Proof. by vm_compute. Qed.
Lemma keeps_override : keeps override_ints dec_limits.
Proof.
  apply keeps_struct. intros old fs o (H1 & H2 & H3 & H4) Hf E. unfold override_ints, opt64. take_fields E.
  cbn [o_MemoryBytes o_Pids o_OutputBytes o_WallTimeMs].
  split; [|split; [|split]]; eapply (field_ptr in64); eauto using zero64, keeps_int.
Qed.
Lemma exec_fields_typed fs r : members_text fs = true → exec_fields fs = Some r → exec_typed r.
Proof.
  intros Hf E. unfold exec_fields in E. take_fields E. split; cbn [q_Language q_Version q_Code q_Files q_Stdin q_Args q_Limits].
  - assert (H0 : valid_utf8 "") by done. split; [|split; [|split]]; eauto with utf8.
  - by eapply field_slice; [..|apply keeps_file].
  - by eapply field_slice; [..|apply keeps_string].
  - by eapply field_ptr; [..|apply keeps_override|].
Qed.
Lemma create_fields_typed fs r : members_text fs = true → create_fields fs = Some r → create_typed r.
Proof.
  intros Hf E. unfold create_fields in E. unfold create_typed. take_fields E. cbn [cs_Runtime cs_VolumeID cs_Type cs_TTLSec].
  assert (H0 : valid_utf8 "") by done. pose proof zero64. eauto 8 with utf8.
Qed.

Lemma decode_exec_typed limit b r : decode_exec limit b = Body r → exec_typed r.
Proof.
  unfold decode_exec. intros (v & Hv & E)%Decode_text. destruct v; try done; [injection E as <-; by split|by eapply exec_fields_typed].
Qed.

(** A decoded request is well typed.  Whatever bytes a client sends, cut by a limit or
    not, with any escapes, surrogates and repeated members: every string of an execution,
    session or volume request that is decoded from them is valid UTF-8, and every integer
    an [int64], so that what the components are given is text. *)
Lemma bodies_well_typed limit b :
  (∀ r, decode_exec limit b = Body r → exec_typed r) ∧ (∀ r, decode_create limit b = Body r → create_typed r) ∧
  (∀ n, decode_volume b = Body n → valid_utf8 n).
Proof.
  split; [apply decode_exec_typed|]. unfold decode_create, decode_volume. split.
  - intros r (v & Hv & E)%Decode_text. destruct v; try done; [injection E as <-; by split|by eapply create_fields_typed].
  - intros n (v & Hv & E)%Decode_text. destruct v; try done; [by injection E as <-|].
    by eapply field_string.
Qed.

(** ** A client's request *)
Definition jopt {A} (f : A → json) (o : option A) : json := match o with Some a => f a | None => JNull end.
Section client.
(** How the client prints a float64. *)
Context (fmt : float → string).
Definition limits_json (o : limitsOverride) : json :=
  JObj [("memoryBytes", jopt JInt (o_MemoryBytes o)); ("cpus", jopt (JNum ∘ fmt) (o_CPUs o)); ("pids", jopt JInt (o_Pids o));
        ("outputBytes", jopt JInt (o_OutputBytes o)); ("wallTimeMs", jopt JInt (o_WallTimeMs o))].
Definition exec_json (r : execRequest) : list (string * json) := [
  ("language", JStr (q_Language r)); ("version", JStr (q_Version r)); ("code", JStr (q_Code r));
  ("files", JArr (map file_json (q_Files r))); ("stdin", JStr (q_Stdin r)); ("args", JArr (map JStr (q_Args r)));
  ("limits", jopt limits_json (q_Limits r)); ("network", JBool (q_Network r))].
Definition create_json (r : createSessionRequest) : list (string * json) := [
  ("runtime", JStr (cs_Runtime r)); ("ttlSec", JInt (cs_TTLSec r)); ("volumeId", JStr (cs_VolumeID r));
  ("network", JBool (cs_Network r)); ("type", JStr (cs_Type r))].

(** The requests that JSON can carry: text is UTF-8, integers are [int64]s, and floats are read back. *)
Definition limits_text (o : limitsOverride) : Prop :=
  (∀ c, o_CPUs o = Some c → float_reads fmt c) ∧ override_ints o.
Record exec_text (r : execRequest) : Prop := {
  et_strings : valid_utf8 (q_Language r) ∧ valid_utf8 (q_Version r) ∧ valid_utf8 (q_Code r) ∧ valid_utf8 (q_Stdin r);
  et_files : Forall file_text (q_Files r); et_args : Forall (λ s, valid_utf8 s : Prop) (q_Args r);
  et_limits : ∀ o, q_Limits r = Some o → limits_text o }.

Definition int_value (o : option Z) : jval := match o with Some z => VNum (Itoa z) | None => VNull end.
Lemma dec_ptr_int o : opt64 o → dec_ptr 0 dec_int None (int_value o) = Some o.
Proof. intros H. destruct o as [z|]; [|done]. cbn [int_value dec_ptr]. rewrite dec_int_read by auto. done. Qed.
Lemma jopt_int o : value_of (jopt JInt o) = int_value o.
Proof. by destruct o. Qed.
Definition float_value (o : option float) : jval := match o with Some c => VNum (fmt c) | None => VNull end.
Lemma jopt_float o : value_of (jopt (JNum ∘ fmt) o) = float_value o.
Proof. by destruct o. Qed.
Lemma dec_ptr_float o : (∀ c, o = Some c → float_reads fmt c) → dec_ptr (of_Z 0) dec_float None (float_value o) = Some o.
Proof. intros H. destruct o as [c|]; [|done]. cbn [float_value dec_ptr]. destruct (H c eq_refl) as [_ ->]. done. Qed.
Lemma dec_override_read o : limits_text o → dec_limits no_override (value_of (limits_json o)) = Some o.
Proof.
  intros (H1 & H2 & H3 & H4 & H5). unfold limits_json, dec_limits. cbn [value_of map fst snd dec_struct]. rewrite !jopt_int, jopt_float. find_fields.
  cbn [o_MemoryBytes o_Pids o_OutputBytes o_WallTimeMs o_CPUs no_override]. rewrite !dec_ptr_int by done.
  cbn [mbind option_bind]. rewrite dec_ptr_float by done. by destruct o.
Qed.
Lemma exec_nesting r : (∀ o, q_Limits r = Some o → limits_text o) → nesting (JObj (exec_json r)) ≤ maxNestingDepth.
Proof.
  intros _. assert (Hf : foldr Z.max 0 (map nesting (map file_json (q_Files r))) ≤ 1) by (induction (q_Files r) as [|f l IH]; [done|cbn [map foldr]; pose proof (proj2 (file_flat f)); lia]).
  assert (Ha : foldr Z.max 0 (map nesting (map JStr (q_Args r))) ≤ 0) by (induction (q_Args r); cbn in *; lia).
  assert (Hl : nesting (jopt limits_json (q_Limits r)) ≤ 1).
  { destruct (q_Limits r) as [o|]; [|cbn; lia]. destruct o as [m c p o w]. cbn. destruct m, c, p, o, w; cbn; lia. }
  unfold exec_json. cbn [nesting map fst snd foldr]. unfold maxNestingDepth. lia.
Qed.
Lemma exec_readable r : exec_text r → readable (JObj (exec_json r)) = true.
Proof.
  intros [_ _ _ Hl]. unfold exec_json, readable. cbn [numbers forallb snd andb]. rewrite !andb_true_iff. repeat split.
  - apply forallb_forall. intros j (f & <- & _)%in_map_iff. apply file_flat.
  - induction (q_Args r); [done|]. by cbn.
  - destruct (q_Limits r) as [o|]; [|done]. destruct (Hl o eq_refl) as [Hc _]. destruct o as [m c p o w]. cbn in *.
    rewrite !andb_true_iff. repeat split; try (by destruct m, p, o, w). destruct c as [c|]; [|done]. by apply (Hc c).
Qed.
Lemma exec_fields_read r : exec_text r → dec_exec (value_of (JObj (exec_json r))) = Some r.
Proof.
  intros [(H1 & H2 & H3 & H4) Hf Ha Hl]. unfold dec_exec, exec_json, exec_fields. cbn [value_of map fst snd dec_struct]. find_fields.
  rewrite !dec_string_read by done.
  rewrite !map_map.
  destruct (proj1 (fmap_Some _ _ _) (dec_slice_read zero_file dec_file (λ f, value_of (file_json f)) (q_Files r)
    (λ f Hx, dec_file_read f (proj1 (Forall_forall _ _) Hf f Hx)))) as (sf & -> & Ef).
  destruct (proj1 (fmap_Some _ _ _) (dec_slice_read "" dec_string (λ s, value_of (JStr s)) (q_Args r)
    (λ s Hx, dec_string_read "" s (proj1 (Forall_forall _ _) Ha s Hx)))) as (sa & -> & Ea).
  cbn [mbind option_bind]. rewrite <- Ef, <- Ea.
  assert (dec_ptr no_override dec_limits None (value_of (jopt limits_json (q_Limits r))) = Some (q_Limits r)) as ->.
  { destruct (q_Limits r) as [o|]; [|done]. change (value_of (jopt limits_json (Some o))) with (value_of (limits_json o)).
    transitivity (Some <$> dec_limits no_override (value_of (limits_json o))); [done|]. by rewrite dec_override_read by auto. }
  cbn [mbind option_bind dec_bool]. by destruct r.
Qed.
Lemma create_fields_read r : valid_utf8 (cs_Runtime r) → valid_utf8 (cs_VolumeID r) → valid_utf8 (cs_Type r) → in64 (cs_TTLSec r) →
  dec_create (value_of (JObj (create_json r))) = Some r.
Proof.
  intros H1 H2 H3 H4. unfold dec_create, create_json, create_fields. cbn [value_of map fst snd dec_struct]. find_fields.
  rewrite !dec_string_read by done. cbn [mbind option_bind]. rewrite dec_int_read by done. cbn [mbind option_bind dec_bool]. by destruct r.
Qed.

(** C20: a request is what its bytes say.  The JSON of any execution, session or
    volume request is decoded as that request, whatever follows it on the wire (a volume's up to
    4096 bytes).  A body that reaches the limit of its route is never decoded as a request cut
    short: what it is decoded as is what the whole body would be.  A volume's, whose limit
    only ends the input, can also pass for no body, when its first 4096 bytes are blank. *)
Theorem requests_read_back :
  (∀ r t, exec_text r → decode_exec None (marshal (JObj (exec_json r)) +:+ t) = Body r) ∧
  (∀ r t, valid_utf8 (cs_Runtime r) → valid_utf8 (cs_VolumeID r) → valid_utf8 (cs_Type r) → in64 (cs_TTLSec r) →
     decode_create None (marshal (JObj (create_json r)) +:+ t) = Body r) ∧
  (∀ n t, valid_utf8 n → len (marshal (JObj [("name", JStr n)])) ≤ 4096 →
     decode_volume (marshal (JObj [("name", JStr n)]) +:+ t) = Body n) ∧
  (∀ n b r, decode_exec (Some n) b = Body r → decode_exec None b = Body r) ∧
  (∀ n b r, decode_create (Some n) b = Body r → decode_create None b = Body r) ∧
  (∀ b n, decode_volume b = Body n → Decode dec_volume None b = Body n) ∧
  (∀ b, decode_volume b = NoBody → all_space (str_take 4096 b) = true).
Proof.
  split; [|split; [|split; [|split; [intros n b r; apply Decode_limit|split; [intros n b r; apply Decode_limit|]]]]].
  4:{ split; intros b; destruct (Decode_take dec_volume 4096 b (λ _, eq_refl)) as [H1 H2]; [intros n; apply H1|exact H2]. }
  - intros r t H. unfold decode_exec. rewrite Decode_object by (apply exec_nesting, H || by apply exec_readable). unfold decoded. by rewrite exec_fields_read.
  - intros r t H1 H2 H3 H4. unfold decode_create. rewrite Decode_object by done. unfold decoded. by rewrite create_fields_read.
  - intros n t H1 H2. unfold decode_volume. set (x := marshal _) in *.
    assert (str_take 4096 (x +:+ t) = x +:+ str_take (4096 - String.length x) t) as ->.
    { unfold len in H2. rewrite str_take_app_more by lia. done. }
    unfold x. rewrite Decode_object by done. unfold decoded, dec_volume. cbn [value_of map fst snd dec_struct]. find_fields.
    by rewrite dec_string_read.
Qed.
End client.

Definition demo_body : execRequest := {|
  q_Language := "python"; q_Version := ""; q_Code := "print(1)"; q_Files := [zero_file]; q_Stdin := ""; q_Args := ["a"];
  q_Limits := Some {| o_MemoryBytes := Some 1024; o_CPUs := Some (of_dyadic 3 (-1)); o_Pids := None; o_OutputBytes := None; o_WallTimeMs := None |};
  q_Network := true |}.
Lemma requests_read_back_witness :
  decode_exec None (marshal (JObj (exec_json FormatFloat2 demo_body)) +:+ " more") = Body demo_body ∧
  decode_volume (marshal (JObj [("name", JStr "data")]) +:+ "}") = Body "data" ∧
  decode_create None (jtext "{'runtime':'py'}  ") = Body {|
    cs_Runtime := "py"; cs_TTLSec := 0; cs_VolumeID := ""; cs_Network := false; cs_Type := "" |}.
Proof.
  destruct (requests_read_back FormatFloat2) as (H1 & _ & H3 & _ & H5 & _). split; [|split].
  - apply H1. split; [done|by repeat constructor|by repeat constructor|].
    intros o [= <-]. split; [intros c [= <-]; split; [vm_compute; reflexivity|intros old; vm_compute; reflexivity]|].
    split; [|split; [|split]]; intros z; cbn; [intros [= <-]; split; vm_compute; congruence|done..].
  - apply H3; [done|]. vm_compute. discriminate.
  - apply (H5 16). vm_compute. reflexivity.
Defined.
