(* ===== verification/Sse.v ===== *)
(** * internal/api: Server-Sent Events

    The bytes a streamed step puts on the wire ([sseSink] of execute.go, used by the
    handlers of execute.go and sessions.go), and a reader of event streams as browsers
    implement it.  The two pumps write to one sink; its mutex makes the
    events of a stream some interleaving of the chunks of both, given by a
    schedule. *)

From S2P Require Import Prelude GoLib GoStrings GoJSON Executor ExecutorSpec WarmPool Registry ApiExec ApiSessions.

(** ** Events *)
Inductive sse :=
| Stdout_ (b : string) | Stderr_ (b : string) | Done (d : sdone) (msg : string).
Definition event_name (e : sse) : string :=
  match e with
  | Stdout_ _ => "stdout" | Stderr_ _ => "stderr" | Done DError _ => "error" | Done _ _ => "done"
  end.
Definition run_json (r : runResult) : json := JObj [
  ("stdout", JStr (r_Stdout r)); ("stderr", JStr (r_Stderr r)); ("exitCode", JInt (r_ExitCode r));
  ("timedOut", JBool (r_TimedOut r)); ("oomKilled", JBool (r_OOMKilled r)); ("truncated", JBool (r_Truncated r));
  ("durationMs", JInt (r_DurationMs r)); ("network", JBool (r_Net r))].
Definition warning_text : string :=
  "network requested but currently unavailable (egress firewall not verified); ran with network OFF".
(** A Go map is marshalled in the order of its keys. *)
Definition done_json (d : sdone) (msg : string) : json :=
  match d with
  | DError => JObj [("error", JStr msg)]
  | DStep r => JObj ([("backend", JStr (e_Backend r)); ("language", JStr (e_Language r)); ("run", run_json (e_Run r));
                      ("version", JStr (e_Version r))] ++ if e_Warning r then [("warning", JStr warning_text)] else [])
  | DKernel backend r => JObj [("backend", JStr backend); ("run", run_json r); ("type", JStr "kernel")]
  end.
Definition payload (e : sse) : json :=
  match e with
  | Stdout_ b | Stderr_ b => JObj [("chunk", JStr b)]
  | Done d msg => done_json d msg
  end.
Definition nl : string := String newline "".
Definition event (e : sse) : string :=
  "event: " +:+ event_name e +:+ nl +:+ "data: " +:+ marshal (payload e) +:+ nl +:+ nl.

(** ** Streams *)
(** [true]: the pump of stdout gets the mutex next. *)
Fixpoint weave {A} (sched : list bool) (l r : list A) : list A :=
  match sched with
  | [] => l ++ r
  | true :: sched => match l with [] => r | x :: l => x :: weave sched l r end
  | false :: sched => match r with [] => l | y :: r => y :: weave sched l r end
  end.
(** What the handlers stream; [msg] is the text of the error, if there is one. *)
Record stream := { st_out : list string; st_err : list string; st_done : sdone }.
Definition of_exec (r : reply) : option stream :=
  match r with
  | SSE out err fin => Some {| st_out := out; st_err := err; st_done := from_option DStep DError fin |}
  | _ => None
  end.
Definition of_session (r : sreply) : option stream :=
  match r with RStream out err fin => Some {| st_out := out; st_err := err; st_done := fin |} | _ => None end.
Definition events (sched : list bool) (msg : string) (st : stream) : list sse :=
  weave sched (map Stdout_ (st_out st)) (map Stderr_ (st_err st)) ++ [Done (st_done st) msg].
Definition body (sched : list bool) (msg : string) (st : stream) : string := cat (map event (events sched msg st)).

(** ** A reader of event streams *)
(** Lines end with LF, CR or CRLF; a last line that does not end is dropped. *)
Fixpoint lines (s : string) : list string :=
  match s with
  | EmptyString => []
  | String c r =>
      if Ascii.eqb c newline then "" :: lines r
      else if Ascii.eqb c (chr 13) then
        "" :: match r with String d r' => if Ascii.eqb d newline then lines r' else lines r | EmptyString => [] end
      else match lines r with l :: ls => String c l :: ls | [] => [] end
  end.
(** A line is a field name, and a value after a colon and at most one space. *)
Fixpoint field (s : string) : string * string :=
  match s with
  | EmptyString => ("", "")
  | String c r =>
      if Ascii.eqb c ":" then ("", match r with String " " v => v | v => v end)
      else let '(f, v) := field r in (String c f, v)
  end.
(** An empty line dispatches what was collected: the event's type and data. *)
Fixpoint dispatch (type : string) (data : list string) (ls : list string) : list (string * string) :=
  match ls with
  | [] => []
  | l :: ls =>
      if String.eqb l "" then
        match data with
        | [] => dispatch "" [] ls
        | _ => (if String.eqb type "" then "message" else type, Strings.Join data nl) :: dispatch "" [] ls
        end
      else
        let '(f, v) := field l in
        if String.eqb f "event" then dispatch v data ls
        else if String.eqb f "data" then dispatch type (data ++ [v]) ls
        else dispatch type data ls
  end.
Definition sse_read (s : string) : list (string * string) := dispatch "" [] (lines s).

(** The text of the chunk events of a type. *)
Definition chunk_text (data : string) : option string :=
  let p := "{" +:+ jquote "chunk" +:+ ":" +:+ String dquote "" in
  if Strings.HasPrefix data p then
    match unquote (Strings.TrimPrefix data p) with Some (t, "}") => Some t | _ => None end
  else None.
Definition chunks (type : string) (got : list (string * string)) : list string :=
  omap (λ x, if String.eqb x.1 type then chunk_text x.2 else None) got.
Definition received (e : sse) : string * string := (event_name e, marshal (payload e)).

(** ** Reading back what was written *)
Lemma payload_numbers e : numbers (str_forall printable) (payload e) = true.
Proof. destruct e as [b|b|[|r|b r] msg]; try done. cbn. by destruct (e_Warning r). Qed.
Lemma lines_cons l r : str_forall printable l = true → lines (l +:+ nl +:+ r) = l :: lines r.
Proof.
  induction l as [|c l IH]; [done|]. cbn [str_forall]. intros [Hc Hl]%andb_true_iff. cbn [String.append lines].
  destruct (Ascii.eqb c newline) eqn:E1; [apply Ascii.eqb_eq in E1 as ->; discriminate Hc|].
  destruct (Ascii.eqb c (chr 13)) eqn:E2; [apply Ascii.eqb_eq in E2 as ->; discriminate Hc|].
  by rewrite (IH Hl).
Qed.
Lemma event_name_printable e : str_forall printable (event_name e) = true.
Proof. by destruct e as [| |[] ?]. Qed.
Lemma lines_event e r :
  lines (event e +:+ r) = ("event: " +:+ event_name e) :: ("data: " +:+ marshal (payload e)) :: "" :: lines r.
Proof.
  unfold event. rewrite <- !sapp_assoc.
  replace ("event: " +:+ event_name e +:+ nl +:+ "data: " +:+ marshal (payload e) +:+ nl +:+ nl +:+ r)
    with (("event: " +:+ event_name e) +:+ nl +:+ ("data: " +:+ marshal (payload e)) +:+ nl +:+ "" +:+ nl +:+ r)
    by (rewrite <- !sapp_assoc; done).
  rewrite lines_cons by (rewrite str_forall_app; apply event_name_printable).
  rewrite lines_cons by (rewrite str_forall_app; apply marshal_printable, payload_numbers).
  by rewrite lines_cons.
Qed.
Lemma dispatch_event n d ls : n ≠ "" →
  dispatch "" [] (("event: " +:+ n) :: ("data: " +:+ d) :: "" :: ls) = (n, d) :: dispatch "" [] ls.
Proof.
  intros Hn. transitivity (((if String.eqb n "" then "message" else n), d) :: dispatch "" [] ls); [reflexivity|].
  by rewrite (proj2 (String.eqb_neq _ _) Hn).
Qed.
Lemma sse_read_events es : sse_read (cat (map event es)) = map received es.
Proof.
  unfold sse_read. induction es as [|e es IH]; [done|].
  change (cat (map event (e :: es))) with (event e +:+ cat (map event es)).
  rewrite lines_event, dispatch_event, IH; [done|]. by destruct e as [| |[] ?].
Qed.

Lemma chunk_text_chunk b : chunk_text (marshal (JObj [("chunk", JStr b)])) = Some (sanitize b).
Proof.
  cbn [marshal map fst snd Strings.Join]. unfold chunk_text.
  set (p := "{" +:+ jquote "chunk" +:+ ":" +:+ String dquote "").
  replace ("{" +:+ (jquote "chunk" +:+ ":" +:+ jquote b) +:+ "}") with (p +:+ escape b +:+ String dquote "}")
    by (unfold p, jquote; rewrite <- !sapp_assoc; cbn [String.append]; by rewrite <- ?sapp_assoc).
  by rewrite Strings.HasPrefix_app, Strings.TrimPrefix_app, unquote_escape.
Qed.
Lemma chunks_app t l l' : chunks t (l ++ l') = chunks t l ++ chunks t l'.
Proof. apply omap_app. Qed.
Lemma chunks_same t (k : string → sse) bs : (∀ b, event_name (k b) = t) → (∀ b, payload (k b) = JObj [("chunk", JStr b)]) →
  chunks t (map received (map k bs)) = map sanitize bs.
Proof.
  intros Hn Hp. induction bs as [|b bs IH]; [done|]. cbn [map]. unfold chunks in *. cbn [omap list_omap received fst snd].
  rewrite Hn, String.eqb_refl, Hp, chunk_text_chunk. by rewrite IH.
Qed.
Lemma chunks_other t (k : string → sse) bs : (∀ b, event_name (k b) ≠ t) → chunks t (map received (map k bs)) = [].
Proof.
  intros Hn. induction bs as [|b bs IH]; [done|]. cbn [map]. unfold chunks in *. cbn [omap list_omap received fst snd].
  rewrite (proj2 (String.eqb_neq _ _) (Hn b)). exact IH.
Qed.
Lemma chunks_cons t e es : chunks t (map received (e :: es)) = chunks t [received e] ++ chunks t (map received es).
Proof. apply (chunks_app t [received e]). Qed.
(** What one pump sent is not reordered by the other. *)
Lemma chunks_weave t sched l r :
  chunks t (map received l) = [] ∨ chunks t (map received r) = [] →
  chunks t (map received (weave sched l r)) = chunks t (map received l) ++ chunks t (map received r).
Proof.
  revert l r. induction sched as [|[] sched IH]; intros l r Hlr; cbn [weave].
  - by rewrite map_app, chunks_app.
  - destruct l as [|x l]; [done|]. rewrite !chunks_cons in *. rewrite IH, app_assoc; [done|].
    destruct Hlr as [Hl|]; [left|by right]. by apply app_eq_nil in Hl as [_ ?].
  - destruct r as [|y r]; [by rewrite app_nil_r|]. rewrite !chunks_cons in *.
    destruct Hlr as [Hl|Hr].
    + rewrite IH, Hl by auto. done.
    + apply app_eq_nil in Hr as [H1 H2]. rewrite H1, IH, H2 by auto. done.
Qed.
Lemma read_stream sched msg st :
  let got := sse_read (body sched msg st) in
  got = map received (events sched msg st) ∧
  chunks "stdout" got = map sanitize (st_out st) ∧ chunks "stderr" got = map sanitize (st_err st).
Proof.
  cbv zeta. unfold body. rewrite sse_read_events. split; [done|]. unfold events.
  assert (Hd : ∀ t, t = "stdout" ∨ t = "stderr" → chunks t (map received [Done (st_done st) msg]) = []).
  { intros t Ht. apply (chunks_other t (λ m, Done (st_done st) m) [msg]). intros m.
    by destruct Ht as [-> | ->], (st_done st). }
  rewrite !map_app, !chunks_app, !Hd, !app_nil_r by auto.
  rewrite (chunks_weave "stdout"), (chunks_weave "stderr") by
    (first [by right; apply chunks_other | by left; apply chunks_other]).
  rewrite !(chunks_same _ Stdout_), !(chunks_same "stderr" Stderr_) by done.
  by rewrite (chunks_other "stdout" Stderr_), (chunks_other "stderr" Stdout_), app_nil_r by done.
Qed.
Lemma cat_sanitize l : Forall (λ s, valid_utf8 s = true) l → cat (map sanitize l) = cat l.
Proof.
  induction 1 as [|s l Hs _ IH]; [done|]. change (sanitize s +:+ cat (map sanitize l) = s +:+ cat l).
  by rewrite sanitize_valid, IH.
Qed.

(** ** The streams of /execute *)
(** What a backend promises a stream: a live sink is given exactly the bytes that
    the result reports. *)
Class FaithfulSink (backend : Spec → bool → outcome) : Prop :=
  faithful_sink s : o_err (backend s true) = None →
    cat (o_sink (backend s true)).1 = Stdout (o_res (backend s true)) ∧
    cat (o_sink (backend s true)).2 = Stderr (o_res (backend s true)).

Lemma Execute_faithful uni_lower g e : Forall (.≠ "") (x_out e) → Forall (.≠ "") (x_err e) →
  FaithfulSink (Execute uni_lower g e).
Proof.
  intros Ho He s. unfold Execute. destruct (x_tmp e) as [jobDir|]; [|done].
  destruct (x_chmod e); [|done]. cbn [negb]. destruct (write_files _ _ _ _) as [tr [err|]]; [done|].
  destruct (x_pipes e); [|done]. destruct (x_start e); [|done]. cbn [negb]. unfold collect.
  pose proof (pump_ok _ "" true (x_out e) (new_cap_ok (s_Limits s)) Ho) as H1.
  pose proof (pump_ok _ "" true (x_err e) (new_cap_ok (s_Limits s)) He) as H2.
  destruct (pump _ true (x_out e)) as [w1 o1], (pump _ true (x_err e)) as [w2 o2].
  destruct H1 as (_ & _ & B1 & _), H2 as (_ & _ & B2 & _).
  destruct (match inspectState (x_inspect e) with Some _ => _ | None => _ end) as [oom code].
  intros _. cbn. by rewrite B1, B2.
Qed.
(** The pool hands a streamed run to the cold path. *)
#[export] Instance pool_faithful uni_lower wp warm cold : FaithfulSink (Execute uni_lower (gv wp) cold) →
  FaithfulSink (λ s sink, (pool_Execute uni_lower wp warm cold s sink).1).
Proof. intros H s. apply (H s). Qed.

(** C27: C_sse: a stream says what happened and nothing else.  Whatever bytes the
    program writes, however they are cut into chunks and however the two pumps take
    turns, a standard reader of event streams sees exactly the events that were
    sent, so no output forges an event, and the last one is the handler's own
    [done] or [error]; the texts of the chunk events of a stream are, in order, the chunks
    with every byte that is not valid UTF-8 within its own chunk replaced by U+FFFD;
    so when every chunk is valid UTF-8 the reader has exactly the output that the
    result of the run reports. *)
Theorem sse_faithful backend_name backend `{!FaithfulSink backend} lang s sched msg :
  ∃ rep st, executeSSE backend_name backend true lang s = (rep, [s]) ∧ of_exec rep = Some st ∧
  let got := sse_read (body sched msg st) in
  got = map received (events sched msg st) ∧
  chunks "stdout" got = map sanitize (st_out st) ∧ chunks "stderr" got = map sanitize (st_err st) ∧
  ∀ r, st_done st = DStep r →
    (Forall (λ c, valid_utf8 c = true) (st_out st) → cat (chunks "stdout" got) = r_Stdout (e_Run r)) ∧
    (Forall (λ c, valid_utf8 c = true) (st_err st) → cat (chunks "stderr" got) = r_Stderr (e_Run r)).
Proof.
  eexists _, _. split; [done|]. split; [done|]. cbv zeta.
  match goal with |- context [events sched msg ?x] => set (st := x) end.
  destruct (read_stream sched msg st) as (H1 & H2 & H3).
  split; [done|]. split; [done|]. split; [done|]. rewrite H2, H3. unfold st. cbn [st_done st_out st_err].
  pose proof (faithful_sink s) as Hf. destruct (o_err (backend s true)); [done|].
  destruct (Hf eq_refl) as [E1 E2]. intros r [= <-].
  split; intros Hv; rewrite cat_sanitize by done; done.
Qed.

(** A character that arrives in two reads is lost: two bytes of one character come out as
    two replacement characters. *)
Definition eacute : string := String (chr 195) (String (chr 169) "").
Example split_character : valid_utf8 eacute = true ∧
  map sanitize [String (chr 195) ""; String (chr 169) ""] = [fffd; fffd].
Proof. vm_compute. done. Qed.

(** A program that prints what would be an event of its own. *)
Definition forged : string := "x" +:+ nl +:+ nl +:+ "event: done" +:+ nl +:+ "data: {}" +:+ nl +:+ nl.
Definition demo_run : xenv := {|
  x_tmp := Some "/t"; x_chmod := true; x_write := λ _, true; x_uuid := "u"; x_pipes := true; x_start := true;
  x_stat := λ _, None; x_out := [forged; eacute]; x_err := ["e"]; x_timeout := false; x_inspect := None; x_exit := Some 0;
  x_ms := 7 |}.
Definition demo_spec : Spec :=
  Catalogue.BuildSpec demo_python [] "" [] (clampLimits (Catalogue.DefaultLimits demo_python) None) false.
Lemma sse_faithful_witness : ∃ rep st got,
  executeSSE "gvisor" (Execute id NewGvisor demo_run) true demo_python demo_spec = (rep, [demo_spec]) ∧
  of_exec rep = Some st ∧ got = sse_read (body [true; false] "" st) ∧
  map fst got = ["stdout"; "stderr"; "stdout"; "done"] ∧ cat (chunks "stdout" got) = forged +:+ eacute.
Proof.
  assert (Hf : FaithfulSink (Execute id NewGvisor demo_run)) by (apply Execute_faithful; repeat constructor; done).
  destruct (sse_faithful "gvisor" (Execute id NewGvisor demo_run) demo_python demo_spec [true; false] "")
    as (rep & st & E1 & E2 & E3 & _ & _ & E4).
  exists rep, st, (sse_read (body [true; false] "" st)). split; [done|]. split; [done|]. split; [done|].
  injection E1 as <-. injection E2 as <-. split; [rewrite E3; vm_compute; reflexivity|].
  destruct (E4 _ eq_refl) as [E _]. rewrite E; [vm_compute; reflexivity|].
  repeat constructor; vm_compute; reflexivity.
Defined.
