(* ===== verification/ApiReplies.v ===== *)
(** * internal/api: the bodies of the replies

    [writeJSON] and the values the handlers give it, as the bytes on the wire, with the reader a
    client would write with the same tags; what such a client is told, and what JSON
    cannot tell it. *)

From S2P Require Import Prelude GoLib GoStrings GoFloat GoJSON GoUnmarshal GoUnmarshalSpec GoTime GoCodec Auth Executor ExecutorJSON Registry Bolt KV KVSpec KVList Volume VolumeMeta Session ApiHttp ApiExec ApiSessions ApiVolumes ApiKV KVWitness Sse.
Import JSON.

(** ** Bodies *)
(** The bytes that [writeJSON] sends after the status; [None]: a value [Encode] refuses, for
    which nothing is sent (the error is dropped). *)
Definition writeJSON (v : option json) : string :=
  match v with Some v => marshal v +:+ String newline "" | None => "" end.

(** A map is marshalled in the order of its keys; [detail] is the text of an error. *)
Definition error_json (code : string) (detail : option string) : list (string * json) :=
  match detail with Some d => [("detail", JStr d)] | None => [] end ++ [("error", JStr code)].
Definition response_json (r : execResponse) : list (string * json) := [
  ("language", JStr (e_Language r)); ("version", JStr (e_Version r)); ("backend", JStr (e_Backend r)); ("run", run_json (e_Run r))] ++
  omitempty "warning" (if e_Warning r then warning_text else "").
(** [None]: a time that has no text. *)
Definition info_json (i : Volume.Info) : option json :=
  t ← time_text (i_CreatedAt i);
  Some (JObj [("id", JStr (i_ID i)); ("name", JStr (i_Name i)); ("createdAt", JStr t); ("diskBytes", JInt (i_DiskBytes i));
              ("attachedRw", JBool (i_AttachedRW i))]).
Definition volumes_json (l : list Volume.Info) : option json := js ← mapM info_json l; Some (JObj [("volumes", JArr js)]).
Definition keys_json (ns : string) (keys : list string) (next : string) : list (string * json) := [
  ("keys", JArr (map JStr keys)); ("namespace", JStr ns); ("nextCursor", JStr next)].
Definition written_json (path : string) (n : Z) : list (string * json) := [("bytes", JInt n); ("path", JStr path)].
(** [time]: the creation time in the zone of the host. *)
Definition created_json (time : string) (r : createSessionResponse) : list (string * json) := [
  ("id", JStr (cr_ID r)); ("token", JStr (cr_Token r)); ("runtime", JStr (cr_Runtime r)); ("type", JStr (cr_Type r));
  ("createdAt", JStr time)].

Definition entry_json (local : Z → option string) (f : FileInfo) : option json :=
  t ← local (fi_ModTime f);
  Some (JObj [("name", JStr (fi_Name f)); ("size", JInt (fi_Size f)); ("dir", JBool (fi_Dir f)); ("modTime", JStr t)]).
Definition dir_json (local : Z → option string) (path : string) (l : list FileInfo) : option json :=
  js ← mapM (entry_json local) l; Some (JObj [("dir", JBool true); ("entries", JArr js); ("path", JStr path)]).

(** ** The body of each reply

    [ok] is the body of the handler's own replies, [detail] the [detail] of an error where it
    has one, [local] the text of a time in the zone of the host, where it has one. *)
Definition http_body {A} (ok : A → string) (detail : option string) (r : http A) : string :=
  match r with HErr _ code _ => writeJSON (Some (JObj (error_json code detail))) | HOk _ a => ok a end.
Definition kv_body (r : kreply) : string :=
  match r with
  | KNoContent | KNotModified _ => ""
  | KValue v => h_value v
  | KList ns keys next => writeJSON (Some (JObj (keys_json ns keys next)))
  end.
Definition volume_body (r : vreply) : string :=
  match r with VInfo i => writeJSON (info_json i) | VList l => writeJSON (volumes_json l) | VNoContent => "" end.
(** [None]: a stream, whose bytes are those of [Sse.body]. *)
Definition session_body (local : Z → option string) (r : sreply) : option string :=
  match r with
  | RCreated c => Some (writeJSON (t ← local (cr_CreatedAt c); Some (JObj (created_json t c))))
  | RExec r => Some (writeJSON (Some (JObj (response_json r))))
  | RStream _ _ _ => None
  | RDir path entries => Some (writeJSON (dir_json local path entries))
  | RFile data => Some data
  | RWritten path n => Some (writeJSON (Some (JObj (written_json path n))))
  | RNoContent => Some ""
  end.
Definition execute_body (detail : option string) (r : reply) : option string :=
  match r with
  | JError _ code _ => Some (writeJSON (Some (JObj (error_json code detail))))
  | JExec r => Some (writeJSON (Some (JObj (response_json r))))
  | SSE _ _ _ => None
  end.

(** ** A client *)
Definition read_body {A} (dec : list (string * jval) → option A) (b : string) : option A :=
  Unmarshal (λ v, match v with VObj fs => dec fs | _ => None end) b.
Definition error_tags : list string := ["error"; "detail"].
Definition read_error : string → option string := read_body (field error_tags dec_string "error" "").
Definition run_tags : list string :=
  ["stdout"; "stderr"; "exitCode"; "timedOut"; "oomKilled"; "truncated"; "durationMs"; "network"].
Definition dec_run : runResult → jval → option runResult :=
  dec_struct (λ old fs,
    o ← field run_tags dec_string "stdout" (r_Stdout old) fs; e ← field run_tags dec_string "stderr" (r_Stderr old) fs;
    c ← field run_tags dec_int "exitCode" (r_ExitCode old) fs; t ← field run_tags dec_bool "timedOut" (r_TimedOut old) fs;
    k ← field run_tags dec_bool "oomKilled" (r_OOMKilled old) fs; u ← field run_tags dec_bool "truncated" (r_Truncated old) fs;
    d ← field run_tags dec_int "durationMs" (r_DurationMs old) fs; n ← field run_tags dec_bool "network" (r_Net old) fs;
    Some {| r_Stdout := o; r_Stderr := e; r_ExitCode := c; r_TimedOut := t; r_OOMKilled := k; r_Truncated := u; r_DurationMs := d;
            r_Net := n |}).
Definition zero_run : runResult := toRunResult no_result.
Definition response_tags : list string := ["language"; "version"; "backend"; "run"; "warning"].
(** The fields of [execResponse]; a warning is there or not. *)
Definition read_response : string → option execResponse := read_body (λ fs,
  l ← field response_tags dec_string "language" "" fs; v ← field response_tags dec_string "version" "" fs;
  b ← field response_tags dec_string "backend" "" fs; r ← field response_tags dec_run "run" zero_run fs;
  w ← field response_tags dec_string "warning" "" fs;
  Some {| e_Language := l; e_Version := v; e_Backend := b; e_Run := r; e_Warning := negb (String.eqb w "") |}).
Definition info_tags : list string := ["id"; "name"; "createdAt"; "diskBytes"; "attachedRw"].
Definition zero_info : Volume.Info := {|
  i_ID := ""; i_Name := ""; i_CreatedAt := m_CreatedAt zero_meta; i_DiskBytes := 0; i_AttachedRW := false |}.
Definition dec_info : Volume.Info → jval → option Volume.Info :=
  dec_struct (λ old fs,
    i ← field info_tags dec_string "id" (i_ID old) fs; n ← field info_tags dec_string "name" (i_Name old) fs;
    c ← field info_tags dec_time "createdAt" (i_CreatedAt old) fs; d ← field info_tags dec_int "diskBytes" (i_DiskBytes old) fs;
    w ← field info_tags dec_bool "attachedRw" (i_AttachedRW old) fs;
    Some {| i_ID := i; i_Name := n; i_CreatedAt := c; i_DiskBytes := d; i_AttachedRW := w |}).
Definition read_volumes : string → option (list Volume.Info) :=
  read_body (λ fs, s ← field ["volumes"] (dec_slice zero_info dec_info) "volumes" nil_slice fs; Some (elems s)).
Definition keys_tags : list string := ["keys"; "namespace"; "nextCursor"].
Definition read_keys : string → option (list string * string) := read_body (λ fs,
  s ← field keys_tags (dec_slice "" dec_string) "keys" nil_slice fs; c ← field keys_tags dec_string "nextCursor" "" fs;
  Some (elems s, c)).
Definition created_tags : list string := ["id"; "token"; "runtime"; "type"; "createdAt"].
Definition read_created : string → option (string * string) := read_body (λ fs,
  i ← field created_tags dec_string "id" "" fs; t ← field created_tags dec_string "token" "" fs; Some (i, t)).

Definition read_info : string → option Volume.Info := read_body (dec_info zero_info ∘ VObj).
Definition read_written_file : string → option (string * Z) := read_body (λ fs,
  n ← field ["bytes"; "path"] dec_int "bytes" 0 fs; p ← field ["bytes"; "path"] dec_string "path" "" fs; Some (p, n)).

(** ** What the client reads *)
Lemma read_written {A} (dec : list (string * jval) → option A) fs : readable (JObj fs) = true → nesting (JObj fs) ≤ maxNestingDepth →
  read_body dec (writeJSON (Some (JObj fs))) = dec (map member_value fs).
Proof. intros Hj Hn. unfold read_body, writeJSON. by rewrite Unmarshal_object. Qed.
Ltac read_reply := unfold member_value; cbn [map app fst snd value_of]; find_fields; cbn [dec_string dec_bool mbind option_bind].

(** The run a client reads: U+FFFD for each byte of the output that is no UTF-8. *)
Definition run_shown (r : runResult) : runResult := {|
  r_Stdout := sanitize (r_Stdout r); r_Stderr := sanitize (r_Stderr r); r_ExitCode := r_ExitCode r; r_TimedOut := r_TimedOut r;
  r_OOMKilled := r_OOMKilled r; r_Truncated := r_Truncated r; r_DurationMs := r_DurationMs r; r_Net := r_Net r |}.
Definition response_shown (r : execResponse) : execResponse := {|
  e_Language := sanitize (e_Language r); e_Version := sanitize (e_Version r); e_Backend := sanitize (e_Backend r);
  e_Run := run_shown (e_Run r); e_Warning := e_Warning r |}.
Lemma dec_run_read r : in64 (r_ExitCode r) → in64 (r_DurationMs r) → dec_run zero_run (value_of (run_json r)) = Some (run_shown r).
Proof.
  intros H1 H2. unfold run_json, dec_run. cbn [dec_struct value_of map fst snd]. find_fields. cbn [dec_string dec_bool mbind option_bind].
  rewrite !dec_int_read by done. done.
Qed.
Lemma warned : String.eqb warning_text "" = false ∧ String.eqb (sanitize warning_text) "" = false.
Proof. split; vm_compute; reflexivity. Qed.
Lemma response_read r : in64 (r_ExitCode (e_Run r)) → in64 (r_DurationMs (e_Run r)) →
  read_response (writeJSON (Some (JObj (response_json r)))) = Some (response_shown r).
Proof.
  intros H1 H2. unfold read_response, response_json, response_shown. destruct warned as [W1 W2]. revert W1 W2. generalize warning_text. intros w W1 W2.
  unfold omitempty. destruct (e_Warning r).
  - rewrite W1. rewrite read_written by done. read_reply. rewrite dec_run_read by done. cbn [mbind option_bind]. by rewrite W2.
  - change (String.eqb "" "") with true. cbv iota. rewrite read_written by done. read_reply. by rewrite dec_run_read.
Qed.
(** The volumes JSON can carry. *)
Definition info_text (i : Volume.Info) : Prop := valid_utf8 (i_ID i) ∧ valid_utf8 (i_Name i) ∧ in64 (i_DiskBytes i).
Lemma dec_info_read i j : info_json i = Some j → info_text i → dec_info zero_info (value_of j) = Some i.
Proof.
  unfold info_json. destruct (time_text (i_CreatedAt i)) as [t|] eqn:Et; [|done]. intros E (H1 & H2 & H3). cbn [mbind option_bind] in E.
  apply (inj Some) in E as <-. unfold dec_info. cbn [dec_struct value_of map fst snd]. find_fields.
  rewrite !dec_string_read by done. cbn [mbind option_bind dec_time]. rewrite (sanitize_valid t) by (by eapply time_text_valid).
  rewrite (time_read_back _ _ Et). cbn [mbind option_bind]. rewrite dec_int_read by done. by destruct i.
Qed.
Lemma info_json_flat i j : info_json i = Some j → readable j = true ∧ nesting j ≤ 1.
Proof. unfold info_json. destruct (time_text _); [|done]. intros E. cbn [mbind option_bind] in E. by apply (inj Some) in E as <-. Qed.
Lemma infos_read l js : mapM info_json l = Some js → Forall info_text l →
  dec_elems zero_info dec_info [] (map value_of js) = Some l ∧ readable (JArr js) = true ∧ foldr Z.max 0 (map nesting js) ≤ 1.
Proof.
  revert js. induction l as [|i l IH]; intros js H Hf; [by injection H as <-|]. apply Forall_cons in Hf as [Hi Hf]. cbn [mapM] in H.
  apply bind_Some in H as (j & Ej & (js' & Ejs & [= <-])%bind_Some). destruct (IH js' Ejs Hf) as (I1 & I2 & I3).
  destruct (info_json_flat i j Ej) as [J1 J2]. split; [|split].
  - cbn [map dec_elems head default from_option tail]. rewrite (dec_info_read i j Ej Hi). cbn [mbind option_bind]. by rewrite I1.
  - unfold readable in *. cbn [numbers forallb] in *. by rewrite J1, I2.
  - cbn [map foldr]. lia.
Qed.
Lemma elems_all {A} (l : list A) n : n = List.length l → elems {| backing := l; slen := n |} = l.
Proof. intros ->. apply firstn_all. Qed.
Lemma volumes_read l v : volumes_json l = Some v → Forall info_text l → read_volumes (writeJSON (Some v)) = Some l.
Proof.
  unfold volumes_json. intros (js & Ej & [= <-])%bind_Some Hf. destruct (infos_read l js Ej Hf) as (H1 & H2 & H3).
  unfold read_volumes. rewrite read_written.
  - apply mapM_Some, Forall2_length in Ej. unfold member_value. cbn [map fst snd value_of]. find_fields. revert H1 Ej. clear.
    destruct js as [|j js]; cbn [map]; intros H1 Ej; [by destruct l|].
    cbn [dec_slice backing nil_slice]. fold (map value_of js). rewrite H1. cbn [mbind option_bind].
    rewrite elems_all; [done|]. rewrite Ej. cbn [List.length]. by rewrite length_map.
  - unfold readable in *. cbn [numbers forallb snd] in *. by rewrite H2.
  - cbn [nesting map snd foldr]. unfold maxNestingDepth. lia.
Qed.

(** A listing: every name as JSON shows it, the cursor as it is. *)
Lemma names_readable l : forallb readable (map JStr l) = true ∧ foldr Z.max 0 (map nesting (map JStr l)) = 0.
Proof. induction l as [|s l [I1 I2]]; [done|]. cbn [map forallb foldr nesting]. by rewrite I1, I2. Qed.
Lemma names_read l : dec_elems "" dec_string [] (map value_of (map JStr l)) = Some (map sanitize l).
Proof. induction l as [|s l IH]; [done|]. cbn [map dec_elems head tail default from_option value_of dec_string mbind option_bind]. by rewrite IH. Qed.
Lemma keys_read ns keys next : read_keys (writeJSON (Some (JObj (keys_json ns keys next)))) = Some (map sanitize keys, sanitize next).
Proof.
  destruct (names_readable keys) as [N1 N2]. pose proof (names_read keys) as N3. unfold read_keys, keys_json. rewrite read_written.
  - read_reply. revert N3. clear. destruct keys as [|k keys]; [done|]. cbn [map]. intros N3. cbn [dec_slice backing nil_slice]. 
    fold (map value_of (map JStr keys)). cbn [map] in N3. rewrite N3. cbn [mbind option_bind]. rewrite elems_all; [done|].
    cbn [List.length]. by rewrite !length_map.
  - unfold readable in *. cbn [numbers forallb snd] in *. by rewrite N1.
  - cbn [nesting map snd foldr]. rewrite N2. unfold maxNestingDepth. lia.
Qed.
Lemma cursor_valid s : valid_utf8 (encodeCursor s) = true.
Proof. apply ascii_valid, Base64.encode_ascii. Qed.
Lemma sanitize_all keys : Forall (λ k, valid_utf8 k = true) keys → map sanitize keys = keys.
Proof. induction 1 as [|k keys Hk _ IH]; [done|]. cbn [map]. by rewrite IH, sanitize_valid. Qed.
Lemma error_read code detail : read_error (writeJSON (Some (JObj (error_json code detail)))) = Some (sanitize code).
Proof. unfold read_error, error_json. destruct detail; rewrite read_written by done; unfold member_value; cbn [map app fst snd value_of]; by find_fields. Qed.
Lemma created_read t c : read_created (writeJSON (Some (JObj (created_json t c)))) = Some (sanitize (cr_ID c), sanitize (cr_Token c)).
Proof. unfold read_created, created_json. rewrite read_written by done. by read_reply. Qed.
Lemma written_file_read path n : in64 n → read_written_file (writeJSON (Some (JObj (written_json path n)))) = Some (sanitize path, n).
Proof. intros H. unfold read_written_file, written_json. rewrite read_written by done. read_reply. by rewrite dec_int_read. Qed.
Lemma info_read i v : info_json i = Some v → info_text i → read_info (writeJSON (Some v)) = Some i.
Proof.
  intros E Hi. pose proof (dec_info_read i v E Hi) as H. destruct (info_json_flat i v E) as [J1 J2].
  unfold info_json in E. destruct (time_text (i_CreatedAt i)) as [t|]; [|done]. cbn [mbind option_bind] in E. apply (inj Some) in E as <-.
  unfold read_info. rewrite read_written by (done || (unfold maxNestingDepth; cbn in *; lia)). exact H.
Qed.

(** ** The replies of the handlers *)

Section listing.
Context {DB : Type} {BO : Bolt DB} {RC : RecordCodec}.
(** The cursor of a page is empty or made of the characters of base64. *)
Lemma list_walk_cursor t pfx limit keys c : valid_utf8 (list_walk t pfx limit keys c).2 = true.
Proof.
  revert keys. induction c as [|[k v] c IH]; intros keys; [done|]. cbn [list_walk]. 
  repeat case_match; (done || apply IH || apply cursor_valid).
Qed.
Lemma list_tx_cursor t ns pfx limit start d : valid_utf8 (list_tx t ns pfx limit start d).2 = true.
Proof. unfold list_tx. case_match; [done|]. apply list_walk_cursor. Qed.
Lemma page_read t ns pfx limit start d :
  let '(keys, next) := list_tx t ns pfx limit start d in
  read_keys (kv_body (KList ns keys next)) = Some (map sanitize keys, next).
Proof.
  pose proof (list_tx_cursor t ns pfx limit start d) as H. destruct (list_tx t ns pfx limit start d) as [keys next]. cbn [snd] in H.
  cbn [kv_body]. by rewrite keys_read, (sanitize_valid next).
Qed.
Lemma kv_error_no_ok {A} (e : KVErr) st (a : A) : writeKVErr e ≠ HOk st a.
Proof. by destruct e. Qed.
Lemma handleKVList_read s c ctx ns limit prefix cur st r s' : handleKVList s c ctx ns limit prefix cur = (HOk st r, s') →
  ∃ keys next, r = KList ns keys next ∧ read_keys (http_body kv_body None (HOk st r)) = Some (map sanitize keys, next).
Proof.
  unfold handleKVList, KV.List. destruct (Middleware.reqTenant ctx) as [tenant|]; [|intros [=]].
  destruct (negb (validNamespace ns)); [by intros [= ?%kv_error_no_ok]|]. destruct (decodeCursor cur) as [start|]; [|by intros [= ?%kv_error_no_ok]].
  destruct (getDB s c tenant) as [[h|e] s1]; [|by intros [= ?%kv_error_no_ok]].
  match goal with |- context [list_tx ?t ?ns ?p ?l ?st ?d] => pose proof (page_read t ns p l st d) as H; destruct (list_tx t ns p l st d) as [keys next] end.
  intros [= <- <- _]. by exists keys, next.
Qed.
(** A client that asks for page after page with the cursor it read. *)
Fixpoint client_pages (fuel : nat) (d : DB) (t : Z) (ns pfx : string) (limit : Z) (cur : string) : option (list (list string)) :=
  match fuel with
  | O => None
  | S fuel =>
      start ← decodeCursor cur;
      let '(ks, next) := list_tx t ns pfx limit start d in
      '(seen, next) ← read_keys (kv_body (KList ns ks next));
      if String.eqb next "" then Some [seen] else rest ← client_pages fuel d t ns pfx limit next; Some (seen :: rest)
  end.
Lemma client_pages_same fuel d t ns pfx limit cur :
  client_pages fuel d t ns pfx limit cur = map (map sanitize) <$> pages fuel d t ns pfx limit cur.
Proof.
  revert cur. induction fuel as [|fuel IH]; intros cur; [done|]. cbn [client_pages pages]. destruct (decodeCursor cur) as [start|]; [|done].
  cbn [mbind option_bind]. pose proof (page_read t ns pfx limit start d) as H. destruct (list_tx t ns pfx limit start d) as [ks next]. rewrite H.
  cbn [mbind option_bind]. destruct (String.eqb next ""); [done|]. rewrite IH. by destruct (pages fuel d t ns pfx limit next).
Qed.
End listing.

Section theorem.
Context {DB : Type} {BO : Bolt DB} {RC : RecordCodec}.

(** C26: what a client reads is what the handler answered.  A reader that decodes the
    body of a reply with the same tags gets: of an error its code, with or without a detail;
    of a run every field, the two outputs with U+FFFD for each byte that is no UTF-8; of a
    volume listing exactly the volumes, times to the nanosecond; of a session just created its
    id and its token; of a key listing every name as JSON shows it and the cursor exactly, so that a
    client that follows the cursors it read sees the pages of the store, and each name as it is
    if it is UTF-8. *)
Theorem replies_read_back :
  (∀ A (ok : A → string) detail st code ra, valid_utf8 code →
     read_error (http_body ok detail (HErr st code ra)) = Some code) ∧
  (∀ r detail, in64 (r_ExitCode (e_Run r)) → in64 (r_DurationMs (e_Run r)) →
     read_response <$> execute_body detail (JExec r) = Some (Some (response_shown r))) ∧
  (∀ l, volumes_json l ≠ None → Forall info_text l → read_volumes (volume_body (VList l)) = Some l) ∧
  (∀ local c, local (cr_CreatedAt c) ≠ None → valid_utf8 (cr_ID c) → valid_utf8 (cr_Token c) →
     read_created <$> session_body local (RCreated c) = Some (Some (cr_ID c, cr_Token c))) ∧
  (∀ (s : Store DB) c ctx ns limit prefix cur st r s', handleKVList s c ctx ns limit prefix cur = (HOk st r, s') →
     ∃ keys next, r = KList ns keys next ∧ read_keys (http_body kv_body None (HOk st r)) = Some (map sanitize keys, next)) ∧
  (∀ fuel (d : DB) t ns pfx limit, client_pages fuel d t ns pfx limit "" = map (map sanitize) <$> pages fuel d t ns pfx limit "") ∧
  ∀ keys, Forall (λ k, valid_utf8 k = true) keys → map sanitize keys = keys.
Proof.
  repeat apply conj.
  - intros A ok detail st code ra H. cbn [http_body]. rewrite error_read, sanitize_valid; [done|by apply Is_true_true].
  - intros r detail H1 H2. cbn [execute_body fmap option_fmap option_map]. by rewrite response_read.
  - intros l H Hl. destruct (volumes_json l) as [v|] eqn:E; [|done]. unfold volume_body. rewrite E. by apply volumes_read.
  - intros local c H H1 H2. unfold session_body. destruct (local (cr_CreatedAt c)) as [t|]; [|done].
    cbn [mbind option_bind fmap option_fmap option_map]. rewrite created_read, !sanitize_valid; [done|by apply Is_true_true..].
  - intros s c ctx ns limit prefix cur st r s'. apply handleKVList_read.
  - intros fuel d t ns pfx limit. apply client_pages_same.
  - apply sanitize_all.
Qed.
End theorem.

(** ** Concrete replies *)
Definition demo_volume : Volume.Info := {|
  i_ID := "vol_0123456789abcdef"; i_Name := "data"; i_CreatedAt := 1760000000123456789; i_DiskBytes := 4096; i_AttachedRW := true |}.
Definition demo_reply : execResponse := {|
  e_Language := "python"; e_Version := "3.12"; e_Backend := "gvisor"; e_Warning := false;
  e_Run := {| r_Stdout := "a" +:+ String (byte_of_Z 255) "b"; r_Stderr := ""; r_ExitCode := -1; r_TimedOut := true; r_OOMKilled := false;
              r_Truncated := false; r_DurationMs := 1000; r_Net := false |} |}.
Definition demo_created : createSessionResponse := {|
  cr_ID := "s-1"; cr_Token := "t"; cr_Runtime := "python"; cr_Type := "kernel"; cr_CreatedAt := 0 |}.
#[local] Existing Instance KVWitness.simple_codec.
Example volume_bytes : volume_body (VList [demo_volume]) = marshal (JObj [("volumes", JArr [JObj [
  ("id", JStr "vol_0123456789abcdef"); ("name", JStr "data"); ("createdAt", JStr "2025-10-09T08:53:20.123456789Z");
  ("diskBytes", JInt 4096); ("attachedRw", JBool true)]])]) +:+ String newline "".
Proof. vm_compute. reflexivity. Qed.
Lemma replies_read_back_witness :
  read_volumes (volume_body (VList [demo_volume])) = Some [demo_volume] ∧
  (read_response <$> execute_body None (JExec demo_reply) = Some (Some (response_shown demo_reply)) ∧
   r_Stdout (e_Run (response_shown demo_reply)) = "a" +:+ fffd +:+ "b") ∧
  read_created <$> session_body time_text (RCreated demo_created) = Some (Some ("s-1", "t")) ∧
  read_error (http_body kv_body (Some "detail") (HErr 404 "not_found" None)) = Some "not_found" ∧
  ∃ keys next, (handleKVList KVWitness.s2 (KVWitness.at_ 120) (Some "public") "app" "1" "" "").1 = HOk 200 (KList "app" keys next) ∧
    read_keys (kv_body (KList "app" keys next)) = Some (["k1"], "azE").
Proof.
  destruct (replies_read_back (DB := KVWitness.db)) as (H1 & H2 & H3 & H4 & H5 & _).
  split; [apply H3; [vm_compute; congruence|repeat constructor; unfold in64; cbn; lia]|].
  split; [split; [apply H2; unfold in64; cbn; lia|vm_compute; reflexivity]|].
  split; [apply (H4 time_text demo_created); [vm_compute; congruence|done|done]|].
  split; [by apply H1|].
  destruct (handleKVList KVWitness.s2 (KVWitness.at_ 120) (Some "public") "app" "1" "" "") as [r s'] eqn:E.
  assert (r = HOk 200 (KList "app" ["k1"] "azE")) as -> by (change r with (fst (r, s')); rewrite <- E; vm_compute; reflexivity).
  exists ["k1"], "azE". split; [done|]. destruct (H5 _ _ _ _ _ _ _ _ _ _ E) as (keys & next & [= <- <-] & H). exact H.
Defined.
