(* ===== verification/Reaper.v ===== *)
(** * internal/reaper: removing containers left behind

    One sweep is two docker commands; between them the daemon goes on.  The docker command
    line is the class [Docker]: what a command prints, what it changes, and the containers
    there are, with the laws of the three commands the program relies on. *)

From S2P Require Import Prelude GoLib GoStrings Executor ExecutorSpec Registry ApiExec.
Import Strings.

(** ** The docker command line *)
(** A container under its short ID; [c_state] is what [inspect] prints of its end. *)
Record container := { c_name : string; c_managed : bool; c_kernel : bool; c_exited : bool; c_state : string }.
Class Docker (D : Type) := {
  view : D → gmap string container;
  output : D → list string → option string;      (* [.Output()]; [None]: an error *)
  run : D → list string → D * bool }.            (* [.Run()]; [false]: an error *)

Definition label : string := "isobox.managed=true".
Definition ps_args : list string := ["ps"; "-aq"; "--filter"; "label=" +:+ label; "--filter"; "status=exited"].
(** Every kernel container, running or exited. *)
Definition kernel_args : list string := ["ps"; "-aq"; "--filter"; "label=isobox.kernel=true"].
Definition inspect_args (name : string) : list string :=
  ["inspect"; name; "--format"; "{{.State.OOMKilled}}|{{.State.ExitCode}}"].
(** [strings.Fields], on the ASCII that docker prints. *)
Definition Fields (s : string) : list string := fields_func space1 "" s.

(** [ps] lists the IDs of the managed containers that have exited, or of the kernels; [rm -f] of IDs, which are never
    names, removes no other container, and all of them when it succeeds; [inspect]
    finds a container by its name, which is unique. *)
Class DockerSpec (D : Type) `{Docker D} := {
  ps_law d out id : output d ps_args = Some out →
    id ∈ Fields out ↔ ∃ c, view d !! id = Some c ∧ c_managed c = true ∧ c_exited c = true;
  ps_kernels d out id : output d kernel_args = Some out →
    id ∈ Fields out ↔ ∃ c, view d !! id = Some c ∧ c_kernel c = true;
  rm_law d ids : (∀ k c, view d !! k = Some c → c_name c ∉ ids) →
    view (run d ("rm" :: "-f" :: ids)).1 ⊆ view d ∧
    (∀ k, k ∉ ids → view (run d ("rm" :: "-f" :: ids)).1 !! k = view d !! k) ∧
    ((run d ("rm" :: "-f" :: ids)).2 = true → ∀ k, k ∈ ids → view (run d ("rm" :: "-f" :: ids)).1 !! k = None);
  inspect_law d id c : view d !! id = Some c → output d (inspect_args (c_name c)) = Some (c_state c);
  inspect_gone d name : (∀ id c, view d !! id = Some c → c_name c ≠ name) → output d (inspect_args name) = None;
  name_unique d k k' c c' : view d !! k = Some c → view d !! k' = Some c' → c_name c = c_name c' → k = k';
  name_no_id d d' k k' c : is_Some (view d !! k) → view d' !! k' = Some c → c_name c ≠ k }.

(** ** The sweep *)
Definition interval_or_default (interval : Z) : Z := if interval <=? 0 then 60 * 10 ^ 9 else interval.
Section sweep.
Context {D : Type} `{Docker D}.
(** The orphans, as the first command saw them. *)
Definition listing (d : D) (args : list string) : list string :=
  match output d args with Some out => Fields out | None => [] end.
Definition orphans (d : D) : list string := listing d ps_args.
(** The second command; the result says whether there was an error. *)
Definition remove (d : D) (ids : list string) : D * bool :=
  match ids with [] => (d, true) | _ => run d ("rm" :: "-f" :: ids) end.
Definition sweep (d : D) : D * bool := remove d (orphans d).
(** What [NewKernelEngine] does before any kernel is started. *)
Definition sweepOrphanKernels (d : D) : D := (remove d (listing d kernel_args)).1.
End sweep.

Section spec.
Context {D : Type} `{DS : DockerSpec D}.
(** What the daemon and its neighbours may do to containers meanwhile: one that has exited
    is removed or stays as it is; nothing else is promised. *)
Definition later (d d' : D) : Prop :=
  ∀ k c, view d !! k = Some c → c_exited c = true → view d' !! k = None ∨ view d' !! k = Some c.

Lemma orphans_spec d k : k ∈ orphans d → ∃ c, view d !! k = Some c ∧ c_managed c = true ∧ c_exited c = true.
Proof. unfold orphans, listing. destruct (output d ps_args) eqn:E; [by apply ps_law|by intros ?%elem_of_nil]. Qed.
Lemma kernels_spec d k : k ∈ listing d kernel_args → ∃ c, view d !! k = Some c ∧ c_kernel c = true.
Proof. unfold listing. destruct (output d kernel_args) eqn:E; [by apply ps_kernels|by intros ?%elem_of_nil]. Qed.
(** Removing IDs of containers removes these and nothing else. *)
Lemma remove_ids d d' ids : (∀ k, k ∈ ids → is_Some (view d !! k)) → let '(d2, ok) := remove d' ids in
  view d2 ⊆ view d' ∧ (∀ k, k ∉ ids → view d2 !! k = view d' !! k) ∧ (ok = true → ∀ k, k ∈ ids → view d2 !! k = None).
Proof.
  intros Hids. assert (Hn : ∀ k c, view d' !! k = Some c → c_name c ∉ ids).
  { intros k c Hk Hc%Hids. exact (name_no_id d d' _ k c Hc Hk eq_refl). }
  pose proof (rm_law d' ids Hn) as Hr. unfold remove. destruct ids as [|id ids].
  - split; [done|]. split; [done|]. by intros _ k ?%elem_of_nil.
  - destruct (run d' _) as [d2 ok]. exact Hr.
Qed.
Lemma remove_spec d d' : let '(d2, ok) := remove d' (orphans d) in
  view d2 ⊆ view d' ∧ (∀ k, k ∉ orphans d → view d2 !! k = view d' !! k) ∧
  (ok = true → ∀ k, k ∈ orphans d → view d2 !! k = None).
Proof. apply (remove_ids d). intros k (c & Hc & _)%orphans_spec. eauto. Qed.

(** the start of the kernel engine: if docker obeys, no kernel of an earlier process is left, and every other
    container is as it was. *)
Theorem start_removes_kernels d : let d2 := sweepOrphanKernels d in
  view d2 ⊆ view d ∧ (∀ k c, view d !! k = Some c → c_kernel c = false → view d2 !! k = Some c) ∧
  (output d kernel_args ≠ None → (remove d (listing d kernel_args)).2 = true →
   ∀ k c, view d2 !! k = Some c → c_kernel c = false).
Proof.
  cbv zeta. unfold sweepOrphanKernels.
  pose proof (remove_ids d d (listing d kernel_args) ltac:(intros k (c & Hc & _)%kernels_spec; eauto)) as Hr.
  destruct (remove d _) as [d2 ok]. cbn in *. destruct Hr as (H1 & H2 & H3). split; [done|split].
  - intros k c Hk Hc. rewrite H2; [done|]. intros (c0 & Hc0 & ?)%kernels_spec. congruence.
  - intros Ho Hok k c Hk. destruct (c_kernel c) eqn:E; [|done]. exfalso. rewrite H3 in Hk; [done..|].
    unfold listing. destruct (output d kernel_args) as [out|] eqn:Eo; [|done].
    apply (ps_kernels d out k Eo). exists c. split; [by apply (lookup_weaken _ _ _ _ Hk H1)|done].
Qed.

(** a sweep takes only what is over.  Whatever happened between its two
    commands, a container that is running when it is removed, or is not one of the
    sandbox's, is left as it is, nothing appears, and if the commands succeed every
    managed container that had exited when the sweep began is gone. *)
Theorem reaper_spares d d' : later d d' → let '(d2, ok) := remove d' (orphans d) in
  view d2 ⊆ view d' ∧
  (∀ k c, view d' !! k = Some c → c_exited c = false ∨ c_managed c = false → view d2 !! k = Some c) ∧
  (output d ps_args ≠ None → ok = true →
   ∀ k c, view d !! k = Some c → c_managed c = true → c_exited c = true → view d2 !! k = None).
Proof.
  intros Hl. pose proof (remove_spec d d') as Hr. destruct (remove d' (orphans d)) as [d2 ok].
  destruct Hr as (H1 & H2 & H3). split; [done|]. split.
  - intros k c Hk Hc. rewrite H2; [done|]. intros (c0 & Hc0 & Hm & He)%orphans_spec.
    destruct (Hl k c0 Hc0 He) as [E|E]; [congruence|]. rewrite Hk in E. injection E as ->. destruct Hc; congruence.
  - intros Ho Hok k c Hk Hm He. apply H3; [done|]. unfold orphans, listing. destruct (output d ps_args) as [out|] eqn:E; [|done].
    apply (ps_law d out k E). eauto.
Qed.

(** ** The executor reads the state of a container that has exited *)
Definition with_inspect (e : xenv) (o : option string) : xenv := {|
  x_tmp := x_tmp e; x_chmod := x_chmod e; x_write := x_write e; x_uuid := x_uuid e; x_pipes := x_pipes e;
  x_start := x_start e; x_stat := x_stat e; x_out := x_out e; x_err := x_err e; x_timeout := x_timeout e;
  x_inspect := o; x_exit := x_exit e; x_ms := x_ms e |}.

Lemma write_files_inspect uni_lower e o dir fs :
  write_files uni_lower (with_inspect e o) dir fs = write_files uni_lower e dir fs.
Proof. induction fs as [|f fs IH]; [done|]. cbn [write_files]. rewrite IH. done. Qed.
Lemma Execute_inspect uni_lower g e o s sink :
  o_err (Execute uni_lower g (with_inspect e o) s sink) = o_err (Execute uni_lower g e s sink) ∧
  (o_err (Execute uni_lower g e s sink) = None → x_timeout e = false →
   let r := o_res (Execute uni_lower g (with_inspect e o) s sink) in
   (OOMKilled r, ExitCode r) = default (false, default 0 (x_exit e)) (inspectState o)).
Proof.
  unfold Execute. cbn [with_inspect x_tmp x_chmod x_pipes x_start x_uuid x_stat x_inspect].
  destruct (x_tmp e) as [dir|]; [|done]. destruct (x_chmod e); [|done]. cbn [negb]. rewrite write_files_inspect.
  destruct (write_files _ _ _ _) as [tr [err|]]; [done|]. destruct (x_pipes e); [|done]. destruct (x_start e); [|done].
  cbn [negb]. unfold collect. cbn [with_inspect x_out x_err x_exit x_timeout].
  destruct (pump _ sink (x_out e)) as [w1 o1], (pump _ sink (x_err e)) as [w2 o2].
  destruct (inspectState o) as [[oom code]|], (inspectState (x_inspect e)) as [[oom' code']|];
    (split; [done|]; intros _ Ht; cbn; by rewrite Ht).
Qed.

(** C_reaper: a sweep between the end of a container and the inspection loses the
    verdict.  A run killed for its memory whose container exits just before
    a sweep is reported without the out-of-memory flag, with the exit code of the docker
    client; without the sweep it is reported as killed. *)
Theorem reaper_loses_verdict uni_lower g e s sink d id c code :
  view d !! id = Some c → c_name c = "iso-" +:+ x_uuid e → c_managed c = true → c_exited c = true →
  inspectState (Some (c_state c)) = Some (true, code) → x_timeout e = false →
  output d ps_args ≠ None → (sweep d).2 = true → o_err (Execute uni_lower g e s sink) = None →
  let report d := let r := o_res (Execute uni_lower g (with_inspect e (output d (inspect_args ("iso-" +:+ x_uuid e)))) s sink) in
                  (OOMKilled r, ExitCode r) in
  report d = (true, code) ∧ report (sweep d).1 = (false, default 0 (x_exit e)).
Proof.
  intros Hid Hn Hm He Hs Ht Hps Hok Hex. cbv zeta. rewrite <- Hn.
  split.
  - rewrite (inspect_law d id c Hid). destruct (Execute_inspect uni_lower g e (Some (c_state c)) s sink) as [_ E].
    rewrite (E Hex Ht), Hs. done.
  - assert (Hg : output (sweep d).1 (inspect_args (c_name c)) = None).
    { apply inspect_gone. intros k c' Hk Hc'. pose proof (remove_spec d d) as Hr. unfold sweep in *.
      destruct (remove d (orphans d)) as [d2 ok]. cbn in *. destruct Hr as (H1 & _ & H3).
      assert (k = id) as ->.
      { apply (name_unique d k id c' c); [|done|done]. by apply (lookup_weaken _ _ _ _ Hk H1). }
      rewrite H3 in Hk; [done|done|]. unfold orphans, listing. destruct (output d ps_args) as [out|] eqn:E; [|done].
      apply (ps_law d out id E). eauto. }
    rewrite Hg. destruct (Execute_inspect uni_lower g e None s sink) as [_ E]. by rewrite (E Hex Ht).
Qed.
End spec.

(** ** Two containers *)
(** A docker with room for two containers of fixed IDs and names; [Some (managed, exited, state)].
    The second is a kernel. *)
Definition two_docker : Type := option (bool * bool * string) * option (bool * bool * string).
Definition id1 : string := "0123456789ab".
Definition id2 : string := "0123456789ac".
Definition ctr (name : string) (x : bool * bool * string) : container :=
  {| c_name := name; c_managed := x.1.1; c_kernel := String.eqb name "iso-2"; c_exited := x.1.2; c_state := x.2 |}.
Definition listed (x : option (bool * bool * string)) : bool := match x with Some (m, e, _) => m && e | None => false end.
Definition two_view (d : two_docker) : gmap string container :=
  let add id name x m := match x with Some x => <[id := ctr name x]> m | None => m end in
  add id1 "iso-1" d.1 (add id2 "iso-2" d.2 ∅).
Definition two_output (d : two_docker) (args : list string) : option string :=
  if decide (args = ps_args) then
    Some ((if listed d.1 then id1 +:+ " " else "") +:+ (if listed d.2 then id2 else ""))
  else if decide (args = kernel_args) then Some (match d.2 with Some _ => id2 | None => "" end)
  else if decide (args = inspect_args "iso-1") then snd <$> d.1
  else if decide (args = inspect_args "iso-2") then snd <$> d.2 else None.
Definition two_run (d : two_docker) (args : list string) : two_docker * bool :=
  match args with
  | "rm" :: "-f" :: ids =>
      ((if bool_decide (id1 ∈ ids) then None else d.1, if bool_decide (id2 ∈ ids) then None else d.2), true)
  | _ => (d, false)
  end.
#[export] Instance two : Docker two_docker := {| view := two_view; output := two_output; run := two_run |}.
Lemma two_lookup (d : two_docker) k c : view d !! k = Some c ↔
  (k = id1 ∧ ctr "iso-1" <$> d.1 = Some c) ∨ (k = id2 ∧ ctr "iso-2" <$> d.2 = Some c).
Proof.
  cbn [view two]. unfold two_view. assert (id1 ≠ id2) by done.
  destruct d as [[x|] [y|]]; cbn [fst snd fmap option_fmap option_map];
    rewrite ?lookup_insert_Some, ?lookup_empty; naive_solver.
Qed.
Lemma two_ps (d : two_docker) k : k ∈ Fields (default "" (two_output d ps_args)) ↔
  (k = id1 ∧ listed d.1 = true) ∨ (k = id2 ∧ listed d.2 = true).
Proof.
  unfold two_output. rewrite decide_True by done.
  match goal with |- context [Some ?o] => set (out := o) end. change (default "" (Some out)) with out.
  assert (E : Fields out = (if listed d.1 then [id1] else []) ++ (if listed d.2 then [id2] else [])).
  { unfold out. destruct (listed d.1), (listed d.2); reflexivity. }
  rewrite E. destruct (listed d.1), (listed d.2); rewrite elem_of_app, ?list_elem_of_singleton, ?elem_of_nil; naive_solver.
Qed.
Lemma listed_spec n x : listed x = true ↔ ∃ c, ctr n <$> x = Some c ∧ c_managed c = true ∧ c_exited c = true.
Proof.
  destruct x as [[[m e] st]|]; cbn; [|naive_solver]. rewrite andb_true_iff. split; [eauto|].
  by intros (c & [= <-] & ? & ?).
Qed.
Lemma two_inspect (d : two_docker) name : two_output d (inspect_args name) =
  if String.eqb name "iso-1" then snd <$> d.1 else if String.eqb name "iso-2" then snd <$> d.2 else None.
Proof.
  unfold two_output. do 2 rewrite decide_False by done.
  destruct (String.eqb name "iso-1") eqn:E1; [apply String.eqb_eq in E1 as ->; by rewrite decide_True|].
  apply String.eqb_neq in E1. rewrite decide_False by (unfold inspect_args; congruence).
  destruct (String.eqb name "iso-2") eqn:E2; [apply String.eqb_eq in E2 as ->; by rewrite decide_True|].
  apply String.eqb_neq in E2. by rewrite decide_False by (unfold inspect_args; congruence).
Qed.
Lemma two_names (d : two_docker) k c : view d !! k = Some c →
  (k = id1 ∧ c_name c = "iso-1") ∨ (k = id2 ∧ c_name c = "iso-2").
Proof. rewrite two_lookup. destruct d as [[x|] [y|]]; cbn; naive_solver. Qed.
#[export] Instance two_spec : DockerSpec two_docker.
Proof.
  split.
  - intros d out k Ho. pose proof (two_ps d k) as Hp. change (two_output d ps_args) with (output d ps_args) in Hp.
    rewrite Ho in Hp. cbn [default] in Hp. rewrite Hp, (listed_spec "iso-1"), (listed_spec "iso-2").
    setoid_rewrite two_lookup. naive_solver.
  - intros d out k [= <-]. destruct d as [x [y|]]; cbn [snd].
    + change (Fields id2) with [id2]. rewrite list_elem_of_singleton. split.
      * intros ->. exists (ctr "iso-2" y). split; [apply two_lookup; by right|done].
      * intros (c & [[_ Hc]|[-> _]]%two_lookup & Hk); [|done]. destruct x; [|done]. injection Hc as <-. discriminate Hk.
    + split; [by intros ?%elem_of_nil|].
      intros (c & [[_ Hc]|[_ Hc]]%two_lookup & Hk); [|done]. destruct x; [|done]. injection Hc as <-. discriminate Hk.
  - intros d ids _. cbn [run two two_run fst snd]. repeat split.
    + apply map_subseteq_spec. intros k c. rewrite !two_lookup. cbn [fst snd].
      case_bool_decide; case_bool_decide; naive_solver.
    + intros k Hk. apply option_eq. intros c. rewrite !two_lookup. cbn [fst snd].
      case_bool_decide; case_bool_decide; naive_solver.
    + intros _ k Hk. apply eq_None_not_Some. intros [c Hc]. apply two_lookup in Hc. cbn [fst snd] in Hc.
      destruct Hc as [[-> Hc]|[-> Hc]]; rewrite bool_decide_eq_true_2 in Hc by done; done.
  - intros d k c Hk. cbn [output two]. rewrite two_inspect. apply two_lookup in Hk.
    destruct d as [[x|] [y|]]; cbn in Hk |- *; destruct Hk as [[_ Hk]|[_ Hk]]; try done; injection Hk as <-; done.
  - intros d name Hn. cbn [output two]. rewrite two_inspect.
    destruct (String.eqb name "iso-1") eqn:E1; [|destruct (String.eqb name "iso-2") eqn:E2; [|done]].
    + apply String.eqb_eq in E1 as ->. destruct d as [[x|] y]; [|done].
      destruct (Hn id1 (ctr "iso-1" x)); [apply two_lookup; by left|done].
    + apply String.eqb_eq in E2 as ->. destruct d as [x [y|]]; [|done].
      destruct (Hn id2 (ctr "iso-2" y)); [apply two_lookup; by right|done].
  - intros d k k' c c' [[-> E]|[-> E]]%two_names [[-> E']|[-> E']]%two_names Hc; congruence.
  - intros d d' k k' c [c0 Hk] Hk' E. apply two_names in Hk, Hk'.
    destruct Hk as [[-> _]|[-> _]], Hk' as [[_ E']|[_ E']]; rewrite E in E'; discriminate E'.
Qed.

(** The first container was killed for its memory, the second one runs. *)
Definition demo_two : two_docker := (Some (true, true, "true|137"), Some (true, false, "false|0")).
Lemma reaper_spares_witness : view (remove demo_two (orphans demo_two)).1 !! id1 = None ∧
  view (remove demo_two (orphans demo_two)).1 !! id2 = Some (ctr "iso-2" (true, false, "false|0")).
Proof.
  pose proof (reaper_spares demo_two demo_two ltac:(intros k c Hk _; by right)) as H.
  destruct (remove demo_two (orphans demo_two)) as [d2 ok] eqn:E. destruct H as (_ & H1 & H2). cbn [fst]. split.
  - apply (H2 ltac:(done) ltac:(injection E as _ <-; reflexivity) id1 (ctr "iso-1" (true, true, "true|137"))); [apply two_lookup; by left|done|done].
  - apply H1; [apply two_lookup; by right|by left].
Defined.
Definition oom_run : xenv := {|
  x_tmp := Some "/t"; x_chmod := true; x_write := λ _, true; x_uuid := "1"; x_pipes := true; x_start := true;
  x_stat := λ _, None; x_out := []; x_err := []; x_timeout := false; x_inspect := None; x_exit := Some 137; x_ms := 7 |}.
Definition oom_spec : Spec :=
  Catalogue.BuildSpec demo_python [] "" [] (clampLimits (Catalogue.DefaultLimits demo_python) None) false.
Lemma reaper_loses_verdict_witness :
  let report d := OOMKilled (o_res (Execute id NewGvisor (with_inspect oom_run (output d (inspect_args "iso-1"))) oom_spec false)) in
  report demo_two = true ∧ report (sweep demo_two).1 = false.
Proof.
  destruct (reaper_loses_verdict id NewGvisor oom_run oom_spec false demo_two id1 (ctr "iso-1" (true, true, "true|137")) 137)
    as [H1 H2]; [apply two_lookup; by left|done|done|done|vm_compute; reflexivity|done|done|vm_compute; reflexivity|vm_compute; reflexivity|].
  cbv zeta in H1, H2. apply (f_equal fst) in H1, H2. split; [exact H1|exact H2].
Defined.
