(* ===== verification/SessionVolumes.v ===== *)
(** * Volume locks under interleaving

    The session manager and the volume manager, composed as the API and the
    [OnDrop] callback compose them: the critical sections of any number of
    creates, teardowns, sweeps and volume calls, interleaved.  A create
    call in flight is a [cflight], a teardown between its claim and the callback
    an id of [w_drops].  Two ghost fields: the ids minted so far, and what
    [Attach] granted to an id that has not been released since. *)

From S2P Require Import Prelude GoLib GoStrings Sched Auth Volume VolumeSpec Executor Registry Kernel Session ApiExec ApiHttp ApiVolumes ApiSessions.
Import Strings.

(** [t], [vid]: the volume asked for; [q]: its object; [hp]: the path handed out. *)
Inductive cflight :=
| CMade (id t vid : string)                  (* in the table, before the lock *)
| CHeld (id t vid hp : string) (q : nat)     (* after the lock, before SetMounts *)
| CKernel (id t vid hp : string) (q : nat)   (* kernel: after the lock, before the table *)
| CFree (id t vid : string) (q : nat).       (* failed, before Release *)
Definition cid (f : cflight) : string :=
  match f with CMade id _ _ | CHeld id _ _ _ _ | CKernel id _ _ _ _ | CFree id _ _ _ => id end.

(** The volume object that a volume id named when it was looked up. *)
Definition names (v : Volume.Manager) (q : nat) (t vid : string) : Prop :=
  ∃ x, heap v !! q = Some x ∧ Tenant x = t ∧ ID x = vid.
(** Volume steps that are not part of a session call. *)
Definition lockless (s : VolumeSpec.step) : Prop :=
  match s with
  | SAttachLock (RW _ _) _ | SRelease _ _ _ | SReleaseAll _ => False
  | _ => step_ok s
  end.

(** ** Locks of the volume manager *)

(** [q] is indexed and held by [id]. *)
Definition holds_lock (v : Volume.Manager) (q : nat) (id : string) : Prop :=
  held v q id ∧ ∃ k, vols v !! k = Some q.

Lemma held_inj v q id id' : held v q id → held v q id' → id = id'.
Proof. intros (x & Hx & E) (y & Hy & E'). congruence. Qed.
Lemma held_set v q s q' id : held (set_holder v q s) q' id ↔
  (q' = q ∧ s = id ∧ is_Some (heap v !! q)) ∨ (q' ≠ q ∧ held v q' id).
Proof.
  unfold held. rewrite set_holder_lookup. case_decide as E; [subst q'|].
  - destruct (heap v !! q) as [x|]; cbn.
    + split; [intros (y & [= <-] & <-); left; by eauto|].
      intros [(_ & -> & _)|[? _]]; [|done]. eexists. by split.
    + split; [by intros (y & ? & _)|]. intros [(_ & _ & [? ?])|[? _]]; done.
  - split; [auto|]. by intros [(? & _)|[_ H]].
Qed.
Lemma holds_lock_set v q s q' id : holds_lock (set_holder v q s) q' id → id ≠ s → holds_lock v q' id.
Proof. intros [[(-> & -> & _)|[_ H]]%held_set Hk] Hne; [done|]. by split. Qed.
Lemma names_grows v v' q t vid : heap_grows (heap v) (heap v') → names v q t vid → names v' q t vid.
Proof. intros Hg (x & Hx & <- & <-). destruct (Hg q x Hx) as (y & Hy & [= E1 E2 _]). by exists y. Qed.

Lemma attach_lock_inv v q hp id r v' : attach_lock v (RW q hp) id = (Ok r, v') →
  r = (hp, true) ∧ v' = set_holder v q id ∧ ∀ id', held v q id' → id' = "" ∨ id' = id.
Proof.
  cbn [attach_lock]. cbv zeta. destruct (_ && _) eqn:E; [done|]. intros [= <- <-].
  split; [done|split; [done|]]. intros id' H%held_volume. rewrite H in E.
  apply andb_false_iff in E as [E|E]; boolp; auto.
Qed.

Lemma lockless_held v s q id : lockless s → held v q id → id ≠ "" → held (VolumeSpec.exec v s) q id.
Proof. intros Hs Hh Hn. apply held_exec; [done|done|]. destruct s as [| [|] | | | | | | | | ]; cbn in *; tauto. Qed.
Lemma lockless_grows v s : lockless s → heap_grows (heap v) (heap (VolumeSpec.exec v s)).
Proof.
  intros _. destruct (exec_shrinks v s) as [(e & t & n & ->)|(_ & H & _)]; [|done]. cbn [VolumeSpec.exec].
  destruct (Create_cases v e t n) as [(err & d & ->)|(i & d & x & -> & _)]; [done|]. apply heap_grows_snoc.
Qed.
Lemma lockless_holds v s q id : lockless s → index_ok v → holds_lock (VolumeSpec.exec v s) q id → id ≠ "" →
  holds_lock v q id.
Proof.
  intros Hs Hok Hh Hn. destruct s as [e t n|[hp|p hp] sid|t i sid|sid|p t i|rm t i|e r known seen| | | ];
    cbn [lockless VolumeSpec.exec] in *; try done.
  - destruct (Create_cases v e t n) as [(err & d & E)|(i & d & x & E & _ & _ & Hx & _)]; rewrite E in Hh; [done|].
    destruct Hh as [(y & Hy & <-) (k & Hk)]. cbn in Hy, Hk.
    apply lookup_insert_Some in Hk as [[<- <-]|[_ Hk]].
    + rewrite list_lookup_middle in Hy by done. by injection Hy as <-.
    + destruct (Hok k q Hk) as (z & Hz & _). rewrite (lookup_app_l_Some _ _ _ _ Hz) in Hy. injection Hy as <-.
      split; [by exists z|by exists k].
  - unfold delete_lock in Hh. destruct (negb _) in Hh; [done|]. destruct Hh as [Hh (k & Hk)].
    cbn in Hk. apply lookup_delete_Some in Hk as [_ Hk]. split; [done|]. by exists k.
  - unfold delete_files in Hh. by repeat case_match.
  - destruct (orphan_walk_same e r known seen v) as (E1 & E2 & _). destruct Hh as [(y & Hy & E) (k & Hk)].
    rewrite E1 in Hk. rewrite E2 in Hy. split; [by exists y|by exists k].
  - destruct Hh as [Hh (k & Hk)]. cbn in Hk. apply map_lookup_filter_Some in Hk as [Hk _]. split; [done|]. by exists k.
Qed.

Lemma Release_holds v t vid sid q id : holds_lock (Release v t vid sid) q id → id ≠ "" → holds_lock v q id.
Proof.
  unfold Release. destruct (vols v !! key t vid); [|done]. destruct (String.eqb _ _); [|done]. intros Hh Hn.
  by eapply holds_lock_set.
Qed.
Lemma Release_clears v t vid q id : index_ok v → names v q t vid → id ≠ "" →
  ¬ holds_lock (Release v t vid id) q id.
Proof.
  intros Hok (x & Hx & Ht & Hi) Hn Hh.
  destruct (Release_holds _ _ _ _ _ _ Hh Hn) as [Hb (k & Hk)].
  destruct (Hok k q Hk) as (y & Hy & -> & _). assert (y = x) as -> by congruence. rewrite Ht, Hi in Hk.
  revert Hh. unfold Release. rewrite Hk, (held_volume _ _ _ Hb), String.eqb_refl.
  intros [[(_ & <- & _)|[? _]]%held_set _]; done.
Qed.
Lemma ReleaseAll_held v sid q id : held (ReleaseAll v sid) q id → id ≠ "" →
  held v q id ∧ (id = sid → ¬ ∃ k, vols v !! k = Some q).
Proof.
  unfold ReleaseAll. intros Hh Hn.
  assert (H : held v q id ∧ (id = sid → q ∉ map snd (map_to_list (vols v)))).
  { revert v Hh. assert (G : ∀ l v, held (foldl (release_step sid) v l) q id →
      held v q id ∧ (id = sid → q ∉ map snd l)); [|intros v; apply G].
    intros l. induction l as [|[k p] l IH]; intros v Hh; [split; [done|]; intros _; apply not_elem_of_nil|].
    cbn [foldl] in Hh. apply IH in Hh as [Hh Hl]. unfold release_step in Hh. cbn [snd map] in *.
    destruct (String.eqb_spec (rwHolder (the_volume v p)) sid) as [E|E].
    - apply held_set in Hh as [(_ & <- & _)|[Hne Hh]]; [done|]. split; [done|].
      intros E' [?|Hin]%elem_of_cons; [done|]. by apply Hl.
    - split; [done|]. intros E' [->|Hin]%elem_of_cons; [|by apply Hl].
      apply E. rewrite <- E'. by apply held_volume. }
  split; [apply H|]. intros E (k & Hk). apply (proj2 H E). apply list_elem_of_fmap. exists (k, q).
  split; [done|]. by apply elem_of_map_to_list.
Qed.
Lemma ReleaseAll_holds v sid q id : holds_lock (ReleaseAll v sid) q id → id ≠ "" → holds_lock v q id ∧ id ≠ sid.
Proof.
  intros [Hh (k & Hk)] Hn. destruct (ReleaseAll_held _ _ _ _ Hh Hn) as [H1 H2].
  rewrite (proj1 (ReleaseAll_grows v sid)) in Hk. split; [split; [done|]|intros ->; apply H2; [done|]]; by exists k.
Qed.

Section world.
Context {W : Type} {SW : Weighted W}.
Implicit Types m : Session.Manager W.

Record world := {
  w_m : Session.Manager W; w_v : Volume.Manager; w_calls : list cflight; w_drops : list string;
  w_ids : gset string; w_grants : gmap string (nat * string) }.

(** Whatever leaves the table and the identity and mounts of every session alone. *)
Record quiet m m' : Prop := {
  q_table : sessions m' = sessions m;
  q_heap : ∀ p s, sheap m !! p = Some s → ∃ s', sheap m' !! p = Some s' ∧
    s_ID s' = s_ID s ∧ s_Token s' = s_Token s ∧ s_Tenant s' = s_Tenant s ∧ s_ExtraMounts s' = s_ExtraMounts s;
  q_drop : OnDrop m' = OnDrop m }.

Inductive wstep : world → world → Prop :=
| w_quiet m m' v cs ds ids gs : quiet m m' →
    wstep {| w_m := m; w_v := v; w_calls := cs; w_drops := ds; w_ids := ids; w_grants := gs |}
          {| w_m := m'; w_v := v; w_calls := cs; w_drops := ds; w_ids := ids; w_grants := gs |}
| w_volume m v s cs ds ids gs : lockless s →
    wstep {| w_m := m; w_v := v; w_calls := cs; w_drops := ds; w_ids := ids; w_grants := gs |}
          {| w_m := m; w_v := VolumeSpec.exec v s; w_calls := cs; w_drops := ds; w_ids := ids; w_grants := gs |}
(* filesystem sessions, and kernel sessions without a volume *)
| w_insert m v p s vol cs ds ids gs : sheap m !! p = Some s → s_ExtraMounts s = [] →
    s_ID s ≠ "" → s_ID s ∉ ids →
    wstep {| w_m := m; w_v := v; w_calls := cs; w_drops := ds; w_ids := ids; w_grants := gs |}
          {| w_m := insert m p; w_v := v; w_drops := ds; w_ids := {[s_ID s]} ∪ ids; w_grants := gs;
             w_calls := match vol with Some (t, vid) => CMade (s_ID s) t vid :: cs | None => cs end |}
| w_lock m v v' id t vid hp q hp' c1 c2 ds ids gs : names v q t vid →
    attach_lock v (RW q hp) id = (Ok (hp', true), v') →
    wstep {| w_m := m; w_v := v; w_calls := c1 ++ CMade id t vid :: c2; w_drops := ds; w_ids := ids; w_grants := gs |}
          {| w_m := m; w_v := v'; w_calls := c1 ++ CHeld id t vid hp' q :: c2; w_drops := ds; w_ids := ids;
             w_grants := <[id := (q, hp')]> gs |}
| w_refused m v id t vid c1 c2 ds ids gs :
    wstep {| w_m := m; w_v := v; w_calls := c1 ++ CMade id t vid :: c2; w_drops := ds; w_ids := ids; w_grants := gs |}
          {| w_m := m; w_v := v; w_calls := c1 ++ c2; w_drops := ds; w_ids := ids; w_grants := gs |}
| w_mounts m m' v id t vid hp q token c1 c2 ds ids gs :
    SetMounts m id token t [memory_mount hp] = (Ok tt, m') →
    wstep {| w_m := m; w_v := v; w_calls := c1 ++ CHeld id t vid hp q :: c2; w_drops := ds; w_ids := ids; w_grants := gs |}
          {| w_m := m'; w_v := v; w_calls := c1 ++ c2; w_drops := ds; w_ids := ids; w_grants := gs |}
| w_no_mounts m v id t vid hp q c1 c2 ds ids gs : sessions m !! id = None →
    wstep {| w_m := m; w_v := v; w_calls := c1 ++ CHeld id t vid hp q :: c2; w_drops := ds; w_ids := ids; w_grants := gs |}
          {| w_m := m; w_v := v; w_calls := c1 ++ CFree id t vid q :: c2; w_drops := ds; w_ids := ids; w_grants := gs |}
(* kernel sessions with a volume *)
| w_kernel_lock m v v' id t vid hp q hp' cs ds ids gs : names v q t vid → id ≠ "" → id ∉ ids →
    attach_lock v (RW q hp) id = (Ok (hp', true), v') →
    wstep {| w_m := m; w_v := v; w_calls := cs; w_drops := ds; w_ids := ids; w_grants := gs |}
          {| w_m := m; w_v := v'; w_calls := CKernel id t vid hp' q :: cs; w_drops := ds; w_ids := {[id]} ∪ ids;
             w_grants := <[id := (q, hp')]> gs |}
| w_kernel_insert m v p s t vid hp q c1 c2 ds ids gs : sheap m !! p = Some s →
    s_ExtraMounts s = [memory_mount hp] →
    wstep {| w_m := m; w_v := v; w_calls := c1 ++ CKernel (s_ID s) t vid hp q :: c2; w_drops := ds; w_ids := ids; w_grants := gs |}
          {| w_m := insert m p; w_v := v; w_calls := c1 ++ c2; w_drops := ds; w_ids := ids; w_grants := gs |}
| w_kernel_failed m v id t vid hp q c1 c2 ds ids gs :
    wstep {| w_m := m; w_v := v; w_calls := c1 ++ CKernel id t vid hp q :: c2; w_drops := ds; w_ids := ids; w_grants := gs |}
          {| w_m := m; w_v := v; w_calls := c1 ++ CFree id t vid q :: c2; w_drops := ds; w_ids := ids; w_grants := gs |}
| w_free m v id t vid q c1 c2 ds ids gs :
    wstep {| w_m := m; w_v := v; w_calls := c1 ++ CFree id t vid q :: c2; w_drops := ds; w_ids := ids; w_grants := gs |}
          {| w_m := m; w_v := Release v t vid id; w_calls := c1 ++ c2; w_drops := ds; w_ids := ids;
             w_grants := delete id gs |}
(* teardown *)
| w_claim m m' v id cs ds ids gs : claim m id = (true, m') →
    wstep {| w_m := m; w_v := v; w_calls := cs; w_drops := ds; w_ids := ids; w_grants := gs |}
          {| w_m := m'; w_v := v; w_calls := cs; w_drops := id :: ds; w_ids := ids; w_grants := gs |}
| w_on_drop m v id cs d1 d2 ids gs :
    wstep {| w_m := m; w_v := v; w_calls := cs; w_drops := d1 ++ id :: d2; w_ids := ids; w_grants := gs |}
          {| w_m := m; w_v := ReleaseAll v id; w_calls := cs; w_drops := d1 ++ d2; w_ids := ids;
             w_grants := delete id gs |}.

Inductive wreach (w : world) : world → Prop :=
| wr_refl : wreach w w
| wr_step w' w'' : wreach w w' → wstep w' w'' → wreach w w''.
Lemma wreach_trans w1 w2 w3 : wreach w1 w2 → wreach w2 w3 → wreach w1 w3.
Proof. intros H. induction 1; [done|]. by eapply wr_step. Qed.
Lemma wreach_one w w' : wstep w w' → wreach w w'.
Proof. intros H. eapply wr_step; [apply wr_refl|done]. Qed.

(** ** The invariant *)
Definition live (w : world) (id : string) : Prop :=
  is_Some (sessions (w_m w) !! id) ∨ id ∈ w_drops w ∨ id ∈ map cid (w_calls w).
Definition call_ok (v : Volume.Manager) (f : cflight) : Prop :=
  match f with
  | CMade id _ _ => ∀ q, ¬ holds_lock v q id
  | CHeld id t vid _ q | CKernel id t vid _ q | CFree id t vid q =>
      names v q t vid ∧ ∀ q', holds_lock v q' id → q' = q
  end.
(** What a call in flight knows of the table and of the grants. *)
Definition backed (w : world) (f : cflight) : Prop :=
  match f with
  | CMade id _ _ => w_grants w !! id = None
  | CHeld id _ _ hp q => is_Some (sessions (w_m w) !! id) → w_grants w !! id = Some (q, hp)
  | CKernel id _ _ hp q => w_grants w !! id = Some (q, hp) ∧ sessions (w_m w) !! id = None ∧ id ∉ w_drops w
  | CFree id _ _ _ => sessions (w_m w) !! id = None
  end.
(** A session in the table mounts only what it was granted. *)
Definition session_ok (w : world) (id : string) (p : nat) : Prop :=
  ∃ s, sheap (w_m w) !! p = Some s ∧ s_ID s = id ∧
    ∀ mt, mt ∈ s_ExtraMounts s → ∃ q hp, mt = memory_mount hp ∧ w_grants w !! id = Some (q, hp).

Record world_ok (w : world) : Prop := {
  wo_index : index_ok (w_v w);
  wo_holder : ∀ q id, holds_lock (w_v w) q id → id ≠ "" → live w id;
  wo_ids : ∀ id, live w id → id ∈ w_ids w;
  wo_named : "" ∉ w_ids w;
  wo_nodup : NoDup (map cid (w_calls w));
  wo_call : ∀ f, f ∈ w_calls w → call_ok (w_v w) f ∧ backed w f;
  wo_dropped : ∀ id, id ∈ w_drops w → sessions (w_m w) !! id = None;
  wo_grant : ∀ id q hp, w_grants w !! id = Some (q, hp) → held (w_v w) q id ∧ id ∈ w_ids w;
  wo_session : ∀ id p, sessions (w_m w) !! id = Some p → session_ok w id p }.
Implicit Types (v : Volume.Manager) (cs : list cflight) (ds : list string) (ids : gset string).
Local Abbreviation Wd := Build_world.

(** ** Preservation *)
Lemma live_perm m v cs cs' ds ds' ids gs id : cs ≡ₚ cs' → ds ≡ₚ ds' →
  live (Wd m v cs ds ids gs) id ↔ live (Wd m v cs' ds' ids gs) id.
Proof. intros P Q. unfold live. cbn. by rewrite Q, P. Qed.
Lemma world_perm m v cs cs' ds ds' ids gs : cs ≡ₚ cs' → ds ≡ₚ ds' →
  world_ok (Wd m v cs ds ids gs) → world_ok (Wd m v cs' ds' ids gs).
Proof.
  intros P Q [K1 K2 K3 K4 K5 K6 K7 K8 K9]. split; try done; cbn in *.
  - intros q id H Hn. rewrite <- (live_perm m v cs cs' ds ds' ids gs) by done. by apply (K2 q).
  - intros id. rewrite <- (live_perm m v cs cs' ds ds' ids gs) by done. apply K3.
  - by rewrite <- P.
  - intros f Hf. rewrite <- P in Hf. apply K6 in Hf as [H1 H2]. split; [done|]. destruct f; cbn in *; try done. by rewrite <- Q.
  - intros id. rewrite <- Q. apply K7.
Qed.

Lemma call_ok_mono v v' f : (∀ q, holds_lock v' q (cid f) → holds_lock v q (cid f)) →
  heap_grows (heap v) (heap v') → call_ok v f → call_ok v' f.
Proof.
  intros Hh Hg. destruct f as [id t vid|id t vid hp q|id t vid hp q|id t vid q]; cbn in *.
  1: intros H q Hq; by eapply H, Hh.
  all: intros [H1 H2]; split; [by eapply names_grows|]; intros q' Hq; by apply H2, Hh.
Qed.

(** A minted id is not the empty string. *)
Lemma call_named w f : world_ok w → f ∈ w_calls w → cid f ≠ "" ∧ cid f ∈ w_ids w.
Proof.
  intros Hw Hf. assert (Hi : cid f ∈ w_ids w).
  { apply (wo_ids _ Hw). right; right. apply list_elem_of_fmap. by exists f. }
  split; [|done]. intros E. rewrite E in Hi. by apply (wo_named _ Hw).
Qed.

Lemma volume_step_ok m v v' cs ds ids gs : index_ok v' → heap_grows (heap v) (heap v') →
  (∀ q id, id ≠ "" → holds_lock v' q id → holds_lock v q id) →
  (∀ q id, id ≠ "" → held v q id → held v' q id) →
  world_ok (Wd m v cs ds ids gs) → world_ok (Wd m v' cs ds ids gs).
Proof.
  intros Hi Hg Hh Hk Hw. pose proof Hw as [K1 K2 K3 K4 K5 K6 K7 K8 K9]. split; try done; cbn in *.
  - intros q id H Hn. apply (K2 q); [by apply Hh|done].
  - intros f Hf. destruct (K6 f Hf) as [H1 H2]. split; [|done].
    destruct (call_named _ f Hw Hf) as [Hn _]. eapply call_ok_mono; [|done|done]. intros q. by apply Hh.
  - intros id q hp Hq. destruct (K8 id q hp Hq) as [H1 H2]. split; [|done]. apply Hk; [|done]. by intros ->.
Qed.

Lemma mint_ok m v cs ds ids gs id : id ≠ "" → world_ok (Wd m v cs ds ids gs) →
  world_ok (Wd m v cs ds ({[id]} ∪ ids) gs).
Proof.
  intros Hn [K1 K2 K3 K4 K5 K6 K7 K8 K9]. split; try done; cbn in *.
  - intros id' H. apply elem_of_union_r. by apply K3.
  - rewrite elem_of_union, elem_of_singleton. by intros [?|?].
  - intros id' q hp H. destruct (K8 id' q hp H) as [H1 H2]. split; [done|]. by apply elem_of_union_r.
Qed.
Lemma fresh_unused w id : world_ok w → id ∉ w_ids w → id ≠ "" →
  ¬ live w id ∧ w_grants w !! id = None ∧ ∀ q, ¬ holds_lock (w_v w) q id.
Proof.
  intros Hw Hi Hn. assert (Hl : ¬ live w id) by (intros H; by apply Hi, (wo_ids _ Hw)).
  split; [done|]. split.
  - destruct (w_grants w !! id) as [[q hp]|] eqn:E; [|done]. by destruct (wo_grant _ Hw id q hp E).
  - intros q Hq. by apply Hl, (wo_holder _ Hw q).
Qed.
Lemma begin_ok m v cs ds ids gs id t vid : id ≠ "" → id ∉ ids → world_ok (Wd m v cs ds ids gs) →
  world_ok (Wd m v (CMade id t vid :: cs) ds ({[id]} ∪ ids) gs).
Proof.
  intros Hn Hi Hw. destruct (fresh_unused _ id Hw Hi Hn) as (Hl & Hgr & Hh). cbn in *.
  pose proof (mint_ok _ _ _ _ _ _ id Hn Hw) as [K1 K2 K3 K4 K5 K6 K7 K8 K9]. split; try done; cbn in *.
  - intros q id' H H'. destruct (K2 q id' H H') as [H1|[H1|H1]]; [by left|by right; left|]. right; right. by right.
  - intros id' [H|[H|H]]; cbn in H; [by apply K3; left|by apply K3; right; left|].
    apply elem_of_cons in H as [->|H]; [by apply elem_of_union_l, elem_of_singleton|]. by apply K3; right; right.
  - constructor; [|done]. intros H. apply Hl. right; by right.
  - intros f [->|Hf]%elem_of_cons; [done|]. by apply K6.
Qed.

(** A call ends, or moves on. *)
Lemma retire_ok m v f cs ds ids gs :
  (∀ q, holds_lock v q (cid f) → is_Some (sessions m !! cid f) ∨ cid f ∈ ds) →
  world_ok (Wd m v (f :: cs) ds ids gs) → world_ok (Wd m v cs ds ids gs).
Proof.
  intros Hf [K1 K2 K3 K4 K5 K6 K7 K8 K9]. apply NoDup_cons in K5 as [K5 K5']. split; try done; cbn in *.
  - intros q id H H'. destruct (K2 q id H H') as [H1|[H1|H1]]; [by left|by right; left|]. cbn in H1.
    apply elem_of_cons in H1 as [->|H1]; [|by right; right]. destruct (Hf q H); [by left|by right; left].
  - intros id [H|[H|H]]; apply K3; [by left|by right; left|]. right; right. by right.
  - intros g Hg. apply K6. by right.
Qed.
Lemma change_ok m v f f' cs ds ids gs : cid f' = cid f → call_ok v f' →
  backed (Wd m v cs ds ids gs) f' → world_ok (Wd m v (f :: cs) ds ids gs) → world_ok (Wd m v (f' :: cs) ds ids gs).
Proof.
  intros E Hc Hb [K1 K2 K3 K4 K5 K6 K7 K8 K9]. split; try done; cbn in *.
  - intros q id H H'. pose proof (K2 q id H H') as Hl. unfold live in *. cbn in *. by rewrite E.
  - intros id Hl. apply K3. unfold live in *. cbn in *. by rewrite <- E.
  - by rewrite E.
  - intros g [->|Hg]%elem_of_cons; [done|]. apply K6. by right.
Qed.
Lemma backed_ext w w' f : backed w f → w_grants w' !! cid f = w_grants w !! cid f →
  sessions (w_m w') !! cid f = sessions (w_m w) !! cid f → (cid f ∈ w_drops w' → cid f ∈ w_drops w) → backed w' f.
Proof.
  destruct f; cbn; intros H Eg Es Hd; rewrite ?Es, ?Eg; try done. destruct H as (H1 & H2 & H3).
  split; [done|split; [done|]]. auto.
Qed.
Lemma call_ne f f' cs : NoDup (map cid (f :: cs)) → f' ∈ cs → cid f' ≠ cid f.
Proof. intros [H _]%NoDup_cons Hf E. apply H. apply list_elem_of_fmap. by exists f'. Qed.

(** The lock is granted to a call that has none. *)
Lemma lock_ok m v v' id t vid q hp hp' f cs ds ids gs : names v q t vid →
  attach_lock v (RW q hp) id = (Ok (hp', true), v') →
  f = CHeld id t vid hp' q ∨ f = CKernel id t vid hp' q ∧ sessions m !! id = None ∧ id ∉ ds →
  world_ok (Wd m v (CMade id t vid :: cs) ds ids gs) →
  world_ok (Wd m v' (f :: cs) ds ids (<[id := (q, hp')]> gs)).
Proof.
  intros Hq Ha Hf Hw. destruct (attach_lock_inv _ _ _ _ _ _ Ha) as ([= <-] & -> & Hold).
  destruct (call_named _ (CMade id t vid) Hw) as [Hn _]; [by left|]. cbn in Hn.
  assert (Hid : cid f = id) by (by destruct Hf as [->|[-> _]]).
  pose proof Hw as [K1 K2 K3 K4 K5 K6 K7 K8 K9]. cbn in *.
  destruct (K6 (CMade id t vid)) as [Hnone Hgr]; [by left|]. cbn in Hnone, Hgr.
  split; cbn; rewrite ?Hid; try done.
  - by eapply index_ok_grow; [exact K1|done|apply heap_grows_holder].
  - intros q' id' H H'. destruct (decide (id' = id)) as [->|Hne]; [right; right; cbn; rewrite Hid; by left|].
    pose proof (K2 q' id' (holds_lock_set _ _ _ _ _ H Hne) H') as Hl. unfold live in *. cbn in *. by rewrite Hid.
  - intros id' Hl. apply K3. unfold live in *. cbn in *. by rewrite <- Hid.
  - intros g [->|Hg]%elem_of_cons.
    + assert (Hc : names (set_holder v q id) q t vid ∧ ∀ q', holds_lock (set_holder v q id) q' id → q' = q).
      { split; [by eapply names_grows; [apply heap_grows_holder|]|].
        intros q' [[(-> & _)|[_ H]]%held_set Hk]; [done|]. destruct (Hnone q'). by split. }
      destruct Hf as [->|(-> & H1 & H2)]; (split; [exact Hc|]); cbn; rewrite lookup_insert_eq; done.
    + pose proof (call_ne (CMade id t vid) g cs K5 Hg) as Hne. cbn in Hne. destruct (K6 g) as [H1 H2]; [by right|].
      split; [eapply call_ok_mono; [|apply heap_grows_holder|exact H1]; intros q' H; by eapply holds_lock_set|].
      eapply backed_ext; [exact H2|cbn; by rewrite lookup_insert_ne|done|done].
  - intros id' q' h [[<- [= <- <-]]|[Hne H]]%lookup_insert_Some.
    + split; [|apply K3; right; right; by left]. apply held_set. left. destruct Hq as (x & Hx & _). by eauto.
    + destruct (K8 id' q' h H) as [H1 H2]. split; [|done]. apply held_set. right. split; [|done].
      intros ->. destruct (Hold id' H1) as [->|?]; [|congruence]. by apply K4.
  - intros id' p H. destruct (K9 id' p H) as (s & Hs & Es & Hm). exists s. split; [done|split; [done|]]. cbn in *.
    intros mt Hmt. destruct (Hm mt Hmt) as (q' & h & -> & E). exists q', h. split; [done|].
    rewrite lookup_insert_ne; [done|]. intros ->. congruence.
Qed.

(** A grant is given back. *)
Lemma release_ok m v v' id cs ds ids gs : index_ok v' → heap_grows (heap v) (heap v') →
  (∀ q id', id' ≠ "" → holds_lock v' q id' → holds_lock v q id') →
  (∀ q id', id' ≠ "" → id' ≠ id → held v q id' → held v' q id') →
  sessions m !! id = None → (∀ t vid hp q, CKernel id t vid hp q ∉ cs) →
  world_ok (Wd m v cs ds ids gs) → world_ok (Wd m v' cs ds ids (delete id gs)).
Proof.
  intros Hi Hg Hh Hk Hs Hc Hw. pose proof Hw as [K1 K2 K3 K4 K5 K6 K7 K8 K9]. split; try done; cbn in *.
  - intros q id' H Hn. apply (K2 q); [by apply Hh|done].
  - intros f Hf. destruct (K6 f Hf) as [H1 H2]. destruct (call_named _ f Hw Hf) as [Hn _].
    split; [eapply call_ok_mono; [|exact Hg|exact H1]; intros q; by apply Hh|].
    destruct (decide (cid f = id)) as [E|E].
    + destruct f; cbn in *; subst; rewrite ?lookup_delete_eq, ?Hs; try done;
        first [by destruct (Hc _ _ _ _ Hf)|by intros [? ?]].
    + eapply backed_ext; [exact H2|cbn; by rewrite lookup_delete_ne|done|done].
  - intros id' q hp [Hne H]%lookup_delete_Some. destruct (K8 id' q hp H) as [H1 H2]. split; [|done].
    apply Hk; [|done|done]. by intros ->.
  - intros id' p H. destruct (K9 id' p H) as (s & Hs' & Es & Hm). exists s. split; [done|split; [done|]]. cbn in *.
    intros mt Hmt. destruct (Hm mt Hmt) as (q' & h & -> & E). exists q', h. split; [done|].
    rewrite lookup_delete_ne; [done|]. intros ->. congruence.
Qed.
Lemma free_ok m v id t vid q cs ds ids gs : world_ok (Wd m v (CFree id t vid q :: cs) ds ids gs) →
  world_ok (Wd m (Release v t vid id) cs ds ids (delete id gs)).
Proof.
  intros Hw. destruct (call_named _ (CFree id t vid q) Hw) as [Hn _]; [by left|]. cbn in Hn.
  pose proof Hw as [K1 K2 K3 K4 K5 K6 K7 K8 K9]. cbn in *.
  destruct (K6 (CFree id t vid q)) as [[H1 H2] H3]; [by left|]. cbn in H3.
  assert (Hok : index_ok (Release v t vid id)) by (by apply (index_ok_exec v (SRelease t vid id))).
  assert (Hg : heap_grows (heap v) (heap (Release v t vid id))).
  { destruct (exec_shrinks v (SRelease t vid id)) as [(? & ? & ? & [=])|(_ & Hg & _)]. exact Hg. }
  apply (retire_ok m _ (CFree id t vid q)).
  - cbn. intros q' Hq. assert (q' = q) as -> by (apply H2; by eapply Release_holds).
    by destruct (Release_clears v t vid q id K1 H1 Hn).
  - apply (release_ok m v); try done.
    + intros q' id' Hne H. by eapply Release_holds.
    + intros q' id' Hne Hne' H. by apply (held_exec v q' id' (SRelease t vid id)); [|done|cbn; congruence].
    + intros t' vid' hp' q' [[=]|Hin]%elem_of_cons. by destruct (call_ne (CFree id t vid q) _ cs K5 Hin).
Qed.
Lemma on_drop_ok m v id cs ds ids gs : world_ok (Wd m v cs (id :: ds) ids gs) →
  world_ok (Wd m (ReleaseAll v id) cs ds ids (delete id gs)).
Proof.
  intros Hw. pose proof Hw as [K1 K2 K3 K4 K5 K6 K7 K8 K9]. cbn in *.
  assert (Hn : id ≠ "") by (intros ->; apply K4, K3; right; left; by left).
  assert (Hok : index_ok (ReleaseAll v id)) by (by apply (index_ok_exec v (SReleaseAll id))).
  assert (Hw' : world_ok (Wd m (ReleaseAll v id) cs (id :: ds) ids (delete id gs))).
  { apply (release_ok m v); try done.
    - apply ReleaseAll_grows.
    - intros q id' Hne H. by apply (ReleaseAll_holds v id).
    - intros q id' Hne Hne' H. by apply (held_exec v q id' (SReleaseAll id)); [|done|cbn; congruence].
    - apply K7. by left.
    - intros t vid hp q Hin. destruct (K6 _ Hin) as [_ (_ & _ & H)]. apply H. by left. }
  clear K2 K3 K6 K7 K8 K9. destruct Hw' as [L1 L2 L3 L4 L5 L6 L7 L8 L9]. split; try done; cbn in *.
  - intros q id' H Hne. destruct (L2 q id' H Hne) as [H1|[H1|H1]]; [by left| |by right; right].
    cbn in H1. apply elem_of_cons in H1 as [->|H1]; [|by right; left]. by destruct (ReleaseAll_holds v id q id H Hne).
  - intros id' [H|[H|H]]; apply L3; [by left|right; left; by right|by right; right].
  - intros f Hf. destruct (L6 f Hf) as [H1 H2]. split; [done|].
    eapply backed_ext; [exact H2|done|done|]. cbn. intros H. by right.
  - intros id' H. apply L7. by right.
Qed.
(** ** Steps of the table *)
Lemma insert_lookup m p s : sheap m !! p = Some s → sessions (insert m p) = <[s_ID s := p]> (sessions m).
Proof. intros H. unfold insert, the_session. cbn. by rewrite H. Qed.

Lemma table_insert_ok m v p s cs ds ids gs : sheap m !! p = Some s → s_ID s ∈ ids → s_ID s ∉ ds →
  (∀ mt, mt ∈ s_ExtraMounts s → ∃ q hp, mt = memory_mount hp ∧ gs !! s_ID s = Some (q, hp)) →
  (∀ f, f ∈ cs → cid f = s_ID s → backed (Wd (insert m p) v cs ds ids gs) f) →
  world_ok (Wd m v cs ds ids gs) → world_ok (Wd (insert m p) v cs ds ids gs).
Proof.
  intros Hp Hi Hd Hm Hb [K1 K2 K3 K4 K5 K6 K7 K8 K9]. pose proof (insert_lookup m p s Hp) as Es.
  split; try done; cbn in *.
  - intros q id H Hn. destruct (K2 q id H Hn) as [H1|[H1|H1]]; [left|by right; left|by right; right]. cbn in *.
    rewrite Es. destruct (decide (s_ID s = id)) as [<-|Hne]; [rewrite lookup_insert_eq; by eexists|].
    by rewrite lookup_insert_ne.
  - intros id [H|[H|H]]; cbn in H; [|by apply K3; right; left|by apply K3; right; right].
    rewrite Es in H. destruct (decide (s_ID s = id)) as [<-|Hne]; [done|].
    rewrite lookup_insert_ne in H by done. by apply K3; left.
  - intros f Hf. destruct (K6 f Hf) as [H1 H2]. split; [done|].
    destruct (decide (cid f = s_ID s)) as [E|E]; [by apply Hb|].
    eapply backed_ext; [exact H2|done| |done]. cbn. rewrite Es. by rewrite lookup_insert_ne.
  - intros id H. rewrite Es, lookup_insert_ne; [by apply K7|]. intros E. by subst id.
  - intros id p'. rewrite Es. intros [[<- <-]|[Hne H]]%lookup_insert_Some; [by exists s|by apply K9].
Qed.

Lemma table_claim_ok m m' v id cs ds ids gs : claim m id = (true, m') →
  world_ok (Wd m v cs ds ids gs) → world_ok (Wd m' v cs (id :: ds) ids gs).
Proof.
  unfold claim. destruct (bool_decide _) eqn:Hin; [|done]. intros [= <-] [K1 K2 K3 K4 K5 K6 K7 K8 K9].
  boolp. split; try done; cbn in *.
  - intros q id' H Hn. destruct (K2 q id' H Hn) as [H1|[H1|H1]]; [|right; left; by right|by right; right].
    destruct (decide (id = id')) as [->|Hne]; [right; left; by left|left]. cbn in *. by rewrite lookup_delete_ne.
  - intros id' [H|[H|H]]; cbn in H; [| |by apply K3; right; right].
    + destruct H as [p [_ H]%lookup_delete_Some]. apply K3. left. by eexists.
    + apply elem_of_cons in H as [->|H]; [by apply K3; left|by apply K3; right; left].
  - intros f Hf. destruct (K6 f Hf) as [H1 H2]. split; [done|].
    destruct f as [i t vd|i t vd hp q|i t vd hp q|i t vd q]; cbn in *; [done| | |].
    + intros [p [_ H]%lookup_delete_Some]. apply H2. by eexists.
    + destruct H2 as (E & H2 & H3). split; [done|].
      assert (i ≠ id) by (intros ->; rewrite H2 in Hin; by apply is_Some_None in Hin).
      split; [by rewrite lookup_delete_ne|]. by intros [?|?]%elem_of_cons.
    + destruct (decide (id = i)) as [->|Hne]; [apply lookup_delete_eq|by rewrite lookup_delete_ne].
  - intros id' [->|H]%elem_of_cons; [apply lookup_delete_eq|].
    destruct (decide (id = id')) as [->|Hne]; [apply lookup_delete_eq|]. rewrite lookup_delete_ne by done. by apply K7.
  - intros id' p [_ H]%lookup_delete_Some. by apply K9.
Qed.

Lemma mounts_ok m m' v id t vid hp q token cs ds ids gs :
  SetMounts m id token t [memory_mount hp] = (Ok tt, m') →
  world_ok (Wd m v (CHeld id t vid hp q :: cs) ds ids gs) → world_ok (Wd m' v cs ds ids gs).
Proof.
  unfold SetMounts. destruct (authed m id token t) as [p|] eqn:Ha; [|done]. intros [= <-] Hw.
  assert (Hp : sessions m !! id = Some p).
  { revert Ha. unfold authed. destruct (sessions m !! id); [|done].
    destruct (negb _); [done|]. destruct (_ && _); [done|]. by intros [= <-]. }
  apply (retire_ok _ _ (CHeld id t vid hp q)); [intros q' _; left; cbn; by exists p|].
  pose proof Hw as [K1 K2 K3 K4 K5 K6 K7 K8 K9]. cbn in *.
  destruct (K6 (CHeld id t vid hp q)) as [_ Hg]; [by left|]. cbn in Hg. specialize (Hg ltac:(by exists p)).
  split; try done; cbn in *.
  intros id' p' H. destruct (K9 id' p' H) as (s & Hs & Es & Hm). cbn in *. unfold session_ok. cbn.
  destruct (decide (p = p')) as [<-|Hne].
  - rewrite list_lookup_alter_eq, Hs. eexists. split; [done|split; [done|]]. cbn.
    intros mt ->%list_elem_of_singleton. exists q, hp. split; [done|]. rewrite <- Es.
    destruct (K9 id p Hp) as (s' & Hs' & Es' & _). cbn in Hs'. assert (s' = s) as -> by congruence. by rewrite Es'.
  - rewrite list_lookup_alter_ne by done. by exists s.
Qed.

Lemma quiet_ok m m' v cs ds ids gs : quiet m m' →
  world_ok (Wd m v cs ds ids gs) → world_ok (Wd m' v cs ds ids gs).
Proof.
  intros [Q1 Q2 _] [K1 K2 K3 K4 K5 K6 K7 K8 K9]. split; try done; cbn in *; rewrite ?Q1; try done.
  - intros q id H Hn. pose proof (K2 q id H Hn) as Hl. unfold live in *. cbn in *. by rewrite Q1.
  - intros id H. apply K3. unfold live in *. cbn in *. by rewrite Q1 in H.
  - intros f Hf. destruct (K6 f Hf) as [H1 H2]. split; [done|]. eapply backed_ext; [exact H2|done| |done].
    cbn. by rewrite Q1.
  - intros id p H. destruct (K9 id p H) as (s & Hs & Es & Hm).
    destruct (Q2 p s Hs) as (s' & Hs' & E1 & _ & _ & E4). exists s'. cbn. rewrite E1, E4. done.
Qed.

Lemma wstep_ok w w' : wstep w w' → world_ok w → world_ok w'.
Proof.
  destruct 1 as [m m' v cs ds ids gs Hq|m v s cs ds ids gs Hs|m v p s vol cs ds ids gs Hp Hx Hn Hi
    |m v v' id t vid hp q hp' c1 c2 ds ids gs Hq Ha|m v id t vid c1 c2 ds ids gs
    |m m' v id t vid hp q token c1 c2 ds ids gs Hm|m v id t vid hp q c1 c2 ds ids gs Hs
    |m v v' id t vid hp q hp' cs ds ids gs Hq Hn Hi Ha|m v p s t vid hp q c1 c2 ds ids gs Hp Hx
    |m v id t vid hp q c1 c2 ds ids gs|m v id t vid q c1 c2 ds ids gs|m m' v id cs ds ids gs Hc
    |m v id cs d1 d2 ids gs];
    try (intros Hw; apply (world_perm _ _ _ _ _ _ _ _ (symmetry (Permutation_middle c1 c2 _)) (reflexivity ds)) in Hw;
         revert Hw).
  - by apply quiet_ok.
  - intros Hw. apply (volume_step_ok m v); [|by apply lockless_grows| | |done].
    + apply index_ok_exec; [by apply (wo_index _ Hw)|]. by destruct s as [| [|] | | | | | | | | ].
    + intros q id Hn H. by eapply lockless_holds; [|apply (wo_index _ Hw)| |].
    + intros q id Hn H. by apply lockless_held.
  - intros Hw. destruct (fresh_unused _ _ Hw Hi Hn) as (Hl & Hgr & _).
    assert (Hd : s_ID s ∉ ds) by (intros H; apply Hl; right; by left).
    assert (Hc : ∀ f, f ∈ cs → cid f ≠ s_ID s).
    { intros f Hf E. apply Hl. right; right. apply list_elem_of_fmap. by exists f. }
    apply (table_insert_ok _ _ _ s); [done|by apply elem_of_union_l, elem_of_singleton|done| | |].
    + rewrite Hx. by intros mt ?%elem_of_nil.
    + intros f Hf E. destruct vol as [[t vid]|]; [|by destruct (Hc f Hf)].
      apply elem_of_cons in Hf as [->|Hf]; [done|by destruct (Hc f Hf)].
    + destruct vol as [[t vid]|]; [by apply begin_ok|by apply mint_ok].
  - intros Hw. eapply (world_perm _ _ (_ :: c1 ++ c2)); [apply Permutation_middle|reflexivity|].
    eapply (lock_ok m v v' id t vid q hp hp'); [done|done|by left|done].
  - intros Hw. apply (retire_ok _ _ (CMade id t vid)); [|done]. cbn. intros q Hq.
    destruct (wo_call _ Hw (CMade id t vid)) as [H _]; [by left|]. by destruct (H q).
  - intros Hw. by eapply mounts_ok.
  - intros Hw. eapply (world_perm _ _ (_ :: c1 ++ c2)); [apply Permutation_middle|reflexivity|].
    apply (change_ok _ _ (CHeld id t vid hp q)); [done| |done|done].
    by destruct (wo_call _ Hw (CHeld id t vid hp q)) as [H _]; [left|].
  - intros Hw. destruct (fresh_unused _ _ Hw Hi Hn) as (Hl & _ & _).
    apply (lock_ok m v v' id t vid q hp hp'); [done|done| |by apply begin_ok].
    right. split; [done|]. cbn in Hl. split; [|intros H; apply Hl; right; by left].
    apply eq_None_not_Some. intros H. apply Hl. by left.
  - intros Hw. destruct (wo_call _ Hw (CKernel (s_ID s) t vid hp q)) as [H1 (H2 & H3 & H4)]; [by left|]. cbn in *.
    apply (retire_ok _ _ (CHeld (s_ID s) t vid hp q)).
    { intros q' _. left. cbn [cid]. rewrite (insert_lookup _ _ _ Hp), lookup_insert_eq. by eexists. }
    assert (Hw' : world_ok (Wd m v (CHeld (s_ID s) t vid hp q :: c1 ++ c2) ds ids gs)).
    { apply (change_ok _ _ (CKernel (s_ID s) t vid hp q)); [done|done| |done]. by intros _. }
    apply (table_insert_ok _ _ _ s); [done| |done| | |done].
    + apply (wo_ids _ Hw). right; right. by left.
    + rewrite Hx. intros mt ->%list_elem_of_singleton. by exists q, hp.
    + intros f [->|Hf]%elem_of_cons E; [intros _; exact H2|]. by destruct (call_ne _ _ _ (wo_nodup _ Hw') Hf).
  - intros Hw. eapply (world_perm _ _ (_ :: c1 ++ c2)); [apply Permutation_middle|reflexivity|].
    destruct (wo_call _ Hw (CKernel id t vid hp q)) as [H1 (H2 & H3 & H4)]; [by left|]. cbn in *.
    by apply (change_ok _ _ (CKernel id t vid hp q)).
  - by apply free_ok.
  - by apply table_claim_ok.
  - intros Hw. apply on_drop_ok.
    eapply (world_perm _ _ cs cs (d1 ++ id :: d2)); [reflexivity|symmetry; apply Permutation_middle|done].
Qed.
Lemma wreach_ok w w' : wreach w w' → world_ok w → world_ok w'.
Proof. induction 1 as [|w1 w2 _ IH Hs]; [done|]. intros Hw. eapply wstep_ok; [exact Hs|by apply IH]. Qed.
(** A daemon that has just started: no sessions, and no volume is held. *)
Definition fresh_world (w : world) : Prop :=
  sessions (w_m w) = ∅ ∧ index_ok (w_v w) ∧ (∀ q id, holds_lock (w_v w) q id → id = "") ∧
  w_calls w = [] ∧ w_drops w = [] ∧ w_ids w = ∅ ∧ w_grants w = ∅.
Lemma fresh_world_ok w : fresh_world w → world_ok w.
Proof.
  destruct w as [m v cs ds ids gs]. intros (E1 & H2 & H3 & E4 & E5 & E6 & E7). cbn in *. subst.
  split; cbn; try done.
  - intros q id H Hn. by apply H3 in H.
  - intros id [H|[H|H]]; cbn in H; [rewrite E1 in H; by destruct H|by apply elem_of_nil in H..].
  - constructor.
  - by intros f ?%elem_of_nil.
  - by intros id ?%elem_of_nil.
  - intros id p. by rewrite E1.
Qed.

(** C4: no volume lock leaks, and no volume has two writers.  However the calls
    of the API, the sweeps and the volume calls interleave, a volume of the index is
    held only by a session of the table or by a create or teardown in flight (so,
    when nothing is in flight, by a live session), and every volume mounted by a session of the
    table is held by that very session and granted to no other. *)
Theorem volume_locks_owned w0 w : fresh_world w0 → wreach w0 w →
  (∀ k q x, vols (w_v w) !! k = Some q → heap (w_v w) !! q = Some x → rwHolder x ≠ "" →
     live w (rwHolder x) ∧ (w_calls w = [] → w_drops w = [] → is_Some (sessions (w_m w) !! rwHolder x))) ∧
  (∀ id p mt, sessions (w_m w) !! id = Some p → mt ∈ s_ExtraMounts (the_session (w_m w) p) →
     ∃ q hp, mt = memory_mount hp ∧ w_grants w !! id = Some (q, hp) ∧ held (w_v w) q id ∧
       ∀ id' hp', w_grants w !! id' = Some (q, hp') → id' = id).
Proof.
  intros Hf Hr. pose proof (wreach_ok _ _ Hr (fresh_world_ok _ Hf)) as Hw. split.
  - intros k q x Hk Hx Hn. assert (Hl : live w (rwHolder x)).
    { apply (wo_holder _ Hw q); [|done]. split; [by exists x|by exists k]. }
    split; [done|]. intros Ec Ed. destruct Hl as [H|[H|H]]; [done| |].
    + rewrite Ed in H. by apply elem_of_nil in H.
    + rewrite Ec in H. by apply elem_of_nil in H.
  - intros id p mt Hp Hmt. destruct (wo_session _ Hw id p Hp) as (s & Hs & _ & Hm).
    unfold the_session in Hmt. rewrite Hs in Hmt. destruct (Hm mt Hmt) as (q & hp & E & Hg).
    exists q, hp. destruct (wo_grant _ Hw id q hp Hg) as [Hh _]. split; [done|split; [done|split; [done|]]].
    intros id' hp' Hg'. destruct (wo_grant _ Hw id' q hp' Hg') as [Hh' _]. by eapply held_inj.
Qed.
End world.
