(* ===== verification/ApiSessionsSpec.v ===== *)
(** * The session API refines its critical sections

    [POST] and [DELETE] of /v1/sessions and the two sweeps, each run without
    interference, are runs of the steps of SessionVolumes; the split of a step of
    a filesystem session around the backend; and a concrete server. *)

From S2P Require Import Prelude GoLib GoStrings GoCodec GoFloat Sched Auth Volume VolumeSpec Executor Registry Kernel Session SessionSlots SessionSpec ApiExec ApiHttp ApiVolumes ApiSessions SessionVolumes.

Section refines.
Context {W : Type} {SW : Weighted W} {SWS : WeightedSpec W} (uni_lower : string → string) (harnessPy : string).
Implicit Types (m : Session.Manager W) (v : Volume.Manager) (cs : list cflight) (ds : list string).
Local Abbreviation Wd := Build_world.
Local Abbreviation Create := (Session.Create uni_lower harnessPy).

(** ** Session calls, seen from the table *)
#[export] Instance quiet_refl : Reflexive (@quiet W).
Proof. intros m. split; [done| |done]. intros p s Hp. by exists s. Qed.
#[export] Instance quiet_trans : Transitive (@quiet W).
Proof.
  intros m1 m2 m3 [A1 A2 A3] [B1 B2 B3]. split; [congruence| |congruence]. intros p s Hp.
  destruct (A2 p s Hp) as (s2 & H2 & E1 & E2 & E3 & E4). destruct (B2 p s2 H2) as (s3 & H3 & F1 & F2 & F3 & F4).
  exists s3. split; [done|]. repeat split; congruence.
Qed.
Lemma quiet_same m m' : sessions m' = sessions m → sheap m' = sheap m → OnDrop m' = OnDrop m → quiet m m'.
Proof. intros E1 E2 E3. split; [done| |done]. intros p s Hp. exists s. by rewrite E2. Qed.
Lemma quiet_engine m ks : quiet m (set_engine m ks).
Proof. by apply quiet_same. Qed.
Lemma quiet_alloc m s : quiet m (alloc m s).2.
Proof. split; [done| |done]. intros p s' Hp. exists s'. split; [by apply lookup_app_l_Some|done]. Qed.
Lemma quiet_alter m p f : (∀ s, s_ID (f s) = s_ID s) → (∀ s, s_Token (f s) = s_Token s) →
  (∀ s, s_Tenant (f s) = s_Tenant s) → (∀ s, s_ExtraMounts (f s) = s_ExtraMounts s) → quiet m (alter_session m p f).
Proof.
  intros H1 H2 H3 H4. split; [done| |done]. intros q s Hq. cbn. destruct (decide (p = q)) as [->|Hne].
  - rewrite list_lookup_alter_eq, Hq. eexists. split; [done|]. by rewrite H1, H2, H3, H4.
  - rewrite list_lookup_alter_ne by done. by exists s.
Qed.
Lemma quiet_set_k m p k : quiet m (alter_session m p (set_k k)).
Proof. by apply quiet_alter. Qed.
Lemma quiet_release m e m' : krelease m e = Some m' → quiet m m'.
Proof. unfold krelease. destruct (Sched.Release (Slots e)); [|done]. cbn. intros [= <-]. apply quiet_engine. Qed.

(** Events without a callback. *)
Definition is_drop (e : sevent) : bool := match e with SOnDrop _ => true | _ => false end.
Definition dropless (ev : list sevent) : Prop := Forall (λ e, is_drop e = false) ev.
Ltac dropless := unfold dropless in *; repeat first [assumption|apply Forall_app; split|constructor; [reflexivity|]|constructor].
Lemma dropless_kernel ev : dropless (map SKernel ev).
Proof. induction ev; cbn; dropless. Qed.
Lemma on_drop_none vs ev : dropless ev → on_drop vs ev = vs.
Proof. unfold on_drop. revert vs. induction 1 as [|e ev H _ IH]; [done|]. cbn [foldl]. destruct e; try apply IH. done. Qed.
Lemma on_drop_app vs ev ev' : on_drop vs (ev ++ ev') = on_drop (on_drop vs ev) ev'.
Proof. apply foldl_app. Qed.

(** [Create] is quiet, or ends with the insertion of a session it just made. *)
Lemma Create_shape m x rt o r m' ev : Create m x rt o = Some (r, m', ev) →
  dropless ev ∧
  match r with
  | Err _ => quiet m m'
  | Ok p => ∃ m1 s, quiet m m1 ∧ sheap m1 !! p = Some s ∧ m' = insert m1 p ∧
      s_ID s = session_id x o ∧ s_Tenant s = o_Tenant o ∧ s_ExtraMounts s = o_ExtraMounts o
  end.
Proof.
  unfold Session.Create. destruct (create_check uni_lower m rt) as [lang|err]; [|intros [= <- <- <-]; split; [dropless|done]].
  destruct (mintToken x) as [tok|]; [|intros [= <- <- <-]; split; [dropless|done]].
  set (s := new_session m x o lang tok).
  destruct (c_mkdir x); cbn [negb]; [|intros [= <- <- <-]; split; [dropless|done]].
  destruct (alloc m s) as [p m1] eqn:Ha.
  assert (Hp : p = (alloc m s).1) by (by rewrite Ha). assert (Hm1 : m1 = (alloc m s).2) by (by rewrite Ha). clear Ha.
  assert (Hq1 : quiet m m1) by (rewrite Hm1; apply quiet_alloc).
  assert (Hs1 : sheap m1 !! p = Some s) by (rewrite Hm1, Hp; cbn; by rewrite lookup_app_r, Nat.sub_diag).
  destruct (negb (String.eqb (s_Type s) "kernel")).
  { intros [= <- <- <-]. split; [dropless|]. by exists m1, s. }
  destruct (Kernels m1) as [e|]; [|intros [= <- <- <-]; split; [dropless|done]].
  destruct (kslot m1 e (c_late x)) as [ok m2] eqn:Hsl.
  assert (Hq2 : quiet m1 m2 ∧ sheap m2 = sheap m1).
  { revert Hsl. unfold kslot. destruct (Acquire (Slots e) (c_late x)). intros [= _ <-]. split; [apply quiet_engine|done]. }
  destruct Hq2 as [Hq2 Hh2]. destruct ok; cbn [negb].
  2: { intros [= <- <- <-]. split; [dropless|]. by etransitivity. }
  destruct (Kernels m2) as [e2|]; [|done].
  destruct (kstart _ _ _ _ _ _ _ _) as [[err m3] kev] eqn:Hst.
  assert (Hk : dropless kev).
  { revert Hst. unfold kstart. destruct (NewKernel _ _ _ _ _ _ _) as [[rr e'] ev']. intros Hst.
    assert (kev = map SKernel ev') as -> by (by destruct rr; injection Hst). apply dropless_kernel. }
  destruct (kstart_inv _ _ _ _ _ _ _ _ _ _ _ Hst) as (e3 & _ & Hm3). destruct err as [err|].
  - destruct (Kernels m3) as [e4|]; [|done]. cbn [mbind option_bind].
    destruct (krelease m3 e4) as [m4|] eqn:Hr; [|done]. cbn [mbind option_bind]. intros [= <- <- <-].
    split; [dropless|].
    etransitivity; [exact Hq1|]. etransitivity; [exact Hq2|]. rewrite Hm3 in Hr.
    etransitivity; [apply quiet_engine|by eapply quiet_release].
  - destruct Hm3 as [k Hm3]. intros [= <- <- <-]. split; [dropless|].
    exists m3, (set_k (Some k) s). split.
    + etransitivity; [exact Hq1|]. etransitivity; [exact Hq2|]. rewrite Hm3.
      etransitivity; [apply quiet_engine|apply quiet_set_k].
    + rewrite Hm3. cbn. by rewrite Hh2, list_lookup_alter_eq, Hs1.
Qed.

(** What a teardown does after its claim. *)
Lemma teardown_shape m s reaped m' ev v : OnDrop m = true → teardown_session m s reaped = Some (m', ev) →
  quiet m m' ∧ on_drop (Some v) ev = Some (ReleaseAll v (s_ID s)).
Proof.
  intros Hd. unfold teardown_session.
  assert (Hend : ∀ kev, dropless kev →
    on_drop (Some v) (kev ++ [SOnDrop (s_ID s)] ++ [SRemoveAll (session_dir s)]) = Some (ReleaseAll v (s_ID s))).
  { intros kev Hk. by rewrite on_drop_app, (on_drop_none _ kev). }
  assert (Hnil : dropless []) by dropless.
  destruct (Kernels m) as [e|]; cbn [mbind option_bind].
  2: { rewrite Hd. intros [= <- <-]. split; [done|]. by apply (Hend []). }
  destruct (is_kernel s); cbn [negb mbind option_bind].
  2: { rewrite Hd. intros [= <- <-]. split; [done|]. by apply (Hend []). }
  destruct (if reaped then (m, []) else kdestroy m e (s_ID s)) as [m1 kev] eqn:Hk.
  assert (Hq : quiet m m1 ∧ dropless kev).
  { revert Hk. destruct reaped; [by intros [= <- <-]|]. unfold kdestroy. destruct (Kernel.Destroy e (s_ID s)).
    intros [= <- <-]. split; [apply quiet_engine|apply dropless_kernel]. }
  destruct (Kernels m1) as [e1|]; [|done]. cbn [mbind option_bind].
  destruct (krelease m1 e1) as [m2|] eqn:Hr; [|done]. cbn [mbind option_bind]. intros [= <- <-].
  pose proof (quiet_release _ _ _ Hr) as Hq2. destruct Hq as [Hq Hkev].
  assert (OnDrop m2 = true) as -> by (by rewrite (q_drop _ _ Hq2), (q_drop _ _ Hq)).
  split; [by etransitivity|by apply Hend].
Qed.

(** A run that leaves the calls in flight alone. *)
Definition runs m v m' v' : Prop := OnDrop m' = OnDrop m ∧ ∀ cs ds ids gs, ∃ gs',
  wreach (Wd m v cs ds ids gs) (Wd m' v' cs ds ids gs').
Lemma runs_refl m v : runs m v m v.
Proof. split; [done|]. intros cs ds ids gs. exists gs. apply wr_refl. Qed.
Lemma runs_trans m1 v1 m2 v2 m3 v3 : runs m1 v1 m2 v2 → runs m2 v2 m3 v3 → runs m1 v1 m3 v3.
Proof.
  intros [D1 H1] [D2 H2]. split; [congruence|]. intros cs ds ids gs.
  destruct (H1 cs ds ids gs) as (g1 & R1). destruct (H2 cs ds ids g1) as (g2 & R2).
  exists g2. by eapply wreach_trans.
Qed.
Lemma runs_quiet m v m' : quiet m m' → runs m v m' v.
Proof.
  intros Hq. split; [apply Hq|]. intros cs ds ids gs. exists gs. by apply wreach_one, w_quiet.
Qed.

Lemma drop_runs m v s reaped m' ev : OnDrop m = true → drop m s reaped = Some (m', ev) →
  ∃ v', on_drop (Some v) ev = Some v' ∧ runs m v m' v'.
Proof.
  intros Hd. unfold drop. destruct (claim m (s_ID s)) as [present m1] eqn:Hc.
  assert (E1 : OnDrop m1 = OnDrop m) by (unfold claim in Hc; by injection Hc as _ <-).
  destruct present; cbn [negb].
  2: { intros [= <- <-]. exists v. split; [done|].
       assert (m1 = m) as ->; [|apply runs_refl].
       unfold claim in Hc. injection Hc as Hb <-. boolp.
       rewrite delete_id by (by apply eq_None_not_Some). by destruct m. }
  intros Ht. destruct (teardown_shape m1 s reaped m' ev v) as [Hq Hv]; [congruence|done|].
  eexists. split; [exact Hv|]. split; [by rewrite (q_drop _ _ Hq)|]. intros cs ds ids gs.
  exists (delete (s_ID s) gs).
  eapply wreach_trans; [by apply wreach_one, (w_claim m m1 v (s_ID s))|].
  eapply wreach_trans; [by apply wreach_one, w_quiet|].
  apply wreach_one, (w_on_drop m' v (s_ID s) cs [] ds).
Qed.
Lemma Destroy_runs m v rm id token tenant r m' ev : OnDrop m = true →
  (∀ p, sessions m !! id = Some p → s_ID (the_session m p) = id) →
  Destroy m rm id token tenant = Some (r, m', ev) → ∃ v', on_drop (Some v) ev = Some v' ∧ runs m v m' v'.
Proof.
  intros Hd Hid. unfold Destroy. destruct (authed m id token tenant) as [p|err] eqn:Ha.
  2: { intros [= <- <- <-]. exists v. split; [done|apply runs_refl]. }
  assert (Hp : sessions m !! id = Some p) by (by apply (authed_spec m id token tenant) in Ha as (? & _)).
  pose proof (drop_runs m v (the_session m p) false m' ev Hd) as H. unfold drop in H. rewrite (Hid p Hp) in H.
  unfold claim in *. rewrite Hp in *. rewrite bool_decide_true in * by done. cbn [negb] in *.
  destruct (teardown_session _ _ _) as [[m1 ev1]|]; [|done]. cbn. intros [= <- <- <-]. by apply H.
Qed.
(** ** Sweeps *)
Definition swept m0 v0 (acc : Session.Manager W * list sevent) : Prop :=
  ∃ v, on_drop (Some v0) acc.2 = Some v ∧ runs m0 v0 acc.1 v.
Lemma swept_drop m0 v0 acc acc' s reaped : OnDrop m0 = true → swept m0 v0 acc →
  andthen acc (λ m, drop m s reaped) = Some acc' → swept m0 v0 acc'.
Proof.
  intros Hd (v & Hv & Hr). unfold andthen. destruct (drop acc.1 s reaped) as [[m' ev]|] eqn:E; [|done].
  cbn. intros [= <-]. destruct (drop_runs acc.1 v s reaped m' ev) as (v' & Hv' & Hr'); [|done|].
  - by rewrite (proj1 Hr).
  - exists v'. split; [cbn; by rewrite on_drop_app, Hv|]. by eapply runs_trans.
Qed.
(** *** What every drop keeps, a sweep keeps *)
Section sweeping.
Context (P : Session.Manager W * list sevent → Prop).
Hypothesis P_drop : ∀ acc acc' s reaped, P acc → andthen acc (λ m, drop m s reaped) = Some acc' → P acc'.

Lemma keeps_idle now sz snap : ∀ acc total live acc' t l,
  sweep_idle now sz acc total live snap = Some (acc', t, l) → P acc → P acc'.
Proof.
  induction snap as [|p snap IH]; intros acc total live acc' t l; cbn [sweep_idle]; [by intros [= <- _ _]|].
  assert (Hdrop : (acc ← andthen acc (λ m, drop m (the_session acc.1 p) false); sweep_idle now sz acc total live snap)
    = Some (acc', t, l) → P acc → P acc').
  { destruct (andthen acc _) as [acc1|] eqn:E; [|done]. cbn [mbind option_bind]. intros H Hs.
    eapply IH; [exact H|]. by eapply P_drop. }
  destruct (idle _ _ _); [done|]. destruct (DiskQuota acc.1 <? _); [done|]. apply IH.
Qed.
Lemma keeps_big live : ∀ acc total acc' t, sweep_big acc total live = Some (acc', t) → P acc → P acc'.
Proof.
  induction live as [|[s z] live IH]; intros acc total acc' t; cbn [sweep_big]; [by intros [= <- _]|].
  destruct (_ <=? _); [by intros [= <- _]|]. destruct (andthen acc _) as [acc1|] eqn:E; [|done].
  cbn [mbind option_bind]. intros H Hs. eapply IH; [exact H|]. by eapply P_drop.
Qed.
Lemma keeps_reaped rids : ∀ acc acc', drop_reaped acc rids = Some acc' → P acc → P acc'.
Proof.
  induction rids as [|id rids IH]; intros acc acc'; cbn [drop_reaped]; [by intros [= <-]|].
  destruct (sessions acc.1 !! id) as [p|]; [|apply IH].
  destruct (andthen acc (λ m, drop m (the_session m p) true)) as [acc1|] eqn:E; [|done].
  cbn [mbind option_bind]. intros H Hs. eapply IH; [exact H|].
  eapply (P_drop acc acc1 (the_session acc.1 p) true); [done|exact E].
Qed.
Lemma Sweep_keeps m now sz m' ev : P (m, []) → Sweep m now sz = Some (m', ev) →
  ∃ m1 u, P (m1, ev) ∧ m' = put m1 (Sema m1) (Kernels m1) (sessions m1) u (sheap m1).
Proof.
  intros H0. unfold Sweep. destruct (sweep_idle _ _ _ _ _ _) as [[[acc t] l]|] eqn:E1; [|done]. cbn [mbind option_bind].
  pose proof (keeps_idle _ _ _ _ _ _ _ _ _ E1 H0) as H1.
  destruct (if GlobalDiskMax m <? t then _ else _) as [[acc' t']|] eqn:E2; [|done]. cbn.
  intros [= <- <-]. exists acc'.1, t'. split; [|done]. rewrite <- surjective_pairing.
  revert E2. destruct (_ <? _); [|by intros [= <- _]]. intros E2. by eapply keeps_big.
Qed.
Lemma SweepKernels_keeps m now m' ev : P (m, []) → (∀ ks kev, P (set_engine m ks, map SKernel kev)) →
  SweepKernels m now = Some (m', ev) → P (m', ev).
Proof.
  intros H0 H1. unfold SweepKernels. destruct (Kernels m) as [e|]; [|by intros [= <- <-]].
  destruct (Reap e now) as [[rids e'] kev]. intros H. by apply (keeps_reaped _ _ _ H).
Qed.
End sweeping.

Lemma Sweep_runs m v now sz m' ev : OnDrop m = true → Sweep m now sz = Some (m', ev) →
  ∃ v', on_drop (Some v) ev = Some v' ∧ runs m v m' v'.
Proof.
  intros Hd H. destruct (Sweep_keeps (swept m v) (λ acc acc' s r, swept_drop m v acc acc' s r Hd) m now sz m' ev)
    as (m1 & u & (v' & Hv & Hr) & ->); [exists v; split; [done|apply runs_refl]|done|].
  exists v'. split; [done|]. eapply runs_trans; [exact Hr|]. apply runs_quiet. by apply quiet_same.
Qed.
Lemma SweepKernels_runs m v now m' ev : OnDrop m = true → SweepKernels m now = Some (m', ev) →
  ∃ v', on_drop (Some v) ev = Some v' ∧ runs m v m' v'.
Proof.
  intros Hd H. apply (SweepKernels_keeps (swept m v) (λ acc acc' s r, swept_drop m v acc acc' s r Hd) m now m' ev); [| |done].
  - exists v. split; [done|apply runs_refl].
  - intros ks kev. exists v. split; [by apply on_drop_none, dropless_kernel|]. apply runs_quiet, quiet_engine.
Qed.

(** ** The handlers *)
Lemma Attach_cases v x t vid id : index_ok v →
  (∃ e, Attach v x t vid id true = (Err e, v)) ∨
  ∃ hp q v', Attach v x t vid id true = (Ok (hp, true), v') ∧ names v q t vid ∧
    attach_lock v (RW q hp) id = (Ok (hp, true), v').
Proof.
  intros Hok. unfold Attach, attach_read.
  destruct (lookup v t vid) as [q|e] eqn:Hl; [|left; by eexists].
  destruct (Volume.HostPath v x t vid) as [hp|e]; [|left; by eexists]. cbn [negb].
  destruct (OverQuota v t vid) as [ov|e]; [|left; by eexists].
  destruct (fst ov); [left; by eexists|]. destruct (_ && _); [left; by eexists|].
  destruct (attach_lock v (RW q hp) id) as [[r|e] v'] eqn:Ha.
  - destruct (attach_lock_inv _ _ _ _ _ _ Ha) as (-> & _). right. exists hp, q, v'. split; [done|split; [|done]].
    destruct (lookup_spec v t vid q Hok Hl) as (y & Hy & <- & <- & _). by exists y.
  - left. exists e. revert Ha. cbn [attach_lock]. cbv zeta. destruct (_ && _); [|done]. by intros [= _ <-].
Qed.

Section create.
Context m v cs ds (ids : gset string) (gs : gmap string (nat * string)) (x : hcenv).
Hypothesis Hw : world_ok (Wd m v cs ds ids gs).
Hypothesis Hd : OnDrop m = true.
Let id := MintID (c_uuid (hc_create x)).
Hypothesis Hfresh : id ∉ ids.

Definition ends (s' : server W) : Prop := ∃ v' ids' gs', Volumes s' = Some v' ∧
  ids' ⊆ {[id]} ∪ ids ∧ wreach (Wd m v cs ds ids gs) (Wd (Sessions s') v' cs ds ids' gs').
Lemma minted_ne : id ≠ "".
Proof. done. Qed.
Lemma stays : ends {| Sessions := m; Volumes := Some v |}.
Proof. exists v, ids, gs. split; [done|]. split; [set_solver|apply wr_refl]. Qed.
Lemma quiet_ends m' : quiet m m' → ends {| Sessions := m'; Volumes := Some v |}.
Proof. intros Hq. exists v, ids, gs. split; [done|]. split; [set_solver|]. by apply wreach_one, w_quiet. Qed.

(** The session just inserted opens with its own token and tenant. *)
Lemma inserted_authed m1 p s : sheap m1 !! p = Some s →
  authed (insert m1 p) (s_ID s) (s_Token s) (s_Tenant s) = Ok p ∧ the_session (insert m1 p) p = s.
Proof.
  intros Hp. assert (Ht : the_session m1 p = s) by (unfold the_session; by rewrite Hp).
  assert (Ht' : the_session (insert m1 p) p = s) by done. split; [|done]. apply authed_spec.
  rewrite Ht', (insert_lookup m1 p s Hp), lookup_insert_eq. split; [done|split; [done|by right]].
Qed.

Lemma rolled_back_ends m1 p s v1 vids vgs ev (r : http sreply) r' s' ev' : sheap m1 !! p = Some s → OnDrop m1 = true →
  vids ⊆ {[id]} ∪ ids → wreach (Wd m v cs ds ids gs) (Wd (insert m1 p) v1 cs ds vids vgs) →
  rolled_back {| Sessions := insert m1 p; Volumes := Some v1 |} (s_ID s) (s_Token s) (s_Tenant s) ev r = Some (r', s', ev') →
  ends s'.
Proof.
  intros Hp Hd1 Hsub Hr. unfold rolled_back. cbn [Sessions].
  destruct (Destroy _ _ _ _ _) as [[[r1 m2] ev1]|] eqn:E; [|done]. cbn. intros [= _ <- _].
  destruct (Destroy_runs (insert m1 p) v1 true (s_ID s) (s_Token s) (s_Tenant s) r1 m2 ev1) as (v' & Hv & _ & Hruns);
    [done| |done|].
  - intros p'. rewrite (insert_lookup m1 p s Hp), lookup_insert_eq. intros [= <-].
    by destruct (inserted_authed m1 p s Hp) as [_ ->].
  - destruct (Hruns cs ds vids vgs) as (g2 & H2). exists v', vids, g2. split; [exact Hv|]. split; [exact Hsub|].
    by eapply wreach_trans.
Qed.

Lemma filesystem_ends t stype req r s' ev :
  createFilesystemSession uni_lower harnessPy {| Sessions := m; Volumes := Some v |} x t stype req = Some (r, s', ev) →
  ends s'.
Proof.
  unfold createFilesystemSession. cbn [Sessions].
  destruct (Session.Create _ _ _ _ _ _) as [[[rc m'] ev1]|] eqn:Hc; [|done]. cbn [mbind option_bind].
  destruct (Create_shape _ _ _ _ _ _ _ Hc) as [Hev Hs]. unfold after. cbn [Volumes]. rewrite (on_drop_none _ ev1) by done.
  destruct rc as [p|e]; [|intros [= _ <- _]; by apply quiet_ends].
  destruct Hs as (m1 & s & Hq & Hp & -> & Hid & Ht & Hx). destruct (inserted_authed m1 p s Hp) as [Hau Hthe].
  rewrite Hthe. assert (Eid : s_ID s = id) by done. clear Hid.
  assert (Et : t = s_Tenant s) by done. clear Ht. subst t.
  assert (Hins : ∀ vol, wreach (Wd m v cs ds ids gs) (Wd (insert m1 p) v
    match vol with Some (t, vid) => CMade (s_ID s) t vid :: cs | None => cs end ds ({[s_ID s]} ∪ ids) gs)).
  { intros vol. eapply wreach_trans; [by apply wreach_one, w_quiet|]. apply wreach_one.
    apply (w_insert m1 v p s vol cs ds ids gs); [done|done| |]; rewrite Eid; done. }
  assert (Hd1 : OnDrop m1 = true) by (by rewrite (q_drop _ _ Hq)).
  destruct (String.eqb (cs_VolumeID req) "").
  { intros [= _ <- _]. eexists v, ({[s_ID s]} ∪ ids), _. split; [done|]. split; [by rewrite Eid|apply (Hins None)]. }
  unfold attachVolume. cbn [Volumes]. specialize (Hins (Some (s_Tenant s, cs_VolumeID req))).
  assert (Hi : index_ok v) by apply Hw.
  destruct (Attach_cases v (hc_volume x) (s_Tenant s) (cs_VolumeID req) (s_ID s) Hi) as [(e & ->)|(hp & q & v' & -> & Hn & Hl)].
  - eapply (rolled_back_ends m1 p s v ({[s_ID s]} ∪ ids)); [done|done|by rewrite Eid|]. eapply wreach_trans; [exact Hins|].
    apply wreach_one, (w_refused _ _ _ _ _ []).
  - cbn [Sessions]. unfold SetMounts. rewrite Hau. intros [= _ <- _]. eexists v', ({[s_ID s]} ∪ ids), _. split; [done|]. split; [by rewrite Eid|].
    eapply wreach_trans; [exact Hins|]. eapply wreach_trans.
    { apply wreach_one. eapply (w_lock _ v v' (s_ID s) (s_Tenant s) (cs_VolumeID req) hp q hp []); done. }
    cbn [app]. apply wreach_one. apply (w_mounts _ _ v' (s_ID s) (s_Tenant s) (cs_VolumeID req) hp q (s_Token s) [] cs).
    unfold SetMounts. by rewrite Hau.
Qed.

Lemma kernel_ends t req r s' ev :
  createKernelSession uni_lower harnessPy {| Sessions := m; Volumes := Some v |} x t req = Some (r, s', ev) → ends s'.
Proof.
  unfold createKernelSession. cbn [Sessions Volumes]. cbv zeta. destruct (String.eqb (cs_VolumeID req) "") eqn:Hvid.
  - destruct (Session.Create _ _ _ _ _ _) as [[[rc m'] ev1]|] eqn:Hc; [|done]. cbn [mbind option_bind].
    destruct (Create_shape _ _ _ _ _ _ _ Hc) as [Hev Hs]. unfold after. cbn [Volumes]. rewrite (on_drop_none _ ev1) by done.
    destruct rc as [p|e]; [|intros [= _ <- _]; by apply quiet_ends].
    destruct Hs as (m1 & s & Hq & Hp & -> & Hid & Ht & Hx). assert (Eid : s_ID s = id) by done.
    intros [= _ <- _]. eexists v, ({[s_ID s]} ∪ ids), _. split; [done|]. split; [by rewrite Eid|].
    eapply wreach_trans; [by apply wreach_one, w_quiet|]. apply wreach_one.
    apply (w_insert m1 v p s None cs ds ids gs); [done|done| |]; rewrite Eid; done.
  - assert (Hi : index_ok v) by apply Hw.
    destruct (Attach_cases v (hc_volume x) t (cs_VolumeID req) id Hi) as [(e & E)|(hp & q & v' & E & Hn & Hl)].
    { fold id. rewrite E. intros [= _ <- _]. apply stays. }
    fold id. rewrite E. unfold set_volumes. cbn [Sessions Volumes].
    destruct (Session.Create _ _ _ _ _ _) as [[[rc m'] ev1]|] eqn:Hc; [|done]. cbn [mbind option_bind].
    destruct (Create_shape _ _ _ _ _ _ _ Hc) as [Hev Hs]. unfold after. cbn [Volumes Sessions]. rewrite (on_drop_none _ ev1) by done.
    assert (Hlock : wreach (Wd m v cs ds ids gs)
      (Wd m v' (CKernel id t (cs_VolumeID req) hp q :: cs) ds ({[id]} ∪ ids) (<[id := (q, hp)]> gs))).
    { apply wreach_one. eapply (w_kernel_lock m v v' id t (cs_VolumeID req) hp q hp cs); done. }
    destruct rc as [p|e].
    + destruct Hs as (m1 & s & Hq & Hp & -> & Hid & Ht & Hx). assert (Eid : s_ID s = id) by done.
      intros [= _ <- _]. eexists v', ({[id]} ∪ ids), _. split; [done|]. split; [done|]. eapply wreach_trans; [exact Hlock|].
      eapply wreach_trans; [by apply wreach_one, w_quiet|]. rewrite <- Eid. apply wreach_one.
      by apply (w_kernel_insert m1 v' p s t (cs_VolumeID req) hp q [] cs).
    + intros [= _ <- _]. eexists (Release v' t (cs_VolumeID req) id), ({[id]} ∪ ids), _. split; [done|]. split; [done|].
      eapply wreach_trans; [exact Hlock|]. eapply wreach_trans; [by apply wreach_one, w_quiet|].
      eapply wreach_trans; [apply wreach_one, (w_kernel_failed _ _ _ _ _ _ _ [])|].
      apply wreach_one, (w_free _ _ _ _ _ _ [] cs).
Qed.

Lemma create_ends ctx b r s' ev :
  handleCreateSession uni_lower harnessPy {| Sessions := m; Volumes := Some v |} x ctx b = Some (r, s', ev) → ends s'.
Proof.
  unfold handleCreateSession.
  set (req := match b with Body r => r | _ => no_request end).
  assert (H : (if String.eqb (cs_Runtime req) "" then
      Some (HErr 400 "runtime_required" None, {| Sessions := m; Volumes := Some v |}, []) else
      match Middleware.reqTenant ctx with
      | inr _ => Some (no_tenant, {| Sessions := m; Volumes := Some v |}, [])
      | inl tenant =>
          let stype := if String.eqb (cs_Type req) "" then "filesystem" else cs_Type req in
          if String.eqb stype "kernel" then createKernelSession uni_lower harnessPy {| Sessions := m; Volumes := Some v |} x tenant req
          else createFilesystemSession uni_lower harnessPy {| Sessions := m; Volumes := Some v |} x tenant stype req
      end) = Some (r, s', ev) → ends s').
  { destruct (String.eqb (cs_Runtime req) ""); [intros [= _ <- _]; apply stays|].
    destruct (Middleware.reqTenant ctx) as [t|]; [|intros [= _ <- _]; apply stays]. cbv zeta.
    destruct (String.eqb _ "kernel"); [apply kernel_ends|apply filesystem_ends]. }
  destruct b; [exact H|exact H|]. intros [= _ <- _]. apply stays.
Qed.
End create.
(** ** The handlers return *)
Lemma rolled_back_total m vs fl id token tenant ev (r : http sreply) : slots_ok {| gm := m; flights := fl |} →
  is_Some (rolled_back {| Sessions := m; Volumes := vs |} id token tenant ev r).
Proof.
  intros Hok. unfold rolled_back. cbn [Sessions].
  destruct (Destroy_steps harnessPy m fl true id token tenant Hok) as (r1 & m' & ev' & -> & _). cbn. by eexists.
Qed.
Lemma create_total m vs fl x ctx b : slots_ok {| gm := m; flights := fl |} →
  MintID (c_uuid (hc_create x)) ∉ map s_ID (sheap m) →
  is_Some (handleCreateSession uni_lower harnessPy {| Sessions := m; Volumes := vs |} x ctx b).
Proof.
  intros Hok Hid. unfold handleCreateSession.
  assert (Hc : ∀ rt req t st sid ex net, sid = "" ∨ sid = MintID (c_uuid (hc_create x)) →
    ∃ r m' ev, Create m (hc_create x) rt (create_opts req t st sid ex net) = Some (r, m', ev) ∧
      slots_ok {| gm := m'; flights := fl |}).
  { intros rt req t st sid ex net Hs. destruct (Create_steps harnessPy uni_lower m fl (hc_create x) rt
      (create_opts req t st sid ex net) Hok) as (r & m' & ev & E & Hq).
    - unfold session_id. cbn [o_ID create_opts]. by destruct Hs as [->| ->].
    - exists r, m', ev. split; [done|]. by eapply greach_ok. }
  assert (Hk : ∀ t req, is_Some (createKernelSession uni_lower harnessPy {| Sessions := m; Volumes := vs |} x t req)).
  { intros t req. unfold createKernelSession. cbn [Sessions Volumes].
    assert (Hst : ∀ s0 ex, Sessions s0 = m → is_Some
      ('(r, m, ev) ← Create (Sessions s0) (hc_create x) (cs_Runtime req)
          (create_opts req t "kernel" (MintID (c_uuid (hc_create x))) ex (cs_Network req));
       let s := after s0 m ev in
       match r with
       | Err e => Some (@writeCreateSessErr sreply e, match Volumes s with
           | Some v => if String.eqb (cs_VolumeID req) "" then s
                       else set_volumes s (Release v t (cs_VolumeID req) (MintID (c_uuid (hc_create x))))
           | None => s end, ev)
       | Ok p => Some (HOk 201 (RCreated (created (the_session m p))), s, ev)
       end)).
    { intros s0 ex ->. destruct (Hc (cs_Runtime req) req t "kernel" (MintID (c_uuid (hc_create x))) ex (cs_Network req))
        as (r & m' & ev & -> & _); [by right|]. cbn. destruct r; by eexists. }
    destruct (String.eqb (cs_VolumeID req) "") eqn:Hv; [by apply Hst|]. destruct vs as [v|]; [|by eexists].
    destruct (Attach _ _ _ _ _ _) as [[[hp g]|e] v']; [by apply Hst|by eexists]. }
  assert (Hf : ∀ t st req, is_Some (createFilesystemSession uni_lower harnessPy {| Sessions := m; Volumes := vs |} x t st req)).
  { intros t st req. unfold createFilesystemSession. cbn [Sessions].
    destruct (Hc (cs_Runtime req) req t st "" [] false) as (r & m' & ev & -> & Hok'); [by left|]. cbn.
    destruct r as [p|e]; [|by eexists]. destruct (String.eqb (cs_VolumeID req) ""); [by eexists|].
    unfold attachVolume. destruct (Volumes _) as [v1|]; [|by eapply rolled_back_total].
    destruct (Attach _ _ _ _ _ _) as [[[hp g]|e] v']; [|by eapply rolled_back_total].
    cbn [Sessions after]. unfold SetMounts. destruct (authed _ _ _ _); [by eexists|by eapply rolled_back_total]. }
  destruct b as [req| |]; [| |by eexists].
  all: destruct (String.eqb _ ""); [by eexists|].
  all: destruct (Middleware.reqTenant ctx) as [t|]; [|by eexists].
  all: cbv zeta; destruct (String.eqb _ "kernel"); [apply Hk|apply Hf].
Qed.

(** C21: the session API refines its critical sections.  From any state reachable
    with other calls in flight, [POST] and [DELETE] of /v1/sessions, the idle and disk
    sweep and the kernel sweep, each run without interference, return and amount to
    a run of the interleaved steps (with the volume callbacks they trigger) that
    leaves the other calls where they were. *)
Theorem session_api_refines m0 m fl w0 v cs ds ids gs :
  fresh_manager m0 → greach harnessPy {| gm := m0; flights := [] |} {| gm := m; flights := fl |} →
  fresh_world w0 → wreach w0 (Wd m v cs ds ids gs) → OnDrop m = true →
  let s := {| Sessions := m; Volumes := Some v |} in
  let ends s' := ∃ v' ids' gs', Volumes s' = Some v' ∧
    wreach (Wd m v cs ds ids gs) (Wd (Sessions s') v' cs ds ids' gs') in
  (∀ x ctx b, MintID (c_uuid (hc_create x)) ∉ map s_ID (sheap m) → MintID (c_uuid (hc_create x)) ∉ ids →
     ∃ r s' ev, handleCreateSession uni_lower harnessPy s x ctx b = Some (r, s', ev) ∧ ends s') ∧
  (∀ rm ctx id token, ∃ r s' ev, handleDestroySession s rm ctx id token = Some (r, s', ev) ∧ ends s') ∧
  (∀ now sz, ∃ m' ev, Sweep m now sz = Some (m', ev) ∧ ends (after s m' ev)) ∧
  (∀ now, ∃ m' ev, SweepKernels m now = Some (m', ev) ∧ ends (after s m' ev)).
Proof.
  intros Hf Hg Hfw Hr Hd s ends.
  assert (Hok : slots_ok {| gm := m; flights := fl |}) by (eapply greach_ok; [by apply fresh_ok|exact Hg]).
  pose proof (wreach_ok _ _ Hr (fresh_world_ok _ Hfw)) as Hw.
  assert (Hends : ∀ m' ev v', on_drop (Some v) ev = Some v' → runs m v m' v' → ends (after s m' ev)).
  { intros m' ev v' Hv [_ H]. destruct (H cs ds ids gs) as (g' & R). exists v', ids, g'. done. }
  assert (Hids : ∀ id p, sessions m !! id = Some p → s_ID (the_session m p) = id).
  { intros id p Hp. destruct (wo_session _ Hw id p Hp) as (x & Hx & E & _). cbn in Hx. unfold the_session. by rewrite Hx. }
  split; [|split; [|split]].
  - intros x ctx b H1 H2. destruct (create_total m (Some v) fl x ctx b Hok H1) as [[[r s'] ev] E].
    exists r, s', ev. split; [done|]. destruct (create_ends m v cs ds ids gs x Hw Hd H2 ctx b r s' ev E) as (v' & i' & g' & Hv & _ & R).
    by exists v', i', g'.
  - intros rm ctx id token. unfold handleDestroySession. destruct (Middleware.reqTenant ctx) as [t|].
    + destruct (Destroy_steps harnessPy m fl rm id token t Hok) as (r & m' & ev & E & _). cbn [s Sessions]. rewrite E. cbn.
      destruct (Destroy_runs m v rm id token t r m' ev Hd (Hids id) E) as (v' & Hv & Hrun).
      eexists _, _, _. split; [done|]. by eapply Hends.
    + eexists _, _, _. split; [done|]. exists v, ids, gs. split; [done|apply wr_refl].
  - intros now sz. destruct (Sweep_steps harnessPy m fl now sz Hok) as (m' & ev & E & _).
    exists m', ev. split; [done|]. destruct (Sweep_runs m v now sz m' ev Hd E) as (v' & Hv & Hrun). by eapply Hends.
  - intros now. destruct (SweepKernels_steps harnessPy m fl now Hok) as (m' & ev & E & _).
    exists m', ev. split; [done|]. destruct (SweepKernels_runs m v now m' ev Hd E) as (v' & Hv & Hrun). by eapply Hends.
Qed.
End refines.

(** ** A step around the backend

    [Session.Exec] looks the session up and copies its mounts, takes a slot, runs
    the backend and gives the slot back; other calls run during the backend. *)
Section exec.
Context {W : Type} {SW : Weighted W} (backend : Spec → bool → Executor.outcome).
Implicit Types (m : Session.Manager W).

Definition set_sema m (l : Limiter W) : Session.Manager W :=
  put m l (Kernels m) (sessions m) (Session.used m) (sheap m).
Definition exec_begin m (late : bool) (id token tenant : string) (spec : Spec) :
    result SessErr (nat * Spec) * Session.Manager W :=
  match authed m id token tenant with
  | Err e => (Err e, m)
  | Ok p =>
      let '(ok, l) := Acquire (Sema m) late in
      if negb ok then (Err ErrCapacity, m) else (Ok (p, step_spec (the_session m p) spec), set_sema m l)
  end.
Definition exec_end m (now : Z) (p : nat) : option (Session.Manager W) :=
  l ← Sched.Release (Sema m); Some (alter_session (set_sema m l) p (touch now)).

(** [Exec] is exactly these two halves around one run of the backend. *)
Theorem exec_split m late now id token tenant spec sink :
  Session.Exec backend m late now id token tenant spec sink =
    match exec_begin m late id token tenant spec with
    | (Err e, m) => Some (Err e, m, None)
    | (Ok (p, sp), m) =>
        m ← exec_end m now p;
        Some (match o_err (backend sp sink) with
              | Some e => Err (ErrBackend e)
              | None => Ok (o_res (backend sp sink))
              end, m, Some sp)
    end.
Proof.
  unfold Session.Exec, exec_begin, exec_end. destruct (authed m id token tenant) as [p|e]; [|done].
  destruct (Acquire (Sema m) late) as [ok l]. destruct ok; [|done]. cbn.
  by destruct (Sched.Release l).
Qed.
End exec.

(** ** A concrete server *)
Definition demo_server : server (Z * Z) := {| Sessions := demo_manager; Volumes := Some created0 |}.
Definition demo_world : world (W := Z * Z) := Build_world demo_manager created0 [] [] ∅ ∅.
Definition demo_hc (uuid : string) : hcenv := {| hc_create := demo_create uuid true; hc_volume := env0 |}.
Definition demo_req (type : string) : createSessionRequest := {|
  cs_Runtime := "python"; cs_TTLSec := 0; cs_VolumeID := id0; cs_Network := false; cs_Type := type |}.
Definition demo_path : string := "/vol/public/" +:+ id0 +:+ "/data".
(** [POST /v1/sessions] for the volume. *)
Definition demo_post (s : server (Z * Z)) (uuid type : string) : Z * server (Z * Z) :=
  match handleCreateSession id "harness" s (demo_hc uuid) (Some "public") (Body (demo_req type)) with
  | Some (r, s, _) => (status r, s)
  | None => (0, s)
  end.
Definition demo_delete (s : server (Z * Z)) (sid token : string) : Z * server (Z * Z) :=
  match handleDestroySession s true (Some "public") sid token with
  | Some (r, s, _) => (status r, s)
  | None => (0, s)
  end.
Definition demo_spec : Spec := {|
  Lang := {| l_Name := "python"; l_Version := "" |}; Image := ""; Compile := []; Executor.Run := []; Workdir := ""; Env := ∅; ScratchExec := false;
  ScratchMB := 0; Mounts := []; Files := []; Stdin := ""; Argv := []; Network := false;
  s_Limits := {| MemoryBytes := 0; CPUs := of_Z 1; Pids := 1; OutputBytes := 1; WallTimeMs := 1; CompileTimeMs := 1 |} |}.

(** the lock does not cover a step that is still running.  Session 1 holds the
    volume and starts a step, whose container mounts it read-write; while the backend
    runs, the session is destroyed (204) and session 2 is created with the same volume
    (201): now the table's session mounts the volume read-write, and the running
    container of session 1 still does. *)
Theorem writer_outlives_lock :
  let '(c1, s1) := demo_post demo_server "1" "" in
  let '(r, m) := exec_begin (Sessions s1) false "sess_1" tok1 "public" demo_spec in
  let '(c2, s2) := demo_delete {| Sessions := m; Volumes := Volumes s1 |} "sess_1" tok1 in
  let '(c3, s3) := demo_post s2 "2" "" in
  c1 = 201 ∧ c2 = 204 ∧ c3 = 201 ∧
  (∃ p sp, r = Ok (p, sp) ∧ memory_mount demo_path ∈ Mounts sp ∧ is_Some (exec_end (Sessions s3) 0 p)) ∧
  ∃ p, sessions (Sessions s3) !! "sess_2" = Some p ∧
    s_ExtraMounts (the_session (Sessions s3) p) = [memory_mount demo_path].
Proof.
  vm_compute. do 3 (split; [reflexivity|]). split.
  - eexists _, _. split; [reflexivity|]. split; [right; left|]. by eexists.
  - eexists. split; reflexivity.
Qed.

Lemma demo_fresh_world : fresh_world demo_world.
Proof.
  split; [done|]. split; [exact created0_ok|]. split; [|done].
  intros q sid [(x & Hx & <-) _]. cbn [w_v demo_world] in Hx.
  assert (heap created0 = [{| ID := id0; Tenant := "public"; Name := "notes"; CreatedAt := 1000; rwHolder := "" |}]) as E
    by (vm_compute; reflexivity).
  rewrite E in Hx. by apply list_lookup_singleton_Some in Hx as [_ <-].
Qed.
Lemma demo_refines : let s := demo_server in
  (∀ x ctx b, MintID (c_uuid (hc_create x)) ∉ map s_ID (sheap demo_manager) → MintID (c_uuid (hc_create x)) ∉ (∅ : gset string) →
     ∃ r s' ev, handleCreateSession id "harness" s x ctx b = Some (r, s', ev) ∧
     ∃ v' ids' gs', Volumes s' = Some v' ∧ wreach demo_world (Build_world (Sessions s') v' [] [] ids' gs')).
Proof.
  intros s x ctx b H1 H2. destruct (create_total id "harness" demo_manager (Some created0) [] x ctx b (fresh_ok _ demo_fresh) H1) as [[[r s'] ev] E].
  exists r, s', ev. split; [done|].
  destruct (create_ends id "harness" demo_manager created0 [] [] ∅ ∅ x (fresh_world_ok _ demo_fresh_world) eq_refl H2 ctx b r s' ev E)
    as (v' & i' & g' & Hv & _ & R). by exists v', i', g'.
Qed.

(** After the POST, volume [id0] is held by the session that mounts it. *)
Lemma volume_locks_owned_witness :
  ∃ w, wreach demo_world w ∧ w_m w = Sessions (demo_post demo_server "1" "kernel").2 ∧
    is_Some (sessions (w_m w) !! "sess_1") ∧ held (w_v w) 0 "sess_1".
Proof.
  destruct (demo_refines (demo_hc "1") (Some "public") (Body (demo_req "kernel"))) as (r & s' & ev & E & v' & ids' & gs' & Hv & Hr).
  - by apply not_elem_of_nil.
  - by apply not_elem_of_empty.
  - exists (Build_world (Sessions s') v' [] [] ids' gs'). split; [done|].
    assert (Es : s' = (demo_post demo_server "1" "kernel").2) by (unfold demo_post; by rewrite E).
    clear E. subst s'. split; [done|].
    assert (Hin : sessions (Sessions (demo_post demo_server "1" "kernel").2) !! "sess_1" = Some 0%nat) by (vm_compute; reflexivity).
    split; [by exists 0%nat|].
    destruct (volume_locks_owned _ _ demo_fresh_world Hr) as [_ H].
    destruct (H "sess_1" 0%nat (memory_mount demo_path) Hin) as (q & hp & _ & _ & Hh & _).
    { vm_compute. by left. }
    cbn [w_v] in *. destruct Hh as (x & Hx & Ex).
    assert (Hq : q = 0%nat).
    { assert (El : List.length (heap v') = 1%nat).
      { transitivity (List.length (from_option heap [] (Volumes (demo_post demo_server "1" "kernel").2))); [by rewrite Hv|vm_compute; reflexivity]. }
      apply lookup_lt_Some in Hx. lia. }
    subst q. by exists x.
Defined.

Lemma session_api_refines_witness :
  ∃ r s' ev, handleCreateSession id "harness" demo_server (demo_hc "1") (Some "public") (Body (demo_req "")) = Some (r, s', ev) ∧
    status r = 201.
Proof.
  destruct (session_api_refines id "harness" demo_manager demo_manager [] demo_world created0 [] [] ∅ ∅) as (H & _).
  - exact demo_fresh.
  - apply gr_refl.
  - exact demo_fresh_world.
  - apply wr_refl.
  - done.
  - destruct (H (demo_hc "1") (Some "public") (Body (demo_req ""))) as (r & s' & ev & E & _).
    + by apply not_elem_of_nil.
    + by apply not_elem_of_empty.
    + exists r, s', ev. split; [exact E|]. vm_compute in E. injection E as <- _ _. reflexivity.
Defined.
