(* ===== verification/SessionFrame.v ===== *)
(** * What a session call leaves alone

    The frame of the calls of [Session.Manager] and of the handlers of /v1/sessions: the sessions
    of other tenants, and the ids in use. *)

From S2P Require Import Prelude GoLib GoStrings GoCodec GoFloat Sched Auth Volume VolumeSpec Executor Registry Kernel Session SessionSlots SessionSpec ApiExec ApiHttp ApiVolumes ApiSessions SessionVolumes ApiSessionsSpec.

Section frame.
Context {W : Type} {SW : Weighted W} {SWS : WeightedSpec W} (uni_lower : string → string) (harnessPy : string).
Implicit Types (m : Session.Manager W) (t : string) (new : gset string).

(** Every workspace is where [workspace] puts it. *)
Definition homes_ok m : Prop := Forall (λ s, s_Workspace s = workspace m (s_ID s)) (sheap m).
Lemma homes_same m m' : Root m' = Root m → sheap m' = sheap m → homes_ok m → homes_ok m'.
Proof. unfold homes_ok, workspace. by intros -> ->. Qed.

(** [m'] has the sessions of every tenant but [t] as [m] had them, and no session under
    an id that is neither [m]'s nor [new]. *)
Record spares t new m m' : Prop := {
  sp_heap : ∀ p s, sheap m !! p = Some s →
    ∃ s', sheap m' !! p = Some s' ∧ s_ID s' = s_ID s ∧ s_Tenant s' = s_Tenant s ∧ (s_Tenant s ≠ t → s' = s);
  sp_keep : ∀ id p s, sessions m !! id = Some p → sheap m !! p = Some s → s_Tenant s ≠ t → sessions m' !! id = Some p;
  sp_new : ∀ id p, sessions m' !! id = Some p →
    sessions m !! id = Some p ∨ ∃ s, sheap m' !! p = Some s ∧ s_Tenant s = t;
  sp_ids : ∀ x, x ∈ map s_ID (sheap m') → x ∈ map s_ID (sheap m) ∨ x ∈ new;
  sp_homes : Root m' = Root m ∧ (homes_ok m → homes_ok m') }.

#[export] Instance spares_refl t new : Reflexive (spares t new).
Proof. intros m. split; [|done|by left|by left|done]. intros p s H. by exists s. Qed.
#[export] Instance spares_trans t new : Transitive (spares t new).
Proof.
  intros m1 m2 m3 [A1 A2 A3 A4 [A5 A6]] [B1 B2 B3 B4 [B5 B6]]. split.
  - intros p s H. destruct (A1 p s H) as (s2 & H2 & D2 & E2 & F2). destruct (B1 p s2 H2) as (s3 & H3 & D3 & E3 & F3).
    exists s3. split; [done|]. do 2 (split; [congruence|]). intros Hs. rewrite F3 by congruence. by apply F2.
  - intros id p s H Hp Hs. destruct (A1 p s Hp) as (s2 & H2 & _ & E2 & F2).
    eapply B2; [by eapply A2|exact H2|congruence].
  - intros id p H. destruct (B3 id p H) as [H2|?]; [|by right]. destruct (A3 id p H2) as [?|(s & Hs & Ht)]; [by left|right].
    destruct (B1 p s Hs) as (s' & H' & _ & E' & _). exists s'. split; [done|congruence].
  - intros x Hx. destruct (B4 x Hx) as [H|H]; [by apply A4|by right].
  - split; [congruence|auto].
Qed.

Lemma spares_same t new m m' : Root m' = Root m → sessions m' = sessions m → sheap m' = sheap m → spares t new m m'.
Proof.
  intros E0 E1 E2. split; rewrite ?E1, ?E2; [|done|by left|by left|split; [done|by apply homes_same]]. intros p s H. by exists s.
Qed.
Lemma spares_alloc t new m s : s_ID s ∈ new → s_Workspace s = workspace m (s_ID s) → spares t new m (alloc m s).2.
Proof.
  intros Hn Hw. split; [|done|by left| |split; [done|intros H; by apply Forall_app_2, Forall_singleton]].
  - intros p s' H. exists s'. split; [by apply lookup_app_l_Some|done].
  - intros x. cbn [alloc snd put sheap]. rewrite map_app, elem_of_app. intros [?|H]; [by left|right].
    cbn in H. by apply list_elem_of_singleton in H as ->.
Qed.
Lemma homes_alter m p f : (∀ s, s_ID (f s) = s_ID s) → (∀ s, s_Workspace (f s) = s_Workspace s) →
  homes_ok m → homes_ok (alter_session m p f).
Proof.
  unfold homes_ok. intros Hi Hw H. apply Forall_alter; [exact H|]. intros s _ E. change (s_Workspace (f s) = workspace m (s_ID (f s))).
  by rewrite Hi, Hw.
Qed.
Lemma spares_alter t new m p f : (∀ s, sheap m !! p = Some s → s_Tenant s = t) →
  (∀ s, s_Tenant (f s) = s_Tenant s) → (∀ s, s_ID (f s) = s_ID s) → (∀ s, s_Workspace (f s) = s_Workspace s) →
  spares t new m (alter_session m p f).
Proof.
  intros Hp Hf Hi Hw. split; [|done|by left| |split; [done|intros H; by apply homes_alter]].
  - intros q s Hq. cbn. destruct (decide (p = q)) as [->|Hne].
    + rewrite list_lookup_alter_eq, Hq. eexists. split; [done|]. split; [by rewrite Hi|]. split; [by rewrite Hf|]. intros Hs. by destruct Hs; apply Hp.
    + rewrite list_lookup_alter_ne by done. by exists s.
  - intros x. cbn. rewrite ids_alter by done. by left.
Qed.
Lemma spares_insert t new m p s : sheap m !! p = Some s → s_Tenant s = t → sessions m !! s_ID s = None →
  spares t new m (insert m p).
Proof.
  intros Hp Ht Hn. pose proof (insert_lookup m p s Hp) as E. split; [| | |by left|done].
  - intros q s' H. by exists s'.
  - intros id q s' H Hq Hs. rewrite E, lookup_insert_ne; [done|]. intros <-. congruence.
  - intros id q. rewrite E, lookup_insert_Some. intros [[<- <-]|[_ H]]; [right; by exists s|by left].
Qed.
Lemma spares_claim t new m id : (∀ p s, sessions m !! id = Some p → sheap m !! p = Some s → s_Tenant s = t) →
  spares t new m (claim m id).2.
Proof.
  intros Hid. split; [| | |by left|done].
  - intros q s' H. by exists s'.
  - intros id' q s' H Hq Hs. cbn. rewrite lookup_delete_ne; [done|]. intros <-. by destruct Hs; eapply Hid.
  - intros id' q. cbn. rewrite lookup_delete_Some. by intros [_ ?]; left.
Qed.

(** ** Session calls *)
Lemma krelease_root m e m' : krelease m e = Some m' → Root m' = Root m.
Proof. unfold krelease. destruct (Sched.Release (Slots e)); [|done]. cbn. by intros [= <-]. Qed.
Lemma teardown_root m s reaped m' ev : teardown_session m s reaped = Some (m', ev) → Root m' = Root m.
Proof.
  unfold teardown_session. destruct (Kernels m) as [e|]; [|by intros [= <- _]].
  destruct (negb (is_kernel s)); [by intros [= <- _]|].
  assert (H : ∀ m1 ev1, (if reaped then (m, []) else kdestroy m e (s_ID s)) = (m1, ev1) → Root m1 = Root m).
  { intros m1 ev1. destruct reaped; [by intros [= <- _]|]. unfold kdestroy. destruct (Kernel.Destroy e (s_ID s)). by intros [= <- _]. }
  destruct (if reaped then _ else _) as [m1 ev1]. specialize (H _ _ eq_refl). destruct (Kernels m1) as [e1|]; [|done]. cbn [mbind option_bind].
  destruct (krelease m1 e1) as [m2|] eqn:E; [|done]. apply krelease_root in E. cbn. intros [= <- _]. congruence.
Qed.
Lemma authed_tenant m id token t p : t ≠ "" → authed m id token t = Ok p →
  sessions m !! id = Some p ∧ ∀ s, sheap m !! p = Some s → s_Tenant s = t.
Proof.
  intros Ht H. apply authed_spec in H as (H1 & _ & H2). split; [done|]. intros s Hs.
  unfold the_session in H2. rewrite Hs in H2. cbn in H2. by destruct H2.
Qed.
Lemma engine_spares t new m ks : spares t new m (set_engine m ks).
Proof. by apply spares_same. Qed.
Lemma krelease_spares t new m e m' : krelease m e = Some m' → spares t new m m'.
Proof. unfold krelease. destruct (Sched.Release (Slots e)); [|done]. cbn. intros [= <-]. apply engine_spares. Qed.

Lemma Create_spares t m x rt o r m' ev : slots_ok {| gm := m; flights := [] |} →
  session_id x o ∉ map s_ID (sheap m) → o_Tenant o = t →
  Session.Create uni_lower harnessPy m x rt o = Some (r, m', ev) → spares t {[session_id x o]} m m'.
Proof.
  intros Hok Hid Ht. unfold Session.Create.
  destruct (create_check uni_lower m rt) as [lang|err]; [|by intros [= _ <- _]].
  destruct (mintToken x) as [tok|]; [|by intros [= _ <- _]].
  set (s := new_session m x o lang tok). destruct (c_mkdir x); cbn [negb]; [|by intros [= _ <- _]].
  destruct (alloc m s) as [p m1] eqn:Ha. assert (Hp : p = (alloc m s).1) by (by rewrite Ha).
  assert (Hm1 : m1 = (alloc m s).2) by (by rewrite Ha). clear Ha.
  assert (H1 : spares t {[session_id x o]} m m1) by (rewrite Hm1; apply spares_alloc; [by apply elem_of_singleton|done]).
  assert (Hp1 : sheap m1 !! p = Some s) by (rewrite Hm1, Hp; cbn; by rewrite lookup_app_r, Nat.sub_diag).
  assert (Hnone : sessions m1 !! s_ID s = None).
  { rewrite Hm1. cbn. apply eq_None_not_Some. intros [q Hq]. destruct (so_table _ Hok (s_ID s) q Hq) as (s' & Hs' & E & _).
    apply Hid. change (session_id x o) with (s_ID s). rewrite <- E. apply list_elem_of_fmap_2. by eapply list_elem_of_lookup_2. }
  destruct (negb (String.eqb (s_Type s) "kernel")).
  { intros [= _ <- _]. etransitivity; [exact H1|]. by apply (spares_insert t _ m1 p s). }
  destruct (Kernels m1) as [e|]; [|by intros [= _ <- _]].
  destruct (kslot m1 e (c_late x)) as [ok m2] eqn:Hsl.
  assert (H2 : Root m2 = Root m1 ∧ sessions m2 = sessions m1 ∧ sheap m2 = sheap m1).
  { revert Hsl. unfold kslot. destruct (Acquire (Slots e) (c_late x)). by intros [= _ <-]. }
  destruct H2 as (H0 & H2 & H2').
  assert (H3 : spares t {[session_id x o]} m m2) by (etransitivity; [exact H1|by apply spares_same]).
  destruct ok; cbn [negb]; [|by intros [= _ <- _]]. destruct (Kernels m2) as [e2|]; [|done].
  destruct (kstart _ _ _ _ _ _ _ _) as [[err m3] kev] eqn:Hst.
  destruct (kstart_inv _ _ _ _ _ _ _ _ _ _ _ Hst) as (e3 & _ & Hm3). destruct err as [err|].
  - destruct (Kernels m3) as [e4|]; [|done]. cbn [mbind option_bind]. destruct (krelease m3 e4) as [m4|] eqn:Hr; [|done].
    cbn. intros [= _ <- _]. etransitivity; [exact H3|]. rewrite Hm3 in Hr.
    etransitivity; [apply engine_spares|by eapply krelease_spares].
  - destruct Hm3 as [k Hm3]. intros [= _ <- _]. etransitivity; [exact H3|].
    assert (E3 : sheap m3 !! p = Some (set_k (Some k) s)).
    { rewrite Hm3. cbn. by rewrite H2', list_lookup_alter_eq, Hp1. }
    etransitivity; [|apply (spares_insert t _ m3 p (set_k (Some k) s)); [done|done|]].
    + rewrite Hm3. etransitivity; [apply engine_spares|]. apply spares_alter; [|done..].
      intros s'. cbn. rewrite H2', Hp1. by intros [= <-].
    + rewrite Hm3. cbn. by rewrite H2.
Qed.
Lemma Destroy_spares t new m rm id token r m' ev : t ≠ "" → Session.Destroy m rm id token t = Some (r, m', ev) → spares t new m m'.
Proof.
  intros Ht. unfold Session.Destroy. destruct (authed m id token t) as [p|err] eqn:Ha; [|by intros [= _ <- _]].
  destruct (authed_tenant _ _ _ _ _ Ht Ha) as [Hp Hs]. destruct (claim m id) as [present m1] eqn:Hc.
  assert (H1 : spares t new m m1).
  { replace m1 with (claim m id).2 by (by rewrite Hc). apply spares_claim. intros q s Hq. assert (q = p) as -> by congruence. apply Hs. }
  destruct present; cbn [negb]; [|by intros [= _ <- _]].
  destruct (teardown_session _ _ _) as [[m2 ev2]|] eqn:E; [|done]. cbn. intros [= _ <- _].
  etransitivity; [exact H1|]. destruct (teardown_keeps _ _ _ _ _ E) as [(Hh & _) Hss]. apply spares_same; [by eapply teardown_root|done|done].
Qed.
Lemma SetMounts_spares t new m id token ms r m' : t ≠ "" → SetMounts m id token t ms = (r, m') → spares t new m m'.
Proof.
  intros Ht. unfold SetMounts. destruct (authed m id token t) as [p|err] eqn:Ha; [|by intros [= _ <-]].
  intros [= _ <-]. apply spares_alter; [|done..]. by apply (authed_tenant _ _ _ _ _ Ht Ha).
Qed.
Lemma Exec_spares t new backend m late now id token spec sink r m' ran : t ≠ "" →
  Exec backend m late now id token t spec sink = Some (r, m', ran) → spares t new m m'.
Proof.
  intros Ht. unfold Exec. destruct (authed m id token t) as [p|err] eqn:Ha; [|by intros [= _ <- _]].
  destruct (Acquire (Sema m) late) as [ok l]. destruct ok; cbn [negb]; [|by intros [= _ <- _]].
  destruct (Sched.Release l) as [l'|]; [|done]. cbn. intros [= _ <- _].
  etransitivity; [apply (spares_alter t new m p (touch now)); [by apply (authed_tenant _ _ _ _ _ Ht Ha)|done..]|].
  by apply spares_same.
Qed.
Lemma KernelExec_spares t new m x id token code stepMs sink r m' sent : t ≠ "" →
  KernelExec m x id token t code stepMs sink = Some (r, m', sent) → spares t new m m'.
Proof.
  intros Ht. unfold KernelExec. destruct (authed m id token t) as [p|err] eqn:Ha; [|by intros [= _ <- _]].
  destruct (s_k (the_session m p)) as [k|]; [|by intros [= _ <- _]]. destruct (Kernels m) as [e|]; [|done].
  destruct (Kernel.Exec e x k code stepMs sink) as [[[z e'] sent']|]; [|done]. cbn. intros [= _ <- _].
  etransitivity; [apply engine_spares|]. apply spares_alter; [|done..]. by apply (authed_tenant _ _ _ _ _ Ht Ha).
Qed.
Lemma WriteFile_spares t new m x id token rel data r m' ev : t ≠ "" →
  WriteFile m x id token t rel data = (r, m', ev) → spares t new m m'.
Proof.
  intros Ht. unfold WriteFile, resolve_path. destruct (authed m id token t) as [p|err] eqn:Ha; cbn; [|by intros [= _ <- _]].
  destruct (safePath _ _) as [path|]; [|by intros [= _ <- _]]. destruct (_ <? _); [by intros [= _ <- _]|].
  destruct (f_mkdir x _); [|by intros [= _ <- _]]. destruct (f_write x _); [|by intros [= _ <- _]]. intros [= _ <- _].
  apply spares_alter; [|done..]. by apply (authed_tenant _ _ _ _ _ Ht Ha).
Qed.
End frame.
