(* ===== verification/VolumeFrame.v ===== *)
(** * What a tenant's calls leave alone: volumes and their locks

    The frame of the calls of [Volume.Manager] ([vspares]); and the tenant of a lock ([own_locks]),
    which is what makes the frame hold of [ReleaseAll], the call that takes no tenant: it frees by
    session id, and the volumes a session holds are its tenant's. *)

From S2P Require Import Prelude GoLib GoStrings GoCodec GoFloat Sched Auth Volume VolumeSpec Executor Registry Kernel Session SessionSlots SessionSpec ApiExec ApiHttp ApiVolumes ApiSessions SessionVolumes ApiSessionsSpec SessionFrame.

(** ** The volumes of the other tenants *)
Implicit Types (v : Volume.Manager) (t : string).

(** The index, the objects and the directories of every tenant but [t] are the same. *)
Record vspares t v v' : Prop := {
  vp_keep : ∀ k p x, vols v !! k = Some p → heap v !! p = Some x → Tenant x ≠ t → vols v' !! k = Some p ∧ heap v' !! p = Some x;
  vp_new : ∀ k p x, vols v' !! k = Some p → heap v' !! p = Some x → Tenant x ≠ t → vols v !! k = Some p ∧ heap v !! p = Some x;
  vp_disk : ∀ t' id, t' ≠ t → tree_entry (Volume.disk v') t' id = tree_entry (Volume.disk v) t' id }.
#[export] Instance vspares_refl t : Reflexive (vspares t).
Proof. by intros v. Qed.
#[export] Instance vspares_trans t : Transitive (vspares t).
Proof.
  intros v1 v2 v3 [A1 A2 A3] [B1 B2 B3]. split.
  - intros k p x H1 H2 H3. destruct (A1 k p x H1 H2 H3). by apply B1.
  - intros k p x H1 H2 H3. destruct (B2 k p x H1 H2 H3). by apply A2.
  - intros t' id H. by rewrite B3, A3.
Qed.

Lemma holder_vspares t v q sid x : heap v !! q = Some x → Tenant x = t → vspares t v (set_holder v q sid).
Proof.
  intros Hq Ht. split; [| |done].
  - intros k p y Hk Hp Hy. split; [done|]. rewrite set_holder_lookup. case_decide; [|done]. subst. congruence.
  - intros k p y Hk. rewrite set_holder_lookup. case_decide; [|by intros ?]. subst. rewrite Hq. cbn. intros [= <-]. by cbn.
Qed.
Lemma disk_vspares t v d : (∀ t' id, t' ≠ t → tree_entry d t' id = tree_entry (Volume.disk v) t' id) → vspares t v (set_disk v d).
Proof. by intros H. Qed.
Lemma rm_vspares t v id : vspares t v (set_disk v (tree_rm (Volume.disk v) t id)).
Proof. apply disk_vspares. intros t' id' H. apply tree_rm_ne. congruence. Qed.
Lemma put_vspares t v id e : vspares t v (set_disk v (tree_put (Volume.disk v) t id e)).
Proof. apply disk_vspares. intros t' id' H. by apply tree_put_ne. Qed.
Lemma left_vspares t v e id : vspares t v (set_disk v (left_behind e (Volume.disk v) t id)).
Proof.
  unfold left_behind. destruct (v_made e).
  - by apply disk_vspares.
  - apply disk_vspares. intros t' id' _. apply touch_entry.
  - destruct (tree_entry _ _ _); [by apply disk_vspares|apply put_vspares].
Qed.
Lemma add_vspares v x : index_ok v → tenantRe (Tenant x) = true → vspares (Tenant x) v (add_volume v x).
Proof.
  intros Hok Ht. split; [| |done].
  - intros k p y Hk Hp Hy. destruct (Hok k p Hk) as (y' & Hy' & -> & Hty & _). assert (y' = y) as -> by congruence.
    cbn. split; [|by apply lookup_app_l_Some]. rewrite lookup_insert_ne; [done|].
    intros E. by destruct (key_inj _ _ _ _ Ht Hty E) as [E' _].
  - intros k p y. cbn. intros [[<- <-]|[_ Hk]]%lookup_insert_Some.
    + rewrite lookup_app_r, Nat.sub_diag by done. cbn. by intros [= <-].
    + destruct (Hok k p Hk) as (y' & Hy' & _). rewrite (lookup_app_l_Some _ _ _ _ Hy'). intros [= <-] _. done.
Qed.
Lemma Create_vspares t v e name : index_ok v → vspares t v (Volume.Create v e t name).2.
Proof.
  intros Hok. unfold Volume.Create. destruct (tenantRe t) eqn:Ht; [|done]. cbn [negb]. cbv zeta.
  destruct (nameRe _); [|done]. cbn [negb]. destruct (_ && DiskFull v _); [done|]. destruct (existsb _ _); [done|].
  destruct (_ <=? _); [done|]. destruct (_ <=? _); [done|]. destruct (v_mkdir e); [|apply left_vspares]. cbn [negb].
  set (d0 := {| e_isdir := true; e_meta := None; e_mtime := Some (v_now e); e_data := Some 0 |}).
  set (v1 := set_disk v (tree_put (Volume.disk v) t ("vol_" +:+ v_uuid e) d0)).
  assert (H1 : vspares t v v1) by apply put_vspares.
  assert (Hundo : vspares t v (if v_rm e then set_disk v1 (tree_rm (Volume.disk v1) t ("vol_" +:+ v_uuid e)) else v1)).
  { destruct (v_rm e); [|done]. etransitivity; [exact H1|apply rm_vspares]. }
  destruct (v_chmod e); [|done]. destruct (v_writemeta e); [|done]. cbn [negb snd].
  etransitivity; [exact H1|]. etransitivity; [apply put_vspares|].
  match goal with |- vspares t ?v2 (add_volume _ ?x) => apply (add_vspares v2 x); [exact Hok|exact Ht] end.
Qed.
Lemma Delete_vspares t v e id : index_ok v → vspares t v (Volume.Delete v e t id).2.
Proof.
  intros Hok. unfold Volume.Delete. destruct (lookup v t id) as [p|] eqn:Hl; [|done].
  destruct (lookup_spec v t id p Hok Hl) as (x & Hx & Ht & Hid & Hk). unfold delete_lock.
  destruct (negb _); [done|]. cbn [snd].
  assert (H1 : ∀ u, vspares t v (upd v (delete (key t id) (vols v)) u (heap v) (Volume.disk v))).
  { intros u. split; [| |done]; cbn.
    - intros k q y Hk' Hq Hy. split; [|done]. rewrite lookup_delete_ne; [done|]. intros <-. congruence.
    - intros k q y [_ Hk']%lookup_delete_Some Hq Hy. done. }
  unfold delete_files. destruct (v_removal e) as [r|]; cbn [snd]; [|etransitivity; [apply H1|apply rm_vspares]].
  case_match; [etransitivity; [apply H1|apply put_vspares]|apply H1].
Qed.

Lemma alter_stays {A} (f : A → A) q (l : list A) : (∀ x, l !! q = Some x → f x = x) → alter f q l = l.
Proof.
  intros Hf. apply list_eq. intros i. destruct (decide (q = i)) as [->|Hne]; [|by rewrite list_lookup_alter_ne].
  rewrite list_lookup_alter_eq. destruct (l !! i) as [x|] eqn:E; cbn; [|done]. by rewrite Hf.
Qed.
Lemma set_holder_none v q sid : heap v !! q = None → set_holder v q sid = v.
Proof.
  intros Hq. unfold set_holder, set_heap. rewrite alter_stays; [by destruct v|]. intros y Hy. congruence.
Qed.
Lemma set_holder_same v q x sid : heap v !! q = Some x → rwHolder x = sid → set_holder v q sid = v.
Proof.
  intros Hq Hx. unfold set_holder, set_heap. rewrite alter_stays; [by destruct v|]. intros y Hy.
  assert (y = x) as -> by congruence. rewrite <- Hx. by destruct x.
Qed.

(** ** The tenant of a lock *)

(** Holders only go away. *)
Definition unlocks v v' : Prop := ∀ q x, heap v' !! q = Some x → rwHolder x ≠ "" → heap v !! q = Some x.
#[export] Instance unlocks_refl : Reflexive unlocks.
Proof. by intros v q x H. Qed.
#[export] Instance unlocks_trans : Transitive unlocks.
Proof. intros v1 v2 v3 H1 H2 q x Hx Hn. apply H1; [|done]. by apply H2. Qed.
Lemma unlocks_heap v v' : heap v' = heap v → unlocks v v'.
Proof. intros E q x Hx _. by rewrite <- E. Qed.
Lemma free_unlocks v q : unlocks v (set_holder v q "").
Proof.
  intros p x. rewrite set_holder_lookup. case_decide; [|done]. subst. destruct (heap v !! q); [|done]. by intros [= <-].
Qed.
Lemma Release_unlocks v t id sid : unlocks v (Release v t id sid).
Proof. unfold Release. destruct (vols v !! _); [|done]. case_match; [apply free_unlocks|done]. Qed.
Lemma ReleaseAll_unlocks v sid : unlocks v (ReleaseAll v sid).
Proof.
  unfold ReleaseAll. generalize (map_to_list (vols v)) as l. intros l. revert v.
  induction l as [|kq l IH]; intros v; [done|]. cbn [foldl]. etransitivity; [|apply IH].
  unfold release_step. case_match; [apply free_unlocks|done].
Qed.

Lemma ReleaseAll_vspares t v sid : (∀ q x, heap v !! q = Some x → rwHolder x = sid → sid ≠ "" → Tenant x = t) →
  vspares t v (ReleaseAll v sid).
Proof.
  unfold ReleaseAll. generalize (map_to_list (vols v)) as l. intros l. revert v.
  induction l as [|[k q] l IH]; intros v Hown; [done|]. cbn [foldl].
  assert (H1 : unlocks v (release_step sid v (k, q))).
  { unfold release_step. case_match; [apply free_unlocks|done]. }
  etransitivity; [|apply IH].
  - unfold release_step. cbn [snd]. destruct (String.eqb_spec (rwHolder (the_volume v q)) sid) as [E|]; [|done].
    destruct (heap v !! q) as [x|] eqn:Hq.
    2: { by rewrite set_holder_none. }
    unfold the_volume in E. rewrite Hq in E. cbn in E. destruct (decide (sid = "")) as [E0|Hne].
    + rewrite (set_holder_same v q x "") by (done || congruence). done.
    + apply (holder_vspares t v q "" x); [done|by eapply Hown].
  - intros p x Hp Hs Hne. eapply Hown; [apply (H1 p x Hp); congruence|done|done].
Qed.

(** A new volume is free, and a deletion moves no holder. *)
Lemma Create_unlocks v e t name : unlocks v (Volume.Create v e t name).2.
Proof.
  destruct (Create_cases v e t name) as [(err & d & ->)|(i & d & x & -> & _ & _ & Hx & _)]; [by apply unlocks_heap|].
  intros q y. cbn. intros Hq Hn. destruct (lookup_app_Some (heap v) [x] q y) as [[H|[_ H]] _]; [done|done|].
  apply list_lookup_singleton_Some in H as [_ <-]. congruence.
Qed.
Lemma Delete_steps v e t id : ∃ l, (Volume.Delete v e t id).2 = VolumeSpec.run v l ∧ Forall lockless l ∧
  heap (Volume.Delete v e t id).2 = heap v.
Proof.
  unfold Volume.Delete. destruct (lookup v t id) as [p|]; [|by exists []].
  unfold delete_lock. destruct (negb (String.eqb (rwHolder (the_volume v p)) "")) eqn:Eh; [by exists []|].
  exists [SDeleteLock p t id; SDeleteFiles (v_removal e) t id]. cbn [VolumeSpec.run foldl VolumeSpec.exec]. unfold delete_lock.
  rewrite Eh. split; [done|]. split; [by repeat constructor|]. unfold delete_files. by repeat case_match.
Qed.
Lemma volume_Sweep_steps v e r : ∃ l, Volume.Sweep v e r = VolumeSpec.run v l ∧ Forall lockless l ∧ heap (Volume.Sweep v e r) = heap v.
Proof.
  unfold Volume.Sweep, SweepOrphans. set (u := orphan_walk e r (dom (vols v)) (Volume.disk v) v).
  assert (Hu : heap u = heap v) by apply orphan_walk_same. destruct r.
  - exists [SWalk e true (dom (vols v)) (Volume.disk v); SDropVanished; SMeasure (sum_sizes (drop_vanished u) (indexed (drop_vanished u)))].
    split; [done|]. split; [by repeat constructor|done].
  - exists [SWalk e false (dom (vols v)) (Volume.disk v); SMeasure (sum_sizes u (indexed u))].
    split; [done|]. split; [by repeat constructor|done].
Qed.
