(* ===== verification/ApiFrame.v ===== *)
(** * What a session request leaves alone, and what it keeps

    [server_ok] is what holds of the session manager and the volumes between requests;
    [served_as t] relates the two around a request of tenant [t]: the invariant is kept and nothing
    of the other tenants changes.  A call of the API is a chain of such steps. *)

From S2P Require Import Prelude GoLib GoStrings GoCodec GoFloat Sched Auth Volume VolumeSpec Executor Registry Kernel KernelSpec Session SessionSlots SessionSpec ApiExec ApiHttp ApiVolumes ApiSessions SessionVolumes ApiSessionsSpec SessionFrame VolumeFrame.

(** ** The fields no step of the slots touches *)
Section fields.
Context {W : Type} {SW : Weighted W} {SWS : WeightedSpec W} (uni_lower : string → string) (harnessPy : string).
Implicit Types (m : Session.Manager W) (v : Volume.Manager) (a b : ApiSessions.server W) (t : string) (new : gset string).

(** Up to the waiters of the semaphore. *)
Definition same_limit (l l' : Limiter W) : Prop := lim_ok l → lim_ok l' ∧ inUse l' = inUse l ∧ max l' = max l.
Definition same_fields m m' : Prop := same_limit (Sema m) (Sema m') ∧ Reg m' = Reg m ∧ OnDrop m' = OnDrop m.
#[export] Instance same_limit_refl : Reflexive same_limit.
Proof. by intros l H. Qed.
#[export] Instance same_limit_trans : Transitive same_limit.
Proof. intros l1 l2 l3 H1 H2 (K1 & K2 & K3)%H1. destruct (H2 K1) as (J1 & J2 & J3). split; [done|]. split; congruence. Qed.
#[export] Instance same_fields_refl : Reflexive same_fields.
Proof. intros m. by split. Qed.
#[export] Instance same_fields_trans : Transitive same_fields.
Proof. intros m1 m2 m3 (A1 & A2 & A3) (B1 & B2 & B3). split; [by etransitivity|]. split; congruence. Qed.
Definition exact_fields m m' : Prop := Sema m' = Sema m ∧ Reg m' = Reg m ∧ OnDrop m' = OnDrop m.
#[export] Instance exact_fields_refl : Reflexive exact_fields.
Proof. intros m. by split. Qed.
#[export] Instance exact_fields_trans : Transitive exact_fields.
Proof. intros m1 m2 m3 (A1 & A2 & A3) (B1 & B2 & B3). split; [|split]; congruence. Qed.
Lemma exact_same m m' : exact_fields m m' → same_fields m m'.
Proof. intros (E & H). split; [by rewrite E|exact H]. Qed.
Lemma krelease_fields m e m' : krelease m e = Some m' → exact_fields m m'.
Proof. unfold krelease. destruct (Sched.Release (Slots e)); [|done]. cbn. by intros [= <-]. Qed.
Lemma kstart_fields m e x p image ms net err m' ev : kstart harnessPy m e x p image ms net = (err, m', ev) → exact_fields m m'.
Proof.
  intros H. destruct (kstart_inv _ _ _ _ _ _ _ _ _ _ _ H) as (e' & _ & Hm). destruct err; [by rewrite Hm|].
  destruct Hm as [k ->]. done.
Qed.
Lemma gstep_fields g g' : gstep harnessPy g g' → exact_fields (gm g) (gm g').
Proof.
  destruct 1 as [| |m fl s e late m' _ _ _ _ Hs|m f1 f2 p e x i ms n m' ev _ Hs|m f1 f2 p e x i ms n err m1 ev e1 m' _ Hs _ Hr| |m fl p m' _ Hc|m fl e id He| | | | | | | |];
    cbn [gm]; try done.
  - revert Hs. unfold kslot. destruct (Acquire (Slots e) late). by intros [= _ <-].
  - by apply kstart_fields in Hs.
  - apply kstart_fields in Hs. apply krelease_fields in Hr. by etransitivity.
  - revert Hc. unfold claim. by intros [= _ <-].
  - unfold kdestroy. by destruct (Kernel.Destroy e id).
  - by eapply krelease_fields.
Qed.
Lemma greach_exact g g' : greach harnessPy g g' → exact_fields (gm g) (gm g').
Proof.
  induction 1 as [|g' g'' _ IH Hs]; [done|]. apply gstep_fields in Hs. by etransitivity.
Qed.

Lemma greach_fields g g' : greach harnessPy g g' → same_fields (gm g) (gm g').
Proof. intros H. by apply exact_same, greach_exact. Qed.

(** ** The tenant of a lock *)

(** The session that holds a volume is its tenant's. *)
Definition own_locks m v : Prop := ∀ q x, heap v !! q = Some x → rwHolder x ≠ "" →
  ∃ p s, sheap m !! p = Some s ∧ s_ID s = rwHolder x ∧ s_Tenant s = Tenant x.
Lemma own_spares t new m m' v : spares t new m m' → own_locks m v → own_locks m' v.
Proof.
  intros Hs Ho q x Hq Hn. destruct (Ho q x Hq Hn) as (p & s & Hp & E1 & E2).
  destruct (sp_heap _ _ _ _ Hs p s Hp) as (s' & Hp' & F1 & F2 & _). exists p, s'. split; [done|]. split; congruence.
Qed.
Lemma own_unlocks m v v' : unlocks v v' → own_locks m v → own_locks m v'.
Proof. intros Hu Ho q x Hq Hn. eapply Ho; [by apply Hu|done]. Qed.
Lemma own_holder m v q y p s : heap v !! q = Some y → sheap m !! p = Some s → s_Tenant s = Tenant y →
  own_locks m v → own_locks m (set_holder v q (s_ID s)).
Proof.
  intros Hq Hp Ht Ho q' x. rewrite set_holder_lookup. case_decide; [|by apply Ho]. subst. rewrite Hq. cbn.
  intros [= <-] _. by exists p, s.
Qed.
(** What a session holds is its tenant's. *)
Lemma own_held m v fl p s : slots_ok {| gm := m; flights := fl |} → sheap m !! p = Some s → own_locks m v →
  ∀ q x, heap v !! q = Some x → rwHolder x = s_ID s → s_ID s ≠ "" → Tenant x = s_Tenant s.
Proof.
  intros Hok Hp Ho q x Hq Hx Hn. destruct (Ho q x Hq) as (p' & s' & Hp' & E1 & E2); [congruence|].
  assert (Hid : map s_ID (sheap m) !! p = Some (s_ID s)) by (by rewrite list_lookup_fmap, Hp).
  assert (Hid' : map s_ID (sheap m) !! p' = Some (s_ID s)) by (rewrite list_lookup_fmap, Hp'; cbn; congruence).
  pose proof (NoDup_lookup _ _ _ _ (so_ids _ Hok) Hid Hid') as ->. congruence.
Qed.

(** ** Servers between requests *)
Record server_ok a : Prop := {
  sv_slots : slots_ok {| gm := Sessions a; flights := [] |};
  sv_vols v : Volumes a = Some v → OnDrop (Sessions a) = true ∧ index_ok v ∧ own_locks (Sessions a) v }.
Record served_as t new a b : Prop := {
  sa_ok : server_ok b;
  sa_spares : spares t new (Sessions a) (Sessions b);
  sa_fields : same_fields (Sessions a) (Sessions b);
  sa_vols : option_Forall2 (vspares t) (Volumes a) (Volumes b) }.
Lemma served_refl t new a : server_ok a → served_as t new a a.
Proof. intros H. split; [done|done|done|]. by destruct (Volumes a); constructor. Qed.
#[export] Instance served_trans t new : Transitive (served_as t new).
Proof.
  intros s1 s2 s3 [A1 A2 A3 A6] [B1 B2 B3 B6]. split; [done|by etransitivity..|].
  revert B6. destruct A6 as [u1 u2 H1|]; inversion 1; subst; constructor. by etransitivity.
Qed.
(** A step of the manager alone. *)
Lemma served_manager t new a m : server_ok a → slots_ok {| gm := m; flights := [] |} → spares t new (Sessions a) m →
  same_fields (Sessions a) m → served_as t new a (set_manager a m).
Proof.
  intros [H1 H2] Hok Hs Hf. split; [|done|done|by cbn; destruct (Volumes a); constructor]. split; [done|]. cbn. intros v Hv.
  destruct (H2 v Hv) as (D & I & O). destruct Hf as (_ & _ & Hd). split; [congruence|]. split; [done|by eapply own_spares].
Qed.
(** A step of the volumes alone. *)
Lemma served_volumes t new a b v v' : served_as t new a b → Volumes b = Some v → index_ok v' → own_locks (Sessions b) v' →
  vspares t v v' → served_as t new a (set_volumes b v').
Proof.
  intros [[A1 A1'] A2 A3 A4] Hv Hi Ho Hs. split; [|done|done|].
  - split; [done|]. cbn. intros v2 [= <-]. destruct (A1' v Hv) as (D & _). done.
  - rewrite Hv in A4. cbn. inversion A4 as [u ? Hu|]. constructor. by etransitivity.
Qed.

(** ** Calls *)
Lemma on_drop_nothing ev : on_drop None ev = None.
Proof. unfold on_drop. induction ev as [|e ev IH]; [done|]. cbn [foldl]. by destruct e. Qed.
Lemma after_dropless a m ev : dropless ev → after a m ev = set_manager a m.
Proof. intros H. unfold after, set_manager. by rewrite on_drop_none. Qed.

Lemma drop_frees m s reaped m' ev v : OnDrop m = true → drop m s reaped = Some (m', ev) →
  sheap m' = sheap m ∧ OnDrop m' = true ∧ ∃ v', on_drop (Some v) ev = Some v' ∧ (v' = v ∨ v' = ReleaseAll v (s_ID s)).
Proof.
  intros Hd. unfold drop. destruct (claim m (s_ID s)) as [present m1] eqn:Hc.
  assert (E1 : OnDrop m1 = OnDrop m ∧ sheap m1 = sheap m) by (unfold claim in Hc; by injection Hc as _ <-).
  destruct E1 as [E1 E2]. destruct present; cbn [negb].
  2: { intros [= <- <-]. split; [done|]. split; [congruence|]. exists v. split; [done|by left]. }
  intros Ht. destruct (teardown_shape m1 s reaped m' ev v ltac:(congruence) Ht) as [Hq Hv].
  destruct (teardown_keeps _ _ _ _ _ Ht) as [(Hh & _) _]. split; [congruence|]. split; [by rewrite (q_drop _ _ Hq), E1|].
  eexists. split; [exact Hv|by right].
Qed.
Lemma Destroy_frees m rm id token t r m' ev v : OnDrop m = true → slots_ok {| gm := m; flights := [] |} →
  Session.Destroy m rm id token t = Some (r, m', ev) →
  ∃ v', on_drop (Some v) ev = Some v' ∧
    (v' = v ∨ ∃ p, authed m id token t = Ok p ∧ v' = ReleaseAll v (s_ID (the_session m p))).
Proof.
  intros Hd Hok. unfold Session.Destroy. destruct (authed m id token t) as [p|err] eqn:Ha.
  2: { intros [= <- <- <-]. exists v. split; [done|by left]. }
  destruct (authed_loc _ _ _ _ _ _ Hok Ha) as (_ & Hid & Hp).
  pose proof (drop_frees m (the_session m p) false m' ev v Hd) as H. unfold drop in H. rewrite Hid in H.
  unfold claim in *. rewrite Hp in *. rewrite bool_decide_true in * by done. cbn [negb] in *.
  destruct (teardown_session _ _ _) as [[m1 ev1]|]; [|done]. cbn. intros [= <- <- <-].
  destruct (H eq_refl) as (_ & _ & v' & Hv & Hc). exists v'. split; [done|]. destruct Hc as [->| ->]; [by left|right].
  exists p. by rewrite Hid.
Qed.
Lemma ReleaseAll_index v sid : index_ok v → index_ok (ReleaseAll v sid).
Proof. intros H. by apply (index_ok_exec v (SReleaseAll sid)). Qed.
Lemma set_volumes_self b v : Volumes b = Some v → set_volumes b v = b.
Proof. intros H. unfold set_volumes. rewrite <- H. by destruct b. Qed.

Lemma Destroy_served t new a rm id token r m' ev : t ≠ "" → server_ok a →
  Session.Destroy (Sessions a) rm id token t = Some (r, m', ev) → served_as t new a (after a m' ev).
Proof.
  intros Ht Hok H. pose proof (sv_slots _ Hok) as Hsl. pose proof (Destroy_spares t new _ _ _ _ _ _ _ Ht H) as Hsp.
  destruct (Destroy_steps harnessPy (Sessions a) [] rm id token t Hsl) as (r1 & m1 & ev1 & E & _ & Hg).
  rewrite H in E. injection E as <- <- <-.
  pose proof (served_manager t new a m' Hok (greach_ok harnessPy _ _ Hsl Hg) Hsp (greach_fields _ _ Hg)) as Hm.
  unfold after. destruct (Volumes a) as [v|] eqn:Hv.
  2: { rewrite on_drop_nothing, <- Hv. exact Hm. }
  destruct (sv_vols _ Hok v Hv) as (Hd & Hi & Ho).
  destruct (Destroy_frees _ _ _ _ _ _ _ _ v Hd Hsl H) as (v' & -> & Hc).
  apply (served_volumes t new a (set_manager a m') v v' Hm Hv).
  - destruct Hc as [->|(p & _ & ->)]; [done|by apply ReleaseAll_index].
  - apply (own_spares t new (Sessions a)); [done|]. destruct Hc as [->|(p & _ & ->)]; [done|].
    by eapply own_unlocks; [apply ReleaseAll_unlocks|].
  - destruct Hc as [->|(p & Ha & ->)]; [done|]. apply ReleaseAll_vspares. intros q x Hq Hx Hn.
    destruct (authed_loc _ _ _ _ _ _ Hsl Ha) as (Hlt & _). destruct (lookup_lt_is_Some_2 _ _ Hlt) as [s Hs].
    rewrite (the_session_id _ _ _ Hs) in *. destruct (authed_tenant _ _ _ _ _ Ht Ha) as [_ Hst].
    rewrite <- (Hst s Hs). by eapply (own_held (Sessions a) v [] p s).
Qed.
Lemma Create_served t a x rt o r m' ev : server_ok a → session_id x o ∉ map s_ID (sheap (Sessions a)) → o_Tenant o = t →
  Session.Create uni_lower harnessPy (Sessions a) x rt o = Some (r, m', ev) →
  served_as t {[session_id x o]} a (set_manager a m') ∧ dropless ev.
Proof.
  intros Hok Hid Ht H. pose proof (sv_slots _ Hok) as Hsl. split; [|by apply (Create_shape uni_lower harnessPy _ _ _ _ _ _ _ H)].
  destruct (Create_steps harnessPy uni_lower (Sessions a) [] x rt o Hsl Hid) as (r1 & m1 & ev1 & E & Hg).
  rewrite H in E. injection E as <- <- <-.
  apply served_manager; [done|by eapply greach_ok|by eapply Create_spares|by apply (greach_fields _ _ Hg)].
Qed.
Lemma SetMounts_served t new a id token ms r m' : t ≠ "" → server_ok a → SetMounts (Sessions a) id token t ms = (r, m') →
  served_as t new a (set_manager a m').
Proof.
  intros Ht Hok H. pose proof (SetMounts_spares t new _ _ _ _ _ _ Ht H) as Hsp. revert H. unfold SetMounts.
  destruct (authed _ _ _ _) as [p|]; intros [= _ <-]; apply served_manager; try done; try apply Hok.
  eapply same_ok; [|apply Hok]. by apply same_alter.
Qed.

Lemma Attach_shape v x t vid id r v' : index_ok v → Attach v x t vid id true = (r, v') →
  v' = v ∧ is_ok r = false ∨
  ∃ q y, lookup v t vid = Ok q ∧ heap v !! q = Some y ∧ Tenant y = t ∧ vols v !! key t vid = Some q ∧
    (rwHolder y = "" ∨ rwHolder y = id) ∧ v' = set_holder v q id ∧ is_ok r = true.
Proof.
  intros Hok. unfold Attach, attach_read. destruct (lookup v t vid) as [q|e] eqn:Hl; [|intros [= <- <-]; by left].
  destruct (lookup_spec v t vid q Hok Hl) as (y & Hy & Ht & _ & Hk).
  destruct (Volume.HostPath v x t vid) as [hp|e]; [|intros [= <- <-]; by left]. cbn [negb].
  destruct (OverQuota v t vid) as [ov|e]; [|intros [= <- <-]; by left].
  destruct (fst ov); [intros [= <- <-]; by left|]. destruct (_ && _); [intros [= <- <-]; by left|].
  destruct (attach_lock v (RW q hp) id) as [[r1|e] v1] eqn:Ha.
  - destruct (attach_lock_inv _ _ _ _ _ _ Ha) as (-> & -> & Hh). intros [= <- <-]. right. exists q, y.
    do 4 (split; [done|]). split; [|done]. apply Hh. by exists y.
  - intros [= <- <-]. left. split; [|done]. revert Ha. cbn [attach_lock]. cbv zeta. destruct (_ && _); [|done]. by intros [= _ <-].
Qed.
(** A session of the tenant attaches. *)
Lemma Attach_served t new a v x vid r v' p s : server_ok a → Volumes a = Some v →
  sheap (Sessions a) !! p = Some s → s_Tenant s = t → Attach v x t vid (s_ID s) true = (r, v') →
  served_as t new a (set_volumes a v').
Proof.
  intros Hok Hv Hp Ht Ha. destruct (sv_vols _ Hok v Hv) as (Hd & Hi & Ho).
  destruct (Attach_shape v x t vid _ r v' Hi Ha) as [[-> _]|(q & y & _ & Hy & Hyt & _ & _ & -> & _)].
  - rewrite set_volumes_self by done. by apply served_refl.
  - apply (served_volumes t new a a v); [by apply served_refl|done| | |].
    + eapply index_ok_grow; [exact Hi|done|apply heap_grows_holder].
    + eapply own_holder; [exact Hy|exact Hp|congruence|done].
    + by eapply holder_vspares.
Qed.
(** The release of what a failed kernel session had locked. *)
Lemma undo_unlocks v q y t vid id : vols v !! key t vid = Some q → heap v !! q = Some y →
  unlocks v (Release (set_holder v q id) t vid id).
Proof.
  intros Hk Hy. unfold Release. change (vols (set_holder v q id)) with (vols v). rewrite Hk.
  assert (rwHolder (the_volume (set_holder v q id) q) = id) as ->.
  { unfold the_volume. rewrite set_holder_lookup, decide_True, Hy by done. done. }
  rewrite String.eqb_refl. intros q' x. rewrite !set_holder_lookup. case_decide; [|done]. subst. rewrite Hy. cbn. by intros [= <-].
Qed.
Lemma undo_vspares v q y t vid id : vols v !! key t vid = Some q → heap v !! q = Some y → Tenant y = t →
  vspares t v (Release (set_holder v q id) t vid id).
Proof.
  intros Hk Hy Ht. etransitivity; [by apply (holder_vspares t v q id y)|].
  unfold Release. change (vols (set_holder v q id)) with (vols v). rewrite Hk. case_match; [|done].
  eapply holder_vspares; [rewrite set_holder_lookup, decide_True, Hy by done; done|done].
Qed.

(** ** The handlers *)
Section create.
Context (a : server W) (x : hcenv) (t : string).
Hypothesis Ha : server_ok a.
Hypothesis Ht : t ≠ "".
Let id := MintID (c_uuid (hc_create x)).
Hypothesis Hid : id ∉ map s_ID (sheap (Sessions a)).
Local Abbreviation served := (served_as t {[id]} a).

Lemma rolled_back_served b id' token ev (r : http sreply) r' s' ev' : served b →
  rolled_back b id' token t ev r = Some (r', s', ev') → served s'.
Proof.
  intros Hb. unfold rolled_back. destruct (Session.Destroy _ _ _ _ _) as [[[r1 m] ev1]|] eqn:E; [|done]. cbn. intros [= _ <- _].
  etransitivity; [exact Hb|]. by apply (Destroy_served t {[id]} b true id' token r1 m ev1); [|apply Hb|].
Qed.
Lemma attachVolume_served b p s vid ev r s' ev' : served b → sheap (Sessions b) !! p = Some s → s_Tenant s = t →
  authed (Sessions b) (s_ID s) (s_Token s) t = Ok p → attachVolume b x t vid s ev = Some (r, s', ev') → served s'.
Proof.
  intros Hb Hp Hs Hau. unfold attachVolume. destruct (Volumes b) as [v|] eqn:Hv; [|by eapply rolled_back_served].
  destruct (Attach v (hc_volume x) t vid (s_ID s) true) as [ra v'] eqn:Hat.
  assert (Hb' : served (set_volumes b v')).
  { etransitivity; [exact Hb|]. by apply (Attach_served t {[id]} b v (hc_volume x) vid ra v' p s); [apply Hb|..]. }
  destruct ra as [[hp g]|e]; [|by eapply rolled_back_served].
  destruct (SetMounts (Sessions b) (s_ID s) (s_Token s) t [memory_mount hp]) as [rm m] eqn:Hm.
  pose proof (SetMounts_served t {[id]} (set_volumes b v') _ _ _ _ _ Ht (sa_ok _ _ _ _ Hb') Hm) as Hsm.
  assert (rm = Ok tt) as -> by (revert Hm; unfold SetMounts; rewrite Hau; by intros [= <- _]).
  intros [= _ <- _]. etransitivity; [exact Hb'|exact Hsm].
Qed.
Lemma create_call rt o r m' ev :
  Session.Create uni_lower harnessPy (Sessions a) (hc_create x) rt o = Some (r, m', ev) →
  session_id (hc_create x) o = id → o_Tenant o = t →
  served (set_manager a m') ∧ dropless ev ∧
  ∀ p, r = Ok p → ∃ s, sheap m' !! p = Some s ∧ s_ID s = id ∧ s_Tenant s = t ∧ the_session m' p = s ∧
    authed m' (s_ID s) (s_Token s) t = Ok p.
Proof.
  intros Hc Ho Hot. destruct (Create_served t a (hc_create x) rt o r m' ev Ha) as [H1 Hev]; [by rewrite Ho|done|done|].
  rewrite Ho in H1. split; [done|]. split; [done|]. intros p ->.
  destruct (Create_shape uni_lower harnessPy _ _ _ _ _ _ _ Hc) as [_ (m1 & s & _ & Hp & -> & Hsid & Hst & _)].
  destruct (inserted_authed m1 p s Hp) as [Hau Hthe]. exists s. split; [done|]. split; [congruence|].
  assert (Est : s_Tenant s = t) by congruence. split; [done|]. split; [done|]. by rewrite <- Est.
Qed.
Lemma filesystem_served stype req r s' ev :
  createFilesystemSession uni_lower harnessPy a x t stype req = Some (r, s', ev) → served s'.
Proof.
  unfold createFilesystemSession.
  destruct (Session.Create _ _ _ _ _ _) as [[[rc m'] ev1]|] eqn:Hc; [|done]. cbn [mbind option_bind].
  destruct (create_call _ _ _ _ _ Hc eq_refl eq_refl) as (H1 & Hev & Hp).
  rewrite (after_dropless a m' ev1) by done. destruct rc as [p|e]; [|by intros [= _ <- _]].
  destruct (Hp p eq_refl) as (s & Hsp & _ & Hst & -> & Hau).
  destruct (String.eqb (cs_VolumeID req) ""); [by intros [= _ <- _]|].
  by apply (attachVolume_served _ p s).
Qed.
Lemma kernel_served req r s' ev :
  createKernelSession uni_lower harnessPy a x t req = Some (r, s', ev) → served s'.
Proof.
  unfold createKernelSession. cbv zeta.
  destruct (String.eqb (cs_VolumeID req) "") eqn:Hvid.
  - destruct (Session.Create _ _ _ _ _ _) as [[[rc m'] ev1]|] eqn:Hc; [|done]. cbn [mbind option_bind].
    destruct (create_call _ _ _ _ _ Hc eq_refl eq_refl) as (H1 & Hev & _). rewrite (after_dropless a m' ev1) by done.
    destruct rc as [p|e]; [by intros [= _ <- _]|]. intros [= _ <- _]. by destruct (Volumes _).
  - destruct (Volumes a) as [v|] eqn:Hv; [|intros [= _ <- _]; by apply served_refl].
    destruct (sv_vols _ Ha v Hv) as (Hd & Hi & Ho).
    destruct (Attach v (hc_volume x) t (cs_VolumeID req) _ true) as [ra v'] eqn:Hat.
    destruct (Attach_shape v (hc_volume x) t (cs_VolumeID req) _ ra v' Hi Hat)
      as [[-> Hr]|(q & y & _ & Hy & Hyt & Hk & Hh & -> & Hr)]; destruct ra as [[hp g]|e]; try done.
    { intros [= _ <- _]. rewrite set_volumes_self by done. by apply served_refl. }
    cbn [set_volumes Sessions]. destruct (Session.Create _ _ _ _ _ _) as [[[rc m'] ev1]|] eqn:Hc; [|done]. cbn [mbind option_bind].
    destruct (create_call _ _ _ _ _ Hc eq_refl eq_refl) as (H1 & Hev & Hp). rewrite after_dropless by done. unfold set_manager. cbn [Volumes Sessions].
    assert (Hsp : spares t {[id]} (Sessions a) m') by apply H1.
    destruct rc as [p|e]; intros [= _ <- _].
    + destruct (Hp p eq_refl) as (s & Hsp' & Hsid & Hst & _).
      apply (served_volumes t {[id]} a (set_manager a m') v); [done|done| | |].
      * eapply index_ok_grow; [exact Hi|done|apply heap_grows_holder].
      * fold id. rewrite <- Hsid. eapply own_holder; [exact Hy|exact Hsp'|congruence|by eapply own_spares].
      * by eapply holder_vspares.
    + apply (served_volumes t {[id]} a (set_manager a m') v); [done|done| | |].
      * apply (index_ok_exec (set_holder v q id) (SRelease t (cs_VolumeID req) id)); [|done].
        eapply index_ok_grow; [exact Hi|done|apply heap_grows_holder].
      * eapply own_unlocks; [by apply (undo_unlocks v q y)|by eapply own_spares].
      * by apply (undo_vspares v q y).
Qed.
End create.
Lemma create_served a x ctx bd r s' ev t : server_ok a → MintID (c_uuid (hc_create x)) ∉ map s_ID (sheap (Sessions a)) →
  (∀ t', Middleware.reqTenant ctx = inl t' → t' = t ∧ t ≠ "") →
  handleCreateSession uni_lower harnessPy a x ctx bd = Some (r, s', ev) →
  served_as t {[MintID (c_uuid (hc_create x))]} a s'.
Proof.
  intros Ha Hid Hctx. unfold handleCreateSession.
  assert (H0 : served_as t {[MintID (c_uuid (hc_create x))]} a a) by (by apply served_refl).
  destruct bd as [req| |]; [| |by intros [= _ <- _]].
  all: destruct (String.eqb _ ""); [by intros [= _ <- _]|].
  all: destruct (Middleware.reqTenant ctx) as [t'|]; [|by intros [= _ <- _]].
  all: destruct (Hctx t' eq_refl) as [-> Ht]; cbv zeta.
  all: destruct (String.eqb _ "kernel"); [by apply kernel_served|by apply filesystem_served].
Qed.
Lemma destroy_served new a rm ctx id token r s' ev t : server_ok a → (∀ t', Middleware.reqTenant ctx = inl t' → t' = t ∧ t ≠ "") →
  handleDestroySession a rm ctx id token = Some (r, s', ev) → served_as t new a s'.
Proof.
  intros Ha Hctx. unfold handleDestroySession. destruct (Middleware.reqTenant ctx) as [t'|].
  2: { intros [= _ <- _]. by apply served_refl. }
  destruct (Hctx t' eq_refl) as [-> Ht]. destruct (Session.Destroy _ _ _ _ _) as [[[rd m] ev1]|] eqn:E; [|done]. cbn.
  intros [= _ <- _]. by eapply Destroy_served.
Qed.

(** *** Steps of a session *)
Context (backend_name : string) (backend : Spec → bool → outcome).
Lemma same_sema m l : same_slots m (put m l (Kernels m) (sessions m) (Session.used m) (sheap m)).
Proof. split; try done. intros e E. by exists e. Qed.
Lemma Exec_served t new a late now id token spec sink : t ≠ "" → server_ok a → lim_ok (Sema (Sessions a)) →
  ∃ r m' ran, Session.Exec backend (Sessions a) late now id token t spec sink = Some (r, m', ran) ∧
    served_as t new a (set_manager a m').
Proof.
  intros Ht Ha Hl.
  assert (H : ∃ r m' ran, Session.Exec backend (Sessions a) late now id token t spec sink = Some (r, m', ran) ∧
    slots_ok {| gm := m'; flights := [] |} ∧ same_fields (Sessions a) m').
  { unfold Session.Exec. destruct (authed _ _ _ _) as [p|err]; [|eexists _, _, _; split; [done|]; split; [apply Ha|reflexivity]].
    destruct (with_slot (Sema (Sessions a)) late Hl) as [(H1 & _)|(H1 & _ & l' & H3 & H4)].
    - destruct (Acquire (Sema (Sessions a)) late) as [ok l1]. cbn in H1. subst ok. cbn [negb].
      eexists _, _, _. split; [done|]. split; [apply Ha|reflexivity].
    - destruct (Acquire (Sema (Sessions a)) late) as [ok l1]. cbn in H1, H3. subst ok. cbn [negb]. rewrite H3. cbn. eexists _, _, _. split; [done|]. split; [|split; [by intros _|done]].
      eapply same_ok; [apply (same_sema (alter_session (Sessions a) p (touch now)) l')|].
      eapply same_ok; [by apply same_alter|apply Ha]. }
  destruct H as (r & m' & ran & E & H1 & H2). exists r, m', ran. split; [done|].
  apply served_manager; [done|done| |done]. by eapply Exec_spares.
Qed.
Lemma KernelExec_served t new a x id token code stepMs sink : t ≠ "" → server_ok a →
  kernel_yields x →
  ∃ r m' sent, KernelExec (Sessions a) x id token t code stepMs sink = Some (r, m', sent) ∧ served_as t new a (set_manager a m').
Proof.
  intros Ht Ha Hx. destruct (engine_of _ (sv_slots _ Ha)) as (e & He & _). cbn [gm] in He.
  assert (H : ∃ r m' sent, KernelExec (Sessions a) x id token t code stepMs sink = Some (r, m', sent) ∧
    slots_ok {| gm := m'; flights := [] |} ∧ same_fields (Sessions a) m').
  { unfold KernelExec. destruct (authed _ _ _ _) as [p|err]; [|eexists _, _, _; split; [done|]; split; [apply Ha|reflexivity]].
    destruct (s_k _) as [k|]; [|eexists _, _, _; split; [done|]; split; [apply Ha|reflexivity]]. rewrite He.
    assert (∃ z e' sent, Kernel.Exec e x k code stepMs sink = Some (z, e', sent)) as (z & e' & sent & Hz).
    { unfold Kernel.Exec. destruct (step_returns e x k stepMs sink Hx) as [z ->]. by eexists _, _, _. }
    rewrite Hz. cbn. eexists _, _, _. split; [done|]. split; [|by split].
    eapply same_ok; [by apply same_alter|]. eapply same_ok; [by eapply same_engine; [|eapply Exec_slots]|apply Ha]. }
  destruct H as (r & m' & sent & E & H1 & H2). exists r, m', sent. split; [done|].
  apply served_manager; [done|done| |done]. by eapply KernelExec_spares.
Qed.
Lemma exec_served t new a x ctx id token bd : server_ok a → lim_ok (Sema (Sessions a)) →
  kernel_yields (hx_kernel x) →
  (∀ t', Middleware.reqTenant ctx = inl t' → t' = t ∧ t ≠ "") →
  ∃ r s' ran, handleSessionExec uni_lower backend_name backend a x ctx id token bd = Some (r, s', ran) ∧ served_as t new a s'.
Proof.
  intros Ha Hl Hx Hctx. unfold handleSessionExec. pose proof (served_refl t new a Ha) as H0.
  destruct (Middleware.reqTenant ctx) as [t'|]; [|by eexists _, _, _]. destruct (Hctx t' eq_refl) as [-> Ht].
  destruct (IsKernel _ _ _ _) as [isK|]; [|by eexists _, _, _]. destruct bd as [req| |]; [|by eexists _, _, _..].
  destruct isK.
  - unfold handleKernelExec. cbv zeta. destruct (String.eqb _ ""); [by eexists _, _, _|].
    destruct (_ && negb _); [by eexists _, _, _|].
    edestruct (KernelExec_served t new a (hx_kernel x) id token) as (r & m' & sent & -> & H); [done..|].
    cbn. by eexists _, _, _.
  - destruct (SessionRuntime _ _ _ _) as [rt|]; [|by eexists _, _, _]. destruct (Catalogue.Resolve _ _ _ _) as [lang|]; [|by eexists _, _, _].
    destruct (buildSpec lang req) as [spec|]; [|by eexists _, _, _]. unfold handleSpecExec. cbv zeta.
    destruct (_ && negb _); [by eexists _, _, _|].
    destruct (Exec_served t new a (hx_late x) (hx_now x) id token spec (wantsSSE (hx_accept x) (hx_stream x)) Ht Ha Hl)
      as (r & m' & ran & -> & H). cbn. by eexists _, _, _.
Qed.
Lemma Exec_quiet m late now id token t spec sink r m' ran :
  Session.Exec backend m late now id token t spec sink = Some (r, m', ran) → quiet m m'.
Proof.
  unfold Session.Exec. destruct (authed _ _ _ _) as [p|]; [|by intros [= _ <- _]].
  destruct (Acquire (Sema m) late) as [ok l]. destruct ok; cbn [negb]; [|by intros [= _ <- _]].
  destruct (Sched.Release l) as [l'|]; [|done]. cbn. intros [= _ <- _].
  etransitivity; [by apply (quiet_alter m p (touch now))|by apply quiet_same].
Qed.
Lemma KernelExec_quiet m x id token t code stepMs sink r m' sent : KernelExec m x id token t code stepMs sink = Some (r, m', sent) → quiet m m'.
Proof.
  unfold KernelExec. destruct (authed _ _ _ _) as [p|]; [|by intros [= _ <- _]].
  destruct (s_k _) as [k|]; [|by intros [= _ <- _]]. destruct (Kernels m) as [e|]; [|done].
  destruct (Kernel.Exec e x k code stepMs sink) as [[[z e'] sent']|]; [|done]. cbn. intros [= _ <- _].
  etransitivity; [apply quiet_engine|by apply quiet_alter].
Qed.
Lemma exec_quiet a x ctx id token bd r s' ran :
  handleSessionExec uni_lower backend_name backend a x ctx id token bd = Some (r, s', ran) →
  quiet (Sessions a) (Sessions s') ∧ Volumes s' = Volumes a.
Proof.
  unfold handleSessionExec. destruct (Middleware.reqTenant ctx) as [t|]; [|by intros [= _ <- _]].
  destruct (IsKernel _ _ _ _) as [isK|]; [|by intros [= _ <- _]]. destruct bd as [req| |]; [|by intros [= _ <- _]..].
  destruct isK.
  - unfold handleKernelExec. cbv zeta. destruct (String.eqb _ ""); [by intros [= _ <- _]|].
    destruct (_ && negb _); [by intros [= _ <- _]|].
    destruct (KernelExec _ _ _ _ _ _ _ _) as [[[rk m] sent]|] eqn:E; [|done]. cbn. intros [= _ <- _]. split; [|done]. by eapply KernelExec_quiet.
  - destruct (SessionRuntime _ _ _ _) as [rt|]; [|by intros [= _ <- _]]. destruct (Catalogue.Resolve _ _ _ _) as [lang|]; [|by intros [= _ <- _]].
    destruct (buildSpec lang req) as [spec|]; [|by intros [= _ <- _]]. unfold handleSpecExec. cbv zeta.
    destruct (_ && negb _); [by intros [= _ <- _]|].
    destruct (Session.Exec _ _ _ _ _ _ _ _ _) as [[[re m] ran']|] eqn:E; [|done]. cbn. intros [= _ <- _]. split; [|done]. by eapply Exec_quiet.
Qed.
Lemma WriteFile_quiet m x id token t rel data r m' ev : WriteFile m x id token t rel data = (r, m', ev) →
  quiet m m' ∧ (slots_ok {| gm := m; flights := [] |} → slots_ok {| gm := m'; flights := [] |}) ∧ same_fields m m'.
Proof.
  assert (H0 : quiet m m ∧ (slots_ok {| gm := m; flights := [] |} → slots_ok {| gm := m; flights := [] |}) ∧ same_fields m m) by done.
  unfold WriteFile, resolve_path. destruct (authed _ _ _ _) as [p|]; cbn; [|by intros [= _ <- _]].
  destruct (safePath _ _); [|by intros [= _ <- _]]. destruct (_ <? _); [by intros [= _ <- _]|].
  destruct (f_mkdir x _); [|by intros [= _ <- _]]. destruct (f_write x _); [|by intros [= _ <- _]]. intros [= _ <- _].
  split; [by apply quiet_alter|]. split; [|by split]. intros Hok. eapply same_ok; [by apply same_alter|done].
Qed.
Lemma put_quiet a x enoent ctx id token path bd r s' ev :
  handleSessionFSPut a x enoent ctx id token path bd = (r, s', ev) → quiet (Sessions a) (Sessions s') ∧ Volumes s' = Volumes a.
Proof.
  unfold handleSessionFSPut. destruct (Middleware.reqTenant ctx) as [t|]; [|by intros [= _ <- _]].
  destruct (String.eqb path ""); [by intros [= _ <- _]|]. destruct bd as [data|]; [|by intros [= _ <- _]].
  destruct (WriteFile _ _ _ _ _ _ _) as [[rw m] evw] eqn:E. intros [= _ <- _]. split; [|done].
  by apply (WriteFile_quiet _ _ _ _ _ _ _ _ _ _ E).
Qed.
Lemma put_served t new a x enoent ctx id token path bd r s' ev : server_ok a →
  (∀ t', Middleware.reqTenant ctx = inl t' → t' = t ∧ t ≠ "") →
  handleSessionFSPut a x enoent ctx id token path bd = (r, s', ev) → served_as t new a s'.
Proof.
  intros Ha Hctx. unfold handleSessionFSPut. pose proof (served_refl t new a Ha) as H0.
  destruct (Middleware.reqTenant ctx) as [t'|]; [|by intros [= _ <- _]]. destruct (Hctx t' eq_refl) as [-> Ht].
  destruct (String.eqb path ""); [by intros [= _ <- _]|]. destruct bd as [data|]; [|by intros [= _ <- _]].
  destruct (WriteFile _ _ _ _ _ _ _) as [[rw m] evw] eqn:E. intros [= _ <- _].
  destruct (WriteFile_quiet _ _ _ _ _ _ _ _ _ _ E) as (_ & H1 & H2).
  apply served_manager; [done|by apply H1, Ha|by eapply WriteFile_spares|done].
Qed.

(** *** Sweeps *)
Definition dropped m v (acc : Session.Manager W * list sevent) : Prop :=
  OnDrop acc.1 = true ∧ sheap acc.1 = sheap m ∧ ∃ v', on_drop (Some v) acc.2 = Some v' ∧ unlocks v v' ∧ index_ok v'.
Lemma dropped_drop m v acc acc' s reaped : dropped m v acc → andthen acc (λ m, drop m s reaped) = Some acc' → dropped m v acc'.
Proof.
  intros (Hd & Hh & v1 & Hv & Hu & Hi). unfold andthen. destruct (drop acc.1 s reaped) as [[m' ev]|] eqn:E; [|done].
  cbn. intros [= <-]. destruct (drop_frees acc.1 s reaped m' ev v1 Hd E) as (E1 & E2 & v2 & Hv2 & Hc).
  split; [done|]. split; [cbn; congruence|]. exists v2. cbn. split; [by rewrite on_drop_app, Hv|]. destruct Hc as [->| ->]; [done|].
  split; [etransitivity; [exact Hu|apply ReleaseAll_unlocks]|by apply ReleaseAll_index].
Qed.
Lemma swept_ok a m' ev : server_ok a → greach harnessPy {| gm := Sessions a; flights := [] |} {| gm := m'; flights := [] |} →
  sheap m' = sheap (Sessions a) → (∀ v, Volumes a = Some v → dropped (Sessions a) v (m', ev)) → server_ok (after a m' ev).
Proof.
  intros Ha Hg Hh Hd. split; [by eapply greach_ok; [apply Ha|]|]. unfold after. cbn [Volumes Sessions]. intros v' Hv'.
  destruct (Volumes a) as [v|] eqn:Hv; [|by rewrite on_drop_nothing in Hv'].
  destruct (Hd v eq_refl) as (H1 & _ & v1 & H2 & H3 & H4). cbn [fst snd] in *. rewrite H2 in Hv'. injection Hv' as ->.
  split; [done|]. split; [done|]. destruct (sv_vols _ Ha v Hv) as (_ & _ & Ho). intros q x Hq Hn. rewrite Hh.
  by apply (own_unlocks _ _ _ H3 Ho q x).
Qed.
Lemma dropped_start a v ks kev : server_ok a → Volumes a = Some v →
  dropped (Sessions a) v (set_engine (Sessions a) ks, map SKernel kev) ∧ dropped (Sessions a) v (Sessions a, []).
Proof.
  intros Ha Hv. destruct (sv_vols _ Ha v Hv) as (Hd & Hi & _). split; (split; [done|]); (split; [done|]); exists v; [|done].
  split; [by apply on_drop_none, dropless_kernel|done].
Qed.
Lemma drop_heap m acc acc' s reaped : sheap acc.1 = sheap m → andthen acc (λ m, drop m s reaped) = Some acc' → sheap acc'.1 = sheap m.
Proof.
  intros Hh. unfold andthen. destruct (drop acc.1 s reaped) as [[m1 ev1]|] eqn:E; [|done]. cbn. intros [= <-]. cbn.
  destruct (drop_keeps _ _ _ _ _ E) as [(Hd & _) _]. congruence.
Qed.
Definition swept_to a m' ev : Prop :=
  server_ok (after a m' ev) ∧ exact_fields (Sessions a) m' ∧ sheap m' = sheap (Sessions a).
Lemma Sweep_served a now sz : server_ok a → ∃ m' ev, Sweep (Sessions a) now sz = Some (m', ev) ∧ swept_to a m' ev.
Proof.
  intros Ha. destruct (Sweep_steps harnessPy (Sessions a) [] now sz (sv_slots _ Ha)) as (m' & ev & E & Hg).
  exists m', ev. split; [done|].
  assert (Hh : sheap m' = sheap (Sessions a)).
  { by destruct (Sweep_keeps (λ acc, sheap acc.1 = sheap (Sessions a)) (λ acc acc' s r, drop_heap _ acc acc' s r) _ _ _ _ _ eq_refl E)
      as (m1 & u & H & ->). }
  split; [|by split; [apply (greach_exact _ _ Hg)|]]. apply swept_ok; [done|done|done|]. intros v Hv.
  destruct (dropped_start a v None [] Ha Hv) as [_ H0].
  destruct (Sweep_keeps (dropped (Sessions a) v) (dropped_drop (Sessions a) v) _ _ _ _ _ H0 E) as (m1 & u & H & ->). exact H.
Qed.
Lemma SweepKernels_served a now : server_ok a → ∃ m' ev, SweepKernels (Sessions a) now = Some (m', ev) ∧ swept_to a m' ev.
Proof.
  intros Ha. destruct (SweepKernels_steps harnessPy (Sessions a) [] now (sv_slots _ Ha)) as (m' & ev & E & Hg).
  exists m', ev. split; [done|].
  assert (Hh : sheap m' = sheap (Sessions a)).
  { by apply (SweepKernels_keeps (λ acc, sheap acc.1 = sheap (Sessions a)) (λ acc acc' s r, drop_heap _ acc acc' s r) _ _ _ _
      eq_refl (λ _ _, eq_refl) E). }
  split; [|by split; [apply (greach_exact _ _ Hg)|]]. apply swept_ok; [done|done|done|]. intros v Hv.
  apply (SweepKernels_keeps (dropped (Sessions a) v) (dropped_drop (Sessions a) v) (Sessions a) now); [| |exact E].
  - by apply (dropped_start a v None []).
  - intros ks kev. by apply (dropped_start a v ks kev).
Qed.
End fields.
