(* ===== verification/Workspace.v ===== *)
(** * The files of the workspaces

    The directory tree under the sessions' root ([tree]), what the calls of the [os] package that
    internal/session/manager.go makes do to it, and what it answers them ([fs_of]).  A
    program that runs in a session changes the files of that session's workspace between two calls
    ([program]).  The tree has files and directories; a symbolic link that a program leaves in its workspace is
    not modelled.  The lemmas place the workspaces: none is below another. *)

From S2P Require Import Prelude GoLib GoStrings GoCodec Sched Auth Volume VolumeSpec Executor Registry Kernel Session SessionSlots SessionSpec ApiHttp ApiVolumes ApiSessions SessionVolumes ApiSessionsSpec SessionFrame.
Import Strings.

(** ** The tree *)
Inductive node := NFile (data : string) (mod_time : Z) | NDir (size mod_time : Z).
Abbreviation tree := (gmap string node).
Definition is_file (n : node) : bool := match n with NFile _ _ => true | NDir _ _ => false end.
(** [p] is [w], or below it. *)
Definition under (w p : string) : bool := String.eqb p w || HasPrefix p (w +:+ "/").

(** What a call observes: the answers of the operating system, the clock, and what a call that fails leaves
    behind: the directories it made, how much of a file it wrote, what it did not remove. *)
Record osenv := {
  os_reads : string → bool; os_mkdir : bool; os_write : bool; os_rm : bool;
  os_made : string → bool; os_wrote : option nat; os_left : string → bool; os_now : Z }.

Definition info (q : string) (n : node) : FileInfo := {|
  fi_Name := Filepath.Base q; fi_Size := match n with NFile d _ => len d | NDir z _ => z end;
  fi_Dir := negb (is_file n); fi_ModTime := match n with NFile _ t | NDir _ t => t end |}.
(** The entries below a path, and those of a directory. *)
Definition sub (w : string) (T : tree) : tree := filter (λ kn, under w kn.1 = true) T.
Definition entries_at (p : string) (T : tree) : list (string * node) :=
  List.filter (λ kn, String.eqb (Filepath.Dir kn.1) p && negb (String.eqb kn.1 p)) (map_to_list (sub p T)).
Definition file_size (n : node) : Z := match n with NFile d _ => len d | NDir _ _ => 0 end.
(** [dirSize]. *)
Definition dirSize (T : tree) (root : string) : Z := wrap64 (map_sum (λ _ n, file_size n) (sub root T)).

(** [os.MkdirAll]: it ends at a file on the way. *)
Definition ancestors (d : string) : list string :=
  List.filter (λ q, under q d) (map (λ n, str_take n d) (seq 1 (String.length d))).
Definition mkdir_ok (x : osenv) (T : tree) (d : string) : bool :=
  os_mkdir x && forallb (λ q, match T !! q with Some n => negb (is_file n) | None => true end) (ancestors d).
Definition mkdir_all (x : osenv) (T : tree) (d : string) : tree :=
  let ok := mkdir_ok x T d in
  foldl (λ T q, if bool_decide (is_Some (T !! q)) || negb (ok || os_made x q) then T
                else <[q := NDir 0 (os_now x)]> T) T (ancestors d).
(** [os.WriteFile]: never onto a directory. *)
Definition write_ok (x : osenv) (T : tree) (p : string) : bool :=
  os_write x && match T !! p with Some n => is_file n | None => true end.
Definition write_file (x : osenv) (T : tree) (p data : string) : tree :=
  if write_ok x T p then <[p := NFile data (os_now x)]> T else
  match T !! p, os_wrote x with
  | Some (NDir _ _), _ | _, None => T
  | _, Some n => <[p := NFile (str_take n data) (os_now x)]> T
  end.
(** [os.RemoveAll]. *)
Definition remove_all (x : osenv) (T : tree) (d : string) : tree :=
  filter (λ kn, under d kn.1 = false ∨ (os_rm x = false ∧ os_left x kn.1 = true)) T.

Definition fs_of (T : tree) (x : osenv) : fsenv := {|
  f_stat p := if os_reads x p then info p <$> T !! p else None;
  f_read p := match T !! p with Some (NFile d _) => if os_reads x p then Some d else None | _ => None end;
  f_readdir p := match T !! p with
                 | Some (NDir _ _) =>
                     if os_reads x p then Some (map (λ kn, info kn.1 kn.2) (List.filter (λ kn, os_reads x kn.1) (entries_at p T)))
                     else None
                 | _ => None
                 end;
  f_size := dirSize T; f_mkdir := mkdir_ok x T; f_write := write_ok x T; f_rm := os_rm x; f_now := os_now x |}.

(** What the events of a call do to the tree; the others do nothing to it. *)
Definition file_event (x : osenv) (T : tree) (e : sevent) : tree :=
  match e with
  | SMkdir d => mkdir_all x T d
  | SRemoveAll d => remove_all x T d
  | SWrite p data => write_file x T p data
  | SOnDrop _ | SKernel _ => T
  end.
Definition file_events (x : osenv) (T : tree) (ev : list sevent) : tree := foldl (file_event x) T ev.
(** A program with the workspace [ws] leaves there what [T'] has there. *)
Definition program (T : tree) (ws : string) (T' : tree) : tree :=
  sub ws T' ∪ filter (λ kn, under ws kn.1 = false) T.

Example demo_tree :
  let x := {| os_reads _ := true; os_mkdir := true; os_write := true; os_rm := true; os_made _ := false;
              os_wrote := None; os_left _ := false; os_now := 7 |} in
  let T := file_events x ∅ [SMkdir "/s/a/workspace"; SMkdir "/s/a/workspace/d"; SWrite "/s/a/workspace/d/f" "abc"; SMkdir "/s/b"] in
  (f_read (fs_of T x) "/s/a/workspace/d/f", map fi_Name <$> f_readdir (fs_of T x) "/s/a/workspace", dirSize T "/s",
   map fst (map_to_list (file_events x T [SRemoveAll "/s/a"]))) =
  (Some "abc", Some ["d"], 3, ["/s/b"; "/s"]).
Proof. vm_compute. reflexivity. Qed.

(** ** Paths *)
Lemma under_spec w p : under w p = true ↔ p = w ∨ ∃ r, p = w +:+ "/" +:+ r.
Proof.
  unfold under. rewrite orb_true_iff, String.eqb_eq, HasPrefix_spec. setoid_rewrite <- sapp_assoc. done.
Qed.
Lemma under_refl w : under w w = true.
Proof. apply under_spec. by left. Qed.
Lemma under_trans a b c : under a b = true → under b c = true → under a c = true.
Proof.
  rewrite !under_spec. intros [->|[r ->]] [->|[r' ->]]; [by left|by right; eexists|by right; eexists|right].
  exists (r +:+ "/" +:+ r'). by rewrite <- !sapp_assoc.
Qed.
(** Two names followed by nothing or a slash. *)
Lemma element_eq (c c' r r' : string) : contains_char Filepath.slash c = false → contains_char Filepath.slash c' = false →
  c +:+ String Filepath.slash r = c' +:+ String Filepath.slash r' → c = c'.
Proof.
  revert c'. induction c as [|a c IH]; intros [|a' c']; cbn [contains_char append]; [done| | |].
  - intros _ H [= <- _]. cbn in H. done.
  - intros H _ [= -> _]. cbn in H. done.
  - intros [_ H]%orb_false_iff [_ H']%orb_false_iff [= -> E]. f_equal. by apply IH.
Qed.
Lemma under_slash w p : under w p = true → ∃ r, p +:+ "/" = w +:+ String Filepath.slash r.
Proof.
  rewrite under_spec. intros [->|[r ->]]; [by exists ""|]. exists (r +:+ "/"). by rewrite <- !sapp_assoc.
Qed.

(** Where a session lives: its directory, and its workspace in it. *)
Definition home (root id : string) : string := Filepath.Join [root; id].
Definition stack (root : string) : list string := Filepath.clean_elems (Filepath.is_rooted root) (split_on Filepath.slash root).
Lemma stack_normal root : Filepath.normal (Filepath.is_rooted root) (stack root).
Proof. apply Filepath.clean_elems_normal, split_on_elems. Qed.
Lemma workspace_simple : Filepath.simple "workspace".
Proof. by repeat split. Qed.
Lemma home_render root id : Filepath.simple id →
  home root id = Filepath.render (Filepath.is_rooted root) (id :: stack root) ∧
  Filepath.Join [root; id; "workspace"] = Filepath.render (Filepath.is_rooted root) ("workspace" :: id :: stack root).
Proof.
  intros Hid. destruct (decide (root = "")) as [->|Hne].
  - change (Filepath.is_rooted "") with false. change (stack "") with (@nil string). unfold home.
    change (Filepath.Join [""; id; "workspace"]) with (Filepath.Join [id; "workspace"]).
    assert (Hn : Filepath.normal false [id]) by (constructor; [done|constructor]).
    assert (Hr : Filepath.is_rooted id = false).
    { rewrite <- (Filepath.rooted_render false [id] Hn). done. }
    assert (Hs : Filepath.clean_elems false (split_on Filepath.slash id) = [id]).
    { unfold Filepath.clean_elems. rewrite (split_on_none _ id) by apply Hid. cbn. by rewrite Filepath.clean_step_simple. }
    split.
    + change (Filepath.Join [""; id]) with (Filepath.Join [id]). unfold Filepath.Join.
      destruct (String.eqb_spec id "") as [->|_]; [by destruct Hid|]. change (Strings.Join [id] "/") with id.
      unfold Filepath.Clean. rewrite Hr, Hs. cbn. destruct (String.eqb_spec id "") as [->|_]; [by destruct Hid|done].
    + destruct (Filepath.Join_simple id "workspace") as [_ ->]; [apply Hid|apply workspace_simple|]. by rewrite Hr, Hs.
  - destruct (Filepath.Join_simple root id Hne Hid) as [_ E]. split; [exact E|].
    destruct (Filepath.Join_simple (root +:+ "/" +:+ id) "workspace") as [_ E2]; [by destruct root|apply workspace_simple|].
    assert (Hr : Filepath.is_rooted (root +:+ "/" +:+ id) = Filepath.is_rooted root) by (by destruct root).
    assert (Hs : Filepath.clean_elems (Filepath.is_rooted root) (split_on Filepath.slash (root +:+ "/" +:+ id)) = id :: stack root).
    { change ("/" +:+ id) with (String Filepath.slash id). unfold Filepath.clean_elems. rewrite split_on_sep, foldl_app.
      rewrite (split_on_none _ id) by apply Hid. cbn. by rewrite Filepath.clean_step_simple. }
    rewrite Hr, Hs in E2. rewrite <- E2. unfold Filepath.Join.
    destruct (String.eqb_spec root "") as [|_]; [done|]. destruct (String.eqb_spec (root +:+ "/" +:+ id) "") as [H|_]; [by destruct root|].
    cbn [Strings.Join]. by rewrite <- !sapp_assoc.
Qed.
Lemma home_disjoint root id id' q : Filepath.simple id → Filepath.simple id' →
  under (home root id) q = true → under (home root id') q = true → id = id'.
Proof.
  intros Hid Hid'. destruct (home_render root id Hid) as [-> _]. destruct (home_render root id' Hid') as [-> _].
  rewrite !Filepath.render_cons. intros (r & E)%under_slash (r' & E')%under_slash. rewrite E in E'.
  rewrite <- !sapp_assoc in E'. apply app_inj_l in E'. eapply element_eq; [apply Hid|apply Hid'|exact E'].
Qed.
Lemma Dir_render r c out : Filepath.normal r (c :: out) → Filepath.simple c → out ≠ [] →
  Filepath.Dir (Filepath.render r (c :: out)) = Filepath.render r out.
Proof.
  intros Hn (_ & _ & _ & Hc) Ho. rewrite Filepath.render_cons, decide_False by done. unfold Filepath.Dir.
  rewrite <- sapp_assoc. change ("/" +:+ c) with (String Filepath.slash c). rewrite Filepath.upto_last_slash_app by done.
  assert (Hn' : Filepath.normal r out).
  { inversion Hn as [|l Hr Hl|]; subst; [|done]. clear -Hl. induction Hl as [|x l -> Hl IH]; [constructor|]. by constructor. }
  destruct (Filepath.Clean_of_render r out Hn') as [_ H]. rewrite H by (by right). unfold Filepath.dot_if_empty.
  destruct (String.eqb_spec (Filepath.render r out) "") as [E|_]; [|done].
  by apply Filepath.render_nonempty in E; [|done|right].
Qed.
Lemma render_under r out l : Filepath.normal r (l ++ out) → out ≠ [] →
  under (Filepath.render r out) (Filepath.render r (l ++ out)) = true.
Proof.
  intros Hn Ho. induction l as [|c l IH]; [by apply under_refl|]. cbn [app] in *.
  assert (Hne : l ++ out ≠ []) by (by destruct l).
  eapply under_trans; [apply IH|].
  - inversion Hn as [|k Hr Hl E|]; subst; [|done]. destruct (l ++ out) as [|y k]; [constructor|]. apply Forall_cons in Hl as [-> Hl]. by constructor.
  - rewrite Filepath.render_cons, decide_False by done. apply under_spec. right. exists c. by rewrite <- sapp_assoc.
Qed.

Lemma Join_stack r wo x : Filepath.normal r wo → wo ≠ [] → ∃ xo, Forall Filepath.simple xo ∧
  Filepath.Join [Filepath.render r wo; Filepath.Clean (String Filepath.slash x)] = Filepath.render r (xo ++ wo).
Proof.
  intros Hw Hne. destruct (Filepath.Clean_render (String Filepath.slash x)) as (xo & Hx & ->).
  change (Filepath.is_rooted (String Filepath.slash x)) with true in *.
  assert (Hsx : Forall Filepath.simple xo).
  { clear -Hx. remember true as b. induction Hx; subst; try done. constructor; auto. }
  exists xo. split; [done|]. unfold Filepath.dot_if_empty.
  pose proof (Filepath.render_nonempty true xo Hx (or_introl eq_refl)) as Hxn. apply String.eqb_neq in Hxn. rewrite Hxn.
  pose proof (Filepath.render_nonempty r wo Hw (or_intror Hne)) as Hwn. unfold Filepath.Join.
  destruct (String.eqb_spec (Filepath.render r wo) "") as [|_]; [done|].
  change (Strings.Join [?a; ?y] "/") with (a +:+ String Filepath.slash y).
  set (X := Filepath.render true xo). set (Y := Filepath.render r wo).
  assert (Hr : Filepath.is_rooted (Y +:+ String Filepath.slash X) = r).
  { rewrite <- (Filepath.rooted_render r wo Hw). fold Y. fold Y in Hwn. clearbody Y. by destruct Y. }
  assert (Hs : Filepath.clean_elems r (split_on Filepath.slash (Y +:+ String Filepath.slash X)) = xo ++ wo).
  { unfold Filepath.clean_elems. rewrite split_on_sep, foldl_app. unfold Y. rewrite Filepath.split_render by done.
    assert (Hg : ∀ l, Forall Filepath.simple l → foldl (Filepath.clean_step r) wo (rev l) = l ++ wo).
    { induction l as [|c l IH]; [done|]. intros [Hcs Hl]%Forall_cons. simpl. rewrite foldl_app, IH by done. simpl.
      by apply Filepath.clean_step_simple. }
    unfold X, Filepath.render. destruct (decide (xo = [])) as [->|Hx0]; [done|]. simpl append.
    change (String "/" ?y) with ("" +:+ String Filepath.slash y).
    rewrite split_on_sep. simpl. rewrite (split_on_join Filepath.slash); [by apply Hg| |].
    - by apply rev_ne.
    - by apply Forall_rev, (Filepath.normal_no_slash true). }
  unfold Filepath.Clean. rewrite Hr, Hs.
  destruct (String.eqb_spec (Filepath.render r (xo ++ wo)) "") as [E|_]; [|done].
  apply Filepath.render_nonempty in E; [done| |right; by destruct xo].
  clear -Hw Hsx. induction Hsx; [done|]. by constructor.
Qed.
Lemma stack_home root id : Filepath.simple id → Filepath.normal (Filepath.is_rooted root) ("workspace" :: id :: stack root).
Proof. intros Hid. constructor; [apply workspace_simple|]. constructor; [done|apply stack_normal]. Qed.
Lemma workspace_home root id : Filepath.simple id →
  under (home root id) (Filepath.Join [root; id; "workspace"]) = true ∧ Filepath.Dir (Filepath.Join [root; id; "workspace"]) = home root id.
Proof.
  intros Hid. destruct (home_render root id Hid) as [-> ->]. pose proof (stack_home root id Hid) as Hn. split.
  - by apply (render_under _ (id :: stack root) ["workspace"]).
  - by apply Dir_render; [|apply workspace_simple|].
Qed.
(** What [safePath] gives stays in the workspace, and its parent in the session's directory. *)
Lemma safePath_home root s rel p : Filepath.simple (s_ID s) → s_Workspace s = Filepath.Join [root; s_ID s; "workspace"] →
  safePath s rel = Ok p →
  under (s_Workspace s) p = true ∧ under (home root (s_ID s)) p = true ∧ under (home root (s_ID s)) (Filepath.Dir p) = true.
Proof.
  intros Hid Hw. unfold safePath. cbv zeta. destruct (negb _ && negb _) eqn:E; [done|]. intros Hp'.
  assert (Hp : Filepath.Join [s_Workspace s; Filepath.Clean ("/" +:+ TrimSpace rel)] = p) by congruence. clear Hp' E.
  change ("/" +:+ TrimSpace rel) with (String Filepath.slash (TrimSpace rel)) in *.
  destruct (workspace_home root (s_ID s) Hid) as [Hu Hd]. destruct (home_render root (s_ID s) Hid) as [Hh Hj].
  pose proof (stack_home root (s_ID s) Hid) as Hn. rewrite Hw in *. rewrite Hj in Hp |- *.
  destruct (Join_stack _ _ (TrimSpace rel) Hn) as (xo & Hx & Ex); [done|]. rewrite Ex in Hp. subst p.
  assert (Hl : ∀ l, Forall Filepath.simple l → Filepath.normal (Filepath.is_rooted root) (l ++ "workspace" :: s_ID s :: stack root)).
  { induction 1; [exact Hn|]. by constructor. }
  assert (Hws : ∀ l, Forall Filepath.simple l → under (home root (s_ID s))
    (Filepath.render (Filepath.is_rooted root) (l ++ "workspace" :: s_ID s :: stack root)) = true).
  { intros l H. eapply under_trans; [exact Hu|]. rewrite Hj. apply render_under; [by apply Hl|done]. }
  split; [by apply render_under; [apply Hl|]|]. split; [by apply Hws|].
  destruct xo as [|c xo]; cbn [app].
  - rewrite Dir_render, <- Hh; [apply under_refl|done|apply workspace_simple|done].
  - rewrite Dir_render; [|by apply (Hl (c :: xo))|by inversion Hx|by destruct xo]. apply Hws. by inversion Hx.
Qed.

(** ** What a call leaves alone *)
Lemma sub_lookup w T q : under w q = true → sub w T !! q = T !! q.
Proof.
  intros H. unfold sub. destruct (T !! q) as [n|] eqn:E.
  - by apply map_lookup_filter_Some.
  - apply map_lookup_filter_None. by left.
Qed.
Lemma sub_ext w T T' : (∀ q, under w q = true → T' !! q = T !! q) → sub w T' = sub w T.
Proof.
  intros H. apply map_eq. intros q. destruct (under w q) eqn:E; [by rewrite !sub_lookup, H|].
  assert (Hn : ∀ U, sub w U !! q = None); [|by rewrite !Hn].
  intros U. apply map_lookup_filter_None. right. intros n _. cbn. congruence.
Qed.
Lemma ancestors_under d q : q ∈ ancestors d → under q d = true.
Proof. unfold ancestors. rewrite list_elem_of_In, filter_In. by intros [_ ?]. Qed.
Lemma mkdir_all_lookup x T d q : under q d = false → mkdir_all x T d !! q = T !! q.
Proof.
  intros Hq. unfold mkdir_all. cbv zeta. generalize (mkdir_ok x T d). intros ok.
  assert (H : Forall (.≠ q) (ancestors d)).
  { apply Forall_forall. intros q' Hin%ancestors_under ->. congruence. }
  clear Hq. revert T H. induction (ancestors d) as [|q' l IH]; intros T; [done|]. intros [Hne Hl]%Forall_cons. cbn [foldl].
  rewrite IH by done. case_match; [done|]. by apply lookup_insert_ne.
Qed.
Lemma write_file_lookup x T p data q : p ≠ q → write_file x T p data !! q = T !! q.
Proof.
  intros H. unfold write_file. destruct (write_ok x T p); [by apply lookup_insert_ne|].
  destruct (T !! p) as [[|]|], (os_wrote x); try done; by apply lookup_insert_ne.
Qed.
Lemma remove_all_lookup x T d q : under d q = false → remove_all x T d !! q = T !! q.
Proof.
  intros H. unfold remove_all. destruct (T !! q) as [n|] eqn:E.
  - apply map_lookup_filter_Some. split; [done|by left].
  - apply map_lookup_filter_None. by left.
Qed.
Lemma program_lookup T ws T' q : under ws q = false → program T ws T' !! q = T !! q.
Proof.
  intros H. unfold program. rewrite lookup_union_r.
  - destruct (T !! q) as [n|] eqn:E; [by apply map_lookup_filter_Some|apply map_lookup_filter_None; by left].
  - apply map_lookup_filter_None. right. intros n _. cbn. congruence.
Qed.
Lemma program_inside T ws T' q : under ws q = true → program T ws T' !! q = T' !! q.
Proof.
  intros H. unfold program. rewrite lookup_union_l; [by apply sub_lookup|].
  apply map_lookup_filter_None. right. intros n _. cbn. congruence.
Qed.

(** An event whose file, if any, is in the directory of the session [id]. *)
Definition confined (root id : string) (e : sevent) : Prop :=
  match e with SMkdir d | SRemoveAll d | SWrite d _ => under (home root id) d = true | SOnDrop _ | SKernel _ => True end.
Lemma foreign_workspace root id id' d q : Filepath.simple id → Filepath.simple id' → id ≠ id' →
  under (home root id) d = true → under (Filepath.Join [root; id'; "workspace"]) q = true → under d q = false ∧ under q d = false.
Proof.
  intros Hid Hid' Hne Hd Hq. destruct (workspace_home root id' Hid') as [Hw _].
  assert (Hq' : under (home root id') q = true) by (by eapply under_trans).
  split; apply not_true_iff_false; intros H; apply Hne.
  - exact (home_disjoint root id id' q Hid Hid' (under_trans _ _ _ Hd H) Hq').
  - exact (home_disjoint root id id' d Hid Hid' Hd (under_trans _ _ _ Hq' H)).
Qed.
Lemma file_event_elsewhere x T e root id id' q : Filepath.simple id → Filepath.simple id' → id ≠ id' →
  confined root id e → under (Filepath.Join [root; id'; "workspace"]) q = true → file_event x T e !! q = T !! q.
Proof.
  intros Hid Hid' Hne He Hq. destruct e as [d|d|d data| |]; cbn [confined file_event] in *; try done;
    destruct (foreign_workspace root id id' d q Hid Hid' Hne He Hq) as [H1 H2].
  - by apply mkdir_all_lookup.
  - by apply remove_all_lookup.
  - apply write_file_lookup. intros ->. by rewrite under_refl in H1.
Qed.
Lemma file_events_elsewhere x ev root id id' q : Filepath.simple id → Filepath.simple id' → id ≠ id' →
  Forall (confined root id) ev → under (Filepath.Join [root; id'; "workspace"]) q = true →
  ∀ T, file_events x T ev !! q = T !! q.
Proof.
  intros Hid Hid' Hne. induction 1 as [|e ev He _ IH]; intros Hq T; [done|]. cbn [file_events foldl].
  fold (file_events x (file_event x T e) ev). rewrite IH by done. by apply (file_event_elsewhere x T e root id id' q).
Qed.
