(* ===== verification/WorkspaceFrame.v ===== *)
(** * What a session call does to the files

    The events of each call of /v1/sessions stay in the directory of the session it names, or of the one it
    makes. *)

From S2P Require Import Prelude GoLib GoStrings GoCodec GoFloat Sched Auth Volume VolumeSpec Executor Registry Kernel KernelSpec Session SessionSlots SessionSpec ApiExec ApiHttp ApiVolumes ApiSessions SessionVolumes ApiSessionsSpec SessionFrame VolumeFrame ApiFrame Workspace.

Section calls.
Context {W : Type} {SW : Weighted W} {SWS : WeightedSpec W} (uni_lower : string → string) (harnessPy : string).
Implicit Types (m : Session.Manager W) (a b : ApiSessions.server W) (t id : string).

Abbreviation confines m id ev := (Forall (confined (Root m) id) ev).
Lemma confines_kernel root id ev : Forall (confined root id) (map SKernel ev).
Proof. by induction ev; constructor. Qed.
Lemma confines_none root id : Forall (confined root id) [].
Proof. constructor. Qed.
Ltac confined_by tac := repeat first
  [apply Forall_app; split|apply confines_kernel|constructor; [first [done|exact I|tac]|]|constructor].

Lemma the_home m p : homes_ok m → (p < List.length (sheap m))%nat → s_Workspace (the_session m p) = workspace m (s_ID (the_session m p)).
Proof.
  intros Hh Hp. destruct (lookup_lt_is_Some_2 _ _ Hp) as [s Hs]. rewrite (the_session_id _ _ _ Hs).
  exact (proj1 (Forall_lookup _ _) Hh p s Hs).
Qed.
Lemma teardown_confined m s reaped m' ev : Filepath.simple (s_ID s) → s_Workspace s = workspace m (s_ID s) →
  teardown_session m s reaped = Some (m', ev) → confines m (s_ID s) ev.
Proof.
  intros Hid Hw. assert (Hd : under (home (Root m) (s_ID s)) (session_dir s) = true).
  { unfold session_dir. rewrite Hw. unfold workspace. destruct (workspace_home (Root m) (s_ID s) Hid) as [_ ->]. apply under_refl. }
  assert (H : ∀ kev m1, Some (m1, map SKernel kev ++ (if OnDrop m1 then [SOnDrop (s_ID s)] else []) ++ [SRemoveAll (session_dir s)]) =
    Some (m', ev) → confines m (s_ID s) ev).
  { intros kev m1 [= _ <-]. destruct (OnDrop m1); confined_by ltac:(exact Hd). }
  unfold teardown_session. destruct (Kernels m) as [e|]; [|exact (H [] m)].
  destruct (negb (is_kernel s)); [exact (H [] m)|]. unfold kdestroy.
  assert (Hk : ∀ m1 kev, ('(m2, ev2) ← (e1 ← Kernels m1; m2 ← krelease m1 e1; Some (m2, map SKernel kev));
     Some (m2, ev2 ++ (if OnDrop m2 then [SOnDrop (s_ID s)] else []) ++ [SRemoveAll (session_dir s)])) = Some (m', ev) →
     confines m (s_ID s) ev).
  { intros m1 kev. destruct (Kernels m1) as [e1|]; [|done]. cbn [mbind option_bind]. destruct (krelease m1 e1) as [m2|]; [|done]. apply H. }
  destruct reaped; [exact (Hk m [])|]. destruct (Kernel.Destroy e (s_ID s)) as [e2 kev]. exact (Hk _ kev).
Qed.
Lemma Destroy_confined m rm id token t r m' ev : slots_ok {| gm := m; flights := [] |} → homes_ok m →
  Filepath.simple id → Session.Destroy m rm id token t = Some (r, m', ev) → confines m id ev.
Proof.
  intros Hok Hh Hid. unfold Session.Destroy. destruct (authed m id token t) as [p|] eqn:Ha; [|by intros [= _ _ <-]].
  destruct (authed_loc _ _ _ _ _ _ Hok Ha) as (Hlt & Hpid & _). pose proof (the_home m p Hh Hlt) as Hw.
  unfold claim. destruct (bool_decide _); cbn [negb]; [|by intros [= _ _ <-]].
  set (m1 := set_sessions m _). destruct (teardown_session m1 _ _) as [[m2 ev2]|] eqn:E; [|done]. cbn. intros [= _ _ <-].
  rewrite <- Hpid. apply (teardown_confined m1 _ false m2); [by rewrite Hpid|exact Hw|exact E].
Qed.
Lemma Create_confined m x rt o r m' ev : Filepath.simple (session_id x o) →
  Session.Create uni_lower harnessPy m x rt o = Some (r, m', ev) → confines m (session_id x o) ev.
Proof.
  intros Hid. unfold Session.Create. destruct (create_check uni_lower m rt) as [lang|]; [|by intros [= _ _ <-]].
  destruct (mintToken x) as [tok|]; [|by intros [= _ _ <-]].
  set (s := new_session m x o lang tok). set (id := session_id x o) in *.
  destruct (workspace_home (Root m) id Hid) as [Hw Hd].
  assert (Hd' : under (home (Root m) id) (session_dir s) = true).
  { unfold session_dir. change (s_Workspace s) with (Filepath.Join [Root m; id; "workspace"]). rewrite Hd. apply under_refl. }
  change (Filepath.Join [Root m; id; "workspace"]) with (s_Workspace s) in Hw.
  destruct (c_mkdir x); cbn [negb]; [|intros [= _ _ <-]; confined_by ltac:(exact Hw)].
  destruct (alloc m s) as [p m1]. destruct (negb (String.eqb (s_Type s) "kernel")); [intros [= _ _ <-]; confined_by ltac:(exact Hw)|].
  destruct (Kernels m1) as [e|]; [|intros [= _ _ <-]; confined_by ltac:(first [exact Hw|exact Hd'])].
  destruct (kslot m1 e (c_late x)) as [ok m2]. destruct ok; cbn [negb]; [|intros [= _ _ <-]; confined_by ltac:(first [exact Hw|exact Hd'])].
  destruct (Kernels m2) as [e2|]; [|done]. unfold kstart. destruct (NewKernel _ _ _ _ _ _ _) as [[[k|err] e3] kev].
  - intros [= _ _ <-]. confined_by ltac:(exact Hw).
  - cbn [set_engine put Kernels mbind option_bind]. destruct (krelease _ _) as [m4|]; [|done]. cbn. intros [= _ _ <-].
    confined_by ltac:(first [exact Hw|exact Hd']).
Qed.
Lemma path_confined m id token t rel p path : slots_ok {| gm := m; flights := [] |} → homes_ok m → Filepath.simple id →
  resolve_path m id token t rel = Ok (p, path) →
  under (home (Root m) id) path = true ∧ under (home (Root m) id) (Filepath.Dir path) = true ∧
  under (s_Workspace (the_session m p)) path = true ∧ authed m id token t = Ok p.
Proof.
  intros Hok Hh Hid. unfold resolve_path. destruct (authed m id token t) as [q|] eqn:Ha; [|done]. cbn.
  destruct (authed_loc _ _ _ _ _ _ Hok Ha) as (Hlt & Hpid & _). pose proof (the_home m q Hh Hlt) as Hw.
  destruct (safePath (the_session m q) rel) as [path'|] eqn:E; [|done]. cbn. intros [= <- <-].
  destruct (safePath_home (Root m) _ rel path' ltac:(by rewrite Hpid) Hw E) as (H1 & H2 & H3). by rewrite Hpid in *.
Qed.
Lemma put_confined a x enoent ctx id token path bd r s' ev : slots_ok {| gm := Sessions a; flights := [] |} →
  homes_ok (Sessions a) → Filepath.simple id →
  handleSessionFSPut a x enoent ctx id token path bd = (r, s', ev) → confines (Sessions a) id ev.
Proof.
  intros Hok Hh Hid. unfold handleSessionFSPut. destruct (Middleware.reqTenant ctx) as [t|]; [|by intros [= _ _ <-]].
  destruct (String.eqb path ""); [by intros [= _ _ <-]|]. destruct bd as [data|]; [|by intros [= _ _ <-]].
  unfold WriteFile. destruct (resolve_path (Sessions a) id token t path) as [[p q]|] eqn:E; [|by intros [= _ _ <-]].
  destruct (path_confined _ _ _ _ _ _ _ Hok Hh Hid E) as (H1 & H2 & _).
  destruct (_ <? _); [by intros [= _ _ <-]|]. destruct (f_mkdir x _); cbn [negb]; [|intros [= _ _ <-]; confined_by ltac:(exact H2)].
  destruct (f_write x _); intros [= _ _ <-]; confined_by ltac:(first [exact H2|exact H1]).
Qed.
Lemma delete_confined a x enoent ctx id token path : slots_ok {| gm := Sessions a; flights := [] |} →
  homes_ok (Sessions a) → Filepath.simple id →
  confines (Sessions a) id (handleSessionFSDelete a x enoent ctx id token path).2.
Proof.
  intros Hok Hh Hid. unfold handleSessionFSDelete. destruct (Middleware.reqTenant ctx) as [t|]; [|apply confines_none].
  unfold DeletePath. destruct (resolve_path (Sessions a) id token t path) as [[p q]|] eqn:E; [|apply confines_none].
  destruct (path_confined _ _ _ _ _ _ _ Hok Hh Hid E) as (H1 & _). destruct (String.eqb q _); [apply confines_none|].
  confined_by ltac:(exact H1).
Qed.
Lemma destroy_confined a rm ctx id token r s' ev : slots_ok {| gm := Sessions a; flights := [] |} →
  homes_ok (Sessions a) → Filepath.simple id →
  handleDestroySession a rm ctx id token = Some (r, s', ev) → confines (Sessions a) id ev.
Proof.
  intros Hok Hh Hid. unfold handleDestroySession. destruct (Middleware.reqTenant ctx) as [t|]; [|by intros [= _ _ <-]].
  destruct (Session.Destroy _ _ _ _ _) as [[[rd m] ev1]|] eqn:E; [|done]. cbn. intros [= _ _ <-]. by eapply Destroy_confined.
Qed.

(** Only a caller with access makes a call do anything. *)
Definition granted a ctx id token : Prop := ∃ t p, Middleware.reqTenant ctx = inl t ∧ authed (Sessions a) id token t = Ok p.
Lemma put_granted a x enoent ctx id token path bd r s' ev :
  handleSessionFSPut a x enoent ctx id token path bd = (r, s', ev) → ev = [] ∨ granted a ctx id token.
Proof.
  unfold handleSessionFSPut, granted. destruct (Middleware.reqTenant ctx) as [t|]; [|intros [= _ _ <-]; by left].
  destruct (authed (Sessions a) id token t) as [p|e] eqn:E; [intros _; right; by eauto|]. intros H. left. revert H.
  destruct (String.eqb path ""); [by intros [= _ _ <-]|]. destruct bd; [|by intros [= _ _ <-]].
  unfold WriteFile, resolve_path. rewrite E. by intros [= _ _ <-].
Qed.
Lemma delete_granted a x enoent ctx id token path :
  (handleSessionFSDelete a x enoent ctx id token path).2 = [] ∨ granted a ctx id token.
Proof.
  unfold handleSessionFSDelete, granted. destruct (Middleware.reqTenant ctx) as [t|]; [|by left].
  destruct (authed (Sessions a) id token t) as [p|e] eqn:E; [right; by eauto|]. left.
  unfold DeletePath, resolve_path. by rewrite E.
Qed.
Lemma destroy_granted a rm ctx id token r s' ev :
  handleDestroySession a rm ctx id token = Some (r, s', ev) → ev = [] ∨ granted a ctx id token.
Proof.
  unfold handleDestroySession, granted. destruct (Middleware.reqTenant ctx) as [t|]; [|intros [= _ _ <-]; by left].
  destruct (authed (Sessions a) id token t) as [p|e] eqn:E; [intros _; right; by eauto|]. intros H. left. revert H.
  unfold Session.Destroy. rewrite E. cbn. by intros [= _ _ <-].
Qed.

Section create.
Context (a : ApiSessions.server W) (x : hcenv) (t : string).
Hypothesis Ha : server_ok a.
Hypothesis Hh : homes_ok (Sessions a).
Hypothesis Ht : t ≠ "".
Let id := MintID (c_uuid (hc_create x)).
Hypothesis Hid : id ∉ map s_ID (sheap (Sessions a)).
Hypothesis Hs : Filepath.simple id.
Abbreviation stays ev := (Forall (confined (Root (Sessions a)) id) ev).

Lemma rolled_back_confined b token ev (r : http sreply) r' s' ev' : served_as t {[id]} a b → stays ev →
  rolled_back b id token t ev r = Some (r', s', ev') → stays ev'.
Proof.
  intros Hb Hev. unfold rolled_back. destruct (Session.Destroy _ _ _ _ _) as [[[r1 m] ev1]|] eqn:E; [|done]. cbn. intros [= _ _ <-].
  apply Forall_app_2; [done|]. destruct (sp_homes _ _ _ _ (sa_spares _ _ _ _ Hb)) as [Hr Hh']. rewrite <- Hr.
  eapply Destroy_confined; [apply Hb|by apply Hh'|done|exact E].
Qed.
Lemma attachVolume_confined b p s vid ev r s' ev' : served_as t {[id]} a b → sheap (Sessions b) !! p = Some s → s_Tenant s = t →
  s_ID s = id → authed (Sessions b) (s_ID s) (s_Token s) t = Ok p → stays ev →
  attachVolume b x t vid s ev = Some (r, s', ev') → stays ev'.
Proof.
  intros Hb Hp Hst Hsid Hau Hev. unfold attachVolume. rewrite Hsid in *.
  destruct (Volumes b) as [v|] eqn:Hv; [|by eapply rolled_back_confined].
  destruct (Attach v (hc_volume x) t vid id true) as [ra v'] eqn:Hat.
  assert (Hb' : served_as t {[id]} a (set_volumes b v')).
  { etransitivity; [exact Hb|]. rewrite <- Hsid in Hat. by apply (Attach_served t {[id]} b v (hc_volume x) vid ra v' p s); [apply Hb|..]. }
  destruct ra as [[hp g]|e]; [|by eapply rolled_back_confined].
  unfold SetMounts. rewrite Hau. by intros [= _ _ <-].
Qed.
Lemma filesystem_confined stype req r s' ev :
  createFilesystemSession uni_lower harnessPy a x t stype req = Some (r, s', ev) → stays ev.
Proof.
  unfold createFilesystemSession.
  destruct (Session.Create _ _ _ _ _ _) as [[[rc m'] ev1]|] eqn:Hc; [|done]. cbn [mbind option_bind].
  destruct (create_call uni_lower harnessPy a x t Ha Hid _ _ _ _ _ Hc eq_refl eq_refl) as (H1 & Hev & Hp).
  assert (Hst : stays ev1) by (pose proof (λ H, Create_confined _ _ _ _ _ _ _ H Hc) as Hst; exact (Hst Hs)).
  rewrite (after_dropless a m' ev1) by done. destruct rc as [p|e]; [|by intros [= _ _ <-]].
  destruct (Hp p eq_refl) as (s & Hsp & Hsid & Hten & -> & Hau).
  destruct (String.eqb (cs_VolumeID req) ""); [by intros [= _ _ <-]|].
  by apply (attachVolume_confined _ p s).
Qed.
Lemma kernel_confined req r s' ev :
  createKernelSession uni_lower harnessPy a x t req = Some (r, s', ev) → stays ev.
Proof.
  unfold createKernelSession. cbv zeta.
  assert (Hstart : ∀ vs extra,
    ('(r, m, ev) ← Session.Create uni_lower harnessPy (Sessions a) (hc_create x) (cs_Runtime req)
                    (create_opts req t "kernel" (MintID (c_uuid (hc_create x))) extra (cs_Network req));
    let s := after {| Sessions := Sessions a; Volumes := vs |} m ev in
    match r with
    | Err e =>
        let s := match Volumes s with
                 | Some v => if String.eqb (cs_VolumeID req) "" then s
                             else set_volumes s (Release v t (cs_VolumeID req) (MintID (c_uuid (hc_create x))))
                 | None => s
                 end in
        Some (writeCreateSessErr e, s, ev)
    | Ok p => Some (HOk 201 (RCreated (created (the_session m p))), s, ev)
    end) = Some (r, s', ev) → stays ev).
  { intros vs extra. destruct (Session.Create _ _ _ _ _ _) as [[[rc m'] ev1]|] eqn:Hc; [|done]. cbn [mbind option_bind].
    assert (Hst : stays ev1) by (pose proof (λ H, Create_confined _ _ _ _ _ _ _ H Hc) as Hst; exact (Hst Hs)).
    destruct rc; cbv zeta; by intros [= _ _ <-]. }
  destruct (String.eqb (cs_VolumeID req) ""); [destruct a; exact (Hstart _ [])|].
  destruct (Volumes a) as [v|]; [|by intros [= _ _ <-]].
  destruct (Attach v (hc_volume x) t (cs_VolumeID req) _ true) as [[[hp g]|e] v']; [exact (Hstart _ [memory_mount hp])|].
  by intros [= _ _ <-].
Qed.
End create.
Lemma create_confined a x ctx bd r s' ev : server_ok a → homes_ok (Sessions a) →
  MintID (c_uuid (hc_create x)) ∉ map s_ID (sheap (Sessions a)) → Filepath.simple (MintID (c_uuid (hc_create x))) →
  handleCreateSession uni_lower harnessPy a x ctx bd = Some (r, s', ev) →
  confines (Sessions a) (MintID (c_uuid (hc_create x))) ev.
Proof.
  intros Ha Hh Hid Hs. unfold handleCreateSession.
  assert (Hnone : ∀ rep, Some (rep, a, []) = Some (r, s', ev) → confines (Sessions a) (MintID (c_uuid (hc_create x))) ev) by (by intros rep [= _ _ <-]).
  destruct bd as [req| |]; cbv zeta; try apply Hnone; (destruct (String.eqb _ ""); [apply Hnone|]).
  all: destruct (Middleware.reqTenant ctx) as [t|] eqn:Et; [|apply Hnone]; destruct (String.eqb _ "kernel").
  all: first [by apply kernel_confined|apply filesystem_confined; try done].
  all: unfold Middleware.reqTenant, KeyStore.TenantFrom in Et; destruct ctx as [u|]; [|done];
    destruct (String.eqb_spec u ""); [done|]; cbn in Et; by injection Et as <-.
Qed.
End calls.
