(* ===== verification/Queue.v ===== *)
(** * internal/queue: the job-distribution seam

    The Valkey driver over a Redis-Streams broker.  The broker is not part of the
    repository: [Broker] lists the commands the driver sends and [BrokerSpec]
    what they are documented to do, as equations on an abstract state.  The
    coding of jobs and results is the interface [Wire], which QueueWire.v implements as
    the JSON the driver sends.  The in-process driver is [ApiExec.InProc].  Times are nanoseconds of one clock. *)

From S2P Require Import Prelude GoLib GoStrings GoFloat GoJSON Sched Executor Registry ApiExec.
Import Strings.

Definition second : Z := 10 ^ 9.
Definition valkeyStream : string := "isobox:jobs".
Definition valkeyGroup : string := "workers".
Definition valkeyResultTTL : Z := 60 * second.
Definition valkeyConnWait : Z := 2 * second.

(** ** Jobs on the wire *)
Record Job := { j_ID : string; j_Language : string; j_Version : string; j_Spec : Spec }.
Record resultEnvelope := { env_Result : Result; env_Err : string }.

(** encoding/json.  Strings that are not valid UTF-8 do not survive it: [plain]
    is a job whose strings do; those of a result arrive with U+FFFD for each bad byte. *)
Class Wire := {
  encodeJob : Job → option string; decodeJob : string → option Job; plain : Job → Prop;
  encodeEnv : resultEnvelope → string; decodeEnv : string → option resultEnvelope }.
Definition as_text (r : Result) : Result := {|
  Stdout := sanitize (Stdout r); Stderr := sanitize (Stderr r); ExitCode := ExitCode r; TimedOut := TimedOut r;
  OOMKilled := OOMKilled r; Truncated := Truncated r; DurationMs := DurationMs r;
  CompileOutput := sanitize (CompileOutput r); r_Network := r_Network r |}.
Definition text_envelope (e : resultEnvelope) : resultEnvelope :=
  {| env_Result := as_text (env_Result e); env_Err := sanitize (env_Err e) |}.
Definition env_ints (e : resultEnvelope) : Prop := in64 (ExitCode (env_Result e)) ∧ in64 (DurationMs (env_Result e)).
Class WireSpec `{Wire} := {
  decode_encode_job j p : encodeJob j = Some p → plain j → decodeJob p = Some j;
  decode_encode_env e : env_ints e → decodeEnv (encodeEnv e) = Some (text_envelope e) }.

(** ** The broker *)

(** A stream read by one consumer group, and lists that expire.  [pending]: what was
    delivered and not acknowledged, with the time of its last delivery. *)
Record bstate := {
  unread : list (string * string);
  pending : gmap string (string * Z);
  lists : gmap string (list string * Z) }.
Definition set_unread (s : bstate) (u : list (string * string)) : bstate :=
  {| unread := u; pending := pending s; lists := lists s |}.
Definition set_pending (s : bstate) (p : gmap string (string * Z)) : bstate :=
  {| unread := unread s; pending := p; lists := lists s |}.
Definition set_lists (s : bstate) (l : gmap string (list string * Z)) : bstate :=
  {| unread := unread s; pending := pending s; lists := l |}.
(** The list a key holds at a time. *)
Definition list_at (s : bstate) (now : Z) (key : string) : list string :=
  match lists s !! key with Some (l, e) => if now <? e then l else [] | None => [] end.

Class Broker (B : Type) := {
  xadd : B → string → string * B;                              (* XADD stream * job p *)
  xreadgroup : B → Z → option (string * string) * B;           (* XREADGROUP ... COUNT 1 STREAMS stream > *)
  xack : B → string → B;                                       (* XACK *)
  xautoclaim : B → Z → Z → list (string * string) * B;         (* XAUTOCLAIM min-idle 0 COUNT 16 *)
  rpush_expire : B → Z → string → string → Z → B;              (* RPUSH; EXPIRE *)
  blpop : B → Z → string → option string * B;                  (* BLPOP, without the waiting *)
  bview : B → bstate;
  used_ids : B → gset string }.                                (* ids the stream has given *)
Class BrokerSpec (B : Type) `{Broker B} := {
  xadd_spec b p : (xadd b p).1 ∉ used_ids b ∧ used_ids (xadd b p).2 = {[(xadd b p).1]} ∪ used_ids b ∧
    bview (xadd b p).2 = set_unread (bview b) (unread (bview b) ++ [((xadd b p).1, p)]);
  xreadgroup_spec b now : used_ids (xreadgroup b now).2 = used_ids b ∧
    match unread (bview b) with
    | [] => (xreadgroup b now).1 = None ∧ bview (xreadgroup b now).2 = bview b
    | (id, p) :: u => (xreadgroup b now).1 = Some (id, p) ∧
        bview (xreadgroup b now).2 = set_unread (set_pending (bview b) (<[id := (p, now)]> (pending (bview b)))) u
    end;
  xack_spec b id : used_ids (xack b id) = used_ids b ∧
    bview (xack b id) = set_pending (bview b) (delete id (pending (bview b)));
  xautoclaim_spec b now idle : used_ids (xautoclaim b now idle).2 = used_ids b ∧
    (∀ id p, (id, p) ∈ (xautoclaim b now idle).1 → ∃ t, pending (bview b) !! id = Some (p, t) ∧ idle ≤ now - t) ∧
    bview (xautoclaim b now idle).2 =
      set_pending (bview b) (foldl (λ m c, <[c.1 := (c.2, now)]> m) (pending (bview b)) (xautoclaim b now idle).1);
  rpush_spec b now key v ttl : used_ids (rpush_expire b now key v ttl) = used_ids b ∧
    bview (rpush_expire b now key v ttl) =
      set_lists (bview b) (<[key := (list_at (bview b) now key ++ [v], now + ttl)]> (lists (bview b)));
  blpop_spec b now key : used_ids (blpop b now key).2 = used_ids b ∧
    match list_at (bview b) now key with
    | [] => (blpop b now key).1 = None ∧ bview (blpop b now key).2 = bview b
    | v :: l => (blpop b now key).1 = Some v ∧ ∃ e,
        bview (blpop b now key).2 = set_lists (bview b) (<[key := (l, e)]> (lists (bview b)))
    end }.

Section driver.
Context {B : Type} {BK : Broker B} {WR : Wire}.
Context {W : Type} {SW : Weighted W} (backend : Spec → bool → outcome).
(** The text of a wrapped error of the backend. *)
Context (exec_text : ExecErr → string).

(** ** Submit *)
Inductive VErr :=
| VMarshal | VXadd | VTimeout | VCtx | VBlpop | VUnmarshal | VRemote (msg : string).
Definition res_key (id : string) : string := "isobox:res:" +:+ id.
Definition with_id (j : Job) (uuid : string) : Job :=
  if String.eqb (j_ID j) "" then
    {| j_ID := uuid; j_Language := j_Language j; j_Version := j_Version j; j_Spec := j_Spec j |}
  else j.
Definition submit_deadline (now : Z) (ctx : option Z) : Z :=
  let d := now + valkeyResultTTL in
  match ctx with Some c => if c <? d then c else d | None => d end.

(** One turn of the loop: the clock at its head, what BLPOP returned, and whether
    the context was done by then. *)
Inductive popped := PNil | PErr | PVal (v : string).
Record poll := { po_now : Z; po_out : popped; po_ctx : bool }.
Definition block (deadline now : Z) : Z :=
  let remain := deadline - now in if second <? remain then second else remain.
Definition open_envelope (v : string) : result VErr Result :=
  match decodeEnv v with
  | None => Err VUnmarshal
  | Some rr => if String.eqb (env_Err rr) "" then Ok (env_Result rr) else Err (VRemote (env_Err rr))
  end.
(** [None] is a loop that has not returned yet. *)
Fixpoint submit_loop (deadline : Z) (ps : list poll) : option (result VErr Result) :=
  match ps with
  | [] => None
  | p :: ps =>
      if deadline - po_now p <=? 0 then Some (Err VTimeout) else
      match po_out p with
      | PNil => if po_ctx p then Some (Err VCtx) else submit_loop deadline ps
      | PErr => Some (Err (if po_ctx p then VCtx else VBlpop))
      | PVal v => Some (open_envelope v)
      end
  end.
(** [xok]: XADD succeeded.  What Submit returns, and what it does to the broker. *)
Definition submit_result (now : Z) (ctx : option Z) (xok : bool) (uuid : string) (j : Job) (ps : list poll) :
    option (result VErr Result) :=
  match encodeJob (with_id j uuid) with
  | None => Some (Err VMarshal)
  | Some _ => if negb xok then Some (Err VXadd) else submit_loop (submit_deadline now ctx) ps
  end.
Definition submit_broker (b : B) (xok : bool) (uuid : string) (j : Job) : B :=
  match encodeJob (with_id j uuid) with
  | Some payload => if xok then (xadd b payload).2 else b
  | None => b
  end.
Definition Submit (b : B) (now : Z) (ctx : option Z) (xok : bool) (uuid : string) (j : Job) (ps : list poll) :
    option (result VErr Result) * B :=
  (submit_result now ctx xok uuid j ps, submit_broker b xok uuid j).
(** The error as [handleExecute] sees it: [errors.Is] compares identities, and no error
    of this driver is [errCapacity]. *)
Definition submit_err (e : VErr) : SubmitErr := errQueue.

(** ** Workers *)
(** [err.Error()] of what the runner returns. *)
Definition err_text (e : SubmitErr) : string :=
  match e with errCapacity => "no free execution slot" | errExec e => exec_text e | errQueue => "" end.
Definition envelope (s : Spec) (r : result SubmitErr Result) : resultEnvelope :=
  match r with
  | Ok res => {| env_Result := res; env_Err := "" |}
  | Err errCapacity => {| env_Result := no_result; env_Err := err_text errCapacity |}
  | Err e => {| env_Result := o_res (backend s false); env_Err := err_text e |}
  end.
(** What is filed for a job: the outcome of its run, or the refusal of the runner for want of a slot. *)
Definition filed (x : option outcome) : resultEnvelope :=
  match x with
  | Some o => {| env_Result := o_res o; env_Err := match o_err o with Some e => err_text (errExec e) | None => "" end |}
  | None => {| env_Result := no_result; env_Err := err_text errCapacity |}
  end.
(** The pipeline of [process]; [ok] says whether it reached the broker. *)
Definition publish (b : B) (now : Z) (ok : bool) (j : Job) (env : resultEnvelope) : B :=
  if ok then rpush_expire b now (res_key (j_ID j)) (encodeEnv env) valkeyResultTTL else b.
Definition ack (b : B) (ok : bool) (id : string) : B := if ok then xack b id else b.

(** [process]: the message is acknowledged last, whatever happened. *)
Definition process (b : B) (l : Limiter W) (late : bool) (now : Z) (pub_ok ack_ok : bool) (msg : string * string) :
    option (B * Limiter W * list Spec) :=
  match decodeJob msg.2 with
  | None => Some (ack b ack_ok msg.1, l, [])
  | Some j =>
      '(r, l, log) ← Run_local backend l late (j_Spec j);
      Some (ack (publish b now pub_ok j (envelope (j_Spec j) r)) ack_ok msg.1, l, log)
  end.
(** One turn of [worker]: nothing to read, or one message, read at [now] and answered
    at [done]. *)
Definition worker_turn (b : B) (l : Limiter W) (late : bool) (now done : Z) (pub_ok ack_ok : bool) :
    option (B * Limiter W * list Spec) :=
  match xreadgroup b now with
  | (None, b) => Some (b, l, [])
  | (Some msg, b) => process b l late done pub_ok ack_ok msg
  end.
(** One tick of [reaper]: every reclaimed message, each with what its [process] observes. *)
Fixpoint process_all (b : B) (l : Limiter W) (obs : list (bool * Z * bool * bool)) (msgs : list (string * string)) :
    option (B * Limiter W * list Spec) :=
  match msgs, obs with
  | msg :: msgs, (late, now, pub_ok, ack_ok) :: obs =>
      '(b, l, log) ← process b l late now pub_ok ack_ok msg;
      '(b, l, log') ← process_all b l obs msgs; Some (b, l, log ++ log')
  | _, _ => Some (b, l, [])
  end.
Definition reaper_tick (b : B) (l : Limiter W) (now : Z) (obs : list (bool * Z * bool * bool)) :
    option (B * Limiter W * list Spec) :=
  let '(msgs, b) := xautoclaim b now valkeyResultTTL in process_all b l obs msgs.

(** ** Construction *)
Record ValkeyConfig := { vc_Addr : string; vc_Password : string; vc_TLS : bool; vc_SkipVerify : bool }.
(** [redis.Options]; [ro_TLS]: [InsecureSkipVerify] of the TLS configuration, if any. *)
Record options := { ro_Addr : string; ro_Password : string; ro_TLS : option bool }.
Definition dial_options (cfg : ValkeyConfig) : options := {|
  ro_Addr := vc_Addr cfg; ro_Password := vc_Password cfg;
  ro_TLS := if vc_TLS cfg then Some (vc_SkipVerify cfg) else None |}.
Record Valkey := {
  v_rdb : options; v_stream : string; v_group : string; v_consumer : string; v_resultTTL : Z }.
(** [ping]: whether a broker dialled so answers in time.  A group that cannot be created is only logged. *)
Definition NewValkey (ping : options → bool) (uuid : string) (cfg : ValkeyConfig) : option Valkey :=
  let opt := dial_options cfg in
  if negb (ping opt) then None else
  Some {| v_rdb := opt; v_stream := valkeyStream; v_group := valkeyGroup;
          v_consumer := "isobox-" +:+ str_take 8 uuid; v_resultTTL := valkeyResultTTL |}.
Definition StartWorkers (n : Z) : Z := if n <=? 0 then 2 else n.

(** The driver behind the seam of [handleExecute].  The caller's side runs nothing itself: its slots and
    its backend are for its workers ([process]), which serve the jobs of every node.  [sq_polls] is what
    the broker answers. *)
Record submission := {
  sq_now : Z; sq_ctx : option Z; sq_xok : bool; sq_uuid : string; sq_lang : Catalogue.Language; sq_polls : list poll }.
Definition job (lang : Catalogue.Language) (uuid : string) (s : Spec) : Job := {|
  j_ID := uuid; j_Language := Catalogue.Name lang; j_Version := Catalogue.Version lang; j_Spec := s |}.
Definition RemoteQueue (x : submission) : ApiExec.Queue W := {|
  ApiExec.Submit l late s :=
    r ← submit_result (sq_now x) (sq_ctx x) (sq_xok x) (sq_uuid x) (job (sq_lang x) (sq_uuid x) s) (sq_polls x);
    Some (match r with Ok res => Ok res | Err e => Err (submit_err e) end, l, []) |}.
(** The same when the pool has one idle worker, which is this node's:
    the job is added at [t0], read at [t1], answered at [t2] and polled for at [t3]. *)
Definition poll_at (b : B) (now : Z) (key : string) : poll := {|
  po_now := now; po_out := match (blpop b now key).1 with Some v => PVal v | None => PNil end; po_ctx := false |}.
Definition ValkeyQueue (b : B) (t0 t1 t2 t3 : Z) (lang : Catalogue.Language) (uuid : string) : ApiExec.Queue W := {|
  ApiExec.Submit l late s :=
    let j := job lang uuid s in
    '(b', l, log) ← worker_turn (Submit b t0 None true uuid j []).2 l late t1 t2 true true;
    r ← (Submit b t0 None true uuid j [poll_at b' t3 (res_key uuid)]).1;
    Some (match r with Ok res => Ok res | Err e => Err (submit_err e) end, l, log) |}.
End driver.
