(* ===== verification/QueueWire.v ===== *)
(** * internal/queue: jobs and results as JSON

    [json.Marshal] and [json.Unmarshal] at [Job] and [resultEnvelope], with the tags of
    queue.go, valkey.go and internal/executor/executor.go: the interface [Wire] of the
    driver, and the proof that text survives it.  How strconv prints a float64 is an
    argument; a job is [plain] when its number of processors is read back. *)

From S2P Require Import Prelude GoLib GoStrings GoFloat GoJSON GoUnmarshal GoUnmarshalSpec Executor ExecutorJSON Registry ApiHttp ApiExec ApiSessions ApiBodies Queue.
Import JSON.

Section wire.
(** [strconv.AppendFloat] as encoding/json calls it. *)
Context (fmt : float → string).

(** ** Jobs and results *)
Definition job_tags : list string := ["id"; "language"; "version"; "spec"].
Definition job_json (j : Job) : list (string * json) := [
  ("id", JStr (j_ID j)); ("language", JStr (j_Language j)); ("version", JStr (j_Version j)); ("spec", spec_json fmt (j_Spec j))].
Definition zero_job : Job := {| j_ID := ""; j_Language := ""; j_Version := ""; j_Spec := zero_spec |}.
Definition dec_job : jval → option Job :=
  dec_struct (λ _ fs,
    i ← field job_tags dec_string "id" "" fs;
    l ← field job_tags dec_string "language" "" fs;
    v ← field job_tags dec_string "version" "" fs;
    ms ← submembers job_tags "spec" fs;
    s ← spec_fields ms;
    Some {| j_ID := i; j_Language := l; j_Version := v; j_Spec := s |}) zero_job.

Definition envelope_tags : list string := ["result"; "err"].
Definition envelope_json (e : resultEnvelope) : list (string * json) :=
  ("result", result_json (env_Result e)) :: omitempty "err" (env_Err e).
Definition dec_envelope : jval → option resultEnvelope :=
  dec_struct (λ old fs,
    r ← field envelope_tags dec_result "result" (env_Result old) fs;
    e ← field envelope_tags dec_string "err" (env_Err old) fs;
    Some {| env_Result := r; env_Err := e |}) {| env_Result := no_result; env_Err := "" |}.

(** A float that is no number cannot be marshalled. *)
Definition unsupported (f : float) : bool :=
  match f with SpecFloat.S754_nan | SpecFloat.S754_infinity _ => true | _ => false end.

Definition job_plain (j : Job) : Prop :=
  valid_utf8 (j_ID j) ∧ valid_utf8 (j_Language j) ∧ valid_utf8 (j_Version j) ∧ spec_plain fmt (j_Spec j).

#[export] Instance json_wire : Wire := {|
  encodeJob j := if unsupported (CPUs (s_Limits (j_Spec j))) then None else Some (marshal (JObj (job_json j)));
  decodeJob := Unmarshal dec_job; plain := job_plain;
  encodeEnv e := marshal (JObj (envelope_json e)); decodeEnv := Unmarshal dec_envelope |}.

(** ** They are read back *)
Lemma dec_job_read j : job_plain j → dec_job (value_of (JObj (job_json j))) = Some j.
Proof.
  intros (H1 & H2 & H3 & H4). destruct (spec_read fmt _ H4) as (fs & E & Ef).
  unfold job_json, dec_job. cbn [value_of map fst snd dec_struct]. rewrite E. find_fields.
  rewrite !dec_string_read by done. cbn [mbind option_bind]. cbn [fmap option_fmap option_map app mbind option_bind]. rewrite app_nil_r, Ef. by destruct j.
Qed.
Lemma dec_envelope_read e : valid_utf8 (env_Err e) → result_text (env_Result e) → dec_envelope (value_of (JObj (envelope_json e))) = Some e.
Proof.
  intros H1 H2. unfold envelope_json, dec_envelope, omitempty. destruct e as [r t]. cbn [env_Result env_Err] in *.
  destruct (String.eqb_spec t "") as [->|]; read_members; rewrite dec_result_read by done; cbn [mbind option_bind]; [done|].
  by rewrite dec_string_read.
Qed.
Lemma job_flat j : job_plain j → readable (JObj (job_json j)) = true ∧ nesting (JObj (job_json j)) ≤ maxNestingDepth.
Proof.
  intros (_ & _ & _ & H). destruct (sp_cpus _ _ H) as [Hc _]. destruct (spec_flat fmt (j_Spec j) Hc) as [H1 H2].
  split; unfold job_json, readable, maxNestingDepth in *; cbn [numbers forallb snd nesting map foldr]; [by rewrite H1|lia].
Qed.
Lemma envelope_flat e : readable (JObj (envelope_json e)) = true ∧ nesting (JObj (envelope_json e)) ≤ maxNestingDepth.
Proof. unfold envelope_json, result_json, omitempty, maxNestingDepth. by repeat case_match. Qed.
(** ** Output that is no text *)
Lemma as_text_text r : in64 (ExitCode r) → in64 (DurationMs r) → result_text (as_text r).
Proof. intros H1 H2. repeat split; try apply Is_true_true, sanitize_is_valid; apply H1 || apply H2. Qed.
Lemma omitempty_text k s : map member_value (omitempty k (sanitize s)) = map member_value (omitempty k s).
Proof.
  unfold omitempty. destruct (String.eqb_spec s "") as [->|Hs]; [done|].
  destruct (String.eqb_spec (sanitize s) "") as [E%sanitize_empty|_]; [done|]. cbn. unfold member_value. cbn. by rewrite sanitize_twice.
Qed.
Lemma as_text_value r : value_of (result_json (as_text r)) = value_of (result_json r).
Proof.
  unfold result_json. cbn [value_of]. f_equal. change (λ kv, (sanitize kv.1, value_of kv.2)) with member_value.
  rewrite !map_app. cbn [as_text CompileOutput]. rewrite omitempty_text.
  cbn [map]. unfold member_value. cbn [fst snd value_of as_text Stdout Stderr ExitCode TimedOut OOMKilled Truncated DurationMs r_Network].
  by rewrite !sanitize_twice.
Qed.
Lemma envelope_any e : value_of (JObj (envelope_json e)) = value_of (JObj (envelope_json (text_envelope e))).
Proof.
  unfold envelope_json, text_envelope. cbn [env_Result env_Err value_of]. f_equal. change (λ kv, (sanitize kv.1, value_of kv.2)) with member_value.
  cbn [map]. rewrite omitempty_text. f_equal. unfold member_value. cbn [fst snd]. by rewrite as_text_value.
Qed.

#[export] Instance json_wire_spec : WireSpec.
Proof.
  split; cbn [encodeJob decodeJob plain encodeEnv decodeEnv json_wire].
  - intros j p Hp Hj. destruct (unsupported _); [done|]. apply (inj Some) in Hp as <-. destruct (job_flat j Hj).
    rewrite Unmarshal_marshal by done. by apply dec_job_read.
  - intros e [H1 H2]. destruct (envelope_flat e). rewrite Unmarshal_marshal by done. rewrite envelope_any.
    apply dec_envelope_read; [apply Is_true_true, sanitize_is_valid|by apply as_text_text].
Qed.

(** jobs and results cross the broker as the JSON they are.  The worker reads the
    job that was submitted, its files, environment, mounts and limits included; the
    submitter reads the worker's result, and whatever bytes the program printed, what it
    reads has the JSON value of the result itself: the bytes a client cannot be shown
    are those it would not be shown by a local run.  An error is an error on both sides. *)
Theorem wire_faithful :
  (∀ j, job_plain j → unsupported (CPUs (s_Limits (j_Spec j))) = false →
     ∃ p, encodeJob j = Some p ∧ decodeJob p = Some j) ∧
  (∀ e, in64 (ExitCode (env_Result e)) → in64 (DurationMs (env_Result e)) →
     ∃ e', decodeEnv (encodeEnv e) = Some e' ∧
       value_of (result_json (env_Result e')) = value_of (result_json (env_Result e)) ∧ (env_Err e' = "" ↔ env_Err e = "")).
Proof.
  split.
  - intros j Hj Hu. exists (marshal (JObj (job_json j))).
    assert (E : encodeJob j = Some (marshal (JObj (job_json j)))) by (cbn [encodeJob json_wire]; by rewrite Hu).
    split; [exact E|by apply decode_encode_job].
  - intros e H1 H2. exists (text_envelope e). split; [by apply decode_encode_env|]. split; [apply as_text_value|].
    split; [apply sanitize_empty|by cbn; intros ->].
Qed.

(** ** The jobs of /execute *)

(** What the catalogue holds, read from YAML, which is UTF-8: text, and Go ints. *)
Record lang_text (l : Catalogue.Language) : Prop := {
  lt_names : valid_utf8 (Catalogue.Name l) ∧ valid_utf8 (Catalogue.Version l) ∧ valid_utf8 (Catalogue.Image l) ∧
    valid_utf8 (Catalogue.Workdir l) ∧ valid_utf8 (Catalogue.SourceFile l);
  lt_lists : Forall (λ x, valid_utf8 x : Prop) (Catalogue.Compile l ++ Catalogue.Run l);
  lt_env : map_Forall (λ k x, valid_utf8 k ∧ valid_utf8 x) (Catalogue.Env l);
  lt_ints : in64 (Catalogue.ScratchMB l) }.
Lemma clamp_between v lo hi : lo ≤ hi → lo ≤ clamp64 v lo hi ≤ hi.
Proof. intros H. unfold clamp64. repeat case_match; boolp; lia. Qed.
(** The limits that reach an executor fit a Go int, and of the numbers of processors
    only one that is not a number cannot be marshalled. *)
Lemma clampLimits_ints l o : let c := clampLimits (Catalogue.DefaultLimits l) o in
  in64 (MemoryBytes c) ∧ in64 (Pids c) ∧ in64 (OutputBytes c) ∧ in64 (WallTimeMs c) ∧ in64 (CompileTimeMs c).
Proof.
  set (d := apply_overrides (Catalogue.DefaultLimits l) o). cbn zeta.
  assert (Hc : CompileTimeMs d = wrap64 (CompileTimeSec (Catalogue.lang_Limits l) * 1000)) by (by destruct o).
  unfold clampLimits. fold d. cbn [MemoryBytes Pids OutputBytes WallTimeMs CompileTimeMs]. rewrite Hc.
  pose proof (clamp_between (MemoryBytes d) (Z.shiftl 8 20) maxMemoryBytes ltac:(by vm_compute)) as H1.
  pose proof (clamp_between (OutputBytes d) (Z.shiftl 1 10) maxOutputBytes ltac:(by vm_compute)) as H2.
  pose proof (clamp_between (Pids d) 1 maxPids ltac:(by vm_compute)) as H3.
  pose proof (clamp_between (WallTimeMs d) 100 maxWallTimeMs ltac:(by vm_compute)) as H4.
  change clamp64 with clampInt in H3, H4. change (Z.shiftl 8 20) with 8388608 in *. change maxMemoryBytes with 536870912 in *.
  change (Z.shiftl 1 10) with 1024 in *. change maxOutputBytes with 262144 in *. change maxPids with 256 in *.
  change maxWallTimeMs with 20000 in *. pose proof (wrap64_in64 (CompileTimeSec (Catalogue.lang_Limits l) * 1000)).
  unfold in64 in *. repeat split; lia.
Qed.
Lemma clampLimits_finite d o : unsupported (CPUs (clampLimits d o)) = is_nan (CPUs (clampLimits d o)).
Proof.
  unfold clampLimits. cbn [CPUs]. generalize (CPUs (apply_overrides d o)) as c. intros c.
  destruct c as [s|s| |s m e]; [by destruct s|by destruct s|done|].
  destruct (fltb _ (of_decimal 1 1)); [by vm_compute|]. by destruct (fltb maxCPUs _); [vm_compute|].
Qed.
Lemma spec_built_plain lang req spec : exec_typed req → lang_text lang → buildSpec lang req = Some spec →
  float_reads fmt (CPUs (s_Limits spec)) → spec_plain fmt spec.
Proof.
  intros [(T1 & T2 & T3 & T4) Tf Ta _] [(L1 & L2 & L3 & L4 & L5) Ll Le Li]. unfold buildSpec.
  set (files := match q_Files req with [] => _ | f :: fs => _ end).
  assert (Hf : Forall file_text files).
  { subst files. destruct (q_Files req); [|done]. destruct (String.eqb (q_Code req) ""); [done|]. by repeat constructor. }
  destruct files as [|f fs]; [done|]. intros E Hc. apply (inj Some) in E as <-. cbn [s_Limits Catalogue.BuildSpec] in Hc.
  destruct (clampLimits_ints lang (q_Limits req)) as (I1 & I2 & I3 & I4 & I5).
  split; cbn [Lang Image Compile Run Workdir Env ScratchMB Mounts Files Stdin Argv s_Limits Catalogue.BuildSpec l_Name l_Version]; try done.
  rewrite app_assoc. by apply Forall_app.
Qed.

(** C24: an accepted request reaches its worker whole.  Whatever bytes a client sends,
    if they are decoded as a request for a language of the catalogue, then the job that is
    built from it can be marshalled, and the worker at the other end of the broker decodes
    that very job, for any number of processors that strconv prints and reads back. *)
Theorem accepted_job_crosses limit b req lang spec uuid :
  decode_exec limit b = Body req → lang_text lang → buildSpec lang req = Some spec → valid_utf8 uuid →
  float_reads fmt (CPUs (s_Limits spec)) → is_nan (CPUs (s_Limits spec)) = false →
  ∃ p, encodeJob (job lang uuid spec) = Some p ∧ decodeJob p = Some (job lang uuid spec).
Proof.
  intros Hb Hl Hs Hu Hf Hn. pose proof (decode_exec_typed limit b req Hb) as Ht.
  assert (Hp : plain (job lang uuid spec)).
  { destruct (lt_names _ Hl) as (L1 & L2 & _). split; [done|]. split; [done|]. split; [done|]. by eapply spec_built_plain. }
  assert (E : unsupported (CPUs (s_Limits spec)) = false).
  { rewrite <- Hn. unfold buildSpec in Hs. destruct (match q_Files req with [] => _ | f :: fs => _ end); [done|].
    apply (inj Some) in Hs as <-. apply clampLimits_finite. }
  exists (marshal (JObj (job_json (job lang uuid spec)))).
  assert (E' : encodeJob (job lang uuid spec) = Some (marshal (JObj (job_json (job lang uuid spec)))))
    by (cbn [encodeJob json_wire]; change (j_Spec (job lang uuid spec)) with spec; by rewrite E).
  split; [exact E'|by apply decode_encode_job].
Qed.
End wire.
