(* ===== verification/QueueSpec.v ===== *)
(** * The queue: termination, delivery, provenance

    The Valkey driver under interleaving: any number of submitters and workers,
    workers that die between any two commands, and the reaper. *)

From S2P Require Import Prelude GoLib GoStrings GoFloat Sched Executor Registry ApiExec Queue.

(** ** Submit *)
Section submit.
Context {WR : Wire}.
Implicit Types ps : list poll.

(** BLPOP returns nothing only after having blocked for its timeout. *)
Fixpoint blocking (deadline : Z) (ps : list poll) : Prop :=
  match ps with
  | p :: ((p' :: _) as ps') =>
      (po_out p = PNil → po_now p + block deadline (po_now p) ≤ po_now p') ∧ blocking deadline ps'
  | _ => True
  end.
Definition loop_head ps (d : Z) : Z := from_option po_now d (head ps).

Lemma submit_loop_fuel deadline n : ∀ ps, blocking deadline ps → (n < List.length ps)%nat →
  deadline - loop_head ps 0 ≤ Z.of_nat n * second → is_Some (submit_loop deadline ps).
Proof.
  induction n as [|n IH]; intros [|p ps] Hb Hl Hd; cbn [List.length] in Hl; try lia; cbn [submit_loop loop_head head from_option] in *.
  - assert (deadline - po_now p <=? 0 = true) as -> by lia. by eexists.
  - destruct (deadline - po_now p <=? 0) eqn:E; [by eexists|]. boolp.
    destruct (po_out p) eqn:Ho; [|by eexists..]. destruct (po_ctx p); [by eexists|].
    destruct ps as [|p' ps]; [cbn in Hl; lia|]. destruct Hb as [Hp Hb]. specialize (Hp Ho).
    apply IH; [done|cbn in *; lia|]. cbn [loop_head head from_option].
    revert Hp. unfold block. destruct (second <? deadline - po_now p) eqn:Es; boolp; unfold second in *; lia.
Qed.


(** What the clock and the broker grant a submission: BLPOP waits, and the polls are as many as it takes. *)
Definition polls_wait (x : submission) : Prop :=
  blocking (submit_deadline (sq_now x) (sq_ctx x)) (sq_polls x) ∧ sq_now x ≤ loop_head (sq_polls x) (sq_now x) ∧
  (61 ≤ List.length (sq_polls x))%nat.
Lemma submit_result_returns x j : polls_wait x →
  is_Some (submit_result (sq_now x) (sq_ctx x) (sq_xok x) (sq_uuid x) j (sq_polls x)).
Proof.
  intros (H1 & H2 & H3). unfold submit_result. destruct (encodeJob _); [|by eexists]. destruct (sq_xok x); cbn [negb]; [|by eexists].
  apply (submit_loop_fuel _ 60); [done|lia|]. unfold loop_head, submit_deadline, valkeyResultTTL, second in *.
  destruct (sq_polls x) as [|q ps]; cbn in *; [lia|].
  destruct (sq_ctx x) as [c|]; [destruct (c <? _) eqn:E; boolp|]; lia.
Qed.
#[export] Instance RemoteQueue_spec {W} {SW : Weighted W} {SWS : WeightedSpec W} x : polls_wait x → QueueSpec (RemoteQueue (W := W) x).
Proof.
  intros Hx l late s Hl. cbn [ApiExec.Submit RemoteQueue].
  destruct (submit_result_returns x (job (sq_lang x) (sq_uuid x) s) Hx) as [r ->]. cbn [mbind option_bind].
  eexists _, _, _. split; [done|]. do 3 (split; [done|]). split; [by left|]. by destruct r.
Qed.
End submit.

(** ** The world *)
Section world.
Context {B : Type} {BK : Broker B} {BS : BrokerSpec B} {WR : Wire}.
(** What the runner can answer for a spec, and the text of its errors. *)
Context (runs : Spec → outcome → Prop) (exec_text : ExecErr → string).
Implicit Types b : B.

(** A submission: the message, the time of XADD, the deadline of its caller. *)
Record sub := { sb_msg : string; sb_payload : string; sb_at : Z; sb_deadline : Z }.
(** [claims]: messages held by live workers; [finished]: messages whose processing
    got to the acknowledgement; [ran]: for which message the runner was called, with its outcome,
    or [None] when it had no free slot. *)
Record qworld := {
  qb : B; qnow : Z; subs : list sub; claims : list (string * string);
  finished : gset string; ran : list (string * Job * option outcome) }.

Inductive qstep : qworld → qworld → Prop :=
| q_tick b t ss cs fs rs dt : 0 ≤ dt →
    qstep {| qb := b; qnow := t; subs := ss; claims := cs; finished := fs; ran := rs |}
          {| qb := b; qnow := t + dt; subs := ss; claims := cs; finished := fs; ran := rs |}
| q_submit b t ss cs fs rs ctx j p : encodeJob j = Some p →
    qstep {| qb := b; qnow := t; subs := ss; claims := cs; finished := fs; ran := rs |}
          {| qb := (xadd b p).2; qnow := t; claims := cs; finished := fs; ran := rs;
             subs := {| sb_msg := (xadd b p).1; sb_payload := p; sb_at := t; sb_deadline := submit_deadline t ctx |} :: ss |}
| q_read b t ss cs fs rs msg : (xreadgroup b t).1 = Some msg →
    qstep {| qb := b; qnow := t; subs := ss; claims := cs; finished := fs; ran := rs |}
          {| qb := (xreadgroup b t).2; qnow := t; subs := ss; claims := msg :: cs; finished := fs; ran := rs |}
| q_idle b t ss cs fs rs : (xreadgroup b t).1 = None →
    qstep {| qb := b; qnow := t; subs := ss; claims := cs; finished := fs; ran := rs |}
          {| qb := (xreadgroup b t).2; qnow := t; subs := ss; claims := cs; finished := fs; ran := rs |}
| q_reclaim b t ss cs fs rs :
    qstep {| qb := b; qnow := t; subs := ss; claims := cs; finished := fs; ran := rs |}
          {| qb := (xautoclaim b t valkeyResultTTL).2; qnow := t; subs := ss;
             claims := (xautoclaim b t valkeyResultTTL).1 ++ cs; finished := fs; ran := rs |}
| q_run b t ss c1 msg c2 fs rs j x ok : decodeJob msg.2 = Some j → from_option (runs (j_Spec j)) True x →
    qstep {| qb := b; qnow := t; subs := ss; claims := c1 ++ msg :: c2; finished := fs; ran := rs |}
          {| qb := publish b t ok j (filed exec_text x); qnow := t; subs := ss; claims := c1 ++ msg :: c2;
             finished := {[msg.1]} ∪ fs; ran := (msg.1, j, x) :: rs |}
| q_poison b t ss c1 msg c2 fs rs : decodeJob msg.2 = None →
    qstep {| qb := b; qnow := t; subs := ss; claims := c1 ++ msg :: c2; finished := fs; ran := rs |}
          {| qb := b; qnow := t; subs := ss; claims := c1 ++ msg :: c2; finished := {[msg.1]} ∪ fs; ran := rs |}
| q_ack b t ss c1 msg c2 fs rs ok : msg.1 ∈ fs →
    qstep {| qb := b; qnow := t; subs := ss; claims := c1 ++ msg :: c2; finished := fs; ran := rs |}
          {| qb := ack b ok msg.1; qnow := t; subs := ss; claims := c1 ++ c2; finished := fs; ran := rs |}
| q_crash b t ss c1 msg c2 fs rs :
    qstep {| qb := b; qnow := t; subs := ss; claims := c1 ++ msg :: c2; finished := fs; ran := rs |}
          {| qb := b; qnow := t; subs := ss; claims := c1 ++ c2; finished := fs; ran := rs |}
| q_pop b t ss cs fs rs key :
    qstep {| qb := b; qnow := t; subs := ss; claims := cs; finished := fs; ran := rs |}
          {| qb := (blpop b t key).2; qnow := t; subs := ss; claims := cs; finished := fs; ran := rs |}.
Inductive qreach (w : qworld) : qworld → Prop :=
| qr_refl : qreach w w
| qr_step w' w'' : qreach w w' → qstep w' w'' → qreach w w''.

(** ** The invariant *)
Definition submitted (ss : list sub) (id p : string) : Prop :=
  ∃ s, s ∈ ss ∧ sb_msg s = id ∧ sb_payload s = p.
(** The message was delivered no earlier than it was added. *)
Definition delivered (ss : list sub) (id p : string) (t : Z) : Prop :=
  ∀ s, s ∈ ss → sb_msg s = id → sb_payload s = p ∧ sb_at s ≤ t.
Definition waiting (w : qworld) (id p : string) : Prop :=
  (id, p) ∈ unread (bview (qb w)) ∨ ∃ t, pending (bview (qb w)) !! id = Some (p, t).
Definition processed (w : qworld) (id p : string) : Prop :=
  decodeJob p = None ∨ ∃ j x, (id, j, x) ∈ ran w ∧ decodeJob p = Some j.

Record world_ok (w : qworld) : Prop := {
  qo_ids : ∀ s, s ∈ subs w → sb_msg s ∈ used_ids (qb w) ∧ sb_at s ≤ qnow w ∧ sb_deadline s ≤ sb_at s + valkeyResultTTL;
  qo_nodup : NoDup (map sb_msg (subs w));
  qo_used : ∀ id, id ∈ finished w → id ∈ used_ids (qb w);
  qo_subs : ∀ s, s ∈ subs w → waiting w (sb_msg s) (sb_payload s) ∨ sb_msg s ∈ finished w;
  qo_unread : ∀ id p, (id, p) ∈ unread (bview (qb w)) → submitted (subs w) id p;
  qo_pending : ∀ id p t, pending (bview (qb w)) !! id = Some (p, t) →
    submitted (subs w) id p ∧ delivered (subs w) id p t ∧ t ≤ qnow w;
  qo_claims : ∀ id p, (id, p) ∈ claims w → submitted (subs w) id p;
  qo_finished : ∀ s, s ∈ subs w → sb_msg s ∈ finished w → processed w (sb_msg s) (sb_payload s);
  qo_ran : ∀ id j x, (id, j, x) ∈ ran w →
    (∃ p, submitted (subs w) id p ∧ decodeJob p = Some j) ∧ from_option (runs (j_Spec j)) True x;
  qo_lists : ∀ key l e v, lists (bview (qb w)) !! key = Some (l, e) → v ∈ l →
    ∃ id j x, (id, j, x) ∈ ran w ∧ key = res_key (j_ID j) ∧ v = encodeEnv (filed exec_text x) }.

Implicit Types (ss : list sub) (cs : list (string * string)) (fs : gset string) (t : Z).
Local Abbreviation Qw := Build_qworld.

Lemma submitted_cons ss s id p : submitted ss id p → submitted (s :: ss) id p.
Proof. intros (x & Hx & E). exists x. split; [by right|done]. Qed.

(** Two submissions of one message are one. *)
Lemma submitted_unique w id p s : world_ok w → submitted (subs w) id p → s ∈ subs w → sb_msg s = id → sb_payload s = p.
Proof.
  intros Hw (x & Hx & Ex & <-) Hs Es. f_equal. pose proof (qo_nodup _ Hw) as Hn. clear Hw.
  induction (subs w) as [|y l IH]; [by apply elem_of_nil in Hs|]. cbn in Hn. apply NoDup_cons in Hn as [Hy Hn].
  apply elem_of_cons in Hs as [->|Hs]; apply elem_of_cons in Hx as [->|Hx]; [done| | |by apply IH].
  - destruct Hy. apply list_elem_of_fmap. exists x. split; [congruence|done].
  - destruct Hy. apply list_elem_of_fmap. exists s. split; [congruence|done].
Qed.

(** Commands that only touch the lists. *)
Lemma lists_ok b b' t ss cs fs rs rs' : used_ids b' = used_ids b → unread (bview b') = unread (bview b) →
  pending (bview b') = pending (bview b) → (∀ x, x ∈ rs → x ∈ rs') →
  (∀ id j x, (id, j, x) ∈ rs' → (id, j, x) ∈ rs ∨
     (∃ p, submitted ss id p ∧ decodeJob p = Some j) ∧ from_option (runs (j_Spec j)) True x) →
  (∀ key l e v, lists (bview b') !! key = Some (l, e) → v ∈ l →
     ∃ id j x, (id, j, x) ∈ rs' ∧ key = res_key (j_ID j) ∧ v = encodeEnv (filed exec_text x)) →
  world_ok (Qw b t ss cs fs rs) → world_ok (Qw b' t ss cs fs rs').
Proof.
  intros E1 E2 E3 Hsub Hrs Hl [K1 K2 K0 K3 K4 K5 K6 K7 K8 K9]. split; cbn in *; rewrite ?E1, ?E2, ?E3; try done.
  - intros s Hs. destruct (K3 s Hs) as [H|H]; [left|by right]. unfold waiting in *. cbn in *. by rewrite E2, E3.
  - intros s Hs Hf. destruct (K7 s Hs Hf) as [H|(j & env & H & Hd)]; [by left|right].
    exists j, env. split; [by apply Hsub|done].
  - intros id j env H. destruct (Hrs id j env H) as [H'|H']; [by eapply K8|done].
Qed.

Lemma list_at_elem b t key v : v ∈ list_at (bview b) t key → ∃ l e, lists (bview b) !! key = Some (l, e) ∧ v ∈ l.
Proof.
  unfold list_at. destruct (lists (bview b) !! key) as [[l e]|]; [|by intros ?%elem_of_nil].
  destruct (t <? e); [|by intros ?%elem_of_nil]. intros H. by exists l, e.
Qed.

Lemma job_run_ok b t ss cs fs rs id p j x ok : submitted ss id p → decodeJob p = Some j →
  from_option (runs (j_Spec j)) True x →
  world_ok (Qw b t ss cs fs rs) → world_ok (Qw (publish b t ok j (filed exec_text x)) t ss cs fs ((id, j, x) :: rs)).
Proof.
  intros Hs Hd Hx Hw. destruct (rpush_spec b t (res_key (j_ID j)) (encodeEnv (filed exec_text x)) valkeyResultTTL) as [E1 E2].
  assert (Hr : ∀ i k y, (i, k, y) ∈ (id, j, x) :: rs → (i, k, y) ∈ rs ∨
    (∃ p, submitted ss i p ∧ decodeJob p = Some k) ∧ from_option (runs (j_Spec k)) True y).
  { intros i k e [[= -> -> ->]|H]%elem_of_cons; [right; split; [by exists p|done]|by left]. }
  assert (Hy : ∀ y, y ∈ rs → y ∈ (id, j, x) :: rs) by (intros y; by right).
  assert (Hold : ∀ key l e v, lists (bview b) !! key = Some (l, e) → v ∈ l →
     ∃ i k y, (i, k, y) ∈ (id, j, x) :: rs ∧ key = res_key (j_ID k) ∧ v = encodeEnv (filed exec_text y)).
  { intros key l e v Hl Hv. destruct (qo_lists _ Hw key l e v Hl Hv) as (i & k & en & H & ?).
    exists i, k, en. split; [by right|done]. }
  unfold publish. destruct ok; (eapply lists_ok; [..|exact Hw]); rewrite ?E1, ?E2; try done.
  cbn [lists set_lists]. intros key l e v [[<- [= <- <-]]|[_ H]]%lookup_insert_Some Hv; [|by eapply Hold].
  apply elem_of_app in Hv as [Hv|Hv%list_elem_of_singleton].
  - apply list_at_elem in Hv as (l & e' & Hl & Hv). by eapply Hold.
  - subst v. exists id, j, x. split; [by left|done].
Qed.
Lemma pop_ok b t ss cs fs rs key : world_ok (Qw b t ss cs fs rs) → world_ok (Qw (blpop b t key).2 t ss cs fs rs).
Proof.
  intros Hw. destruct (blpop_spec b t key) as [E1 E2]. destruct (list_at (bview b) t key) as [|v l] eqn:El.
  - destruct E2 as [_ E2]. eapply lists_ok; [..|exact Hw]; rewrite ?E1, ?E2; try done; [|apply (qo_lists _ Hw)]. by left.
  - destruct E2 as (_ & e & E2). eapply lists_ok; [..|exact Hw]; rewrite ?E1, ?E2; try done; [by left|].
    cbn [lists set_lists]. intros k l' e' v' [[<- [= <- <-]]|[_ H]]%lookup_insert_Some Hv; [|by eapply (qo_lists _ Hw)].
    destruct (list_at_elem b t key v') as (l0 & e0 & Hl & Hv'); [rewrite El; by right|]. by eapply (qo_lists _ Hw).
Qed.

Lemma finish_ok b t ss cs fs rs id p : submitted ss id p →
  (decodeJob p = None ∨ ∃ j x, (id, j, x) ∈ rs ∧ decodeJob p = Some j) →
  world_ok (Qw b t ss cs fs rs) → world_ok (Qw b t ss cs ({[id]} ∪ fs) rs).
Proof.
  intros Hs Hp Hw. pose proof Hw as [K1 K2 K0 K3 K4 K5 K6 K7 K8 K9]. split; try done; cbn in *.
  - intros i [->%elem_of_singleton|H]%elem_of_union; [|by apply K0]. destruct Hs as (s & Hs & <- & _). by apply K1.
  - intros s Hin. destruct (K3 s Hin) as [H|H]; [by left|right]. by apply elem_of_union_r.
  - intros s Hin [E%elem_of_singleton|H]%elem_of_union; [|by apply K7].
    rewrite (submitted_unique _ _ p s Hw Hs Hin E), E. exact Hp.
Qed.
Lemma claims_ok b t ss cs cs' fs rs : (∀ m, m ∈ cs' → m ∈ cs) →
  world_ok (Qw b t ss cs fs rs) → world_ok (Qw b t ss cs' fs rs).
Proof. intros Hsub [K1 K2 K0 K3 K4 K5 K6 K7 K8 K9]. split; try done; cbn in *. intros id p H. by apply K6, Hsub. Qed.
Lemma ack_ok b t ss cs fs rs id ok : id ∈ fs → world_ok (Qw b t ss cs fs rs) → world_ok (Qw (ack b ok id) t ss cs fs rs).
Proof.
  intros Hf Hw. unfold ack. destruct ok; [|done]. destruct (xack_spec b id) as [E1 E2].
  pose proof Hw as [K1 K2 K0 K3 K4 K5 K6 K7 K8 K9]. split; cbn in *; rewrite ?E1, ?E2; cbn; try done.
  - intros s Hs. destruct (decide (sb_msg s = id)) as [->|Hne]; [by right|].
    destruct (K3 s Hs) as [[H|(t' & H)]|H]; [left; left|left; right; exists t'|by right]; cbn in *; rewrite E2; [done|].
    cbn. by rewrite lookup_delete_ne.
  - intros i p t' [_ H]%lookup_delete_Some. by apply K5.
Qed.

Lemma autoclaim_lookup (l : list (string * string)) (m : gmap string (string * Z)) t id p t' :
  foldl (λ m c, <[c.1 := (c.2, t)]> m) m l !! id = Some (p, t') →
  (id, p) ∈ l ∧ t' = t ∨ m !! id = Some (p, t').
Proof.
  revert m. induction l as [|[i q] l IH]; intros m; cbn [foldl]; [by right|].
  intros [[H ->]|H]%IH; [left; split; [by right|done]|].
  cbn in H. apply lookup_insert_Some in H as [[-> [= -> ->]]|[_ H]]; [left; split; [by left|done]|by right].
Qed.
Lemma autoclaim_keeps (l : list (string * string)) (m : gmap string (string * Z)) t id p t0 :
  (∀ i q, (i, q) ∈ l → ∃ t', m !! i = Some (q, t')) → m !! id = Some (p, t0) →
  ∃ t', foldl (λ m c, <[c.1 := (c.2, t)]> m) m l !! id = Some (p, t').
Proof.
  revert m t0. induction l as [|[i q] l IH]; intros m t0 Hl H; cbn [foldl]; [by exists t0|].
  destruct (Hl i q) as [ti Hi]; [by left|].
  assert (Hl' : ∀ i' q', (i', q') ∈ l → ∃ t', <[i := (q, t)]> m !! i' = Some (q', t')).
  { intros i' q' Hin. destruct (Hl i' q') as [t' H']; [by right|]. destruct (decide (i = i')) as [->|Hne].
    - rewrite lookup_insert_eq. assert (q' = q) as -> by congruence. by eexists.
    - rewrite lookup_insert_ne by done. by eexists. }
  destruct (decide (i = id)) as [->|Hne].
  - eapply IH; [done|]. cbn. rewrite lookup_insert_eq. f_equal. f_equal. congruence.
  - eapply IH; [done|]. cbn. rewrite lookup_insert_ne by done. exact H.
Qed.

Lemma reclaim_ok b t ss cs fs rs : let '(l, b') := xautoclaim b t valkeyResultTTL in
  world_ok (Qw b t ss cs fs rs) → world_ok (Qw b' t ss (l ++ cs) fs rs).
Proof.
  destruct (xautoclaim_spec b t valkeyResultTTL) as (E1 & Hl & E2).
  destruct (xautoclaim b t valkeyResultTTL) as [l b']. cbn [fst snd] in *.
  intros [K1 K2 K0 K3 K4 K5 K6 K7 K8 K9]. split; cbn in *; rewrite ?E1, ?E2; cbn; try done.
  - intros s Hs. destruct (K3 s Hs) as [[H|(t' & H)]|H]; [left; left|left; right|by right]; cbn in *; rewrite E2; [done|].
    cbn. eapply autoclaim_keeps; [|exact H]. intros i q Hin. destruct (Hl i q Hin) as (t0 & H0 & _). by exists t0.
  - intros id p t' H. apply autoclaim_lookup in H as [[Hin ->]|H]; [|by apply K5].
    destruct (Hl id p Hin) as (t0 & H0 & _). destruct (K5 id p t0 H0) as (H1 & H2 & H3). split; [done|split; [|done]].
    intros s Hs Es. destruct (H2 s Hs Es) as [H4 H5]. split; [done|]. lia.
  - intros id p [Hin|Hin]%elem_of_app; [|by apply K6]. destruct (Hl id p Hin) as (t0 & H0 & _).
    by destruct (K5 id p t0 H0) as (H1 & _).
Qed.

Lemma submit_ok b t ss cs fs rs ctx p : world_ok (Qw b t ss cs fs rs) →
  world_ok (Qw (xadd b p).2 t
    ({| sb_msg := (xadd b p).1; sb_payload := p; sb_at := t; sb_deadline := submit_deadline t ctx |} :: ss) cs fs rs).
Proof.
  intros Hw. pose proof Hw as [K1 K2 K0 K3 K4 K5 K6 K7 K8 K9]. destruct (xadd_spec b p) as (Hf & E1 & E2). cbn in *.
  assert (Hne : ∀ s, s ∈ ss → sb_msg s ≠ (xadd b p).1) by (intros s Hs E; apply Hf; rewrite <- E; by apply K1).
  assert (Hsub : ∀ id q, submitted ss id q → id ≠ (xadd b p).1) by (intros id q (s & Hs & <- & _); by apply Hne).
  split; cbn; rewrite ?E1, ?E2; cbn; try done.
  - intros s [->|Hs]%elem_of_cons; cbn.
    + split; [by apply elem_of_union_l, elem_of_singleton|]. split; [done|].
      unfold submit_deadline. destruct ctx as [c|]; [|done]. destruct (c <? t + valkeyResultTTL) eqn:E; boolp; lia.
    + destruct (K1 s Hs) as (H1 & H2). split; [by apply elem_of_union_r|done].
  - constructor; [|done]. intros (s & Es & Hs)%list_elem_of_fmap. by apply (Hne s).
  - intros id H. by apply elem_of_union_r, K0.
  - intros s [->|Hs]%elem_of_cons; cbn.
    + left; left. cbn. rewrite E2. cbn. apply elem_of_app. right. by left.
    + destruct (K3 s Hs) as [[H|(t' & H)]|H]; [left; left|left; right; exists t'|by right]; cbn in *; rewrite E2; cbn; [|done].
      apply elem_of_app. by left.
  - intros id q [H|[= -> ->]%list_elem_of_singleton]%elem_of_app; [by apply submitted_cons, K4|].
    eexists. split; [by left|done].
  - intros id q t' H. destruct (K5 id q t' H) as (H1 & H2 & H3). split; [by apply submitted_cons|split; [|done]].
    intros s [->|Hs]%elem_of_cons Es; [by destruct (Hsub id q H1)|by apply H2].
  - intros id q H. by apply submitted_cons, K6.
  - intros s [->|Hs]%elem_of_cons Hfin; [cbn in Hfin|by apply K7].
    exfalso. by apply Hf, K0.
  - intros id j env H. destruct (K8 id j env H) as ((q & H1 & H2) & H3). split; [|done]. exists q. split; [by apply submitted_cons|done].
Qed.

Lemma read_ok b t ss cs fs rs msg : (xreadgroup b t).1 = Some msg →
  world_ok (Qw b t ss cs fs rs) → world_ok (Qw (xreadgroup b t).2 t ss (msg :: cs) fs rs).
Proof.
  destruct (xreadgroup_spec b t) as (E1 & E2). intros Hm [K1 K2 K0 K3 K4 K5 K6 K7 K8 K9].
  destruct (unread (bview b)) as [|[id p] u] eqn:Eu; [destruct E2 as [E2 _]; congruence|].
  destruct E2 as [E2 E3]. assert (msg = (id, p)) as -> by congruence. clear Hm.
  cbn in *. assert (Hsub : submitted ss id p) by (apply K4; rewrite Eu; by left).
  split; cbn; rewrite ?E1, ?E3; cbn; try done.
  - intros s Hs. destruct (K3 s Hs) as [[H|(t' & H)]|H]; [| |by right]; cbn in H; left.
    + rewrite Eu in H. apply elem_of_cons in H as [[= E4 E5]|H].
      * right. cbn. rewrite E3. cbn. exists t. by rewrite E4, E5, lookup_insert_eq.
      * left. cbn. rewrite E3. done.
    + right. cbn. rewrite E3. cbn. destruct (decide (id = sb_msg s)) as [E|Hne].
      * exists t. rewrite E, lookup_insert_eq. do 2 f_equal. destruct Hsub as (s' & Hs' & Es' & <-).
        destruct (K5 _ _ _ H) as (_ & Hd & _). by destruct (Hd s' Hs' ltac:(congruence)).
      * exists t'. by rewrite lookup_insert_ne.
  - intros id' p' H. apply K4. rewrite Eu. by right.
  - intros id' p' t'. intros [[<- [= <- <-]]|[_ H]]%lookup_insert_Some; [|by apply K5].
    split; [done|split; [|done]]. intros s Hs Es. split; [|by apply K1].
    destruct Hsub as (s' & Hs' & Es' & <-).
    assert (s = s') as ->; [|done]. clear -Hs Hs' Es Es' K2. induction ss as [|y l IH]; [by apply elem_of_nil in Hs|].
    cbn in K2. apply NoDup_cons in K2 as [Hy Hn].
    apply elem_of_cons in Hs as [->|Hs]; apply elem_of_cons in Hs' as [->|Hs']; [done| | |by apply IH].
    + destruct Hy. apply list_elem_of_fmap. exists s'. split; [congruence|done].
    + destruct Hy. apply list_elem_of_fmap. exists s. split; [congruence|done].
  - intros id' p' [[= -> ->]|H]%elem_of_cons; [done|by apply K6].
Qed.

Lemma qstep_ok w w' : qstep w w' → world_ok w → world_ok w'.
Proof.
  destruct 1 as [b t ss cs fs rs dt Hdt|b t ss cs fs rs ctx j p Hj|b t ss cs fs rs msg Hm|b t ss cs fs rs Hm|b t ss cs fs rs
    |b t ss c1 [id p] c2 fs rs j x ok Hj Hx|b t ss c1 [id p] c2 fs rs Hj|b t ss c1 msg c2 fs rs ok Hf
    |b t ss c1 msg c2 fs rs|b t ss cs fs rs key]; intros Hw.
  - destruct Hw as [K1 K2 K0 K3 K4 K5 K6 K7 K8 K9]. split; try done; cbn in *.
    + intros s Hs. destruct (K1 s Hs) as (H1 & H2 & H3). split; [done|split; [lia|done]].
    + intros id p t' H. destruct (K5 id p t' H) as (H1 & H2 & H3). split; [done|split; [done|lia]].
  - by apply submit_ok.
  - by apply read_ok.
  - destruct (xreadgroup_spec b t) as (E1 & E2). destruct (unread (bview b)) as [|[id p] u]; [|destruct E2; congruence].
    destruct E2 as [_ E2]. eapply lists_ok; [..|exact Hw]; rewrite ?E1, ?E2; try done; [by left|].
    intros key l e v. apply (qo_lists _ Hw).
  - pose proof (reclaim_ok b t ss cs fs rs) as H. destruct (xautoclaim b t valkeyResultTTL). by apply H.
  - assert (Hs : submitted ss id p) by (apply (qo_claims _ Hw); apply elem_of_app; right; by left).
    eapply finish_ok; [exact Hs| |by eapply job_run_ok]. right. exists j, x. split; [by left|done].
  - assert (Hs : submitted ss id p) by (apply (qo_claims _ Hw); apply elem_of_app; right; by left).
    eapply finish_ok; [exact Hs|by left|done].
  - apply ack_ok; [done|]. eapply claims_ok; [|exact Hw]. intros m. rewrite !elem_of_app, elem_of_cons. tauto.
  - eapply claims_ok; [|exact Hw]. intros m. rewrite !elem_of_app, elem_of_cons. tauto.
  - by apply pop_ok.
Qed.

(** A broker nobody has used yet. *)
Definition fresh_broker b : Prop := unread (bview b) = [] ∧ pending (bview b) = ∅ ∧ lists (bview b) = ∅.
Definition start b t : qworld := Qw b t [] [] ∅ [].
Lemma fresh_broker_ok b t : fresh_broker b → world_ok (start b t).
Proof.
  intros (E1 & E2 & E3). split; cbn; rewrite ?E1, ?E2, ?E3; try done.
  all: try (intros; match goal with H : _ ∈ [] |- _ => by apply not_elem_of_nil in H end).
  constructor.
Qed.
Lemma qreach_ok w w' : qreach w w' → world_ok w → world_ok w'.
Proof. induction 1 as [|w1 w2 _ IH Hs]; [done|]. intros Hw. eapply qstep_ok; [exact Hs|by apply IH]. Qed.

(** C13: no job is lost, and every result is of the job it is filed under.  However
    workers interleave and wherever they die, a submitted job is waiting in the stream, or
    delivered and not acknowledged (so the reaper will find it), or the runner was called for it
    and answered with an outcome for its spec, or refused it for want of a slot (which is final:
    it is acknowledged), or it is undecodable.  Every value of a result list is the envelope of
    such an outcome, or of such a refusal, of a submitted job with the id of the list. *)
Theorem valkey_at_least_once b t w : fresh_broker b → qreach (start b t) w →
  (∀ s, s ∈ subs w → waiting w (sb_msg s) (sb_payload s) ∨ decodeJob (sb_payload s) = None ∨
     ∃ j, decodeJob (sb_payload s) = Some j ∧
       ((∃ o, (sb_msg s, j, Some o) ∈ ran w ∧ runs (j_Spec j) o) ∨ (sb_msg s, j, None) ∈ ran w)) ∧
  (∀ key v, v ∈ list_at (bview (qb w)) (qnow w) key → ∃ id j p,
     submitted (subs w) id p ∧ decodeJob p = Some j ∧ key = res_key (j_ID j) ∧
     ((∃ o, (id, j, Some o) ∈ ran w ∧ runs (j_Spec j) o ∧
         v = encodeEnv {| env_Result := o_res o; env_Err := from_option exec_text "" (o_err o) |}) ∨
      (id, j, None) ∈ ran w ∧ v = encodeEnv {| env_Result := no_result; env_Err := "no free execution slot" |})).
Proof.
  intros Hb Hr. pose proof (qreach_ok _ _ Hr (fresh_broker_ok b t Hb)) as Hw. split.
  - intros s Hs. destruct (qo_subs _ Hw s Hs) as [H|H]; [by left|right].
    destruct (qo_finished _ Hw s Hs H) as [|(j & x & Hx & Hj)]; [by left|right]. exists j. split; [done|].
    destruct x as [o|]; [left; exists o|by right]. split; [done|]. by destruct (qo_ran _ Hw _ _ _ Hx).
  - intros key v Hv. apply list_at_elem in Hv as (l & e & Hl & Hv).
    destruct (qo_lists _ Hw key l e v Hl Hv) as (id & j & x & H1 & H2 & ->).
    destruct (qo_ran _ Hw id j x H1) as ((p & H4 & H5) & Hx). exists id, j, p. do 3 (split; [done|]).
    destruct x as [o|]; [left; exists o|by right]. split; [done|]. split; [done|]. unfold filed. by destruct (o_err o).
Qed.

(** a reclaimed job is re-run for nobody.  The reaper only claims messages that
    were delivered a full result TTL ago, so when it does, the deadline of the call that
    submitted the job has passed: whatever that call polls from then on, it
    returns the timeout, and the result of the second run is never delivered. *)
Theorem reclaimed_too_late b t w id p s ps : fresh_broker b → qreach (start b t) w →
  (id, p) ∈ (xautoclaim (qb w) (qnow w) valkeyResultTTL).1 → s ∈ subs w → sb_msg s = id →
  ps ≠ [] → qnow w ≤ loop_head ps 0 →
  sb_deadline s ≤ qnow w ∧ submit_loop (sb_deadline s) ps = Some (Err VTimeout).
Proof.
  intros Hb Hr Hin Hs Es Hne Hps. pose proof (qreach_ok _ _ Hr (fresh_broker_ok b t Hb)) as Hw.
  destruct (xautoclaim_spec (qb w) (qnow w) valkeyResultTTL) as (_ & Hl & _).
  destruct (Hl id p Hin) as (t0 & Hp & Ht). destruct (qo_pending _ Hw id p t0 Hp) as (_ & Hd & _).
  destruct (Hd s Hs Es) as [_ Ha]. destruct (qo_ids _ Hw s Hs) as (_ & _ & Hdl).
  assert (Hdead : sb_deadline s ≤ qnow w) by lia. split; [done|].
  destruct ps as [|q ps]; [done|]. cbn [submit_loop loop_head head from_option] in *.
  by assert (sb_deadline s - po_now q <=? 0 = true) as -> by lia.
Qed.
End world.
