(* ===== verification/QueueEquiv.v ===== *)
(** * The queue: the two drivers compared

    [/execute] over the Valkey driver and over the in-process one; a concrete
    broker and wire on which the theorems about the queue are instantiated. *)

From S2P Require Import Prelude GoLib GoStrings GoFloat GoJSON Sched Executor ExecutorJSON Registry ApiHttp ApiExec ApiBodies ApiReplies Queue QueueWire QueueSpec.
Import Strings.

Section drivers.
Context {B : Type} {BK : Broker B} {BS : BrokerSpec B} {WR : Wire} {WS : WireSpec}.
Context {W : Type} {SW : Weighted W} (uni_lower : string → string).
Context (backend_name : string) (backend : Spec → bool → outcome) (exec_text : ExecErr → string).

(** What the submitter decodes is what the runner returned, as text, errors included. *)
Definition over_the_wire (r : result SubmitErr Result) : result VErr Result :=
  match r with Ok res => Ok (as_text res) | Err e => Err (VRemote (sanitize (err_text exec_text e))) end.

Lemma open_envelope_of s r : (∀ e, exec_text e ≠ "") → r ≠ Err errQueue →
  env_ints (envelope backend exec_text s r) →
  open_envelope (encodeEnv (envelope backend exec_text s r)) = over_the_wire r.
Proof.
  intros Ht Hr Hp. unfold open_envelope. rewrite (decode_encode_env _ Hp).
  destruct r as [res|[|e|]]; [done|by vm_compute| |done]. unfold text_envelope, over_the_wire. cbn [envelope err_text env_Err env_Result].
  destruct (String.eqb_spec (sanitize (exec_text e)) "") as [E%sanitize_empty|]; [by destruct (Ht e)|done].
Qed.
Lemma Run_local_no_queue (l l' : Limiter W) late s r log : Run_local backend l late s = Some (r, l', log) → r ≠ Err errQueue.
Proof.
  unfold Run_local. destruct (Acquire l late) as [[|] l1]; cbn; [|congruence].
  destruct (Release l1); cbn; [|done]. intros [= <- _ _]. by destruct (o_err (backend s false)).
Qed.

(** One job through an idle pool. *)
Lemma one_job b (l l' : Limiter W) late j p r log t1 t2 t3 : encodeJob j = Some p → plain j →
  unread (bview b) = [] → list_at (bview b) t2 (res_key (j_ID j)) = [] →
  t3 < t2 + valkeyResultTTL → Run_local backend l late (j_Spec j) = Some (r, l', log) →
  ∃ b', worker_turn backend exec_text (xadd b p).2 l late t1 t2 true true = Some (b', l', log) ∧
    (blpop b' t3 (res_key (j_ID j))).1 = Some (encodeEnv (envelope backend exec_text (j_Spec j) r)).
Proof.
  intros He Hp Hu Hl Ht Hr. unfold worker_turn.
  destruct (xadd_spec b p) as (_ & _ & E1). destruct (xreadgroup_spec (xadd b p).2 t1) as (_ & E2).
  rewrite E1 in E2. cbn [unread set_unread] in E2. rewrite Hu in E2. cbn [app] in E2. destruct E2 as [E2 E3].
  destruct (xreadgroup (xadd b p).2 t1) as [o b2]. cbn [fst snd] in E2, E3. subst o.
  unfold process. cbn [fst snd]. rewrite (decode_encode_job j p He Hp). rewrite Hr. cbn [mbind option_bind].
  eexists. split; [done|]. unfold publish, ack.
  match goal with |- (blpop ?b' _ ?k).1 = Some ?v => assert (Hb : ∃ rest, list_at (bview b') t3 k = v :: rest) end.
  { destruct (xack_spec (rpush_expire b2 t2 (res_key (j_ID j))
      (encodeEnv (envelope backend exec_text (j_Spec j) r)) valkeyResultTTL) (xadd b p).1) as (_ & E4).
    destruct (rpush_spec b2 t2 (res_key (j_ID j)) (encodeEnv (envelope backend exec_text (j_Spec j) r)) valkeyResultTTL) as (_ & E5).
    exists []. unfold list_at. rewrite E4, E5. cbn [lists set_lists set_pending]. rewrite lookup_insert_eq.
    assert (t3 <? t2 + valkeyResultTTL = true) as -> by lia.
    assert (E6 : list_at (bview b2) t2 (res_key (j_ID j)) = list_at (bview b) t2 (res_key (j_ID j))).
    { unfold list_at. rewrite E3. reflexivity. }
    by rewrite E6, Hl. }
  destruct Hb as [rest Hb].
  match goal with |- (blpop ?b' _ ?k).1 = Some ?v => destruct (blpop_spec b' t3 k) as (_ & E7) end.
  rewrite Hb in E7. by destruct E7 as [-> _].
Qed.

Lemma ValkeyQueue_submit b (l l' : Limiter W) late lang uuid s r log t0 t1 t2 t3 :
  uuid ≠ "" → encodeJob (job lang uuid s) ≠ None → plain (job lang uuid s) →
  unread (bview b) = [] → list_at (bview b) t2 (res_key uuid) = [] →
  t3 < t0 + valkeyResultTTL → t3 < t2 + valkeyResultTTL → (∀ e, exec_text e ≠ "") →
  env_ints (envelope backend exec_text s r) → Run_local backend l late s = Some (r, l', log) →
  ApiExec.Submit (Queue := ValkeyQueue backend exec_text b t0 t1 t2 t3 lang uuid) l late s =
    Some (match r with Ok res => Ok (as_text res) | Err _ => Err errQueue end, l', log).
Proof.
  intros Hid He Hp Hu Hl Ht0 Ht2 Htx Henv Hr. cbn [ApiExec.Submit ValkeyQueue].
  assert (Hw : with_id (job lang uuid s) uuid = job lang uuid s).
  { unfold with_id. cbn [job j_ID]. apply String.eqb_neq in Hid. by rewrite Hid. }
  unfold Submit, submit_result, submit_broker. rewrite Hw. destruct (encodeJob (job lang uuid s)) as [p|] eqn:Ee; [|done]. cbn [negb snd fst].
  destruct (one_job b l l' late (job lang uuid s) p r log t1 t2 t3) as (b' & E1 & E2); try done.
  rewrite E1. cbn [mbind option_bind submit_loop submit_deadline]. unfold poll_at. cbn [po_now po_out po_ctx].
  assert (t0 + valkeyResultTTL - t3 <=? 0 = false) as -> by lia.
  change (j_ID (job lang uuid s)) with uuid in E2. rewrite E2.
  change (j_Spec (job lang uuid s)) with s. rewrite (open_envelope_of s r) by (try done; by eapply Run_local_no_queue).
  by destruct r.
Qed.

(** A reply as it is shown ([ApiReplies.run_shown]), which is what the JSON of a reply has in
    its place anyway. *)
Definition shown (rep : reply) : reply :=
  match rep with
  | JExec r => JExec {| e_Language := e_Language r; e_Version := e_Version r; e_Backend := e_Backend r;
                        e_Run := run_shown (e_Run r); e_Warning := e_Warning r |}
  | r => r
  end.
(** A reply as it is when the error is not recognised: 429 is the only one with
    Retry-After. *)
Definition unrecognised (rep : reply) : reply :=
  match rep with JError _ _ (Some _) => JError 500 "execution_failed" None | r => r end.

(** C32: the drivers agree, but for a pool without a free slot.  With an idle pool, a
    broker that works and a wire that carries the job, whatever the program prints, /execute over
    Valkey shows the reply it gives in-process, runs the same and leaves the limiter
    the same, with one exception: where the in-process driver sheds a buffered request with
    429 and Retry-After, Valkey returns the error as text, which the handler does
    not recognise, and the reply is a 500. *)
Theorem valkey_replies reg (l l' : Limiter W) late flusher accept stream req lang spec b t0 t1 t2 t3 uuid rep log :
  Catalogue.Resolve uni_lower reg (q_Language req) (q_Version req) = Some lang → buildSpec lang req = Some spec →
  uuid ≠ "" → encodeJob (job lang uuid spec) ≠ None → plain (job lang uuid spec) →
  unread (bview b) = [] → list_at (bview b) t2 (res_key uuid) = [] →
  t3 < t0 + valkeyResultTTL → t3 < t2 + valkeyResultTTL → (∀ e, exec_text e ≠ "") →
  (∀ r l1 log1, Run_local backend l late spec = Some (r, l1, log1) → env_ints (envelope backend exec_text spec r)) →
  handleExecute (H := InProc backend) uni_lower backend_name backend reg l late flusher accept stream (Some req) =
    Some (rep, l', log) →
  handleExecute (H := ValkeyQueue backend exec_text b t0 t1 t2 t3 lang uuid)
    uni_lower backend_name backend reg l late flusher accept stream (Some req) =
    Some (if wantsSSE accept stream then rep else unrecognised (shown rep), l', log).
Proof.
  intros HR HB Hid He Hp Hu Hl Ht0 Ht2 Htx Henv. unfold handleExecute.
  destruct (String.eqb (TrimSpace (q_Language req)) ""); [intros [= <- <- <-]; by destruct (wantsSSE _ _)|].
  rewrite HR, HB. destruct (wantsSSE accept stream) eqn:Es; [by intros ->|].
  change (ApiExec.Submit (Queue := InProc backend) l late spec) with (Run_local backend l late spec).
  destruct (Run_local backend l late spec) as [[[r l1] log1]|] eqn:Er; [|done].
  cbn [mbind option_bind]. intros H. injection H as <- <- <-.
  rewrite (ValkeyQueue_submit b l l1 late lang uuid spec r log1 t0 t1 t2 t3) by (try done; by eapply Henv).
  cbn. destruct r as [res|[|e|]]; cbn; done.
Qed.
End drivers.

(** ** The calls are runs of the interleaved steps *)
Section calls.
Context {B : Type} {BK : Broker B} {BS : BrokerSpec B} {WR : Wire}.
Context {W : Type} {SW : Weighted W} (backend : Spec → bool → outcome) (exec_text : ExecErr → string).
Implicit Types (b : B) (w : qworld (B := B)).
(** The runner of this node: it answers with the outcome of its backend. *)
Definition ran_here (s : Spec) (o : outcome) : Prop := o = backend s false.
Local Abbreviation qstep := (QueueSpec.qstep ran_here exec_text).
Local Abbreviation qreach := (QueueSpec.qreach ran_here exec_text).

Lemma qreach_trans w1 w2 w3 : qreach w1 w2 → qreach w2 w3 → qreach w1 w3.
Proof. intros H. induction 1; [done|]. by econstructor. Qed.
Lemma qreach_one w1 w2 : qstep w1 w2 → qreach w1 w2.
Proof. intros H. econstructor; [constructor|done]. Qed.

Definition logged (rs : list (string * Job * option outcome)) (log : list Spec) : Prop :=
  ∀ s, s ∈ log → ∃ id j, (id, j, Some (backend s false)) ∈ rs ∧ j_Spec j = s.
(** What [process] files is the outcome of the runner. *)
Lemma Run_local_filed (l l' : Limiter W) late s r log : Run_local backend l late s = Some (r, l', log) →
  ∃ x, envelope backend exec_text s r = filed exec_text x ∧
    ((x = None ∧ log = []) ∨ (x = Some (backend s false) ∧ log = [s])).
Proof.
  unfold Run_local. destruct (Acquire l late) as [[|] l1]; cbn.
  - destruct (Release l1); cbn; [|done]. intros [= <- <- <-]. exists (Some (backend s false)).
    split; [|by right]. unfold filed. by destruct (o_err (backend s false)).
  - intros [= <- <- <-]. exists None. split; [done|by left].
Qed.

(** [q_run] or [q_poison], then [q_ack]. *)
Lemma process_reach b (l l' : Limiter W) late t pub_ok ack_ok msg b' log ss c1 c2 fs rs :
  process backend exec_text b l late t pub_ok ack_ok msg = Some (b', l', log) →
  ∃ fs' rs', qreach (Build_qworld b t ss (c1 ++ msg :: c2) fs rs) (Build_qworld b' t ss (c1 ++ c2) fs' rs') ∧
    (∀ x, x ∈ rs → x ∈ rs') ∧ logged rs' log.
Proof.
  unfold process. destruct (decodeJob msg.2) as [j|] eqn:Ej.
  - destruct (Run_local backend l late (j_Spec j)) as [[[r l1] log1]|] eqn:Er; [|done].
    cbn [mbind option_bind]. intros [= <- _ <-].
    destruct (Run_local_filed _ _ _ _ _ _ Er) as (x & -> & Hx).
    exists ({[msg.1]} ∪ fs), ((msg.1, j, x) :: rs). split; [|split].
    + eapply qr_step; [apply qreach_one; apply (q_run _ _ b t ss c1 msg c2 fs rs j x pub_ok); [done|]|].
      * by destruct Hx as [[-> _]|[-> _]].
      * apply q_ack. by apply elem_of_union_l, elem_of_singleton.
    + intros y Hy. by right.
    + intros s Hs. destruct Hx as [[-> ->]|[-> ->]]; [by apply elem_of_nil in Hs|].
      apply list_elem_of_singleton in Hs as ->. exists msg.1, j. split; [by left|done].
  - intros [= <- _ <-]. exists ({[msg.1]} ∪ fs), rs. split; [|split; [done|by intros ? ?%elem_of_nil]].
    eapply qr_step; [apply qreach_one; by apply (q_poison _ _ b t ss c1 msg c2 fs rs)|].
    apply q_ack. by apply elem_of_union_l, elem_of_singleton.
Qed.
Lemma tick_to b t t' ss cs fs rs : t ≤ t' → qreach (Build_qworld b t ss cs fs rs) (Build_qworld b t' ss cs fs rs).
Proof.
  intros H. replace t' with (t + (t' - t)) by lia. apply qreach_one, q_tick. lia.
Qed.

Lemma worker_turn_reach b (l l' : Limiter W) late t t' pub_ok ack_ok b' log ss cs fs rs : t ≤ t' →
  worker_turn backend exec_text b l late t t' pub_ok ack_ok = Some (b', l', log) →
  ∃ fs' rs', qreach (Build_qworld b t ss cs fs rs) (Build_qworld b' t' ss cs fs' rs') ∧ logged rs' log.
Proof.
  intros Ht. unfold worker_turn. destruct (xreadgroup b t) as [[msg|] b1] eqn:Ex.
  - intros H. destruct (process_reach b1 l l' late t' pub_ok ack_ok msg b' log ss [] cs fs rs H) as (fs' & rs' & H1 & _ & H2).
    exists fs', rs'. split; [|done]. pose proof (q_read ran_here exec_text b t ss cs fs rs msg) as Hs. rewrite Ex in Hs.
    eapply qreach_trans; [by apply qreach_one, Hs|]. eapply qreach_trans; [by apply tick_to|exact H1].
  - intros [= <- _ <-]. exists fs, rs. split; [|by intros ? ?%elem_of_nil].
    pose proof (q_idle ran_here exec_text b t ss cs fs rs) as Hs. rewrite Ex in Hs.
    eapply qreach_trans; [by apply qreach_one, Hs|by apply tick_to].
Qed.

(** The observations of a tick come one after the other. *)
Fixpoint in_order (t : Z) (obs : list (bool * Z * bool * bool)) : Prop :=
  match obs with [] => True | (_, now, _, _) :: obs => t ≤ now ∧ in_order now obs end.
Lemma process_all_reach msgs : ∀ b (l l' : Limiter W) t obs b' log ss cs fs rs, in_order t obs →
  process_all backend exec_text b l obs msgs = Some (b', l', log) →
  ∃ t' cs' fs' rs', qreach (Build_qworld b t ss (msgs ++ cs) fs rs) (Build_qworld b' t' ss cs' fs' rs') ∧
    (∀ x, x ∈ rs → x ∈ rs') ∧ logged rs' log.
Proof.
  induction msgs as [|msg msgs IH]; intros b l l' t [|[[[late now] pub_ok] ack_ok] obs] b' log ss cs fs rs Ho; cbn [process_all];
    try (intros [= <- _ <-]; eexists t, _, fs, rs; split; [by constructor|split; [done|by intros ? ?%elem_of_nil]]).
  destruct Ho as [Ht Ho].
  destruct (process _ _ b l late now pub_ok ack_ok msg) as [[[b1 l1] log1]|] eqn:E1; [|done]. cbn [mbind option_bind].
  destruct (process_all _ _ b1 l1 obs msgs) as [[[b2 l2] log2]|] eqn:E2; [|done]. cbn [mbind option_bind].
  intros [= <- _ <-].
  destruct (process_reach b l l1 late now pub_ok ack_ok msg b1 log1 ss [] (msgs ++ cs) fs rs E1) as (fs1 & rs1 & R1 & S1 & L1).
  destruct (IH b1 l1 l2 now obs b2 log2 ss cs fs1 rs1 Ho E2) as (t' & cs' & fs' & rs' & R2 & S2 & L2).
  exists t', cs', fs', rs'. split; [|split; [auto|]].
  - eapply qreach_trans; [by apply tick_to|]. eapply qreach_trans; [exact R1|exact R2].
  - intros s [Hs|Hs]%elem_of_app; [|by apply L2]. destruct (L1 s Hs) as (id & j & H & ?).
    exists id, j. split; [by apply S2|done].
Qed.

(** C23: the calls of the driver are runs of the interleaved steps.  From any world,
    Submit is one step or none, a turn of a worker and a tick of the reaper, with their
    limiter, clocks and failures of the broker, lead to a world the steps lead to, in which the runner is
    the backend of this node; and whatever they gave to it is on record there with its
    outcome; so the delivery and
    provenance theorems hold of them. *)
Theorem queue_calls_refine (w : qworld (B := B)) (l l' : Limiter W) b' log :
  (∀ ctx xok uuid j ps, ∃ ss', qreach w
     (Build_qworld (Submit (qb w) (qnow w) ctx xok uuid j ps).2 (qnow w) ss' (claims w) (finished w) (ran w))) ∧
  (∀ late t' pub_ok ack_ok, qnow w ≤ t' →
     worker_turn backend exec_text (qb w) l late (qnow w) t' pub_ok ack_ok = Some (b', l', log) →
     ∃ fs rs, qreach w (Build_qworld b' t' (subs w) (claims w) fs rs) ∧ logged rs log) ∧
  (∀ obs, in_order (qnow w) obs →
     reaper_tick backend exec_text (qb w) l (qnow w) obs = Some (b', l', log) →
     ∃ t' cs fs rs, qreach w (Build_qworld b' t' (subs w) cs fs rs) ∧ logged rs log).
Proof.
  destruct w as [b t ss cs fs rs]. cbn [qb qnow subs claims finished ran]. split; [|split].
  - intros ctx xok uuid j ps. unfold Submit, submit_broker. cbn [snd]. destruct (encodeJob (with_id j uuid)) as [p|] eqn:Ej; [|exists ss; constructor].
    destruct xok; cbn [negb]; [|exists ss; constructor]. eexists. apply qreach_one. by apply (q_submit _ _ b t ss cs fs rs ctx (with_id j uuid) p).
  - intros late t' pub_ok ack_ok Ht H. by apply (worker_turn_reach b l l' late t t' pub_ok ack_ok).
  - intros obs Ho. unfold reaper_tick. pose proof (q_reclaim ran_here exec_text b t ss cs fs rs) as Hr.
    destruct (xautoclaim b t valkeyResultTTL) as [msgs b1]. cbn [fst snd] in Hr. intros H.
    destruct (process_all_reach msgs b1 l l' t obs b' log ss cs fs rs Ho H) as (t' & cs' & fs' & rs' & R & _ & L).
    exists t', cs', fs', rs'. split; [|done]. eapply qreach_trans; [by apply qreach_one, Hr|exact R].
Qed.
End calls.

(** ** A concrete broker and a concrete wire *)
Record memBroker := { mb : bstate; mb_n : nat }.
Definition mem_id (n : nat) : string := String.string_of_list_ascii (replicate n "1"%char).
Definition mem_ids (n : nat) : gset string := list_to_set (map mem_id (seq 0 n)).
Definition with_mb (b : memBroker) (s : bstate) : memBroker := {| mb := s; mb_n := mb_n b |}.

#[export] Instance memBroker_ops : Broker memBroker := {|
  xadd b p := let id := mem_id (mb_n b) in
    (id, {| mb := set_unread (mb b) (unread (mb b) ++ [(id, p)]); mb_n := S (mb_n b) |});
  xreadgroup b now := match unread (mb b) with
    | [] => (None, b)
    | (id, p) :: u => (Some (id, p), with_mb b (set_unread (set_pending (mb b) (<[id := (p, now)]> (pending (mb b)))) u))
    end;
  xack b id := with_mb b (set_pending (mb b) (delete id (pending (mb b))));
  xautoclaim b now idle :=
    let l := map (λ c, (c.1, c.2.1)) (take 16 (filter (λ c, idle ≤ now - c.2.2) (map_to_list (pending (mb b))))) in
    (l, with_mb b (set_pending (mb b) (foldl (λ m c, <[c.1 := (c.2, now)]> m) (pending (mb b)) l)));
  rpush_expire b now key v ttl :=
    with_mb b (set_lists (mb b) (<[key := (list_at (mb b) now key ++ [v], now + ttl)]> (lists (mb b))));
  blpop b now key := match list_at (mb b) now key with
    | [] => (None, b)
    | v :: l => (Some v, with_mb b (set_lists (mb b) (<[key := (l, from_option snd 0 (lists (mb b) !! key))]> (lists (mb b)))))
    end;
  bview := mb;
  used_ids b := mem_ids (mb_n b) |}.

Lemma mem_id_fresh n : mem_id n ∉ mem_ids n.
Proof.
  unfold mem_ids. rewrite elem_of_list_to_set. intros (m & E & Hm)%list_elem_of_fmap.
  apply elem_of_seq in Hm. apply (f_equal String.list_ascii_of_string) in E.
  unfold mem_id in E. rewrite !String.list_ascii_of_string_of_list_ascii in E.
  apply (f_equal List.length) in E. rewrite !length_replicate in E. lia.
Qed.
Lemma mem_ids_S n : mem_ids (S n) = {[mem_id n]} ∪ mem_ids n.
Proof. unfold mem_ids. rewrite seq_S, map_app, list_to_set_app_L. cbn. set_solver. Qed.
#[export] Instance memBroker_spec : BrokerSpec memBroker.
Proof.
  split.
  - intros b p. cbn. split; [apply mem_id_fresh|split; [apply mem_ids_S|done]].
  - intros b now. cbn. destruct (unread (mb b)) as [|[id p] u]; done.
  - done.
  - intros b now idle. cbn. split; [done|split; [|done]]. intros id p (c & [= -> ->] & Hc)%list_elem_of_fmap.
    apply elem_of_take in Hc as (i & Hc & _). apply list_elem_of_lookup_2, list_elem_of_filter in Hc as [Hi Hc].
    destruct c as [id [p t]]. apply elem_of_map_to_list in Hc. by exists t.
  - done.
  - intros b now key. cbn. destruct (list_at (mb b) now key); [done|]. split; [done|]. split; [done|]. by eexists.
Qed.
Definition demo_broker : memBroker := {| mb := {| unread := []; pending := ∅; lists := ∅ |}; mb_n := 0 |}.

(** The wire, with two decimals for a float64. *)
Definition demo_lang : Catalogue.Language := Catalogue.with_workdir demo_python.
Definition demo_spec : Spec :=
  from_option id (Catalogue.BuildSpec demo_lang [] "" [] (Catalogue.DefaultLimits demo_lang) false) (buildSpec demo_lang demo_request).
#[export] Instance demo_wire : Wire := json_wire FormatFloat2.
#[export] Instance demo_wire_spec : WireSpec := json_wire_spec FormatFloat2.
Definition demo_job : Job := job demo_lang "job1" demo_spec.
Ltac decided := apply (bool_decide_unpack _); vm_compute; exact I.
Lemma demo_spec_plain : spec_plain FormatFloat2 demo_spec.
Proof.
  split; [split; by vm_compute|split_and!; by vm_compute|by decided|by decided|constructor|unfold file_text; by decided| |].
  - repeat split; vm_compute; discriminate.
  - split; [vm_compute; reflexivity|]. intros old. vm_compute. reflexivity.
Qed.
Lemma demo_job_plain : plain demo_job.
Proof. split; [done|]. split; [done|]. split; [done|]. apply demo_spec_plain. Qed.
Definition demo_payload : string := from_option id "" (encodeJob demo_job).
Lemma demo_encoded : encodeJob demo_job = Some demo_payload.
Proof. vm_compute. reflexivity. Qed.


(** A job is added and read, and its worker dies: a minute later the reaper claims it. *)
Definition demo_dead : qworld (B := memBroker) :=
  let b1 := (xadd demo_broker demo_payload).2 in
  {| qb := (xreadgroup b1 0).2; qnow := 60 * second; claims := []; finished := ∅; ran := [];
     subs := [{| sb_msg := ""; sb_payload := demo_payload; sb_at := 0; sb_deadline := 60 * second |}] |}.
Lemma demo_dead_reach runs exec_text : qreach runs exec_text (start demo_broker 0) demo_dead.
Proof.
  set (b1 := (xadd demo_broker demo_payload).2).
  set (ss := [{| sb_msg := ""; sb_payload := demo_payload; sb_at := 0; sb_deadline := 60 * second |}]).
  eapply qr_step; [eapply qr_step; [eapply qr_step; [eapply qr_step; [constructor|]|]|]|].
  - by apply (q_submit _ _ demo_broker 0 [] [] ∅ [] None demo_job demo_payload).
  - apply (q_read _ _ b1 0 ss [] ∅ [] ("", demo_payload)). reflexivity.
  - apply (q_crash _ _ (xreadgroup b1 0).2 0 ss [] ("", demo_payload) [] ∅ []).
  - apply (q_tick _ _ (xreadgroup b1 0).2 0 ss [] ∅ [] (60 * second)). vm_compute. discriminate.
Qed.
(** Another worker reads the job, runs it, files its outcome and acknowledges it. *)
Definition demo_ran (s : Spec) (o : outcome) : Prop := o = demo_backend s false.
Definition demo_env : resultEnvelope := {| env_Result := no_result; env_Err := "" |}.
Definition demo_done : qworld (B := memBroker) :=
  let b2 := (xreadgroup (xadd demo_broker demo_payload).2 0).2 in
  {| qb := ack (publish b2 0 true demo_job demo_env) true ""; qnow := 0; claims := []; finished := {[""]} ∪ ∅;
     ran := [("", demo_job, Some (demo_backend (j_Spec demo_job) false))];
     subs := [{| sb_msg := ""; sb_payload := demo_payload; sb_at := 0; sb_deadline := 60 * second |}] |}.
Lemma demo_decoded : decodeJob demo_payload = Some demo_job.
Proof. apply (decode_encode_job demo_job); [exact demo_encoded|exact demo_job_plain]. Qed.
Lemma demo_done_reach : qreach demo_ran (λ _, "err") (start demo_broker 0) demo_done.
Proof.
  set (b1 := (xadd demo_broker demo_payload).2).
  set (ss := [{| sb_msg := ""; sb_payload := demo_payload; sb_at := 0; sb_deadline := 60 * second |}]).
  eapply qr_step; [eapply qr_step; [eapply qr_step; [eapply qr_step; [constructor|]|]|]|].
  - by apply (q_submit _ _ demo_broker 0 [] [] ∅ [] None demo_job demo_payload).
  - apply (q_read _ _ b1 0 ss [] ∅ [] ("", demo_payload)). reflexivity.
  - by apply (q_run demo_ran (λ _, "err") (xreadgroup b1 0).2 0 ss [] ("", demo_payload) [] ∅ [] demo_job
      (Some (demo_backend (j_Spec demo_job) false)) true demo_decoded).
  - apply (q_ack demo_ran (λ _, "err") _ 0 ss [] ("", demo_payload) [] _ _ true). by apply elem_of_union_l, elem_of_singleton.
Qed.
Lemma valkey_at_least_once_witness :
  (qreach demo_ran (λ _, "err") (start demo_broker 0) demo_dead ∧ waiting demo_dead "" demo_payload) ∧
  (qreach demo_ran (λ _, "err") (start demo_broker 0) demo_done ∧
   ∃ id j v, list_at (bview (qb demo_done)) 0 (res_key "job1") = [v] ∧ (id, j, Some (demo_backend (j_Spec j) false)) ∈ ran demo_done ∧
     v = encodeEnv demo_env).
Proof.
  split; (split; [apply demo_dead_reach || apply demo_done_reach|]).
  - destruct (valkey_at_least_once demo_ran (λ _, "err") demo_broker 0 demo_dead) as [H _]; [repeat split|apply demo_dead_reach|].
    destruct (H _ (list_elem_of_here _ _)) as [Hw|[Hp|(j & _ & [(o & Hp & _)|Hp])]]; [exact Hw|vm_compute in Hp; discriminate Hp|..];
      exfalso; by apply elem_of_nil in Hp.
  - destruct (valkey_at_least_once demo_ran (λ _, "err") demo_broker 0 demo_done) as [_ H]; [repeat split|apply demo_done_reach|].
    destruct (H (res_key "job1") (encodeEnv demo_env)) as (id & j & p & _ & _ & _ & [(o & Ho & E & Hv)|[Hp _]]).
    + vm_compute. by left.
    + exists id, j, (encodeEnv demo_env). split; [vm_compute; reflexivity|]. split; [by rewrite <- E|reflexivity].
    + exfalso. apply list_elem_of_singleton in Hp. discriminate Hp.
Defined.
Lemma reclaimed_too_late_witness :
  submit_loop (60 * second) [{| po_now := 60 * second; po_out := PNil; po_ctx := false |}] = Some (Err VTimeout).
Proof.
  destruct (reclaimed_too_late (λ _ _, True) (λ _, "err") demo_broker 0 demo_dead "" demo_payload
    {| sb_msg := ""; sb_payload := demo_payload; sb_at := 0; sb_deadline := 60 * second |}
    [{| po_now := 60 * second; po_out := PNil; po_ctx := false |}]) as [_ H].
  - repeat split.
  - apply demo_dead_reach.
  - vm_compute. by left.
  - by left.
  - reflexivity.
  - discriminate.
  - vm_compute. discriminate.
  - exact H.
Defined.
Lemma queue_calls_refine_witness : ∃ fs rs,
  qreach (ran_here demo_backend) (λ _, "err") (start demo_broker 0) (Build_qworld demo_broker 5 [] [] fs rs).
Proof.
  destruct (queue_calls_refine (W := Z * Z) demo_backend (λ _, "err") (start demo_broker 0) (New 1) (New 1) demo_broker [])
    as (_ & H & _).
  destruct (H false 5 true true) as (fs & rs & Hr & _); [vm_compute; discriminate|reflexivity|by exists fs, rs].
Defined.

(** One busy slot: 429 in process, 500 over the broker. *)
Definition busy : Limiter (Z * Z) := (Acquire (New 1) false).2.
Lemma valkey_replies_witness :
  handleExecute (H := InProc demo_backend) id "gvisor" demo_backend demo_reg busy true true "" "" (Some demo_request) =
    Some (JError 429 "capacity" (Some 1), busy, []) ∧
  handleExecute (H := ValkeyQueue demo_backend (λ _, "err") demo_broker 0 0 0 0 demo_lang "job1")
    id "gvisor" demo_backend demo_reg busy true true "" "" (Some demo_request) =
    Some (JError 500 "execution_failed" None, busy, []).
Proof.
  assert (HI : handleExecute (H := InProc demo_backend) id "gvisor" demo_backend demo_reg busy true true "" "" (Some demo_request) =
    Some (JError 429 "capacity" (Some 1), busy, [])) by reflexivity.
  split; [exact HI|].
  assert (HB : buildSpec demo_lang demo_request = Some demo_spec) by reflexivity.
  rewrite (valkey_replies id "gvisor" demo_backend (λ _, "err") demo_reg busy busy true true "" "" demo_request
    demo_lang demo_spec demo_broker 0 0 0 0 "job1" (JError 429 "capacity" (Some 1)) []);
    [reflexivity|done|exact HB|done|change (encodeJob demo_job ≠ None); by rewrite demo_encoded|exact demo_job_plain|done|done|done|done|done| |exact HI].
  intros r l1 log1 [= <- _ _]. repeat split; try done; vm_compute; discriminate.
Defined.

(** A job with its spec, and a result whose output is no UTF-8. *)
Definition raw_result : Result := {|
  Stdout := String (chr 255) "ok"; Stderr := ""; ExitCode := -1; TimedOut := true; OOMKilled := false; Truncated := false;
  DurationMs := 7; CompileOutput := ""; r_Network := false |}.
Lemma wire_faithful_witness : decodeJob demo_payload = Some demo_job ∧
  ∃ e, decodeEnv (encodeEnv {| env_Result := raw_result; env_Err := "" |}) = Some e ∧ env_Err e = "".
Proof.
  destruct (wire_faithful FormatFloat2) as [H1 H2]. split.
  - destruct (H1 demo_job) as (p & Hp & Hd); [exact demo_job_plain|vm_compute; reflexivity|].
    change (encodeJob demo_job = Some p) in Hp. rewrite demo_encoded in Hp. apply (inj Some) in Hp as ->. exact Hd.
  - destruct (H2 {| env_Result := raw_result; env_Err := "" |}) as (e & He & _ & Ht);
      [by vm_compute|by vm_compute|].
    exists e. split; [exact He|apply (proj2 Ht); reflexivity].
Defined.

(** The bytes of a request, with an option spelt in capitals. *)
Definition demo_bytes : string := jtext "{'language':'python','CODE':'print(1)'}".
Definition demo_spec2 : Spec :=
  match decode_exec None demo_bytes with Body r => from_option id demo_spec (buildSpec demo_lang r) | _ => demo_spec end.
Lemma accepted_job_crosses_witness : ∃ p, encodeJob (job demo_lang "u1" demo_spec2) = Some p ∧
  decodeJob p = Some (job demo_lang "u1" demo_spec2).
Proof.
  destruct (decode_exec None demo_bytes) as [req| |] eqn:E; [|vm_compute in E; discriminate E|vm_compute in E; discriminate E].
  assert (Hs : buildSpec demo_lang req = Some demo_spec2).
  { unfold demo_spec2. rewrite E. vm_compute in E. injection E as <-. vm_compute. reflexivity. }
  apply (accepted_job_crosses FormatFloat2 None demo_bytes req demo_lang demo_spec2 "u1"); [exact E| |exact Hs|done| |by vm_compute].
  - split; [split_and!; by vm_compute|by decided|by decided|split; by vm_compute].
  - split; [by vm_compute|]. intros old. vm_compute. reflexivity.
Defined.
