(* ===== verification/RateLimit.v ===== *)
(** * internal/api/ratelimit.go: a token bucket per client

    golang.org/x/time/rate is not part of the repository: [Bucket] is the limiter
    it provides and [BucketSpec] its documented behaviour, a bucket of [burst] tokens
    that starts full and is refilled at [rate] tokens per second, of which each allowed
    event takes one.  Times are nanoseconds of one clock; the middleware reads it
    once for its look-up and its event. *)

From S2P Require Import Prelude GoLib GoStrings GoNet GoFloat ApiHttp.
From Stdlib Require Import QArith Lqa Floats.SpecFloat.
#[local] Open Scope Z_scope.
Import Strings.

(** The exact value of a finite float64. *)
Definition Q_of_float (f : float) : Q :=
  match f with
  | S754_finite s m e =>
      let z := if s : bool then Z.neg m else Z.pos m in
      if 0 <=? e then inject_Z (z * 2 ^ e) else (z # Z.to_pos (2 ^ (- e)))
  | _ => 0%Q
  end.

Class Bucket (L : Type) := {
  NewLimiter : float → Z → L;
  Allow : L → Z → bool * L;
  (** [TokensAt] *)
  level : L → Z → Q }.
(** Tokens that accrue at a rate between two times. *)
Definition accrued (r : float) (t t' : Z) : Q := (Q_of_float r * inject_Z (t' - t) / inject_Z (10 ^ 9))%Q.
Class BucketSpec (L : Type) `{Bucket L} := {
  rate_of : L → float; burst_of : L → Z;
  new_spec r b t : rate_of (NewLimiter r b) = r ∧ burst_of (NewLimiter r b) = b ∧
    (0 ≤ b → (0 <= Q_of_float r)%Q → (level (NewLimiter r b) t == inject_Z b)%Q);
  level_cap l t : 0 ≤ burst_of l → (0 <= Q_of_float (rate_of l))%Q → (level l t <= inject_Z (burst_of l))%Q;
  level_grows l t t' : t ≤ t' → (0 <= Q_of_float (rate_of l))%Q → (level l t <= level l t')%Q;
  level_refill l t t' : t ≤ t' → (0 <= Q_of_float (rate_of l))%Q →
    (level l t' <= level l t + accrued (rate_of l) t t')%Q;
  allow_spec l t : rate_of (Allow l t).2 = rate_of l ∧ burst_of (Allow l t).2 = burst_of l ∧
    ((Allow l t).1 = true ↔ (1 <= level l t)%Q) ∧
    ((Allow l t).1 = true → (level (Allow l t).2 t == level l t - 1)%Q) ∧
    ((Allow l t).1 = false → (level (Allow l t).2 t == level l t)%Q) }.

Definition minute : Z := 60 * 10 ^ 9.

Section limiter.
Context {L : Type} {BK : Bucket L}.

Record entry := { lim : L; seen : Z }.
Record ipLimiter := { clients : gmap string entry; rate : float; burst : Z }.
Definition set_clients (i : ipLimiter) (c : gmap string entry) : ipLimiter :=
  {| clients := c; rate := rate i; burst := burst i |}.

Definition newIPLimiter (perMin burst : Z) : ipLimiter :=
  let perMin := if perMin <=? 0 then 30 else perMin in
  let burst := if burst <=? 0 then 10 else burst in
  {| clients := ∅; rate := SFdiv prec emax (of_Z perMin) (of_Z 60); burst := burst |}.

(** The limiter of [ip]; it is a pointer, and [put_limiter] is what [Allow] does
    through it. *)
Definition get (i : ipLimiter) (now : Z) (ip : string) : L * ipLimiter :=
  let l := match clients i !! ip with Some e => lim e | None => NewLimiter (rate i) (burst i) end in
  (l, set_clients i (<[ip := {| lim := l; seen := now |}]> (clients i))).
Definition put_limiter (i : ipLimiter) (ip : string) (l : L) : ipLimiter :=
  set_clients i (alter (λ e, {| lim := l; seen := seen e |}) ip (clients i)).

Definition stale (now : Z) (e : entry) : bool := 15 * minute <? now - seen e.
(** One tick of [janitor]. *)
Definition janitor (i : ipLimiter) (now : Z) : ipLimiter :=
  set_clients i (filter (λ kv, stale now kv.2 = false) (clients i)).

(** What the limiter reads of a request: the peer and the [X-Real-IP] header. *)
Record peer := { RemoteAddr : string; X_Real_IP : string }.
Definition peer_host (r : peer) : string :=
  match SplitHostPort (RemoteAddr r) with Some (h, _) => h | None => RemoteAddr r end.
Definition clientIP (r : peer) : string :=
  let host := peer_host r in
  match ParseIP host with
  | Some ip =>
      if IsLoopback ip then
        let xr := TrimSpace (X_Real_IP r) in if String.eqb xr "" then host else xr
      else host
  | None => host
  end.

(** [None]: the request goes on to the next handler. *)
Definition middleware {A} (i : ipLimiter) (now : Z) (r : peer) : option (http A) * ipLimiter :=
  let ip := clientIP r in
  let '(l, i) := get i now ip in
  let '(ok, l) := Allow l now in
  (if ok then None else Some (HErr 429 "rate_limited" (Some 1)), put_limiter i ip l).

(** ** Histories *)
Inductive event := Request (r : peer) | Tick.
(** The requests that pass, in order. *)
Fixpoint run (i : ipLimiter) (es : list (Z * event)) : list peer * ipLimiter :=
  match es with
  | [] => ([], i)
  | (now, Tick) :: es => run (janitor i now) es
  | (now, Request r) :: es =>
      let '(stop, i) := middleware (A := unit) i now r in
      let '(passed, i) := run i es in
      (if stop then passed else r :: passed, i)
  end.
End limiter.
Arguments ipLimiter L : clear implicits.
Arguments entry L : clear implicits.
