(* ===== verification/RateLimitSpec.v ===== *)
(** * The rate limiter: how many requests of one client pass

    In any window of up to fifteen minutes, the token bucket bounds what one
    client gets through, whatever the headers and whenever the janitor runs. *)

From S2P Require Import Prelude GoLib GoStrings GoNet GoFloat ApiHttp RateLimit.
From Stdlib Require Import QArith Lqa Qround Floats.SpecFloat.
#[local] Open Scope Z_scope.

(** ** The rate is not negative *)
Definition positive_sign (f : float) : bool := match f with S754_finite true _ _ => false | _ => true end.
Lemma binary_round_aux_sign p e m x l : positive_sign (binary_round_aux p e false m x l) = true.
Proof.
  unfold binary_round_aux. destruct (shr_fexp p e m x l) as [mrs e']. destruct (shr_fexp p e _ e' loc_Exact) as [mrs' e''].
  destruct (shr_m mrs'); [done| |done]. by destruct (_ <=? _).
Qed.
Lemma of_Z_sign z : 0 ≤ z → positive_sign (of_Z z) = true.
Proof.
  intros Hz. unfold of_Z, of_dyadic, binary_normalize. destruct z as [|z|z]; [done| |lia].
  unfold binary_round. destruct (shl_align z 0 _). apply binary_round_aux_sign.
Qed.
Lemma SFdiv_sign x m e : positive_sign x = true → positive_sign (SFdiv prec emax x (S754_finite false m e)) = true.
Proof.
  destruct x as [s|s| |[] mx ex]; try done. intros _. cbn [SFdiv xorb].
  destruct (SFdiv_core_binary prec emax (Z.pos mx) ex (Z.pos m) e) as [[mz ez] lz]. apply binary_round_aux_sign.
Qed.
Lemma Q_of_float_nonneg f : positive_sign f = true → (0 <= Q_of_float f)%Q.
Proof.
  destruct f as [s|s| |[] m e]; try done. intros _. unfold Q_of_float, Qle.
  destruct (0 <=? e) eqn:E; boolp; cbn.
  - pose proof (Z.pow_nonneg 2 e). nia.
  - lia.
Qed.

Section spec.
Context {L : Type} {BK : Bucket L} {BS : BucketSpec L}.
Implicit Types (i : ipLimiter L).

Lemma rate_nonneg p b : (0 <= Q_of_float (rate (newIPLimiter (L := L) p b)))%Q.
Proof.
  apply Q_of_float_nonneg. cbn. change (of_Z 60) with (S754_finite false 8444249301319680 (-47)).
  apply SFdiv_sign, of_Z_sign. destruct (p <=? 0) eqn:E; boolp; lia.
Qed.
Lemma accrued_nonneg r t t' : (0 <= Q_of_float r)%Q → t ≤ t' → (0 <= accrued r t t')%Q.
Proof.
  intros Hr Ht. unfold accrued. apply Qle_shift_div_l; [by apply Qlt_alt|]. rewrite Qmult_0_l.
  apply Qmult_le_0_compat; [done|]. unfold Qle; cbn. lia.
Qed.
Lemma accrued_trans r t t' t'' : (accrued r t t' + accrued r t' t'' == accrued r t t'')%Q.
Proof.
  unfold accrued. assert (inject_Z (t'' - t) == inject_Z (t' - t) + inject_Z (t'' - t'))%Q as ->.
  { rewrite <- inject_Z_plus. by replace (t' - t + (t'' - t')) with (t'' - t) by lia. }
  field. by vm_compute.
Qed.

(** ** The invariant *)
Record limiter_ok (p b : Z) (i : ipLimiter L) (t : Z) : Prop := {
  lo_rate : rate i = rate (newIPLimiter (L := L) p b);
  lo_burst : burst i = burst (newIPLimiter (L := L) p b);
  lo_entry : ∀ k e, clients i !! k = Some e → rate_of (lim e) = rate i ∧ burst_of (lim e) = burst i ∧ seen e ≤ t ∧
    ∀ t', seen e ≤ t' → (0 <= level (lim e) t')%Q }.
Lemma burst_pos p b : 0 < burst (newIPLimiter (L := L) p b).
Proof. cbn. destruct (b <=? 0) eqn:E; boolp; lia. Qed.
Lemma new_ok p b t : limiter_ok p b (newIPLimiter p b) t.
Proof. split; [done..|]. by intros k e; cbn; rewrite lookup_empty. Qed.
Lemma janitor_ok p b i t t' : t ≤ t' → limiter_ok p b i t → limiter_ok p b (janitor i t') t'.
Proof.
  intros Ht [H1 H2 H3]. split; [done..|]. intros k e [Hk _]%map_lookup_filter_Some.
  destruct (H3 k e Hk) as (? & ? & ? & ?). split; [done|split; [done|split; [lia|done]]].
Qed.

(** The bucket of [k] as [get] finds or makes it. *)
Definition bucket i (k : string) : L :=
  match clients i !! k with Some e => lim e | None => NewLimiter (rate i) (burst i) end.
Lemma ok_signs p b i t : limiter_ok p b i t → (0 <= Q_of_float (rate i))%Q ∧ 0 < burst i.
Proof. intros [-> -> _]. split; [apply rate_nonneg|apply burst_pos]. Qed.
Lemma bucket_ok p b i t k : limiter_ok p b i t → rate_of (bucket i k) = rate i ∧ burst_of (bucket i k) = burst i.
Proof.
  intros [_ _ H3]. unfold bucket. destruct (clients i !! k) as [e|] eqn:E.
  - by destruct (H3 k e E) as (? & ? & _ & _).
  - by destruct (new_spec (rate i) (burst i) t) as (? & ? & _).
Qed.
Lemma middleware_state {A} i now r : (middleware (A := A) i now r).2 =
  set_clients i (<[clientIP r := {| lim := (Allow (bucket i (clientIP r)) now).2; seen := now |}]> (clients i)).
Proof.
  unfold middleware, get. change (match clients i !! clientIP r with Some e => lim e | None => _ end) with (bucket i (clientIP r)).
  destruct (Allow (bucket i (clientIP r)) now) as [ok l]. cbn. unfold put_limiter, set_clients. cbn.
  f_equal. rewrite alter_insert_eq. done.
Qed.
Lemma middleware_pass {A} i now r : (middleware (A := A) i now r).1 = None ↔ (Allow (bucket i (clientIP r)) now).1 = true.
Proof.
  unfold middleware, get. change (match clients i !! clientIP r with Some e => lim e | None => _ end) with (bucket i (clientIP r)).
  by destruct (Allow (bucket i (clientIP r)) now) as [[] l].
Qed.
Lemma allow_level p b i t now k : limiter_ok p b i t → t ≤ now → let a := Allow (bucket i k) now in
  (0 <= level a.2 now)%Q ∧ (level a.2 now == level (bucket i k) now - (if a.1 then 1 else 0))%Q.
Proof.
  intros Hi Ht a. destruct (ok_signs p b i t Hi) as [Hr Hb]. destruct (bucket_ok p b i t k Hi) as [Er Eb].
  assert (H0 : (0 <= level (bucket i k) now)%Q).
  { unfold bucket. destruct (clients i !! k) as [e|] eqn:E.
    - destruct (lo_entry _ _ _ _ Hi k e E) as (_ & _ & Hs & Hl). apply Hl. lia.
    - destruct (new_spec (rate i) (burst i) now) as (_ & _ & Hl). rewrite Hl by (lia || done). unfold Qle; cbn; lia. }
  destruct (allow_spec (bucket i k) now) as (_ & _ & H1 & H2 & H3). fold a in H1, H2, H3.
  destruct (a.1); [|specialize (H3 eq_refl); lra]. specialize (H2 eq_refl). assert (H4 : (1 <= level (bucket i k) now)%Q) by (by apply H1). lra.
Qed.
Lemma middleware_ok {A} p b i t now r : t ≤ now → limiter_ok p b i t → limiter_ok p b (middleware (A := A) i now r).2 now.
Proof.
  intros Ht Hi. pose proof Hi as [H1 H2 H3]. rewrite middleware_state. split; [done..|].
  intros k e. cbn. intros [[<- <-]|[_ Hk]]%lookup_insert_Some; cbn.
  - destruct (bucket_ok p b i t (clientIP r) Hi) as [Er Eb]. destruct (ok_signs p b i t Hi) as [Hr _].
    destruct (allow_spec (bucket i (clientIP r)) now) as (E1 & E2 & _). rewrite E1, E2, Er, Eb.
    split; [done|split; [done|split; [done|]]]. intros t' Ht'. pose proof (allow_level p b i t now (clientIP r) Hi Ht) as [H0 _].
    eapply Qle_trans; [exact H0|]. apply level_grows; [done|]. by rewrite E1, Er.
  - destruct (H3 k e Hk) as (? & ? & ? & ?). split; [done|split; [done|split; [lia|done]]].
Qed.

(** Times do not run backwards and end by [t']. *)
Fixpoint within (t t' : Z) (es : list (Z * event)) : Prop :=
  match es with [] => t ≤ t' | (now, _) :: es => t ≤ now ∧ within now t' es end.
Lemma within_le t t' es : within t t' es → t ≤ t'.
Proof.
  revert t. induction es as [|[now e] es IH]; intros t; cbn; [done|]. intros [H1 H2]. apply IH in H2. lia.
Qed.
Lemma limiter_run_ok p b es : ∀ i t t', within t t' es → limiter_ok p b i t → limiter_ok p b (run i es).2 t'.
Proof.
  induction es as [|[now e] es IH]; intros i t t'; cbn [run within].
  - intros Ht [H1 H2 H3]. split; [done..|]. intros k e Hk. destruct (H3 k e Hk) as (? & ? & ? & ?). split; [done|split; [done|split; [lia|done]]].
  - intros [Ht Hw] Hi. destruct e as [r|].
    + pose proof (middleware_ok (A := unit) p b i t now r Ht Hi) as Hm.
      destruct (middleware i now r) as [stop i']. cbn [snd] in Hm. specialize (IH i' now t' Hw Hm).
      by destruct (run i' es).
    + apply (IH _ now); [done|]. by apply (janitor_ok p b i t).
Qed.

(** ** The window *)
Definition of_client (k : string) (r : peer) : bool := String.eqb (clientIP r) k.
(** What the bucket of [k] can still give: an entry touched since [t0] stays. *)
Definition credit i (t0 t : Z) (k : string) : Q :=
  match clients i !! k with
  | Some e => if t0 <=? seen e then level (lim e) t else inject_Z (burst i)
  | None => inject_Z (burst i)
  end.
Lemma bucket_credit p b i t0 t now k : limiter_ok p b i t → t ≤ now →
  (level (bucket i k) now <= credit i t0 t k + accrued (rate i) t now)%Q.
Proof.
  intros Hi Ht. destruct (ok_signs p b i t Hi) as [Hr Hb]. destruct (bucket_ok p b i t k Hi) as [Er Eb].
  assert (Hcap : (level (bucket i k) now <= inject_Z (burst i) + accrued (rate i) t now)%Q).
  { pose proof (accrued_nonneg (rate i) t now Hr Ht). rewrite <- Eb.
    assert (level (bucket i k) now <= inject_Z (burst_of (bucket i k)))%Q; [|lra].
    apply level_cap; [rewrite Eb; lia|by rewrite Er]. }
  unfold credit. unfold bucket in *. destruct (clients i !! k) as [e|]; [|done].
  destruct (t0 <=? seen e); [|done]. rewrite <- Er. apply level_refill; [done|]. by rewrite Er.
Qed.
Lemma credit_janitor i t0 t now k : now ≤ t0 + 15 * minute →
  (∀ e, clients i !! k = Some e → t0 <= seen e → (level (lim e) now <= level (lim e) t + accrued (rate i) t now)%Q) →
  (0 <= accrued (rate i) t now)%Q →
  (credit (janitor i now) t0 now k <= credit i t0 t k + accrued (rate i) t now)%Q.
Proof.
  intros Hn Hl Ha. unfold credit, janitor. cbn. destruct (clients i !! k) as [e|] eqn:E.
  - destruct (stale now e) eqn:Es.
    + assert (filter (λ kv, stale now kv.2 = false) (clients i) !! k = None) as ->.
      { apply map_lookup_filter_None. right. intros e' E'. cbn. congruence. }
      unfold stale in Es. boolp. assert (t0 <=? seen e = false) as -> by lia. lra.
    + assert (filter (λ kv, stale now kv.2 = false) (clients i) !! k = Some e) as ->.
      { apply map_lookup_filter_Some. done. }
      destruct (t0 <=? seen e) eqn:Et; boolp; [|lra]. by apply Hl.
  - assert (filter (λ kv, stale now kv.2 = false) (clients i) !! k = None) as ->.
    { apply map_lookup_filter_None. by left. }
    lra.
Qed.

Lemma credit_later p b i t0 t now k : limiter_ok p b i t → t ≤ now →
  (credit i t0 now k <= credit i t0 t k + accrued (rate i) t now)%Q ∧ (0 <= credit i t0 t k)%Q.
Proof.
  intros Hi Ht. destruct (ok_signs p b i t Hi) as [Hr Hb]. pose proof (accrued_nonneg (rate i) t now Hr Ht) as Ha.
  assert (Hb' : (0 <= inject_Z (burst i))%Q) by (unfold Qle; cbn; lia).
  unfold credit. destruct (clients i !! k) as [e|] eqn:E; [|split; [lra|done]].
  destruct (lo_entry _ _ _ _ Hi k e E) as (Er & _ & Hs & Hl).
  destruct (t0 <=? seen e); [|split; [lra|done]]. split; [|by apply Hl].
  rewrite <- Er. apply level_refill; [done|]. by rewrite Er.
Qed.
Lemma credit_request {A} p b i t0 t now r k : t0 ≤ t → t ≤ now → limiter_ok p b i t →
  (credit (middleware (A := A) i now r).2 t0 now k + (if (Allow (bucket i (clientIP r)) now).1 then if of_client k r then 1 else 0 else 0)
   <= credit i t0 t k + accrued (rate i) t now)%Q.
Proof.
  intros H0 Ht Hi. rewrite middleware_state. unfold of_client. destruct (String.eqb (clientIP r) k) eqn:E; boolp.
  - subst k. pose proof (bucket_credit p b i t0 t now (clientIP r) Hi Ht) as Hc.
    pose proof (allow_level p b i t now (clientIP r) Hi Ht) as [_ Hl].
    unfold credit at 1. cbn [clients set_clients]. rewrite lookup_insert_eq. cbn [seen lim].
    assert (t0 <=? now = true) as -> by lia.
    destruct (Allow (bucket i (clientIP r)) now) as [[] l]; cbn [fst snd] in *; lra.
  - destruct (credit_later p b i t0 t now k Hi Ht) as [Hc _].
    assert (credit (set_clients i (<[clientIP r := {| lim := (Allow (bucket i (clientIP r)) now).2; seen := now |}]> (clients i))) t0 now k
      = credit i t0 now k) as ->.
    { unfold credit. cbn. by rewrite lookup_insert_ne. }
    destruct ((Allow _ _).1); lra.
Qed.

Definition passed_of (f : peer → bool) (rs : list peer) : Q := inject_Z (Z.of_nat (List.length (List.filter f rs))).
Lemma passed_cons f r rs : (passed_of f (r :: rs) == (if f r then 1 else 0) + passed_of f rs)%Q.
Proof.
  unfold passed_of. cbn [List.filter]. destruct (f r); [|ring]. cbn [List.length]. rewrite Nat2Z.inj_succ, <- Z.add_1_l, inject_Z_plus. ring.
Qed.
Lemma run_credit p b t0 k es : ∀ i t t', t0 ≤ t → t' ≤ t0 + 15 * minute → within t t' es → limiter_ok p b i t →
  (passed_of (of_client k) (run i es).1 <= credit i t0 t k + accrued (rate i) t t')%Q.
Proof.
  induction es as [|[now [r|]] es IH]; intros i t t' H0 Hw; cbn [within run].
  - intros Ht Hi. destruct (credit_later p b i t0 t t' k Hi Ht) as [_ Hc]. destruct (ok_signs p b i t Hi) as [Hr _].
    pose proof (accrued_nonneg (rate i) t t' Hr Ht). assert (passed_of (of_client k) [] == 0)%Q by reflexivity. cbn [fst]. lra.
  - intros [Ht Hes] Hi. pose proof (middleware_ok (A := unit) p b i t now r Ht Hi) as Hm.
    pose proof (credit_request (A := unit) p b i t0 t now r k H0 Ht Hi) as Hc.
    pose proof (middleware_pass (A := unit) i now r) as Hp.
    specialize (IH (middleware (A := unit) i now r).2 now t' ltac:(lia) Hw Hes Hm).
    assert (Er : rate (middleware (A := unit) i now r).2 = rate i) by (rewrite middleware_state; done).
    rewrite Er in IH. pose proof (accrued_trans (rate i) t now t') as Ha.
    destruct (middleware i now r) as [stop i']. cbn [fst snd] in *. destruct (run i' es) as [passed i'']. cbn [fst] in *.
    destruct (Allow (bucket i (clientIP r)) now) as [[] l]; cbn [fst] in Hp, Hc.
    + destruct stop; [by destruct Hp as [_ Hp]; specialize (Hp eq_refl)|]. rewrite passed_cons. lra.
    + destruct stop; [lra|]. by destruct Hp as [Hp _]; specialize (Hp eq_refl).
  - intros [Ht Hes] Hi. pose proof (janitor_ok p b i t now Ht Hi) as Hj. destruct (ok_signs p b i t Hi) as [Hr _].
    specialize (IH (janitor i now) now t' ltac:(lia) Hw Hes Hj). change (rate (janitor i now)) with (rate i) in IH.
    pose proof (accrued_trans (rate i) t now t') as Ha. pose proof (within_le now t' es Hes) as Hle.
    assert (Hc : (credit (janitor i now) t0 now k <= credit i t0 t k + accrued (rate i) t now)%Q).
    { apply credit_janitor; [lia| |by apply accrued_nonneg]. intros e He _.
      destruct (lo_entry _ _ _ _ Hi k e He) as (Er & _). rewrite <- Er. apply level_refill; [done|]. by rewrite Er. }
    lra.
Qed.

(** The key of a request: the address of its peer; of a loopback peer (a reverse proxy) the
    [X-Real-IP] it sends, if any. *)
Lemma clientIP_remote r : from_option IsLoopback false (ParseIP (peer_host r)) = false → clientIP r = peer_host r.
Proof. unfold clientIP. destruct (ParseIP _) as [ip|]; [|done]. cbn. by intros ->. Qed.
Lemma clientIP_proxied r : from_option IsLoopback false (ParseIP (peer_host r)) = true →
  clientIP r = if String.eqb (Strings.TrimSpace (X_Real_IP r)) "" then peer_host r else Strings.TrimSpace (X_Real_IP r).
Proof. unfold clientIP. destruct (ParseIP _) as [ip|]; [|done]. cbn. by intros ->. Qed.

(** C28: the rate limit holds, whatever the caller sends.  From a new limiter, after
    any history, in any window of up to fifteen minutes and with the janitor
    ticking at any moment, the requests under one key that pass are at most the burst plus
    what the rate accrues in the window.  The key of a peer that is not loopback is its
    address, whatever its headers, so no header gets such a peer more; only for a loopback peer
    is it the [X-Real-IP] header, when there is one. *)
Theorem rate_window p b es1 es2 t1 t0 t' : within t1 t0 es1 → within t0 t' es2 → t' ≤ t0 + 15 * minute →
  let i := newIPLimiter p b in
  let passed := (run (run i es1).2 es2).1 in
  let most := (inject_Z (burst i) + accrued (rate i) t0 t')%Q in
  (∀ k, (passed_of (of_client k) passed <= most)%Q) ∧
  (∀ h, from_option IsLoopback false (ParseIP h) = false →
     (passed_of (λ r, String.eqb (peer_host r) h) passed <= most)%Q) ∧
  (∀ r, clientIP r =
     if from_option IsLoopback false (ParseIP (peer_host r)) && negb (String.eqb (Strings.TrimSpace (X_Real_IP r)) "")
     then Strings.TrimSpace (X_Real_IP r) else peer_host r).
Proof.
  intros H1 H2 Hw i passed most. pose proof (limiter_run_ok p b es1 i t1 t0 H1 (new_ok p b t1)) as Hi.
  assert (Hk : ∀ k, (passed_of (of_client k) passed <= most)%Q).
  { intros k. pose proof (run_credit p b t0 k es2 (run i es1).2 t0 t' ltac:(lia) Hw H2 Hi) as Hc.
    destruct (ok_signs _ _ _ _ Hi) as [Hr Hb]. pose proof Hi as [E1 E2 _]. fold i in E1, E2.
    assert (Hcr : (credit (run i es1).2 t0 t0 k <= inject_Z (burst (run i es1).2))%Q).
    { unfold credit. destruct (clients _ !! k) as [e|] eqn:E; [|lra]. destruct (t0 <=? seen e); [|lra].
      destruct (lo_entry _ _ _ _ Hi k e E) as (Er & Eb & _). rewrite <- Eb. apply level_cap; rewrite ?Er, ?Eb; [lia|done]. }
    unfold passed, most. rewrite <- E1, <- E2. lra. }
  assert (Hkey : ∀ r, clientIP r =
     if from_option IsLoopback false (ParseIP (peer_host r)) && negb (String.eqb (Strings.TrimSpace (X_Real_IP r)) "")
     then Strings.TrimSpace (X_Real_IP r) else peer_host r).
  { intros r. destruct (from_option IsLoopback false _) eqn:E; [rewrite clientIP_proxied by done|by apply clientIP_remote].
    cbn. by destruct (String.eqb (Strings.TrimSpace _) ""). }
  split; [done|]. split; [|exact Hkey]. intros h Hh. eapply Qle_trans; [|apply (Hk h)]. unfold passed_of. rewrite <- Zle_Qle.
  apply inj_le. clear -Hh. induction passed as [|r rs IH]; [done|]. cbn [List.filter].
  destruct (String.eqb (peer_host r) h) eqn:E; [|by destruct (of_client h r); cbn; lia].
  apply String.eqb_eq in E. assert (of_client h r = true) as ->; [|cbn; lia].
  unfold of_client. rewrite clientIP_remote; [by apply String.eqb_eq|by rewrite E].
Qed.
End spec.

(** ** A concrete bucket *)
Record tokenBucket := { tb_rate : float; tb_burst : Z; tb_tokens : Q; tb_last : Z }.
Definition qmin (a b : Q) : Q := if Qle_bool a b then a else b.
Lemma qmin_cases a b : (a <= b)%Q ∧ qmin a b = a ∨ (b < a)%Q ∧ qmin a b = b.
Proof.
  unfold qmin. destruct (Qle_bool a b) eqn:E; [left; by apply Qle_bool_iff in E|right].
  split; [|done]. apply Qnot_le_lt. intros H. apply Qle_bool_iff in H. congruence.
Qed.
Definition tb_level (l : tokenBucket) (t : Z) : Q :=
  if t <=? tb_last l then qmin (inject_Z (tb_burst l)) (tb_tokens l)
  else qmin (inject_Z (tb_burst l)) (tb_tokens l + accrued (tb_rate l) (tb_last l) t)%Q.
#[export] Instance tokenBucket_ops : Bucket tokenBucket := {|
  NewLimiter r b := {| tb_rate := r; tb_burst := b; tb_tokens := inject_Z b; tb_last := 0 |};
  Allow l t :=
    let n := tb_level l t in
    if Qle_bool 1 n
    then (true, {| tb_rate := tb_rate l; tb_burst := tb_burst l; tb_tokens := (n - 1)%Q; tb_last := t |})
    else (false, {| tb_rate := tb_rate l; tb_burst := tb_burst l; tb_tokens := n; tb_last := t |});
  level := tb_level |}.
Ltac qmins := repeat match goal with
  | |- context [qmin ?a ?b] => let H := fresh in destruct (qmin_cases a b) as [[H ->]|[H ->]]
  end.
Lemma tb_level_cap l t : (tb_level l t <= inject_Z (tb_burst l))%Q.
Proof. unfold tb_level. destruct (_ <=? _); qmins; lra. Qed.
Lemma tb_level_at l t : (tb_tokens l <= inject_Z (tb_burst l))%Q → t = tb_last l → (tb_level l t == tb_tokens l)%Q.
Proof. intros H ->. unfold tb_level. rewrite Z.leb_refl. qmins; lra. Qed.
#[export, refine] Instance tokenBucket_spec : BucketSpec tokenBucket := {| rate_of := tb_rate; burst_of := tb_burst |}.
Proof.
  - intros r b t. split; [done|split; [done|]]. intros Hb Hr. cbn. unfold tb_level. cbn.
    destruct (t <=? 0) eqn:E; boolp; [qmins; lra|]. pose proof (accrued_nonneg r 0 t Hr ltac:(lia)). qmins; lra.
  - intros l t _ _. apply tb_level_cap.
  - intros l t t' Ht Hr. cbn. unfold tb_level. pose proof (accrued_trans (tb_rate l) (tb_last l) t t').
    pose proof (accrued_nonneg (tb_rate l) t t' Hr Ht).
    destruct (t <=? tb_last l) eqn:E1, (t' <=? tb_last l) eqn:E2; boolp; try lia; try (qmins; lra).
    pose proof (accrued_nonneg (tb_rate l) (tb_last l) t' Hr ltac:(lia)). qmins; lra.
  - intros l t t' Ht Hr. cbn. unfold tb_level. pose proof (accrued_trans (tb_rate l) (tb_last l) t t').
    pose proof (accrued_nonneg (tb_rate l) t t' Hr Ht).
    destruct (t <=? tb_last l) eqn:E1, (t' <=? tb_last l) eqn:E2; boolp; try lia; try (qmins; lra).
    pose proof (accrued_trans (tb_rate l) t (tb_last l) t'). pose proof (accrued_nonneg (tb_rate l) t (tb_last l) Hr ltac:(lia)).
    qmins; lra.
  - intros l t. cbn. pose proof (tb_level_cap l t) as Hc. destruct (Qle_bool 1 (tb_level l t)) eqn:E; cbn.
    + split; [done|split; [done|]]. split; [by rewrite <- Qle_bool_iff|]. split; [|done]. intros _.
      rewrite tb_level_at; [done|cbn; lra|done].
    + split; [done|split; [done|]]. split; [rewrite <- Qle_bool_iff; by rewrite E|]. split; [done|]. intros _.
      by rewrite tb_level_at.
Defined.

(** Twelve requests in a second from one address, each with another X-Real-IP. *)
Definition demo_burst : list (Z * event) :=
  map (λ n, (10 ^ 9, Request {| RemoteAddr := "203.0.113.9:4711"; X_Real_IP := Itoa n |})) (seqZ 1 12).
Lemma rate_window_witness :
  List.length (run (newIPLimiter (L := tokenBucket) 30 10) demo_burst).1 = 10%nat ∧
  (passed_of (λ r, String.eqb (peer_host r) "203.0.113.9") (run (newIPLimiter (L := tokenBucket) 30 10) demo_burst).1 <= 21 # 2)%Q.
Proof.
  split; [vm_compute; reflexivity|].
  destruct (rate_window (L := tokenBucket) 30 10 [] demo_burst 0 0 (10 ^ 9)) as (_ & H & _).
  - done.
  - vm_compute. repeat split; discriminate.
  - vm_compute. discriminate.
  - specialize (H "203.0.113.9" eq_refl). eapply Qle_trans; [exact H|]. vm_compute. discriminate.
Defined.
