(* ===== verification/Router.v ===== *)
(** * internal/api/router.go: routes and middleware

    The routing table with the middleware of each route in the order it runs,
    and the interpretation of the chain.  Matching a request with the table is
    chi's ([Mux]).  [requestLogger] only logs and [Recoverer] only sees panics, which
    the handlers' definitions return as [None]: neither appears here. *)

From S2P Require Import Prelude GoLib GoStrings Auth GoFloat ApiHttp RateLimit RateLimitSpec ApiKV ApiSessions.

Definition maxBodyBytes : Z := Z.shiftl 256 10.
Definition millisecond : Z := 10 ^ 6.

(** ** The table *)
Inductive handler :=
| HWeb | HLLMs | HOpenAPI | HAssets | HHealthz | HReadyz | HRuntimes | HMetrics
| HExecute
| HCreateSession | HSessionExec | HSessionFSGet | HSessionFSPut | HSessionFSDelete | HDestroySession
| HCreateVolume | HListVolumes | HGetVolume | HDeleteVolume
| HKVPut | HKVGet | HKVDelete | HKVList.
Inductive mw := maxBody (n : Z) | rateLimit | authenticate | tenantKey.
(** [m_method]: [None] is any method ([Handle]). *)
Record route := { m_method : option string; m_pattern : string; m_chain : list mw; m_handler : handler }.

(** The server: its gate (keys and flags), which subsystems it has, how long it
    waits for a slot. *)
Record Server := {
  s_gate : Middleware.gate; s_Sessions : bool; s_Volumes : bool; s_Memory : bool; AcquireWait : Z }.
Record Config := { RatePerMin : Z; RateBurst : Z }.

Definition route_of (m p : string) (c : list mw) (h : handler) : route :=
  {| m_method := Some m; m_pattern := p; m_chain := c; m_handler := h |}.
Definition public_routes : list route := [
  route_of "GET" "/" [] HWeb; route_of "GET" "/llms.txt" [] HLLMs; route_of "GET" "/openapi.yaml" [] HOpenAPI;
  {| m_method := None; m_pattern := "/assets/*"; m_chain := []; m_handler := HAssets |};
  route_of "GET" "/healthz" [] HHealthz; route_of "GET" "/readyz" [] HReadyz;
  route_of "GET" "/runtimes" [] HRuntimes; route_of "GET" "/metrics" [] HMetrics ].
Definition session_routes : list route :=
  let use := [rateLimit; authenticate] in [
  route_of "POST" "/v1/sessions" (use ++ [maxBody maxBodyBytes]) HCreateSession;
  route_of "POST" "/v1/sessions/{id}/exec" (use ++ [maxBody maxBodyBytes]) HSessionExec;
  route_of "GET" "/v1/sessions/{id}/fs" use HSessionFSGet;
  route_of "PUT" "/v1/sessions/{id}/fs" (use ++ [maxBody maxSessionUpload]) HSessionFSPut;
  route_of "DELETE" "/v1/sessions/{id}/fs" use HSessionFSDelete;
  route_of "DELETE" "/v1/sessions/{id}" use HDestroySession ].
Definition volume_routes : list route :=
  let use := [rateLimit; authenticate; tenantKey] in [
  route_of "POST" "/v1/volumes" (use ++ [maxBody maxBodyBytes]) HCreateVolume;
  route_of "GET" "/v1/volumes" use HListVolumes;
  route_of "GET" "/v1/volumes/{id}" use HGetVolume;
  route_of "DELETE" "/v1/volumes/{id}" use HDeleteVolume ].
Definition memory_routes : list route :=
  let use := [rateLimit; authenticate; tenantKey] in [
  route_of "PUT" "/v1/memory/{namespace}/{key}" (use ++ [maxBody maxKVValue]) HKVPut;
  route_of "GET" "/v1/memory/{namespace}/{key}" use HKVGet;
  route_of "DELETE" "/v1/memory/{namespace}/{key}" use HKVDelete;
  route_of "GET" "/v1/memory/{namespace}" use HKVList ].

(** A property of each route of a literal list. *)
Ltac each_route tac :=
  repeat (apply Forall_cons; split; [tac|]); apply Forall_nil; exact I.

Section router.
Context {L : Type} {BK : Bucket L}.

(** [Router]: the default wait, the limiter, the table. *)
Definition wait_or_default (s : Server) : Server := {|
  s_gate := s_gate s; s_Sessions := s_Sessions s; s_Volumes := s_Volumes s; s_Memory := s_Memory s;
  AcquireWait := if AcquireWait s <=? 0 then 2000 * millisecond else AcquireWait s |}.
Definition Router (s : Server) (cfg : Config) : Server * ipLimiter L * list route :=
  (wait_or_default s, newIPLimiter (RatePerMin cfg) (RateBurst cfg),
   public_routes
   ++ [route_of "POST" "/execute" [maxBody maxBodyBytes; rateLimit; authenticate] HExecute]
   ++ (if s_Sessions s then session_routes else [])
   ++ (if s_Volumes s then volume_routes else [])
   ++ (if s_Memory s then memory_routes else [])).

(** ** A request *)
Record request := { Method : string; Path : string; r_peer : peer; r_headers : Middleware.headers }.
(** How the chain ends: with a reply of its own, or at the handler with the context,
    and the limit on the body, that it finds. *)
Inductive verdict :=
| Stop (r : http unit)
| Reach (ctx : KeyStore.Context) (limit : option Z).
Definition narrow (limit : option Z) (n : Z) : option Z :=
  Some match limit with Some l => Z.min l n | None => n end.
Fixpoint through (g : Middleware.gate) (i : ipLimiter L) (now : Z) (r : request)
    (ctx : KeyStore.Context) (limit : option Z) (ms : list mw) : verdict * ipLimiter L :=
  match ms with
  | [] => (Reach ctx limit, i)
  | maxBody n :: ms => through g i now r ctx (narrow limit n) ms
  | rateLimit :: ms =>
      match middleware i now (r_peer r) with
      | (Some stop, i) => (Stop stop, i)
      | (None, i) => through g i now r ctx limit ms
      end
  | authenticate :: ms =>
      match Middleware.authMiddleware g (r_headers r) ctx with
      | Middleware.Next ctx => through g i now r ctx limit ms
      | _ => (Stop (HErr 401 "unauthorized" None), i)
      end
  | tenantKey :: ms =>
      match Middleware.requireTenantKey g ctx with
      | Middleware.Next ctx => through g i now r ctx limit ms
      | _ => (Stop (HErr 403 "api_key_required" None), i)
      end
  end.

(** chi: the route of a method and a path, with its parameters. *)
Class Mux := find_route : list route → string → string → option (route * gmap string string).
Class MuxSpec `{Mux} := find_sound rs m p r ps : find_route rs m p = Some (r, ps) →
  r ∈ rs ∧ (m_method r = None ∨ m_method r = Some m).

Definition cors_headers : list (string * string) := [
  ("Access-Control-Allow-Origin", "*");
  ("Access-Control-Allow-Methods", "GET, POST, PUT, DELETE, OPTIONS");
  ("Access-Control-Allow-Headers", "Content-Type, Authorization, X-API-Key, X-Session-Token, X-TTL-Seconds, If-None-Match");
  ("Access-Control-Expose-Headers", "ETag, X-Expires-At")].
(** What answers a request, under [cors_headers]. *)
Inductive served :=
| Preflight                                   (* 204 *)
| NoRoute                                     (* chi's 404 or 405 *)
| Refused (r : http unit)
| Handled (h : handler) (ps : gmap string string) (ctx : KeyStore.Context) (limit : option Z).
Definition serve `{Mux} (g : Middleware.gate) (rs : list route) (i : ipLimiter L) (now : Z) (r : request) :
    served * ipLimiter L :=
  if String.eqb (Method r) "OPTIONS" then (Preflight, i) else
  match find_route rs (Method r) (Path r) with
  | None => (NoRoute, i)
  | Some (rt, ps) =>
      match through g i now r None None (m_chain rt) with
      | (Stop e, i) => (Refused e, i)
      | (Reach ctx limit, i) => (Handled (m_handler rt) ps ctx limit, i)
      end
  end.

(** ** The policy *)
Definition is_open (h : handler) : bool :=
  match h with HWeb | HLLMs | HOpenAPI | HAssets | HHealthz | HReadyz | HRuntimes | HMetrics => true | _ => false end.
Definition is_persistent (h : handler) : bool :=
  match h with
  | HCreateVolume | HListVolumes | HGetVolume | HDeleteVolume | HKVPut | HKVGet | HKVDelete | HKVList => true
  | _ => false
  end.
(** The limit on the body of the handlers that read one. *)
Definition body_limit (h : handler) : option Z :=
  match h with
  | HExecute | HCreateSession | HSessionExec | HCreateVolume => Some (256 * 1024)
  | HSessionFSPut => Some (16 * 1024 * 1024)
  | HKVPut => Some (8 * 1024 * 1024)
  | _ => None
  end.

(** The chains of the table. *)
Definition chain_ok (r : route) : Prop :=
  (is_open (m_handler r) = true ∧ m_chain r = []) ∨
  (is_open (m_handler r) = false ∧ ∃ pre post, m_chain r = pre ++ [rateLimit; authenticate] ++
     (if is_persistent (m_handler r) then [tenantKey] else []) ++ post ∧
     pre ++ post = match body_limit (m_handler r) with Some n => [maxBody n] | None => [] end).
Ltac gated :=
  right; (split; [done|]); cbn;
  first [by exists [], [] | by exists [], [maxBody maxBodyBytes] | by exists [maxBody maxBodyBytes], []
        | by exists [], [maxBody maxSessionUpload] | by exists [], [maxBody maxKVValue]].
Lemma public_routes_ok : Forall chain_ok public_routes.
Proof. unfold public_routes. each_route ltac:(by left). Qed.
Lemma session_routes_ok : Forall chain_ok session_routes.
Proof. unfold session_routes; cbv zeta. each_route gated. Qed.
Lemma volume_routes_ok : Forall chain_ok volume_routes.
Proof. unfold volume_routes; cbv zeta. each_route gated. Qed.
Lemma memory_routes_ok : Forall chain_ok memory_routes.
Proof. unfold memory_routes; cbv zeta. each_route gated. Qed.
Lemma table_ok s cfg : Forall chain_ok (Router s cfg).2.
Proof.
  cbn [Router snd]. rewrite !Forall_app, Forall_singleton.
  split; [exact public_routes_ok|]. split; [gated|].
  split; [|split]; case_match; first [apply session_routes_ok|apply volume_routes_ok|apply memory_routes_ok|apply Forall_nil; exact I].
Qed.

Lemma through_bodies g i now r ctx limit ns ms :
  through g i now r ctx limit (map maxBody ns ++ ms) = through g i now r ctx (foldl narrow limit ns) ms.
Proof. revert limit. induction ns as [|n ns IH]; intros limit; [done|]. cbn. apply IH. Qed.
Lemma bodies pre post (o : option Z) : pre ++ post = match o with Some n => [maxBody n] | None => [] end →
  ∃ ns ns', pre = map maxBody ns ∧ post = map maxBody ns' ∧ foldl narrow (foldl narrow None ns) ns' = o.
Proof.
  destruct o as [n|]; [|by intros [-> ->]%app_nil; exists [], []].
  destruct pre as [|m pre]; cbn.
  - intros ->. by exists [], [n].
  - intros [= -> [-> ->]%app_nil]. by exists [n], [].
Qed.

(** What a request has gone through when its handler runs. *)
Lemma through_reach g i now r rt ctx limit i' : chain_ok rt → is_open (m_handler rt) = false →
  through g i now r None None (m_chain rt) = (Reach ctx limit, i') →
  limit = body_limit (m_handler rt) ∧ middleware (A := unit) i now (r_peer r) = (None, i') ∧
  Middleware.authMiddleware g (r_headers r) None = Middleware.Next ctx ∧
  (is_persistent (m_handler rt) = true → Middleware.requireTenantKey g ctx = Middleware.Next ctx).
Proof.
  intros [[Ho _]|(_ & pre & post & Hc & Hb)] Hn; [congruence|].
  destruct (bodies pre post _ Hb) as (ns & ns' & -> & -> & Hl). rewrite Hc, through_bodies. cbn [app through].
  destruct (middleware (A := unit) i now (r_peer r)) as [[stop|] i1] eqn:Em; [done|].
  destruct (Middleware.authMiddleware g (r_headers r) None) as [| | |ctx1] eqn:Ea; try done.
  assert (Hend : ∀ ctx', through g i1 now r ctx' (foldl narrow None ns) (map maxBody ns') =
    (Reach ctx' (body_limit (m_handler rt)), i1)).
  { intros ctx'. rewrite <- (app_nil_r (map maxBody ns')), through_bodies, Hl. done. }
  destruct (is_persistent (m_handler rt)); cbn [app through].
  - destruct (Middleware.requireTenantKey g ctx1) as [| | |ctx2] eqn:Ek; try done.
    assert (ctx2 = ctx1) as ->.
    { revert Ek. unfold Middleware.requireTenantKey. destruct (Middleware.MemoryRequireKey g); [|by intros [= <-]].
      destruct (KeyStore.TenantFrom ctx1) as [t ok]. destruct (_ || _); [done|by intros [= <-]]. }
    rewrite Hend. by intros [= <- <- <-].
  - rewrite Hend. by intros [= <- <- <-].
Qed.

(** C18: no route goes round the gates.  Whatever the configuration, a request that
    reaches a handler with the limit of that handler on its body; unless the handler is one
    of the eight public ones, the request passed the rate limiter under its client's
    key, and the context carries a tenant, which is the public one only without a
    key and where keys are optional, or in open mode, and otherwise the digest of the
    key presented, which is configured; and with [MemoryRequireKey] the volume and
    memory handlers never run for the public tenant. *)
Theorem routes_guarded `{MX : Mux} {MS : MuxSpec} s cfg i now r h ps ctx limit i' :
  let g := s_gate s in
  serve g (Router s cfg).2 i now r = (Handled h ps ctx limit, i') →
  limit = body_limit h ∧
  (is_open h = false →
     middleware (A := unit) i now (r_peer r) = (None, i') ∧
     ∃ t, Middleware.reqTenant ctx = inl t ∧
       (t = KeyStore.PublicTenant ∧
          (Middleware.request_key (r_headers r) = "" ∧ Middleware.RequireAuth g = false ∨ KeyStore.tenants (Middleware.Keys g) = []) ∨
        t = KeyStore.deriveTenant (Middleware.request_key (r_headers r)) ∧ t ∈ KeyStore.tenants (Middleware.Keys g)) ∧
       (is_persistent h = true → Middleware.MemoryRequireKey g = true → t ≠ KeyStore.PublicTenant)).
Proof.
  intros g. unfold serve. destruct (String.eqb (Method r) "OPTIONS"); [done|].
  destruct (find_route _ _ _) as [[rt ps']|] eqn:Ef; [|done]. apply find_sound in Ef as [Hin _].
  pose proof (proj1 (Forall_forall _ _) (table_ok s cfg) rt Hin) as Hc.
  destruct (through g i now r None None (m_chain rt)) as [[stop|ctx' limit'] i1] eqn:Et; [done|]. intros [= <- <- <- <- <-].
  destruct (is_open (m_handler rt)) eqn:Ho.
  - destruct Hc as [[_ E]|[? _]]; [|congruence]. rewrite E in Et. injection Et as <- <- <-. split; [|done]. by destruct (m_handler rt).
  - destruct (through_reach g i now r rt ctx' limit' i1 Hc Ho Et) as (Hl & Hm & Ha & Hk). split; [done|]. intros _.
    split; [done|]. destruct (Middleware.authMiddleware_next _ _ _ _ Ha) as (t & -> & HT & Ht).
    exists t. split; [unfold Middleware.reqTenant; by rewrite HT|]. split; [naive_solver|].
    intros Hp HM. specialize (Hk Hp). unfold Middleware.requireTenantKey in Hk. rewrite HM, HT in Hk. intros ->. done.
Qed.
End router.

(** ** A router that knows the literal paths *)
#[export] Instance literal_mux : Mux := λ rs m p,
  (λ r, (r, ∅)) <$> head (List.filter (λ r, String.eqb (m_pattern r) p &&
     match m_method r with Some m' => String.eqb m' m | None => true end) rs).
#[export] Instance literal_mux_spec : MuxSpec.
Proof.
  intros rs m p r ps. unfold find_route, literal_mux.
  destruct (List.filter _ rs) as [|r' l] eqn:E; [done|]. intros [= -> <-].
  assert (Hin : In r (r :: l)) by (by left). rewrite <- E in Hin. apply filter_In in Hin as [Hin Hb].
  split; [by apply list_elem_of_In|]. apply andb_true_iff in Hb as [_ Hb].
  destruct (m_method r) as [m'|]; [right; by apply String.eqb_eq in Hb as ->|by left].
Qed.
Definition demo_server : Server := {|
  s_gate := {| Middleware.Keys := KeyStore.NewKeyStore ["s3cret"]; Middleware.RequireAuth := false; Middleware.MemoryRequireKey := true |};
  s_Sessions := true; s_Volumes := true; s_Memory := true; AcquireWait := 0 |}.
Definition demo_config : Config := {| RatePerMin := 0; RateBurst := 0 |}.
Definition demo_get (key : string) : request := {|
  Method := "GET"; Path := "/v1/volumes"; r_peer := {| RemoteAddr := "203.0.113.9:4711"; X_Real_IP := "" |};
  r_headers := {| Middleware.X_API_Key := ""; Middleware.Authorization := key |} |}.
Example demo_refused : (serve (s_gate demo_server) (Router (L := tokenBucket) demo_server demo_config).2
  (newIPLimiter 0 0) 0 (demo_get "")).1 = Refused (HErr 403 "api_key_required" None).
Proof. vm_compute. reflexivity. Qed.
Lemma routes_guarded_witness : ∃ ctx i' t,
  serve (s_gate demo_server) (Router (L := tokenBucket) demo_server demo_config).2 (newIPLimiter 0 0) 0 (demo_get "Bearer s3cret") =
    (Handled HListVolumes ∅ ctx None, i') ∧ Middleware.reqTenant ctx = inl t ∧ t ≠ KeyStore.PublicTenant.
Proof.
  destruct (serve (s_gate demo_server) (Router (L := tokenBucket) demo_server demo_config).2 (newIPLimiter 0 0) 0
    (demo_get "Bearer s3cret")) as [v i'] eqn:E.
  assert (Hv : v = Handled HListVolumes ∅ (Some (KeyStore.deriveTenant "s3cret")) None).
  { apply (f_equal fst) in E. cbn [fst] in E. rewrite <- E. vm_compute. reflexivity. }
  subst v.
  destruct (routes_guarded (L := tokenBucket) demo_server demo_config (newIPLimiter 0 0) 0 (demo_get "Bearer s3cret")
    HListVolumes ∅ (Some (KeyStore.deriveTenant "s3cret")) None i' E) as [_ H].
  destruct (H eq_refl) as (_ & t & Ht & _ & Hp). exists (Some (KeyStore.deriveTenant "s3cret")), i', t.
  split; [done|]. split; [done|]. by apply Hp.
Defined.
