(* ===== verification/Web.v ===== *)
(** * internal/web: the embedded pages

    The handlers of the four public pages.  The files embedded at compile time are an
    argument: [assetsFS] maps the name of an embedded file to its content.  [path.Clean] is
    [filepath.Clean] on Unix. *)

From S2P Require Import Prelude GoLib GoStrings.
Import Strings.

(** A page with its content type and caching, or [http.NotFound]. *)
Inductive page := NotFound | Page (contentType cacheControl : string) (data : string).

Definition serve (data contentType : string) : page := Page contentType "public, max-age=300" data.

Definition assetContentType (name : string) : string :=
  if HasSuffix name ".wasm" then "application/wasm"
  else if HasSuffix name ".js" then "text/javascript; charset=utf-8"
  else if HasSuffix name ".css" then "text/css; charset=utf-8"
  else if HasSuffix name ".json" then "application/json"
  else if HasSuffix name ".map" then "application/json"
  else "application/octet-stream".

Section web.
Context (indexHTML llmsTxt openapiYAML : string) (assetsFS : string → option string).
Definition Handler : page := serve indexHTML "text/html; charset=utf-8".
Definition LLMs : page := serve llmsTxt "text/plain; charset=utf-8".
Definition OpenAPI : page := serve openapiYAML "application/yaml".

Definition Assets (path : string) : page :=
  let name := Filepath.Clean (TrimPrefix path "/assets/") in
  if String.eqb name "." || String.eqb name "/" || Contains name ".." then NotFound else
  match assetsFS ("assets/" +:+ name) with
  | None => NotFound
  | Some data => Page (assetContentType name) "public, max-age=3600" data
  end.

(** ** What is served *)
Lemma Contains_prefix s p : HasPrefix s p = true → Contains s p = true.
Proof. destruct s; cbn [Contains]; intros ->; done. Qed.
Lemma Contains_app_r x s p : Contains s p = true → Contains (x +:+ s) p = true.
Proof. intros Hs. induction x as [|c x IH]; [done|]. cbn [String.append Contains]. by rewrite IH, orb_true_r. Qed.
Lemma Contains_elem x l sep r : x ∈ l → Contains (r +:+ Join l sep) x = true.
Proof.
  revert r. induction l as [|y l IH]; intros r; [by intros ?%elem_of_nil|]. intros [<-|Hx]%elem_of_cons.
  - apply Contains_app_r, Contains_prefix. destruct l as [|z l]; [|apply HasPrefix_app].
    rewrite <- (sapp_nil_r (Join [x] sep)). apply HasPrefix_app.
  - destruct l as [|z l]; [by apply elem_of_nil in Hx|].
    change (Join (y :: z :: l) sep) with (y +:+ sep +:+ Join (z :: l) sep). rewrite !sapp_assoc. by apply IH.
Qed.
Lemma normal_simple r out : Filepath.normal r out → ".." ∉ out → Forall Filepath.simple out.
Proof.
  induction 1 as [|l _ Hl|c l Hc _ IH]; intros Hd; [constructor|exfalso; apply Hd; by left|].
  constructor; [done|]. apply IH. set_solver.
Qed.
(** Cleaning keeps a path of simple elements. *)
Lemma Clean_simple els : els ≠ [] → Forall Filepath.simple els → Filepath.Clean (Join els "/") = Join els "/".
Proof.
  intros Hne Hs.
  assert (Hn : Filepath.normal false (rev els)).
  { apply Forall_rev in Hs. induction Hs; [constructor|by apply Filepath.normal_cons]. }
  destruct (Filepath.Clean_of_render _ _ Hn) as [E _]. unfold Filepath.dot_if_empty in E.
  pose proof (Filepath.render_nonempty _ _ Hn (or_intror (rev_ne _ Hne))) as Hr. apply String.eqb_neq in Hr. rewrite Hr in E.
  unfold Filepath.render in E. by rewrite rev_involutive in E.
Qed.

(** the asset route serves files below assets/ and nothing else.  For every
    path, what is served is the content embedded under assets/ at a path of simple elements
    (no [..], no empty element but a leading slash, which no embedded name has), with the
    content type of its extension; and an embedded file at such a path is served, unless
    two dots occur in its name. *)
Theorem assets_contained path :
  (∀ ct cc data, Assets path = Page ct cc data → ∃ els root,
     els ≠ [] ∧ Forall Filepath.simple els ∧ (root = "" ∨ root = "/") ∧
     assetsFS ("assets/" +:+ root +:+ Join els "/") = Some data ∧ ct = assetContentType (root +:+ Join els "/")) ∧
  (∀ els data, path = "/assets/" +:+ Join els "/" → els ≠ [] → Forall Filepath.simple els →
     Contains (Join els "/") ".." = false → assetsFS ("assets/" +:+ Join els "/") = Some data →
     Assets path = Page (assetContentType (Join els "/")) "public, max-age=3600" data).
Proof.
  split.
  - intros ct cc data. unfold Assets. destruct (Filepath.Clean_render (TrimPrefix path "/assets/")) as (out & Hn & E).
    set (r := Filepath.is_rooted _) in *. unfold Filepath.dot_if_empty in E.
    destruct (String.eqb (Filepath.render r out) "") eqn:Er; [by rewrite E|].
    rewrite E. destruct (_ || _ || _) eqn:Hb; [done|]. boolp.
    destruct (assetsFS _) as [d|] eqn:Hd; [|done]. intros [= <- <- <-].
    exists (rev out), (if r then "/" else ""). split; [|split; [|split; [by destruct r; auto|]]].
    + apply rev_ne. intros ->. by destruct r.
    + apply Forall_rev, (normal_simple r); [done|]. intros Hin.
      assert (Contains (Filepath.render r out) ".." = true) by (apply Contains_elem; by apply elem_of_rev). congruence.
    + split; [|done]. rewrite <- Hd. done.
  - intros els data -> Hne Hs Hc Hd. unfold Assets. rewrite TrimPrefix_app, Clean_simple by done.
    rewrite Hc, orb_false_r.
    assert (Hp : String.eqb (Join els "/") "." || String.eqb (Join els "/") "/" = false).
    { destruct els as [|x [|y l]]; [done| |].
      - apply Forall_singleton in Hs as (H1 & H2 & _ & H4). apply orb_false_iff. split; apply String.eqb_neq; [done|].
        intros E. cbn in E. by rewrite E in H4.
      - apply Forall_cons in Hs as [(H1 & _ & _ & H4) _]. destruct x as [|c x]; [done|].
        change (Join (String c x :: y :: l) "/") with (String c (x +:+ "/" +:+ Join (y :: l) "/")).
        apply orb_false_iff. split; apply String.eqb_neq; intros [= -> E]; by destruct x. }
    by rewrite Hp, Hd.
Qed.
End web.

Definition demo_fs (name : string) : option string :=
  if String.eqb name "assets/core.wasm" then Some "w" else if String.eqb name "assets/a/b.js" then Some "j" else None.
Example demo_assets :
  map (Assets demo_fs) ["/assets/core.wasm"; "/assets/a/../core.wasm"; "/assets/../core.wasm"; "/assets//core.wasm"; "/assets/"] =
  let w := Page "application/wasm" "public, max-age=3600" "w" in [w; w; NotFound; NotFound; NotFound].
Proof. vm_compute. reflexivity. Qed.
