(* ===== verification/Health.v ===== *)
(** * internal/api/health.go, metrics.go; internal/obs

    The readiness probe, the list of runtimes, the log level, and the metrics: counters
    pushed by the handlers, gauges read at every scrape. *)

From S2P Require Import Prelude GoLib GoStrings GoFloat GoScan Sched Executor WarmPool Registry Kernel Session ApiHttp.
From Stdlib Require Import Floats.SpecFloat.
Import Strings.

(** ** health.go *)
Definition cgroup_files : list string :=
  ["/sys/fs/cgroup/isobox.slice/memory.max"; "/sys/fs/cgroup/system.slice/isobox.slice/memory.max"].
(** The first file that can be read decides. *)
Fixpoint sliceCapped (readFile : string → option string) (paths : list string) : bool :=
  match paths with
  | [] => false
  | p :: paths =>
      match readFile p with
      | None => sliceCapped readFile paths
      | Some b => let v := TrimSpace b in negb (String.eqb v "") && negb (String.eqb v "max")
      end
  end.
Inductive readiness := Ready (backend : string).
Definition handleReadyz (readFile : string → option string) (gv : Gvisor) (runtimes : option (gset string)) : http readiness :=
  if negb (sliceCapped readFile cgroup_files) then HErr 503 "isobox.slice not memory-capped" None
  else if negb (HealthCheck gv runtimes) then HErr 503 "backend" None
  else HOk 200 (Ready "gvisor").

(** [handleHealthz]: 200 whenever the process answers. *)
Definition handleHealthz : string := "ok".

Record runtimeInfo := {
  ri_Language : string; ri_Version : string; ri_Aliases : list string; ri_Compiled : bool; ri_Backend : string }.
Definition runtime_info (backend : string) (l : Catalogue.Language) : runtimeInfo := {|
  ri_Language := Catalogue.Name l; ri_Version := Catalogue.Version l; ri_Aliases := Catalogue.Aliases l;
  ri_Compiled := match Catalogue.Compile l with [] => false | _ => true end; ri_Backend := backend |}.
Definition handleRuntimes (backend : string) (reg : Catalogue.Registry) : http (list runtimeInfo) :=
  HOk 200 (map (runtime_info backend) (Catalogue.All reg)).

(** ** obs/log.go *)
Inductive Level := LevelDebug | LevelInfo | LevelWarn | LevelError.
Definition Setup (uni_lower : string → string) (level : string) : Level :=
  let l := ToLower uni_lower level in
  if String.eqb l "debug" then LevelDebug
  else if String.eqb l "warn" then LevelWarn
  else if String.eqb l "error" then LevelError
  else LevelInfo.

(** ** obs/metrics.go *)

(** *** SliceMemoryBytes *)
Definition memory_files : list string :=
  ["/sys/fs/cgroup/isobox.slice/memory.current"; "/sys/fs/cgroup/system.slice/isobox.slice/memory.current"].
(** The first file with an integer that [fmt.Sscan] reads into an int64. *)
Fixpoint slice_memory (readFile : string → option string) (paths : list string) : Z :=
  match paths with
  | [] => 0
  | p :: paths =>
      match readFile p with
      | None => slice_memory readFile paths
      | Some b =>
          let v := TrimSpace b in
          if String.eqb v "" then slice_memory readFile paths else
          match Sscan_int64 v with Some n => n | None => slice_memory readFile paths end
      end
  end.
Definition SliceMemoryBytes (readFile : string → option string) : Z := slice_memory readFile memory_files.

Section metrics.
(** What the gauges read. *)
Context {S : Type}.
Record gauge := { g_name : string; g_help : string; g_fn : S → float }.
Record Metrics := { execTotal : gmap string Z; gauges : list gauge }.
Definition global : Metrics := {| execTotal := ∅; gauges := [] |}.
Definition ExecTotal (m : Metrics) (status : string) : Metrics :=
  {| execTotal := <[status := wrap64 (default 0 (execTotal m !! status) + 1)]> (execTotal m); gauges := gauges m |}.
Definition RegisterGauge (m : Metrics) (g : gauge) : Metrics :=
  {| execTotal := execTotal m; gauges := gauges m ++ [g] |}.

Definition nl : string := String (ascii_of_nat 10) "".
Definition quote_char : string := String (ascii_of_nat 34) "".
(** [%q] of a label: its callers pass the words ok, error and rejected. *)
Definition quoted (s : string) : string := quote_char +:+ s +:+ quote_char.
(** [int64(v)] when [v == float64(int64(v))]. *)
Definition integral (f : float) : option Z :=
  match f with
  | S754_zero _ => Some 0
  | S754_finite s m e =>
      let z := if 0 <=? e then Z.pos m * 2 ^ e else Z.pos m / 2 ^ (- e) in
      if (0 <=? e) || (Z.pos m mod 2 ^ (- e) =? 0) then
        let z := if s : bool then - z else z in
        if (- 2 ^ 63 <=? z) && (z <? 2 ^ 63) then Some z else None
      else None
  | _ => None
  end.
(** [format_g] is [%g], for a gauge whose value is not an integer. *)
Definition counter_line (kv : string * Z) : string :=
  "isobox_exec_total{status=" +:+ quoted kv.1 +:+ "} " +:+ Itoa kv.2 +:+ nl.
Definition gauge_lines (format_g : float → string) (s : S) (g : gauge) : string :=
  (if String.eqb (g_help g) "" then "" else "# HELP " +:+ g_name g +:+ " " +:+ g_help g +:+ nl)
  +:+ "# TYPE " +:+ g_name g +:+ " gauge" +:+ nl
  +:+ g_name g +:+ " " +:+ match integral (g_fn g s) with Some z => Itoa z | None => format_g (g_fn g s) end +:+ nl.
Definition by_status (a b : string * Z) : Prop := String.leb a.1 b.1 = true.
#[export] Instance by_status_dec a b : Decision (by_status a b).
Proof. unfold by_status. apply _. Defined.
Definition Render (format_g : float → string) (m : Metrics) (s : S) : string :=
  let counters := merge_sort by_status (map_to_list (execTotal m)) in
  "# HELP isobox_exec_total Total executions by terminal status." +:+ nl
  +:+ "# TYPE isobox_exec_total counter" +:+ nl
  +:+ match counters with
      | [] => "isobox_exec_total{status=" +:+ quoted "ok" +:+ "} 0" +:+ nl
      | _ => String.concat "" (map counter_line counters)
      end
  +:+ String.concat "" (map (gauge_lines format_g s) (gauges m)).
End metrics.
Arguments gauge S : clear implicits.
Arguments Metrics S : clear implicits.

(** ** metrics.go *)
Section scrape.
Context {W : Type} {SW : Weighted W}.
Record snapshot := {
  sn_sema : Limiter W; sn_sessions : option (Session.Manager W); sn_slice : Z; sn_pool : option WarmPool }.
Definition registered : list (gauge snapshot) := [
  {| g_name := "isobox_sema_inuse"; g_help := "Concurrency slots currently held."; g_fn s := of_Z (InUse (sn_sema s)) |};
  {| g_name := "isobox_sema_max"; g_help := "Configured concurrency ceiling."; g_fn s := of_Z (Max (sn_sema s)) |};
  {| g_name := "isobox_sessions"; g_help := "Live stateful sessions.";
     g_fn s := of_Z (from_option Session.Count 0 (sn_sessions s)) |};
  {| g_name := "isobox_kernels"; g_help := "Resident kernel containers.";
     g_fn s := of_Z (from_option KCount 0 (sn_sessions s ≫= Session.Kernels)) |};
  {| g_name := "isobox_slice_memory_bytes"; g_help := "Current memory usage of isobox.slice (cgroup memory.current).";
     g_fn s := of_Z (sn_slice s) |};
  {| g_name := "isobox_warmpool_size"; g_help := "Configured warm-pool target size."; g_fn s := of_Z (Size (sn_pool s)) |};
  {| g_name := "isobox_warmpool_ready"; g_help := "Warm containers currently booted and idle.";
     g_fn s := of_Z (WarmPool.Ready (sn_pool s)) |} ].
Definition registerGauges (m : Metrics snapshot) : Metrics snapshot := foldl RegisterGauge m registered.
(** [once]: whether [metricsOnce] has run. *)
Definition handleMetrics (format_g : float → string) (once : bool) (m : Metrics snapshot) (s : snapshot) :
    string * bool * Metrics snapshot :=
  let m := if once then m else registerGauges m in (Render format_g m s, true, m).
End scrape.
Arguments snapshot W : clear implicits.

Example demo_render :
  Render (S := unit) (λ _, "?") (ExecTotal (ExecTotal (ExecTotal global "ok") "error") "ok") tt =
  "# HELP isobox_exec_total Total executions by terminal status." +:+ nl +:+ "# TYPE isobox_exec_total counter" +:+ nl
  +:+ "isobox_exec_total{status=" +:+ quoted "error" +:+ "} 1" +:+ nl +:+ "isobox_exec_total{status=" +:+ quoted "ok" +:+ "} 2" +:+ nl.
Proof. vm_compute. reflexivity. Qed.

(** ** Counters count, gauges are registered once *)
Section exact.
Context {W : Type} {SW : Weighted W} (format_g : float → string).
Inductive mevent := Bump (status : string) | Scrape (s : snapshot W).
Definition mstep (acc : bool * Metrics (snapshot W)) (e : mevent) : bool * Metrics (snapshot W) :=
  match e with
  | Bump st => (acc.1, ExecTotal acc.2 st)
  | Scrape s => let '(_, once, m) := handleMetrics format_g acc.1 acc.2 s in (once, m)
  end.
Definition bumps (st : string) (es : list mevent) : Z :=
  foldr (λ e n, match e with Bump s => if String.eqb s st then n + 1 else n | Scrape _ => n end) 0 es.

Lemma wrap64_add a n : wrap64 (wrap64 a + n) = wrap64 (a + n).
Proof.
  rewrite <- (wrap64_u64 (wrap64 a + n)), <- (wrap64_u64 (a + n)). f_equal. unfold u64.
  rewrite Zplus_mod. change (wrap64 a mod 2 ^ 64) with (u64 (wrap64 a)). rewrite u64_wrap64. unfold u64. by rewrite <- Zplus_mod.
Qed.
Lemma mstep_gauges es : ∀ once m, (once = true ∧ gauges m = registered ∨ once = false ∧ gauges m = []) →
  let r := foldl mstep (once, m) es in (r.1 = true ∧ gauges r.2 = registered ∨ r.1 = false ∧ gauges r.2 = []).
Proof.
  induction es as [|[st|s] es IH]; intros once m H; [done|..]; apply IH; [done|].
  left. destruct H as [[-> H]|[-> H]]; cbn; [done|]. by rewrite H.
Qed.
Lemma mstep_counts es st : ∀ once m, wrap64 (default 0 (execTotal m !! st)) = default 0 (execTotal m !! st) →
  default 0 (execTotal (foldl mstep (once, m) es).2 !! st) = wrap64 (default 0 (execTotal m !! st) + bumps st es).
Proof.
  induction es as [|[s|s] es IH]; intros once m Hm; cbn [foldl bumps foldr].
  - rewrite Z.add_0_r. done.
  - cbn [mstep fst snd]. destruct (String.eqb s st) eqn:E; boolp.
    + subst s. rewrite IH; cbn [ExecTotal execTotal]; rewrite lookup_insert_eq; cbn [default].
      * cbn [id]. rewrite wrap64_add. f_equal. unfold bumps. lia.
      * apply wrap64_id, wrap64_in64.
    + rewrite IH; cbn [ExecTotal execTotal]; rewrite lookup_insert_ne by done; done.
  - destruct (mstep (once, m) (Scrape s)) as [once' m'] eqn:E. cbn in E. injection E as <- <-.
    rewrite IH; destruct once; done.
Qed.

(** Whatever the order of bumps and scrapes, a counter holds the number of its
    bumps (as an int64), and the seven gauges are registered once, by the first scrape. *)
Theorem metrics_exact es st : let r := foldl mstep (false, global) es in
  default 0 (execTotal r.2 !! st) = wrap64 (bumps st es) ∧
  (gauges r.2 = registered ∨ gauges r.2 = [] ∧ r.1 = false) ∧ NoDup (map g_name (registered (W := W))).
Proof.
  cbv zeta. split; [|split].
  - rewrite mstep_counts; cbn [global execTotal]; by rewrite lookup_empty.
  - destruct (mstep_gauges es false global) as [[_ H]|[H1 H2]]; [by right|by left|by right].
  - repeat constructor; rewrite ?elem_of_cons, elem_of_nil; naive_solver.
Qed.
End exact.
