(* ===== verification/Main.v ===== *)
(** * cmd/isoboxd/main.go: start-up, the sweeps, shutdown

    The daemon as one state and its life outside requests: [boot] reads the
    environment and builds every component, [tick] is one beat of the 30-second
    ticker, [hup] a SIGHUP, [shutdown] the end.  The HTTP server and the container
    reaper are I/O.  Pointers shared between components ([reg], [sema]) are the
    session manager's fields and the daemon's own copies at boot. *)

From S2P Require Import Prelude GoLib GoStrings GoFloat Sched Auth Bolt KV Volume Executor WarmPool Registry Kernel Session ApiHttp RateLimit ApiSessions Queue Router.
Import Strings.

(** ** The environment *)
Section environment.
Context (getenv : string → string).
Definition env (key def : string) : string := if String.eqb (getenv key) "" then def else getenv key.
Definition envBool (key : string) (def : bool) : bool :=
  let v := getenv key in
  if existsb (String.eqb v) ["1"; "true"; "yes"; "on"] then true
  else if existsb (String.eqb v) ["0"; "false"; "no"; "off"] then false
  else def.
Definition envInt (key : string) (def : Z) : Z :=
  let v := getenv key in
  if String.eqb v "" then def else let '(n, ok) := Atoi v in if ok : bool then n else def.
End environment.
Fixpoint first_match (stat : string → bool) (paths : list string) : option string :=
  match paths with
  | [] => None
  | p :: paths => if negb (String.eqb p "") && stat p then Some p else first_match stat paths
  end.
Definition firstExisting (stat : string → bool) (paths : list string) : string :=
  match first_match stat paths with Some p => p | None => List.last paths "" end.

(** [time.Duration(n) * unit], [int64(n) << k]. *)
Definition duration (n unit : Z) : Z := wrap64 (n * unit).
Definition shl (n k : Z) : Z := wrap64 (Z.shiftl n k).

Section daemon.
Context {W : Type} {SW : Weighted W} {DB : Type} {BO : Bolt DB} {RC : RecordCodec} {L : Type} {BK : Bucket L}.
Context (uni_lower : string → string).

(** What start-up finds. *)
Record outside := {
  o_getenv : string → string; o_lookupEnv : string → option string; o_stat : string → bool;
  o_readFile : string → option string; o_kvm : bool;
  o_registry : string → result Catalogue.LoadErr (list Catalogue.Language);
  o_boots : list (option string);                                   (* warm containers *)
  o_sess_mkdir : bool; o_sess_ents : list string;
  o_vol_mkdir : bool; o_vol_rm : bool; o_vol_root : bool; o_vol_tree : Volume.tree;
  o_kv_mkdir : bool; o_kv_files : gmap string DB;
  o_ping : options → bool; o_uuid : string }.

Definition configure_gvisor (o : outside) (g : Gvisor) : Gvisor :=
  let getenv := o_getenv o in
  let allow := getenv "ISOBOX_ALLOW_NETWORK" in
  let age := envInt getenv "ISOBOX_SENTINEL_MAX_AGE_SEC" 0 in {|
  Runtime := Runtime g; NetRuntime := NetRuntime g; Slice := Slice g; JobRoot := JobRoot g; User := User g;
  AllowNetwork := if String.eqb allow "0" || String.eqb allow "false" then false else AllowNetwork g;
  EgressNetwork := env getenv "ISOBOX_EGRESS_NETWORK" (EgressNetwork g);
  ResolvConf := ResolvConf g;
  Sentinel := default (Sentinel g) (o_lookupEnv o "ISOBOX_EGRESS_SENTINEL");
  SentinelMaxAge := if 0 <? age then duration age second else SentinelMaxAge g |}.

Definition warm_pool (o : outside) (reg : Catalogue.Registry) (gv : Gvisor) : option WarmPool :=
  let size := envInt (o_getenv o) "ISOBOX_WARMPOOL_PYTHON" 0 in
  if 0 <? size then
    plang ← Catalogue.Resolve uni_lower reg "python" "";
    let pl := Catalogue.DefaultLimits plang in
    Some (Prime (NewWarmPool gv {|
      c_Size := size; c_Image := Catalogue.Image plang; c_MemBytes := MemoryBytes pl; c_CPUs := CPUs pl;
      c_Pids := Pids pl; c_ScratchMB := Catalogue.ScratchMB plang; c_JobRoot := "" |}) (o_boots o))
  else None.

Definition session_config (getenv : string → string) : SConfig := {|
  sc_Root := env getenv "ISOBOX_SESSIONS_ROOT" "/var/lib/isobox/sessions";
  sc_DiskQuota := shl (envInt getenv "ISOBOX_SESSION_DISK_MB" 512) 20;
  sc_GlobalDiskMax := shl (envInt getenv "ISOBOX_SESSIONS_DISK_MAX_GB" 10) 30;
  sc_MaxSessions := envInt getenv "ISOBOX_MAX_SESSIONS" 200;
  sc_TTL := duration (envInt getenv "ISOBOX_SESSION_TTL_SEC" 86400) second |}.
Definition kernel_config (getenv : string → string) : KernelConfig := {|
  k_Slots := envInt getenv "ISOBOX_KERNEL_SLOTS" 6;
  k_MemoryBytes := shl (envInt getenv "ISOBOX_KERNEL_MEM_MB" 128) 20;
  k_CPUs := of_Z 0; k_Pids := 0;
  k_OutputBytes := envInt getenv "ISOBOX_KERNEL_OUTPUT_BYTES" 65536;
  StartTimeout := 0; DefaultStepMs := 0;
  MaxStepMs := envInt getenv "ISOBOX_KERNEL_MAX_STEP_MS" 60000;
  k_IdleTTL := duration (envInt getenv "ISOBOX_KERNEL_IDLE_SEC" 1800) second;
  MaxLifetime := duration (envInt getenv "ISOBOX_KERNEL_MAX_LIFE_SEC" 14400) second;
  k_AcquireWait := 0 |}.
Definition min_free (getenv : string → string) : Z := shl (envInt getenv "ISOBOX_MIN_FREE_DISK_GB" 4) 30.
Definition volume_config (getenv : string → string) : Volume.Config := {|
  c_Root := env getenv "ISOBOX_VOL_ROOT" "/var/lib/isobox/vol";
  c_DiskQuota := shl (envInt getenv "ISOBOX_VOL_DISK_MB" 512) 20;
  c_GlobalDiskMax := shl (envInt getenv "ISOBOX_VOL_DISK_MAX_GB" 8) 30;
  c_MaxVolPerTenant := envInt getenv "ISOBOX_MAX_VOL_PER_TENANT" 100;
  c_MinFreeBytes := min_free getenv |}.
Definition valkey_config (getenv : string → string) : ValkeyConfig := {|
  vc_Addr := env getenv "ISOBOX_VALKEY_ADDR" "127.0.0.1:6379";
  vc_Password := getenv "ISOBOX_VALKEY_PASSWORD";
  vc_TLS := negb (String.eqb (env getenv "ISOBOX_VALKEY_TLS" "1") "0");
  vc_SkipVerify := String.eqb (env getenv "ISOBOX_VALKEY_TLS_VERIFY" "0") "0" |}.
(** [None] is the in-process driver. *)
Definition queue_driver (o : outside) : option Valkey :=
  let driver := ToLower uni_lower (env (o_getenv o) "ISOBOX_QUEUE" "inproc") in
  if String.eqb driver "valkey" || String.eqb driver "redis"
  then NewValkey (o_ping o) (o_uuid o) (valkey_config (o_getenv o)) else None.

(** ** The daemon *)
Record daemon := {
  d_addr : string; d_regPath : string; d_reg : Catalogue.Registry; d_gv : Gvisor; d_pool : option WarmPool;
  d_server : Router.Server; d_sema : Limiter W;
  d_sessions : option (Session.Manager W); d_volumes : option Volume.Manager; d_memory : option (Store DB);
  d_queue : option Valkey; d_workers : Z;
  d_limiter : ipLimiter L; d_routes : list route }.

(** [None]: the daemon exits with status 1. *)
Definition boot (o : outside) : option daemon :=
  let getenv := o_getenv o in
  let regPath := firstExisting (o_stat o)
    [getenv "ISOBOX_REGISTRY"; "internal/registry/registry.yaml"; "/etc/isobox/registry.yaml"] in
  match Catalogue.Load uni_lower (o_registry o regPath), Auth.Config.loadKeyStore getenv (o_readFile o) with
  | Ok reg, Auth.Config.Started keys =>
      let gv := configure_gvisor o (Detect (o_kvm o)) in
      let sema := New (envInt getenv "ISOBOX_CONCURRENCY" 4) in
      let volumes := Volume.NewManager (volume_config getenv) (o_vol_mkdir o) (o_vol_rm o) (o_vol_root o) (o_vol_tree o) in
      let engine := fst <$> NewKernelEngine (Some gv) (kernel_config getenv) in
      let sessions := fst <$> Session.NewManager reg sema (session_config getenv) (o_sess_mkdir o) (o_sess_ents o)
                        (bool_decide (is_Some volumes)) engine in
      let memory := KV.Open (env getenv "ISOBOX_KV_DIR" "/var/lib/isobox/kv") (min_free getenv) (o_kv_mkdir o) (o_kv_files o) in
      let queue := queue_driver o in
      let '(server, limiter, routes) := Router {|
        s_gate := {| Middleware.Keys := keys; Middleware.RequireAuth := envBool getenv "ISOBOX_REQUIRE_AUTH" false;
                     Middleware.MemoryRequireKey := envBool getenv "ISOBOX_MEMORY_REQUIRE_KEY" false |};
        s_Sessions := bool_decide (is_Some sessions); s_Volumes := bool_decide (is_Some volumes);
        s_Memory := bool_decide (is_Some memory);
        AcquireWait := duration (envInt getenv "ISOBOX_ACQUIRE_WAIT_MS" 2000) millisecond |} {|
        RatePerMin := envInt getenv "ISOBOX_RATE_PER_MIN" 30; RateBurst := envInt getenv "ISOBOX_RATE_BURST" 10 |} in
      Some {|
        d_addr := env getenv "ISOBOX_ADDR" "127.0.0.1:8090"; d_regPath := regPath; d_reg := reg; d_gv := gv;
        d_pool := warm_pool o reg gv; d_server := server; d_sema := sema;
        d_sessions := sessions; d_volumes := volumes; d_memory := memory; d_queue := queue;
        d_workers := if queue then StartWorkers (envInt getenv "ISOBOX_VALKEY_WORKERS" 2) else 0;
        d_limiter := limiter; d_routes := routes |}
  | _, _ => None
  end.

(** ** The ticker, SIGHUP, shutdown *)
Definition with_parts (d : daemon) (s : option (Session.Manager W)) (v : option Volume.Manager) (m : option (Store DB)) : daemon := {|
  d_addr := d_addr d; d_regPath := d_regPath d; d_reg := d_reg d; d_gv := d_gv d; d_pool := d_pool d;
  d_server := d_server d; d_sema := d_sema d; d_sessions := s; d_volumes := v; d_memory := m;
  d_queue := d_queue d; d_workers := d_workers d; d_limiter := d_limiter d; d_routes := d_routes d |}.
(** What one beat observes: the clock and the sizes of the workspaces, the clock
    of the kernel sweep, the volume tree, the store's handles. *)
Record beat := {
  b_now : Z; b_size : string → Z; b_know : Z; b_vol : venv; b_vol_root : bool; b_kv : list (string * call) }.
(** [None] is a panic. *)
Definition sweep_sessions (m : Session.Manager W) (v : option Volume.Manager) (x : beat) :
    option (Session.Manager W * option Volume.Manager) :=
  '(m, ev) ← Session.Sweep m (b_now x) (b_size x);
  '(m, ev') ← Session.SweepKernels m (b_know x);
  Some (m, on_drop (on_drop v ev) ev').
Definition tick (d : daemon) (x : beat) : option daemon :=
  '(s, v) ← match d_sessions d with
            | Some m => '(m, v) ← sweep_sessions m (d_volumes d) x; Some (Some m, v)
            | None => Some (None, d_volumes d)
            end;
  Some (with_parts d s ((λ v, Volume.Sweep v (b_vol x) (b_vol_root x)) <$> v)
    ((λ m, (SweepExpired m (b_kv x)).2) <$> d_memory d)).

Definition hup (d : daemon) (doc : result Catalogue.LoadErr (list Catalogue.Language)) : daemon :=
  let reg := (Catalogue.Reload uni_lower (d_reg d) doc).2 in {|
  d_addr := d_addr d; d_regPath := d_regPath d; d_reg := reg; d_gv := d_gv d; d_pool := d_pool d;
  d_server := d_server d; d_sema := d_sema d;
  d_sessions := (λ m, {|
    Session.Reg := reg; Session.Sema := Session.Sema m; Session.Kernels := Session.Kernels m; Session.Root := Session.Root m;
    Session.DiskQuota := Session.DiskQuota m; Session.GlobalDiskMax := Session.GlobalDiskMax m;
    Session.MaxSessions := Session.MaxSessions m; Session.DefaultTTL := Session.DefaultTTL m; Session.OnDrop := Session.OnDrop m;
    Session.sessions := Session.sessions m; Session.used := Session.used m; Session.sheap := Session.sheap m |}) <$> d_sessions d;
  d_volumes := d_volumes d; d_memory := d_memory d; d_queue := d_queue d; d_workers := d_workers d;
  d_limiter := d_limiter d; d_routes := d_routes d |}.

(** The warm containers and the kernels removed, in order. *)
Definition shutdown (d : daemon) : daemon * list string * list kevent :=
  let '(pool, gone) := match d_pool d with
                       | Some p => let '(p, gone) := WarmPool.Close p in (Some p, gone)
                       | None => (None, [])
                       end in
  let '(sessions, ev) := match d_sessions d with
                         | Some m =>
                             match Session.Kernels m with
                             | Some e => let '(e, ev) := DestroyAll e in (Some (set_engine m (Some e)), ev)
                             | None => (Some m, [])
                             end
                         | None => (None, [])
                         end in
  ({| d_addr := d_addr d; d_regPath := d_regPath d; d_reg := d_reg d; d_gv := d_gv d; d_pool := pool;
      d_server := d_server d; d_sema := d_sema d; d_sessions := sessions; d_volumes := d_volumes d;
      d_memory := KV.Close <$> d_memory d; d_queue := d_queue d; d_workers := 0;
      d_limiter := d_limiter d; d_routes := d_routes d |}, gone, ev).
End daemon.
Arguments daemon W DB L : clear implicits.
Arguments outside DB : clear implicits.
