(* ===== verification/Daemon.v ===== *)
(** * cmd/isoboxd: a request, end to end

    The handler the router chooses, applied to the daemon: [handle] takes a request as it
    comes off the wire (method, path, peer, headers, query, body) through the table and the
    chain of its route to the component, and puts what the component leaves back.  The pointers
    that components share (the limiter, the catalogue) are written to every copy.
    What the components observe of the outside (clocks, docker, the operating system) is
    [seen]; the files of the workspaces are state ([p_files]): a request sees what earlier requests and programs left there. *)

From S2P Require Import Prelude GoLib GoStrings GoFloat Sched Auth Bolt KV Volume Executor WarmPool Registry ApiExec Kernel Session ApiHttp RateLimit ApiKV ApiVolumes ApiSessions ApiBodies Queue Web Router Health Main Workspace.
Import Strings.

(** [io.ReadAll] of a body under [http.MaxBytesReader]. *)
Definition read_body (limit : option Z) (b : string) : option string :=
  match limit with Some n => if n <? len b then None else Some b | None => Some b end.

(** A request; [in_header] for the headers the gate does not read. *)
Record incoming := {
  in_req : request; in_query : string → string; in_header : string → string; in_body : string }.

(** The files embedded in the binary. *)
Record embedded := { f_index : string; f_llms : string; f_openapi : string; f_assets : string → option string }.

Section handle.
Context {W : Type} {SW : Weighted W} {DB : Type} {BO : Bolt DB} {RC : RecordCodec} {L : Type} {BK : Bucket L}.
Context {MX : Mux} {WR : Wire} (uni_lower : string → string) (harnessPy : string).
Context (format_g : float → string) (files : embedded).

(** What a request observes; [n_submit] is what the queue driver observes when it is not the in-process one. *)
Record seen := {
  n_now : Z; n_late : bool; n_flusher : bool; n_cold : xenv; n_warm : xenv; n_submit : submission;
  n_create : hcenv; n_exec_now : Z; n_kernel : kxenv; n_enoent : bool; n_os : osenv;
  n_vol : venv; n_kv : call; n_statfs : option (Z * Z);
  n_readFile : string → option string; n_runtimes : option (gset string) }.

(** The daemon, the process-wide metrics, the files of the workspaces. *)
Record process := { p_d : daemon W DB L; p_metrics : Metrics (snapshot W); p_once : bool; p_files : tree }.
Definition with_daemon (p : process) (d : daemon W DB L) : process :=
  {| p_d := d; p_metrics := p_metrics p; p_once := p_once p; p_files := p_files p |}.
Definition with_files (p : process) (T : tree) : process :=
  {| p_d := p_d p; p_metrics := p_metrics p; p_once := p_once p; p_files := T |}.

(** ** The parts of the daemon *)
Definition set_parts (d : daemon W DB L) (pool : option WarmPool) (sema : Limiter W) (s : option (Session.Manager W))
    (v : option Volume.Manager) (m : option (Store DB)) (i : ipLimiter L) : daemon W DB L := {|
  d_addr := d_addr d; d_regPath := d_regPath d; d_reg := d_reg d; d_gv := d_gv d; d_pool := pool;
  d_server := d_server d; d_sema := sema; d_sessions := s; d_volumes := v; d_memory := m;
  d_queue := d_queue d; d_workers := d_workers d; d_limiter := i; d_routes := d_routes d |}.
(** [Session.Manager.Sema] is the server's limiter. *)
Definition share (l : Limiter W) (m : Session.Manager W) : Session.Manager W :=
  put m l (Session.Kernels m) (Session.sessions m) (Session.used m) (Session.sheap m).
Definition with_limiter (d : daemon W DB L) (i : ipLimiter L) : daemon W DB L :=
  set_parts d (d_pool d) (d_sema d) (d_sessions d) (d_volumes d) (d_memory d) i.
Definition with_run (d : daemon W DB L) (pool : option WarmPool) (l : Limiter W) : daemon W DB L :=
  set_parts d pool l (share l <$> d_sessions d) (d_volumes d) (d_memory d) (d_limiter d).
Definition with_server (d : daemon W DB L) (s : ApiSessions.server W) : daemon W DB L :=
  set_parts d (d_pool d) (Session.Sema (Sessions s)) (Some (Sessions s)) (Volumes s) (d_memory d) (d_limiter d).
Definition with_volumes (d : daemon W DB L) (v : Volume.Manager) : daemon W DB L :=
  set_parts d (d_pool d) (d_sema d) (d_sessions d) (Some v) (d_memory d) (d_limiter d).
Definition with_memory (d : daemon W DB L) (m : Store DB) : daemon W DB L :=
  set_parts d (d_pool d) (d_sema d) (d_sessions d) (d_volumes d) (Some m) (d_limiter d).

(** [srv.Exec]: the pool in front of gVisor, or gVisor; and the pool after a run.  The sessions have
    gVisor itself. *)
Definition backend_name : string := "gvisor".
Definition exec_of (d : daemon W DB L) (x : seen) (s : Spec) (sink : bool) : Executor.outcome :=
  match d_pool d with
  | Some wp => (pool_Execute uni_lower wp (n_warm x) (n_cold x) s sink).1
  | None => Execute uni_lower (d_gv d) (n_cold x) s sink
  end.
Definition pool_after (d : daemon W DB L) (x : seen) (sink : bool) (log : list Spec) : option WarmPool :=
  foldl (λ pool s, (λ wp, (pool_Execute uni_lower wp (n_warm x) (n_cold x) s sink).2) <$> pool) (d_pool d) log.
Definition queue_of (d : daemon W DB L) (x : seen) : ApiExec.Queue W :=
  match d_queue d with None => InProc (exec_of d x) | Some _ => RemoteQueue (n_submit x) end.

(** ** Replies *)
Inductive answer :=
| APage (p : Web.page) | AText (s : string) | AReady (r : http readiness) | ARuntimes (r : http (list runtimeInfo))
| AExec (r : ApiExec.reply) | ASession (r : http sreply) | AVolume (r : http vreply) | AMemory (r : http kreply)
| APreflight | ANoRoute | ARefused (r : http unit).
(** The counter an execution bumps. *)
Definition exec_status (sse : bool) (r : ApiExec.reply) : option string :=
  match r with
  | JError _ code _ =>
      if String.eqb code "capacity" then if sse then None else Some "rejected"
      else if String.eqb code "execution_failed" then Some "error" else None
  | JExec _ => Some "ok"
  | SSE _ _ (Some _) => Some "ok"
  | SSE _ _ None => Some "error"
  end.

(** ** Handlers *)
Definition param (ps : gmap string string) (k : string) : string := default "" (ps !! k).
Definition sessionToken (q : incoming) : string := in_header q "X-Session-Token".
Definition exec_env (x : seen) (q : incoming) : hxenv := {|
  hx_late := n_late x; hx_now := n_exec_now x; hx_kernel := n_kernel x; hx_enoent := n_enoent x;
  hx_accept := in_header q "Accept"; hx_stream := in_query q "stream"; hx_flusher := n_flusher x |}.

(** [None] is a nil pointer, a panic of a limiter, or a call that has not returned. *)
Definition public (p : process) (x : seen) (h : handler) (q : incoming) : option (answer * process) :=
  let d := p_d p in
  match h with
  | HWeb => Some (APage (Web.Handler (f_index files)), p)
  | HLLMs => Some (APage (Web.LLMs (f_llms files)), p)
  | HOpenAPI => Some (APage (Web.OpenAPI (f_openapi files)), p)
  | HAssets => Some (APage (Web.Assets (f_assets files) (Path (in_req q))), p)
  | HHealthz => Some (AText Health.handleHealthz, p)
  | HReadyz => Some (AReady (handleReadyz (n_readFile x) (d_gv d) (n_runtimes x)), p)
  | HRuntimes => Some (ARuntimes (handleRuntimes backend_name (d_reg d)), p)
  | HMetrics =>
      let '(text, once, m) := handleMetrics format_g (p_once p) (p_metrics p) {|
        sn_sema := d_sema d; sn_sessions := d_sessions d; sn_slice := SliceMemoryBytes (n_readFile x);
        sn_pool := d_pool d |} in
      Some (AText text, {| p_d := d; p_metrics := m; p_once := once; p_files := p_files p |})
  | _ => None
  end.
Definition execute (p : process) (x : seen) (limit : option Z) (q : incoming) : option (answer * process) :=
  let d := p_d p in
  let accept := in_header q "Accept" in
  let stream := in_query q "stream" in
  let sse := wantsSSE accept stream in
  '(r, l, log) ← handleExecute uni_lower backend_name (exec_of d x) (H := queue_of d x) (d_reg d) (d_sema d) (n_late x)
                   (n_flusher x) accept stream
                   match decode_exec limit (in_body q) with Body req => Some req | _ => None end;
  Some (AExec r, {|
    p_d := with_run d (pool_after d x sse log) l; p_once := p_once p; p_files := p_files p;
    p_metrics := match exec_status sse r with Some st => ExecTotal (p_metrics p) st | None => p_metrics p end |}).
(** What a create observes: whether its workspace can be made depends on the files. *)
Definition create_env (x : seen) (T : tree) (m : Session.Manager W) : hcenv :=
  let c := hc_create (n_create x) in {|
  hc_volume := hc_volume (n_create x);
  hc_create := {|
    c_token := c_token c; c_uuid := c_uuid c; c_mkdir := mkdir_ok (n_os x) T (workspace m (MintID (c_uuid c)));
    c_now := c_now c; c_late := c_late c; c_kernel := c_kernel c |} |}.
Definition sessions_api (p : process) (x : seen) (h : handler) (ps : gmap string string) (ctx : KeyStore.Context)
    (limit : option Z) (q : incoming) : option (answer * process) :=
  let d := p_d p in
  let id := param ps "id" in
  let token := sessionToken q in
  let fs := fs_of (p_files p) (n_os x) in
  m ← d_sessions d;
  let s := {| Sessions := m; Volumes := d_volumes d |} in
  let done (r : http sreply) (s : ApiSessions.server W) (ev : list sevent) :=
    Some (ASession r, with_files (with_daemon p (with_server d s)) (file_events (n_os x) (p_files p) ev)) in
  match h with
  | HCreateSession =>
      '(r, s, ev) ← handleCreateSession uni_lower harnessPy s (create_env x (p_files p) m) ctx (decode_create limit (in_body q));
      done r s ev
  | HSessionExec =>
      '(r, s, _) ← handleSessionExec uni_lower backend_name (Execute uni_lower (d_gv d) (n_cold x)) s (exec_env x q) ctx id token
                     (decode_exec limit (in_body q)); done r s []
  | HSessionFSGet => done (handleSessionFSGet s fs (n_enoent x) ctx id token (in_query q "path")) s []
  | HSessionFSPut =>
      let '(r, s, ev) := handleSessionFSPut s fs (n_enoent x) ctx id token (in_query q "path") (read_body limit (in_body q)) in
      done r s ev
  | HSessionFSDelete => let '(r, ev) := handleSessionFSDelete s fs (n_enoent x) ctx id token (in_query q "path") in done r s ev
  | HDestroySession => '(r, s, ev) ← handleDestroySession s (f_rm fs) ctx id token; done r s ev
  | _ => None
  end.
Definition volumes_api (p : process) (x : seen) (h : handler) (ps : gmap string string) (ctx : KeyStore.Context)
    (q : incoming) : option (answer * process) :=
  v ← d_volumes (p_d p);
  let done (r : http vreply) (v : Volume.Manager) := Some (AVolume r, with_daemon p (with_volumes (p_d p) v)) in
  match h with
  | HCreateVolume => let '(r, v) := handleCreateVolume v (n_vol x) ctx (decode_volume (in_body q)) in done r v
  | HListVolumes => done (handleListVolumes v ctx) v
  | HGetVolume => done (handleGetVolume v ctx (param ps "id")) v
  | HDeleteVolume => let '(r, v) := handleDeleteVolume v (n_vol x) ctx (param ps "id") in done r v
  | _ => None
  end.
Definition memory_api (p : process) (x : seen) (h : handler) (ps : gmap string string) (ctx : KeyStore.Context)
    (limit : option Z) (q : incoming) : option (answer * process) :=
  m ← d_memory (p_d p);
  let ns := param ps "namespace" in
  let k := param ps "key" in
  let done (rm : http kreply * Store DB) := Some (AMemory rm.1, with_daemon p (with_memory (p_d p) rm.2)) in
  match h with
  | HKVPut => done (handleKVPut m (n_kv x) (n_statfs x) ctx ns k (read_body limit (in_body q))
                      (in_header q "X-TTL-Seconds") (in_header q "Content-Type"))
  | HKVGet => done (handleKVGet m (n_kv x) ctx ns k (in_header q "If-None-Match"))
  | HKVDelete => done (handleKVDelete m (n_kv x) ctx ns k)
  | HKVList => done (handleKVList m (n_kv x) ctx ns (in_query q "limit") (in_query q "prefix") (in_query q "cursor"))
  | _ => None
  end.
Definition dispatch (p : process) (x : seen) (h : handler) (ps : gmap string string) (ctx : KeyStore.Context)
    (limit : option Z) (q : incoming) : option (answer * process) :=
  match h with
  | HWeb | HLLMs | HOpenAPI | HAssets | HHealthz | HReadyz | HRuntimes | HMetrics => public p x h q
  | HExecute => execute p x limit q
  | HCreateSession | HSessionExec | HSessionFSGet | HSessionFSPut | HSessionFSDelete | HDestroySession =>
      sessions_api p x h ps ctx limit q
  | HCreateVolume | HListVolumes | HGetVolume | HDeleteVolume => volumes_api p x h ps ctx q
  | HKVPut | HKVGet | HKVDelete | HKVList => memory_api p x h ps ctx limit q
  end.
(** [handler.ServeHTTP]. *)
Definition handle (p : process) (x : seen) (q : incoming) : option (answer * process) :=
  let d := p_d p in
  let '(v, i) := serve (s_gate (d_server d)) (d_routes d) (d_limiter d) (n_now x) (in_req q) in
  let p := with_daemon p (with_limiter d i) in
  match v with
  | Preflight => Some (APreflight, p)
  | NoRoute => Some (ANoRoute, p)
  | Refused r => Some (ARefused r, p)
  | Handled h ps ctx limit => dispatch p x h ps ctx limit q
  end.

(** A worker of the queue takes up a job that some node, this one included, has added ([Queue.process]): what it
    does to this daemon. *)
Definition work (p : process) (x : seen) (payload : string) : option process :=
  let d := p_d p in
  match d_queue d, decodeJob payload with
  | Some _, Some j =>
      '(_, l, log) ← Run_local (exec_of d x) (d_sema d) (n_late x) (j_Spec j);
      Some (with_daemon p (with_run d (pool_after d x false log) l))
  | _, _ => Some p
  end.

(** ** A life *)

(** Requests, turns of the queue's workers, beats of the ticker, SIGHUPs, the end of a boot that [WarmPool.retire] started, what programs do
    to the files of the volumes that are mounted ([Guest]), and to those of the workspace of the [n]-th session ([Program]). *)
Inductive input :=
| Request (x : seen) (q : incoming) | Work (x : seen) (payload : string) | Beat (b : beat) (o : osenv)
| Hup (doc : result Catalogue.LoadErr (list Catalogue.Language))
| Booted (boot : option string) | Guest (t : Volume.tree) | Program (n : nat) (T : tree).
Definition booted (d : daemon W DB L) (boot : option string) : daemon W DB L :=
  set_parts d ((λ wp, (replenish wp boot).1) <$> d_pool d) (d_sema d) (d_sessions d) (d_volumes d) (d_memory d) (d_limiter d).
Definition guest (d : daemon W DB L) (t : Volume.tree) : daemon W DB L :=
  match d_volumes d with Some v => with_volumes d (Volume.set_disk v t) | None => d end.
Definition session_at (d : daemon W DB L) (n : nat) : option Session := m ← d_sessions d; sheap m !! n.
(** A beat measures the workspaces there are, and removes those of the sessions it drops. *)
Definition measured (b : beat) (T : tree) : beat := {|
  b_now := b_now b; b_size := dirSize T; b_know := b_know b; b_vol := b_vol b; b_vol_root := b_vol_root b; b_kv := b_kv b |}.
Definition swept (d : daemon W DB L) (b : beat) : list sevent :=
  default [] (m ← d_sessions d; '(m, ev) ← Session.Sweep m (b_now b) (b_size b); '(_, ev') ← Session.SweepKernels m (b_know b); Some (ev ++ ev')).
Definition react (p : process) (i : input) : option (option answer * process) :=
  match i with
  | Request x q => '(a, p) ← handle p x q; Some (Some a, p)
  | Work x payload => p ← work p x payload; Some (None, p)
  | Beat b o =>
      let b := measured b (p_files p) in
      d ← tick (p_d p) b; Some (None, with_files (with_daemon p d) (file_events o (p_files p) (swept (p_d p) b)))
  | Hup doc => Some (None, with_daemon p (hup uni_lower (p_d p) doc))
  | Booted boot => Some (None, with_daemon p (booted (p_d p) boot))
  | Guest t => Some (None, with_daemon p (guest (p_d p) t))
  | Program n T =>
      Some (None, match session_at (p_d p) n with Some s => with_files p (program (p_files p) (s_Workspace s) T) | None => p end)
  end.
Fixpoint life (p : process) (l : list input) : option (list (option answer) * process) :=
  match l with
  | [] => Some ([], p)
  | i :: l => '(a, p) ← react p i; '(answers, p) ← life p l; Some (a :: answers, p)
  end.
(** [T]: what is under the sessions' root when the daemon starts to serve. *)
Definition launched (d : daemon W DB L) (T : tree) : process := {| p_d := d; p_metrics := global; p_once := false; p_files := T |}.
End handle.
Arguments process W DB L : clear implicits.
