(* ===== verification/MainSpec.v ===== *)
(** * The daemon: start-up establishes what the components assume

    Every theorem about a component starts from a state that is fresh or
    well-formed; [boot] builds such states.  One beat of the ticker is a run of the
    interleaved steps of the components it drives. *)

From S2P Require Import Prelude GoLib GoStrings GoCodec GoFloat Sched Auth Bolt KV KVSpec KVStore KVWitness Volume VolumeSpec Executor WarmPool Registry ApiExec Kernel Session SessionSlots SessionSpec ApiHttp RateLimit RateLimitSpec ApiSessions SessionVolumes ApiSessionsSpec Queue Router Main.

(** ** Start-up *)
Section boot.
Context {W : Type} {SW : Weighted W} {SWS : WeightedSpec W} {DB : Type} {BO : Bolt DB} {BS : BoltSpec DB}.
Context {RC : RecordCodec} {RS : RecordCodecSpec} {L : Type} {BK : Bucket L}.
Context (uni_lower : string → string) (harnessPy : string).
Implicit Types (o : outside DB) (d : daemon W DB L).

(** Any of the three sources of keys is set. *)
Definition keys_configured o : Prop :=
  o_getenv o "ISOBOX_API_KEYS_FILE" ≠ "" ∨ o_getenv o "ISOBOX_API_KEYS" ≠ "" ∨ o_getenv o "ISOBOX_API_KEY" ≠ "".
(** The databases found are those of an earlier run. *)
Definition files_ok o : Prop := map_Forall (λ _ db, kv_ok db) (o_kv_files o).

Record ready o d : Prop := {
  rd_sema : lim_ok (d_sema d) ∧ 1 ≤ Sched.max (d_sema d) ∧ Sched.inUse (d_sema d) = 0;
  rd_sessions m : d_sessions d = Some m → fresh_manager m ∧ Session.OnDrop m = bool_decide (is_Some (d_volumes d)) ∧
    Session.Sema m = d_sema d ∧ Session.Reg m = d_reg d;
  rd_volumes v : d_volumes d = Some v → index_ok v ∧ unlocked v;
  rd_memory s : d_memory d = Some s → dbs s = ∅ ∧ (files_ok o → store_ok s);
  rd_keys : keys_configured o → KeyStore.tenants (Middleware.Keys (s_gate (d_server d))) ≠ [];
  rd_routes : ∃ s cfg, Router (L := L) s cfg = (d_server d, d_limiter d, d_routes d);
  rd_enabled : s_Sessions (d_server d) = bool_decide (is_Some (d_sessions d)) ∧
    s_Volumes (d_server d) = bool_decide (is_Some (d_volumes d)) ∧ s_Memory (d_server d) = bool_decide (is_Some (d_memory d));
  rd_registry : ∃ doc, Catalogue.Load uni_lower doc = Ok (d_reg d) }.
Lemma boot_ready_lemma o d : boot uni_lower o = Some d → ready o d.
Proof.
  unfold boot. destruct (Catalogue.Load _ _) as [reg|] eqn:El; [|done].
  destruct (Auth.Config.loadKeyStore _ _) as [|keys] eqn:Ek; [done|].
  destruct (Router _ _) as [[srv lim] rts] eqn:ER. intros [= <-]. split; cbn [d_sema d_sessions d_volumes d_memory d_server d_limiter d_routes d_reg].
  - split; [apply New_ok|]. destruct (New_ok (W := W) (envInt (o_getenv o) "ISOBOX_CONCURRENCY" 4)) as (? & ? & ? & ?). cbn in *.
    split; [|done]. destruct (_ <? 1) eqn:E; boolp; lia.
  - intros m. unfold Session.NewManager. case_match; [done|]. destruct (negb (o_sess_mkdir o)); [done|]. cbn. intros [= <-]. cbn.
    split; [|done]. split; [done|split; [done|]]. by eexists _, _.
  - intros v Hv. by apply scan_index in Hv.
  - intros s. unfold KV.Open. case_match eqn:Hd; [done|]. destruct (negb (o_kv_mkdir o)); [done|].
    intros [= <-]. boolp. split; [done|]. intros Hf. split; cbn; [done|exact Hf|]. intros ? ?. by rewrite lookup_empty.
  - intros Hk Hn. assert (Es : Middleware.Keys (s_gate srv) = keys) by (by injection ER as <- _ _). rewrite Es in Hn. apply (Auth.Config.key_sources _ _ _ Ek) in Hn. destruct Hn as (? & ? & ?). destruct Hk as [|[|]]; done.
  - eexists _, _. exact ER.
  - by injection ER as <- _ _.
  - eexists. exact El.
Qed.

Lemma positive_or_pos v def : 0 < def → 0 < positive_or v def.
Proof. unfold positive_or. destruct (_ <=? _) eqn:E; boolp; lia. Qed.
Lemma or_default_pos v def : 0 < def → 0 < or_default v def.
Proof. unfold or_default. destruct (_ <=? _) eqn:E; boolp; lia. Qed.
Lemma scan_config rm r v : Volume.DiskQuota (scan rm r v) = Volume.DiskQuota v ∧
  Volume.GlobalDiskMax (scan rm r v) = Volume.GlobalDiskMax v ∧ MaxVolPerTenant (scan rm r v) = MaxVolPerTenant v.
Proof.
  unfold scan. destruct r; [|done]. cbn [negb]. rewrite scan_flat.
  pose proof (foldl_keeps (λ acc : Volume.Manager * Z, Volume.DiskQuota acc.1 = Volume.DiskQuota v ∧
    Volume.GlobalDiskMax acc.1 = Volume.GlobalDiskMax v ∧ MaxVolPerTenant acc.1 = MaxVolPerTenant v)
    (scan_one rm) (map_to_list (Volume.disk v) ≫= flat_tenant) (v, 0)) as H.
  destruct (foldl (scan_one rm) (v, 0) _) as [v' t]. cbn. apply H; [|done]. clear.
  intros [w n] [tn [id e]] Hw. unfold scan_one. cbn [fst snd]. rewrite scan_entry_wf. destruct (well_formed tn id e).
  - by destruct (e_meta e).
  - by destruct rm.
Qed.
Lemma boot_quotas o d : boot uni_lower o = Some d →
  (∀ m, d_sessions d = Some m → 0 < Session.DiskQuota m ∧ 0 < Session.GlobalDiskMax m ∧ 0 < Session.MaxSessions m) ∧
  (∀ v, d_volumes d = Some v → 0 < Volume.DiskQuota v ∧ 0 < Volume.GlobalDiskMax v ∧ 0 < MaxVolPerTenant v).
Proof.
  unfold boot. destruct (Catalogue.Load _ _) as [reg|]; [|done]. destruct (Auth.Config.loadKeyStore _ _) as [|keys]; [done|].
  destruct (Router _ _) as [[srv lim] rts]. intros [= <-]. cbn [d_sessions d_volumes]. split.
  - intros m. unfold Session.NewManager. case_match; [done|]. destruct (negb (o_sess_mkdir o)); [done|]. cbn [fst fmap option_fmap option_map].
    intros [= <-]. cbn [Session.DiskQuota Session.GlobalDiskMax Session.MaxSessions].
    split; [|split]; by apply positive_or_pos.
  - intros v. unfold Volume.NewManager. case_match; [done|]. destruct (negb (o_vol_mkdir o)); [done|].
    intros Hv. injection Hv as <-. match goal with |- context [scan ?a ?b ?c] => destruct (scan_config a b c) as (-> & -> & ->) end.
    cbn [Volume.DiskQuota Volume.GlobalDiskMax MaxVolPerTenant]. split; [|split]; by apply or_default_pos.
Qed.

(** The world of sessions and volumes a daemon starts with. *)
Lemma boot_world o d m v : ready o d → d_sessions d = Some m → d_volumes d = Some v →
  fresh_world (Build_world m v [] [] ∅ ∅) ∧ Session.OnDrop m = true.
Proof.
  intros Hr Hm Hv. destruct (rd_sessions _ _ Hr m Hm) as ((H1 & _) & H2 & _). destruct (rd_volumes _ _ Hr v Hv) as [H3 H4].
  split; [|by rewrite H2, Hv]. split; [done|]. split; [done|]. split; [|done].
  intros q id [(x & Hx & <-) _]. cbn in Hx. by eapply (proj1 (Forall_lookup _ _) H4).
Qed.

(** *** One beat *)
Lemma wstep_ondrop (w w' : world (W := W)) : wstep w w' → Session.OnDrop (w_m w') = Session.OnDrop (w_m w).
Proof.
  destruct 1 as [m m' v cs ds ids gs [_ _ Hd]| | | | |m m' v id t vid hp q token c1 c2 ds ids gs Hs| | | | | |m m' v id cs ds ids gs Hc|];
    cbn [w_m]; try done.
  - revert Hs. unfold SetMounts. destruct (authed m id token t); [|done]. by intros [= <-].
  - revert Hc. unfold claim. destruct (bool_decide _); by intros [= <-].
Qed.
Lemma wreach_ondrop (w w' : world (W := W)) : wreach w w' → Session.OnDrop (w_m w') = Session.OnDrop (w_m w).
Proof. induction 1 as [|w1 w2 _ IH Hs]; [done|]. by rewrite (wstep_ondrop _ _ Hs). Qed.

Lemma volume_sweep_runs (m : Session.Manager W) v x r cs ds ids gs :
  wreach (Build_world m v cs ds ids gs) (Build_world m (Volume.Sweep v x r) cs ds ids gs).
Proof.
  assert (Hstep : ∀ v s, lockless s → wreach (Build_world m v cs ds ids gs) (Build_world m (VolumeSpec.exec v s) cs ds ids gs)).
  { intros u s Hs. apply wreach_one. by apply w_volume. }
  unfold Volume.Sweep, SweepOrphans. eapply wreach_trans; [apply (Hstep v (SWalk x r (dom (vols v)) (Volume.disk v))); done|].
  cbn [VolumeSpec.exec]. set (u := orphan_walk _ _ _ _ _). destruct r.
  - eapply wreach_trans; [apply (Hstep u SDropVanished); done|]. by apply (Hstep (drop_vanished u) (SMeasure _)).
  - by apply (Hstep u (SMeasure _)).
Qed.

Definition handles_ok (s : Store DB) (order : list (string * call)) : Prop :=
  Forall (λ hc, (∃ t, dbs s !! t = Some hc.1) ∧ in64 (now hc.2)) order.
Lemma sweep_expired_ok order : ∀ s n, store_ok s → handles_ok s order →
  store_ok (foldl (λ acc hc, let '(k, s') := sweepDB acc.2 hc.2 hc.1 in (acc.1 + k, s')) (n, s) order).2.
Proof.
  induction order as [|[h c] order IH]; intros s n Hs Ho; [done|]. cbn [foldl fst snd].
  apply Forall_cons in Ho as [[[t Ht] Hc] Ho]. cbn [fst snd] in *.
  assert (H1 : store_ok (sweepDB s c h).2).
  { pose proof (exec_ok s (OSweep c t (default bolt_new (KV.disk s !! h))) Hs Hc) as H. cbn [exec_op] in H. by rewrite Ht in H. }
  assert (H2 : dbs (sweepDB s c h).2 = dbs s).
  { unfold sweepDB, sweep_write. destruct (sweep_view _ _); [done|]. destruct (sweep_update _ _ _). by destruct (commit_ok c). }
  destruct (sweepDB s c h) as [k s']. cbn [snd] in *. apply IH; [done|]. unfold handles_ok. by rewrite H2.
Qed.

(** C22: one beat of the ticker keeps every component's promises.  From a daemon that
    has booted and whatever the API has done since, with calls in flight, a beat returns and
    amounts to a run of the interleaved steps of sessions, slots and volumes, with the volume
    releases of the sessions it drops; the store stays well-formed; and nothing else of the
    daemon changes. *)
Theorem tick_refines o d0 m0 v0 d m v fl cs ds ids gs x :
  boot uni_lower o = Some d0 → files_ok o → d_sessions d0 = Some m0 → d_volumes d0 = Some v0 →
  greach harnessPy {| gm := m0; flights := [] |} {| gm := m; flights := fl |} →
  wreach (Build_world m0 v0 [] [] ∅ ∅) (Build_world m v cs ds ids gs) →
  d_sessions d = Some m → d_volumes d = Some v →
  (∀ s, d_memory d = Some s → store_ok s ∧ handles_ok s (b_kv x)) →
  ∃ m' v' ids' gs', tick d x = Some (with_parts d (Some m') (Some v') ((λ s, (SweepExpired s (b_kv x)).2) <$> d_memory d)) ∧
    wreach (Build_world m v cs ds ids gs) (Build_world m' v' cs ds ids' gs') ∧
    greach harnessPy {| gm := m; flights := fl |} {| gm := m'; flights := fl |} ∧
    (∀ s, (λ s, (SweepExpired s (b_kv x)).2) <$> d_memory d = Some s → store_ok s).
Proof.
  intros Hb Hf Hm0 Hv0 Hg Hw Hm Hv Hs. pose proof (boot_ready_lemma o d0 Hb) as Hr.
  destruct (boot_world o d0 m0 v0 Hr Hm0 Hv0) as [Hfw Hd0]. destruct (rd_sessions _ _ Hr m0 Hm0) as (Hfm & _).
  assert (Hok : slots_ok {| gm := m; flights := fl |}) by (eapply greach_ok; [by apply fresh_ok|exact Hg]).
  assert (Hd : Session.OnDrop m = true) by (pose proof (wreach_ondrop _ _ Hw) as E; cbn in E; congruence).
  destruct (Sweep_steps harnessPy m fl (b_now x) (b_size x) Hok) as (m1 & ev1 & E1 & Q1).
  destruct (Sweep_runs m v (b_now x) (b_size x) m1 ev1 Hd E1) as (v1 & V1 & D1 & R1).
  assert (Hok1 : slots_ok {| gm := m1; flights := fl |}) by (by eapply greach_ok).
  destruct (SweepKernels_steps harnessPy m1 fl (b_know x) Hok1) as (m2 & ev2 & E2 & Q2).
  destruct (SweepKernels_runs m1 v1 (b_know x) m2 ev2 ltac:(congruence) E2) as (v2 & V2 & D2 & R2).
  destruct (R1 cs ds ids gs) as (g1 & W1). destruct (R2 cs ds ids g1) as (g2 & W2).
  exists m2, (Volume.Sweep v2 (b_vol x) (b_vol_root x)), ids, g2. split; [|split; [|split]].
  - unfold tick. rewrite Hm, Hv. unfold sweep_sessions. rewrite E1. cbn [mbind option_bind]. rewrite E2. cbn [mbind option_bind].
    by rewrite V1, V2.
  - eapply wreach_trans; [exact W1|]. eapply wreach_trans; [exact W2|]. apply volume_sweep_runs.
  - by eapply greach_trans.
  - intros s' H. destruct (d_memory d) as [s|] eqn:Em; [|done]. injection H as <-.
    destruct (Hs s eq_refl) as [H1 H2]. by apply sweep_expired_ok.
Qed.
End boot.

(** ** What start-up establishes *)
Section established.
Context {W : Type} {SW : Weighted W} {SWS : WeightedSpec W} {DB : Type} {BO : Bolt DB} {BS : BoltSpec DB}.
Context {RC : RecordCodec} {RS : RecordCodecSpec} {L : Type} {BK : Bucket L}.
Context (uni_lower : string → string).

(** C10: a daemon that starts is well-formed.  Whatever the environment holds, and
    whatever earlier runs left on the disk, [boot] either exits or gives every component
    the state its theorems start from: free slots, a fresh session manager that shares
    the limiter and catalogue and calls back exactly when there are volumes, an index of
    volumes none of which is held; the quotas in force are positive;
    and with a key source configured the key store is not empty, so no configuration error opens
    the daemon.  The key-value store opens no database yet; it is well-formed as a whole if the
    databases on the disk, if any, are those that earlier runs left ([files_ok]). *)
Theorem boot_ready (o : outside DB) (d : daemon W DB L) : boot uni_lower o = Some d →
  lim_ok (d_sema d) ∧ inUse (d_sema d) = 0 ∧ 1 ≤ max (d_sema d) ∧
  (∀ m, d_sessions d = Some m → fresh_manager m ∧ Session.Sema m = d_sema d ∧ Session.Reg m = d_reg d ∧
     0 < Session.DiskQuota m ∧ 0 < Session.GlobalDiskMax m ∧ 0 < Session.MaxSessions m ∧
     ∀ v, d_volumes d = Some v → Session.OnDrop m = true ∧ fresh_world (Build_world m v [] [] ∅ ∅)) ∧
  (∀ v, d_volumes d = Some v → index_ok v ∧ unlocked v ∧
     0 < Volume.DiskQuota v ∧ 0 < Volume.GlobalDiskMax v ∧ 0 < MaxVolPerTenant v) ∧
  (∀ s, d_memory d = Some s → dbs s = ∅ ∧ (files_ok o → store_ok s)) ∧
  (keys_configured o → KeyStore.tenants (Middleware.Keys (s_gate (d_server d))) ≠ []) ∧
  (∃ s cfg, Router (L := L) s cfg = (d_server d, d_limiter d, d_routes d)).
Proof.
  intros Hb. pose proof (boot_ready_lemma uni_lower o d Hb) as Hr.
  destruct (rd_sema _ _ _ Hr) as (H1 & H2 & H3). do 3 (split; [done|]).
  split; [|split; [|split; [apply (rd_memory _ _ _ Hr)|split; [apply (rd_keys _ _ _ Hr)|apply (rd_routes _ _ _ Hr)]]]].
  - intros m Hm. destruct (rd_sessions _ _ _ Hr m Hm) as (K1 & K2 & K3 & K4).
    do 3 (split; [done|]). split; [|split; [|split]]; [by apply (boot_quotas uni_lower o d Hb)..|].
    intros v Hv. destruct (boot_world uni_lower o d m v Hr Hm Hv). done.
  - intros v Hv. destruct (rd_volumes _ _ _ Hr v Hv). do 2 (split; [done|]). by apply (boot_quotas uni_lower o d Hb).
Qed.
End established.

(** ** A daemon that boots *)
#[local] Existing Instance KVWitness.simple_codec.
#[local] Existing Instance KVWitness.simple_codec_spec.
Definition demo_DB : Type := gmap string (gmap string string).
Definition demo_outside : outside demo_DB := {|
  o_getenv k := if String.eqb k "ISOBOX_API_KEYS" then "a,b" else if String.eqb k "ISOBOX_KERNEL_SLOTS" then "two" else "";
  o_lookupEnv _ := None; o_stat _ := true; o_readFile _ := None; o_kvm := false;
  o_registry _ := Ok [demo_python]; o_boots := []; o_sess_mkdir := true; o_sess_ents := ["sess_old"];
  o_vol_mkdir := true; o_vol_rm := true; o_vol_root := true; o_vol_tree := ∅;
  o_kv_mkdir := true; o_kv_files := ∅; o_ping _ := false; o_uuid := "0" |}.
Abbreviation demo_daemon := (boot (W := Z * Z) (DB := demo_DB) (L := tokenBucket) id demo_outside).
Lemma boot_ready_witness : ∃ d, demo_daemon = Some d ∧ lim_ok (d_sema d) ∧
  KeyStore.tenants (Middleware.Keys (s_gate (d_server d))) ≠ [].
Proof.
  destruct demo_daemon as [d|] eqn:E; [|exfalso; revert E; vm_compute; discriminate].
  exists d. split; [done|]. destruct (boot_ready id demo_outside d E) as (H1 & _ & _ & _ & _ & _ & H2 & _).
  split; [done|]. apply H2. right. left. vm_compute. discriminate.
Defined.
Definition demo_beat : beat := {|
  b_now := 10 ^ 18; b_size _ := 0; b_know := 10 ^ 18; b_vol := VolumeSpec.env0; b_vol_root := true; b_kv := [] |}.
Lemma tick_refines_witness : ∃ d0 d', demo_daemon = Some d0 ∧ tick d0 demo_beat = Some d' ∧ is_Some (d_sessions d').
Proof.
  destruct demo_daemon as [d|] eqn:E; [|exfalso; revert E; vm_compute; discriminate].
  assert (Hs : ∃ m v, d_sessions d = Some m ∧ d_volumes d = Some v).
  { revert E. vm_compute. intros [= <-]. cbn. by eexists _, _. }
  destruct Hs as (m & v & Hm & Hv).
  destruct (tick_refines id "harness" demo_outside d m v d m v [] [] [] ∅ ∅ demo_beat E) as (m' & v' & ids & gs & Ht & _).
  - apply map_Forall_empty.
  - done.
  - done.
  - apply gr_refl.
  - apply wr_refl.
  - done.
  - done.
  - intros s Hs. split; [|apply Forall_nil_2].
    destruct (boot_ready_lemma id demo_outside d E) as [_ _ _ Hmem _ _ _ _]. apply Hmem; [done|apply map_Forall_empty].
  - exists d. eexists. split; [done|]. split; [exact Ht|]. by eexists.
Defined.
