(* ===== verification/DaemonFrame.v ===== *)
(** * The daemon between requests

    [sound] is what holds of the daemon between two requests; [apart t] relates it around a
    request of tenant [t].  One lemma per part of the daemon; the theorems are in the file
    DaemonSpec. *)

From S2P Require Import Prelude GoLib GoStrings GoCodec GoFloat Sched Auth Bolt KV KVSpec KVStore Volume VolumeSpec Executor WarmPool Registry ApiExec Kernel KernelSpec Session SessionSlots SessionSpec ApiHttp RateLimit ApiKV ApiVolumes ApiSessions ApiBodies SessionVolumes ApiSessionsSpec SessionFrame VolumeFrame ApiFrame Workspace WorkspaceFrame Queue Web Router Health Main Daemon MainSpec.

(** ** The table and the subsystems *)
Definition of_sessions (h : handler) : bool :=
  match h with
  | HCreateSession | HSessionExec | HSessionFSGet | HSessionFSPut | HSessionFSDelete | HDestroySession => true
  | _ => false
  end.
Definition of_volumes (h : handler) : bool :=
  match h with HCreateVolume | HListVolumes | HGetVolume | HDeleteVolume => true | _ => false end.
Definition of_memory (h : handler) : bool :=
  match h with HKVPut | HKVGet | HKVDelete | HKVList => true | _ => false end.
(** A route is in the table only with the subsystem behind it. *)
Definition enabled (s : Server) (h : handler) : Prop :=
  (of_sessions h = true → s_Sessions s = true) ∧ (of_volumes h = true → s_Volumes s = true) ∧
  (of_memory h = true → s_Memory s = true).
Lemma table_enabled {L : Type} {BK : Bucket L} s cfg rt : rt ∈ (Router (L := L) s cfg).2 → enabled s (m_handler rt).
Proof.
  revert rt. apply (Forall_forall (λ rt, enabled s (m_handler rt))). cbn [Router snd]. rewrite !Forall_app, Forall_singleton.
  split; [unfold public_routes; each_route ltac:(by split)|]. split; [by split|].
  destruct s as [g a b c w]. cbn [s_Sessions s_Volumes s_Memory]. split; [destruct a|split; [destruct b|destruct c]].
  all: try apply Forall_nil_2.
  all: unfold session_routes, volume_routes, memory_routes; cbv zeta; each_route ltac:(by split).
Qed.

(** The tenant of the context is the tenant of the request. *)
Abbreviation speaks ctx t := (∀ t', Middleware.reqTenant ctx = inl t' → t' = t ∧ t ≠ "").

Section daemon.
Context {W : Type} {SW : Weighted W} {SWS : WeightedSpec W} {DB : Type} {BO : Bolt DB} {BS : BoltSpec DB}.
Context {RC : RecordCodec} {RS : RecordCodecSpec} {L : Type} {BK : Bucket L} {WR : Wire}.
Context (uni_lower : string → string) (harnessPy : string).
Implicit Types (d : daemon W DB L) (m : Session.Manager W) (minted : gset string) (t : string).
Local Abbreviation Wd := Build_world.

(** ** The invariant *)

(** The handlers' view of the sessions and volumes. *)
Definition srv d m : ApiSessions.server W := {| Sessions := m; Volumes := d_volumes d |}.
(** [minted]: the session ids that have been given out, or tried. *)
Record sound minted d : Prop := {
  sd_lim : lim_ok (d_sema d) ∧ inUse (d_sema d) = 0;
  sd_table : ∃ s cfg, d_routes d = (Router (L := L) s cfg).2 ∧ s_gate s = s_gate (d_server d) ∧
    s_Sessions s = bool_decide (is_Some (d_sessions d)) ∧ s_Volumes s = bool_decide (is_Some (d_volumes d)) ∧
    s_Memory s = bool_decide (is_Some (d_memory d));
  sd_server m : d_sessions d = Some m → server_ok (srv d m) ∧ Session.Sema m = d_sema d ∧ Session.Reg m = d_reg d ∧
    ∀ id, id ∈ map s_ID (sheap m) → id ∈ minted;
  sd_homes m : d_sessions d = Some m → homes_ok m ∧ ∀ id, id ∈ map s_ID (sheap m) → Filepath.simple id;
  sd_world m v : d_sessions d = Some m → d_volumes d = Some v →
    ∃ ids gs, ids ⊆ minted ∧ world_ok (Wd m v [] [] ids gs);
  sd_volumes v : d_volumes d = Some v → index_ok v;
  sd_memory s : d_memory d = Some s → store_ok s }.

(** What a request of tenant [t] leaves as it was: the sessions, the volumes and the records of
    every other tenant. *)
Record apart t d d' : Prop := {
  ap_sessions : option_Forall2 (λ m m', ∃ new, spares t new m m') (d_sessions d) (d_sessions d');
  ap_volumes : option_Forall2 (vspares t) (d_volumes d) (d_volumes d');
  ap_memory : option_Forall2 (λ s s', (∀ t' ns k, t' ≠ t → tenant_rec s' t' ns k = tenant_rec s t' ns k) ∧ handles_apart t s s')
    (d_memory d) (d_memory d');
  ap_gates : d_server d' = d_server d ∧ d_routes d' = d_routes d }.
Lemma all_refl {A} (R : A → A → Prop) (o : option A) : (∀ a, R a a) → option_Forall2 R o o.
Proof. intros H. destruct o; by constructor. Qed.
Lemma apart_parts t d d' : d_sessions d' = d_sessions d → d_volumes d' = d_volumes d → d_memory d' = d_memory d →
  d_server d' = d_server d → d_routes d' = d_routes d → apart t d d'.
Proof.
  intros E1 E2 E3 E4 E5. split; rewrite ?E1, ?E2, ?E3; [apply all_refl; intros m; by exists ∅|by apply all_refl..|done].
Qed.

Lemma world_more m v ids gs minted minted' : minted ⊆ minted' → ids ⊆ minted ∧ world_ok (Wd m v [] [] ids gs) →
  ids ⊆ minted' ∧ world_ok (Wd m v [] [] ids gs).
Proof. intros H [H1 H2]. split; [by etransitivity|done]. Qed.
Lemma sound_more minted minted' d : minted ⊆ minted' → sound minted d → sound minted' d.
Proof.
  intros Hm [A1 A2 A3 A0 A4 A5 A6]. split; try done.
  - intros m H. destruct (A3 m H) as (B1 & B2 & B3 & B4). do 3 (split; [done|]). intros id Hid. by apply Hm, B4.
  - intros m v H1 H2. destruct (A4 m v H1 H2) as (ids & gs & H). exists ids, gs. by eapply world_more.
Qed.
Lemma sound_limiter minted d i : sound minted d → sound minted (with_limiter d i).
Proof. by intros [A1 A2 A3 A0 A4 A5 A6]. Qed.

(** *** /execute *)
Lemma share_quiet m l : quiet m (share l m).
Proof. by apply quiet_same. Qed.
Lemma sound_run minted d pool l : sound minted d → lim_ok l → inUse l = 0 → sound minted (with_run d pool l).
Proof.
  intros [A1 A2 A3 A0 A4 A5 A6] H1 H2. split; cbn; try done.
  - destruct A2 as (s & cfg & B1 & B2 & B3 & B4). exists s, cfg. do 2 (split; [done|]). split; [|done].
    rewrite B3. by destruct (d_sessions d).
  - intros m. destruct (d_sessions d) as [m0|]; [|done]. cbn. intros [= <-].
    destruct (A3 m0 eq_refl) as ([S1 S2] & B2 & B3 & B4). split; [|done]. split; [|exact S2].
    eapply same_ok; [apply (same_sema m0 l)|exact S1].
  - intros m. destruct (d_sessions d) as [m0|]; [|done]. cbn. intros [= <-]. exact (A0 m0 eq_refl).
  - intros m v. destruct (d_sessions d) as [m0|]; [|done]. cbn. intros [= <-] Hv.
    destruct (A4 m0 v eq_refl Hv) as (ids & gs & B1 & B2). exists ids, gs. split; [done|].
    eapply quiet_ok; [apply (share_quiet m0 l)|done].
Qed.
Lemma apart_run t d pool l : apart t d (with_run d pool l).
Proof.
  split; cbn; [|by apply all_refl..|done]. destruct (d_sessions d) as [m|]; constructor. exists ∅. by apply spares_same.
Qed.
Lemma execute_returns `{!ApiExec.Queue W} `{!QueueSpec _} backend_name backend reg l late flusher accept stream body :
  lim_ok l → ∃ rep l' log,
    handleExecute uni_lower backend_name backend reg l late flusher accept stream body = Some (rep, l', log) ∧
    lim_ok l' ∧ inUse l' = inUse l.
Proof.
  intros Hok. unfold handleExecute.
  destruct body as [req|]; [|by eexists _, _, _]. destruct (String.eqb _ ""); [by eexists _, _, _|].
  destruct (Catalogue.Resolve _ _ _ _) as [lang|]; [|by eexists _, _, _].
  destruct (buildSpec lang req) as [spec|]; [|by eexists _, _, _]. destruct (wantsSSE accept stream).
  - destruct (with_slot l late Hok) as [(H1 & H2 & H3)|(H1 & H2 & l' & H3 & H4 & H5 & H6)].
    + destruct (Acquire l late) as [ok l1]. cbn in H1, H2. subst ok l1. cbn. by eexists _, _, _.
    + destruct (Acquire l late) as [ok l1]. cbn in H1, H3. subst ok. cbn [negb].
      destruct (executeSSE _ _ _ _ _) as [rep log]. rewrite H3. cbn. by eexists _, _, _.
  - destruct (submit_spec l late spec Hok) as (r & l' & log & -> & H1 & H2 & _). cbn. by eexists _, _, _.
Qed.

(** *** /v1/sessions *)
Lemma sound_server minted d m t id (s' : ApiSessions.server W) : sound minted d → d_sessions d = Some m → Filepath.simple id →
  served_as t {[id]} (srv d m) s' →
  (∀ v v', d_volumes d = Some v → Volumes s' = Some v' →
     ∃ ids gs, ids ⊆ {[id]} ∪ minted ∧ world_ok (Wd (Sessions s') v' [] [] ids gs)) →
  sound ({[id]} ∪ minted) (with_server d s') ∧ apart t d (with_server d s').
Proof.
  intros [A1 A2 A3 A0 A4 A5 A6] Hm Hid [B1 B2 (B3 & B4 & _) B5] Hw. destruct (A3 m Hm) as (S1 & S2 & S3 & S4).
  cbn in B2, B3, B4, B5. split.
  - split; cbn.
    + rewrite S2 in B3. destruct A1 as [L1 L2]. destruct (B3 L1) as (K1 & K2 & _). split; [done|congruence].
    + destruct A2 as (s & cfg & C1 & C2 & C3 & C4 & C5). exists s, cfg. do 2 (split; [done|]).
      split; [by rewrite C3, Hm|]. split; [|done]. rewrite C4. apply bool_decide_ext. by destruct B5.
    + intros m' [= <-]. split; [by destruct s'|]. split; [done|]. split; [congruence|].
      intros x Hx. destruct (sp_ids _ _ _ _ B2 x Hx) as [H|H]; [apply elem_of_union_r; by apply S4|by apply elem_of_union_l].
    + intros m' [= <-]. destruct (A0 m Hm) as [H1 H2]. destruct (sp_homes _ _ _ _ B2) as [_ H3]. split; [by apply H3|].
      intros x Hx. destruct (sp_ids _ _ _ _ B2 x Hx) as [H| ->%elem_of_singleton]; [by apply H2|done].
    + intros m' v' [= <-] Hv'. revert Hw. rewrite Hv' in B5. inversion B5 as [v v2 _ E|]; subst. intros Hw. by apply (Hw v v').
    + intros v' Hv'. destruct (sv_vols _ B1 v' Hv') as (_ & H & _). done.
    + done.
  - split; cbn; [rewrite Hm; constructor; by exists {[id]}|done|by apply all_refl|done].
Qed.
(** A call that moves no volume. *)
Lemma quiet_world minted d m (s' : ApiSessions.server W) id : sound minted d → d_sessions d = Some m → quiet m (Sessions s') →
  Volumes s' = d_volumes d →
  ∀ v v', d_volumes d = Some v → Volumes s' = Some v' →
     ∃ ids gs, ids ⊆ {[id]} ∪ minted ∧ world_ok (Wd (Sessions s') v' [] [] ids gs).
Proof.
  intros Hd Hm Hq E v v' Hv Hv'. assert (v' = v) as -> by congruence.
  destruct (sd_world _ _ Hd m v Hm Hv) as (ids & gs & H1 & H2). exists ids, gs. split; [by apply union_subseteq_r'|by eapply quiet_ok].
Qed.


Lemma create_api minted d m x ctx bd t : sound minted d → d_sessions d = Some m → speaks ctx t →
  let id := MintID (c_uuid (hc_create x)) in id ∉ minted → Filepath.simple id →
  ∃ r s' ev, handleCreateSession uni_lower harnessPy (srv d m) x ctx bd = Some (r, s', ev) ∧
    sound ({[id]} ∪ minted) (with_server d s') ∧ apart t d (with_server d s').
Proof.
  intros Hd Hm Hctx id Hid Hsim. destruct (sd_server _ _ Hd m Hm) as (S1 & S2 & S3 & S4).
  assert (Hid' : id ∉ map s_ID (sheap m)) by (intros H; by apply Hid, S4).
  destruct (create_total uni_lower harnessPy m (d_volumes d) [] x ctx bd (sv_slots _ S1) Hid') as [[[r s'] ev] E].
  exists r, s', ev. split; [exact E|].
  assert (Hs : served_as t {[id]} (srv d m) s') by (by eapply create_served).
  apply (sound_server minted d m t id s' Hd Hm Hsim Hs). intros v v' Hv Hv'.
  destruct (sd_world _ _ Hd m v Hm Hv) as (ids & gs & H1 & H2). destruct (sv_vols _ S1 v Hv) as (Hdrop & _).
  rewrite Hv in E. destruct (create_ends uni_lower harnessPy m v [] [] ids gs x H2 Hdrop ltac:(set_solver) ctx bd r s' ev E)
    as (v2 & ids' & gs' & Hv2 & Hsub & Hr). assert (v2 = v') as -> by congruence.
  exists ids', gs'. split; [set_solver|by eapply wreach_ok].
Qed.
Lemma destroy_api minted d m rm ctx id token t x : sound minted d → d_sessions d = Some m → speaks ctx t → Filepath.simple x →
  ∃ r s' ev, handleDestroySession (srv d m) rm ctx id token = Some (r, s', ev) ∧
    sound ({[x]} ∪ minted) (with_server d s') ∧ apart t d (with_server d s').
Proof.
  intros Hd Hm Hctx Hsim. destruct (sd_server _ _ Hd m Hm) as (S1 & S2 & S3 & S4).
  assert (is_Some (handleDestroySession (srv d m) rm ctx id token)) as [[[r s'] ev] E].
  { unfold handleDestroySession. destruct (Middleware.reqTenant ctx) as [t'|]; [|by eexists].
    destruct (Destroy_steps harnessPy m [] rm id token t' (sv_slots _ S1)) as (r & m' & ev & E & _). cbn [srv Sessions]. rewrite E.
    by eexists. }
  exists r, s', ev. split; [exact E|].
  assert (Hs : served_as t {[x]} (srv d m) s') by (by eapply destroy_served).
  apply (sound_server minted d m t x s' Hd Hm Hsim Hs). intros v v' Hv Hv'.
  destruct (sd_world _ _ Hd m v Hm Hv) as (ids & gs & H1 & H2). destruct (sv_vols _ S1 v Hv) as (Hdrop & _).
  revert E. unfold handleDestroySession. destruct (Middleware.reqTenant ctx) as [t'|].
  2: { intros [= _ <- _]. cbn in Hv'. assert (v' = v) as -> by congruence. exists ids, gs. split; [by apply union_subseteq_r'|done]. }
  cbn [srv Sessions]. destruct (Session.Destroy m rm id token t') as [[[rd m'] ev']|] eqn:Ed; [|done]. cbn. intros [= _ <- _].
  destruct (Destroy_runs m v rm id token t' rd m' ev' Hdrop) as (v2 & Hv2 & _ & Hr); [|done|].
  { intros p Hp. destruct (wo_session _ H2 id p Hp) as (s & Hs' & E & _). cbn in Hs'. unfold the_session. by rewrite Hs'. }
  destruct (Hr [] [] ids gs) as (gs' & Hreach). exists ids, gs'. split; [by apply union_subseteq_r'|].
  cbn in Hv'. rewrite Hv, Hv2 in Hv'. injection Hv' as <-. by eapply wreach_ok.
Qed.
Lemma exec_api minted d m backend_name backend x ctx id token bd t uuid : sound minted d → d_sessions d = Some m → speaks ctx t →
  Filepath.simple uuid → kernel_yields (hx_kernel x) →
  ∃ r s' ran, handleSessionExec uni_lower backend_name backend (srv d m) x ctx id token bd = Some (r, s', ran) ∧
    sound ({[uuid]} ∪ minted) (with_server d s') ∧ apart t d (with_server d s').
Proof.
  intros Hd Hm Hctx Hsim Hx. destruct (sd_server _ _ Hd m Hm) as (S1 & S2 & S3 & S4).
  destruct (exec_served uni_lower backend_name backend t {[uuid]} (srv d m) x ctx id token bd S1) as (r & s' & ran & E & Hs);
    [cbn; rewrite S2; apply Hd|done|done|].
  exists r, s', ran. split; [exact E|]. destruct (exec_quiet _ _ _ _ _ _ _ _ _ _ _ _ E) as [Hq Hv].
  apply (sound_server minted d m t uuid s' Hd Hm Hsim Hs). by eapply quiet_world.
Qed.
Lemma put_api minted d m x enoent ctx id token path bd t uuid r s' ev : sound minted d → d_sessions d = Some m → speaks ctx t → Filepath.simple uuid →
  handleSessionFSPut (srv d m) x enoent ctx id token path bd = (r, s', ev) →
  sound ({[uuid]} ∪ minted) (with_server d s') ∧ apart t d (with_server d s').
Proof.
  intros Hd Hm Hctx Hsim E. destruct (sd_server _ _ Hd m Hm) as (S1 & _). destruct (put_quiet _ _ _ _ _ _ _ _ _ _ _ E) as [Hq Hv].
  apply (sound_server minted d m t uuid s' Hd Hm Hsim); [by eapply put_served|by eapply quiet_world].
Qed.
Lemma same_server minted d m t uuid : sound minted d → d_sessions d = Some m → Filepath.simple uuid →
  sound ({[uuid]} ∪ minted) (with_server d (srv d m)) ∧ apart t d (with_server d (srv d m)).
Proof.
  intros Hd Hm Hsim. destruct (sd_server _ _ Hd m Hm) as (S1 & _).
  apply (sound_server minted d m t uuid (srv d m) Hd Hm Hsim); [by apply served_refl|by eapply quiet_world].
Qed.

(** *** /v1/volumes *)
Lemma lockless_world m v l ids gs : Forall lockless l → world_ok (Wd m v [] [] ids gs) →
  world_ok (Wd m (VolumeSpec.run v l) [] [] ids gs).
Proof.
  revert v. induction l as [|s l IH]; intros v; [done|]. intros [Hs Hl]%Forall_cons Hw. cbn [VolumeSpec.run foldl].
  apply (IH (VolumeSpec.exec v s)); [done|]. eapply wstep_ok; [by apply w_volume|done].
Qed.
Lemma sound_volumes minted d v l t : sound minted d → d_volumes d = Some v → Forall lockless l →
  unlocks v (VolumeSpec.run v l) → vspares t v (VolumeSpec.run v l) →
  sound minted (with_volumes d (VolumeSpec.run v l)) ∧ apart t d (with_volumes d (VolumeSpec.run v l)).
Proof.
  intros [A1 A2 A3 A0 A4 A5 A6] Hv Hl Hu Hs.
  assert (Hi : index_ok (VolumeSpec.run v l)).
  { apply index_ok_run; [by apply A5|]. eapply Forall_impl; [exact Hl|]. by intros [| [|]| | | | | | | | ]. }
  split; [split; cbn; try done|].
  - destruct A2 as (s & cfg & B1 & B2 & B3 & B4 & B5). exists s, cfg. do 3 (split; [done|]). split; [by rewrite B4, Hv|done].
  - intros m Hm. destruct (A3 m Hm) as ([S1 S2] & B). split; [|done]. split; [done|]. cbn. intros v' [= <-].
    destruct (S2 v Hv) as (C1 & _ & C3). split; [done|]. split; [done|by eapply own_unlocks].
  - intros m v' Hm [= <-]. destruct (A4 m v Hm Hv) as (ids & gs & B1 & B2). exists ids, gs. split; [done|by apply lockless_world].
  - by intros v' [= <-].
  - split; cbn; [apply all_refl; intros m; by exists ∅|rewrite Hv; by constructor|by apply all_refl|done].
Qed.
Lemma same_volumes minted d v t : sound minted d → d_volumes d = Some v →
  sound minted (with_volumes d v) ∧ apart t d (with_volumes d v).
Proof. intros Hd Hv. by apply (sound_volumes minted d v [] t Hd Hv). Qed.
Lemma volume_create_api minted d v x ctx bd t r v' : sound minted d → d_volumes d = Some v → speaks ctx t →
  idRe ("vol_" +:+ v_uuid x) = true → handleCreateVolume v x ctx bd = (r, v') →
  sound minted (with_volumes d v') ∧ apart t d (with_volumes d v').
Proof.
  intros Hd Hv Hctx Hx. pose proof (sd_volumes _ _ Hd v Hv) as Hi. pose proof (same_volumes minted d v t Hd Hv) as H0.
  unfold handleCreateVolume. destruct (Middleware.reqTenant ctx) as [t'|]; [|by intros [= _ <-]].
  destruct (Hctx t' eq_refl) as [-> _].
  assert (H : ∀ name, sound minted (with_volumes d (Volume.Create v x t name).2) ∧
    apart t d (with_volumes d (Volume.Create v x t name).2)).
  { intros name. apply (sound_volumes minted d v [SCreate x t name] t Hd Hv).
    - by constructor.
    - apply Create_unlocks.
    - by apply Create_vspares. }
  destruct bd as [name| |]; [specialize (H name)|specialize (H "")|by intros [= _ <-]].
  all: destruct (Volume.Create v x t _) as [[i|e] v1]; by intros [= _ <-].
Qed.
Lemma volume_delete_api minted d v x ctx id t r v' : sound minted d → d_volumes d = Some v → speaks ctx t →
  handleDeleteVolume v x ctx id = (r, v') → sound minted (with_volumes d v') ∧ apart t d (with_volumes d v').
Proof.
  intros Hd Hv Hctx. pose proof (sd_volumes _ _ Hd v Hv) as Hi. pose proof (same_volumes minted d v t Hd Hv) as H0.
  unfold handleDeleteVolume. destruct (Middleware.reqTenant ctx) as [t'|]; [|by intros [= _ <-]].
  destruct (Hctx t' eq_refl) as [-> _].
  assert (H : sound minted (with_volumes d (Volume.Delete v x t id).2) ∧ apart t d (with_volumes d (Volume.Delete v x t id).2)).
  { destruct (Delete_steps v x t id) as (l & E & Hl & Hh). rewrite E in *. apply (sound_volumes minted d v l t Hd Hv Hl).
    - by apply unlocks_heap.
    - rewrite <- E. by apply Delete_vspares. }
  destruct (Volume.Delete v x t id) as [[[]|e] v1]; by intros [= _ <-].
Qed.

(** *** /v1/memory *)
Lemma sound_memory minted d s s' t : sound minted d → d_memory d = Some s → only_tenant s s' t → handles_apart t s s' →
  sound minted (with_memory d s') ∧ apart t d (with_memory d s').
Proof.
  intros [A1 A2 A3 A0 A4 A5 A6] Hs Ho Hh. split; [split; cbn; try done|].
  - destruct A2 as (sv & cfg & B1 & B2 & B3 & B4 & B5). exists sv, cfg. do 4 (split; [done|]). by rewrite B5, Hs.
  - intros s2 [= <-]. apply Ho.
  - split; cbn; [apply all_refl; intros m; by exists ∅|by apply all_refl| |done]. rewrite Hs. constructor. split; [|done]. intros t' ns k Hne.
    apply (only_isolates s s' t); [done|apply (A6 s Hs)|done].
Qed.
Lemma memory_put_api minted d s c st ctx ns k bd hdr ct t : sound minted d → d_memory d = Some s → speaks ctx t →
  0 ≤ now c → let s' := (handleKVPut s c st ctx ns k bd hdr ct).2 in
  sound minted (with_memory d s') ∧ apart t d (with_memory d s').
Proof.
  intros Hd Hs Hctx Hp. pose proof (sd_memory _ _ Hd s Hs) as Hok. cbv zeta.
  pose proof (sound_memory minted d s s t Hd Hs (only_tenant_refl s t Hok) (handles_apart_refl t s)) as Hrefl.
  unfold handleKVPut. destruct (Middleware.reqTenant ctx) as [t'|]; [|done]. destruct (Hctx t' eq_refl) as [-> _].
  destruct (KV.DiskFull s st); [done|]. destruct bd as [val|]; [|done]. destruct (parse_ttl hdr) as [ttl|]; [|done].
  pose proof (Put_only s c t ns k val ct ttl Hok Hp) as H. destruct (Put_handles s c t ns k val ct ttl) as [H1 H2].
  pose proof (sound_memory minted d s _ t Hd Hs H (only_handles s _ t H H1 H2)). by destruct (Put s c t ns k val ct ttl) as [[]].
Qed.
Lemma memory_op_api minted d s o t s' : sound minted d → d_memory d = Some s → op_ok o → op_tenant o = Some t →
  s' = s ∨ s' = exec_op s o → sound minted (with_memory d s') ∧ apart t d (with_memory d s').
Proof.
  intros Hd Hs Ho Ht E. pose proof (sd_memory _ _ Hd s Hs) as Hok.
  destruct E as [->| ->]; apply (sound_memory minted d s _ t Hd Hs); [by apply only_tenant_refl|done|by apply exec_only|by apply exec_handles].
Qed.

(** ** Ticks and reloads *)
Lemma lockless_index v l : Forall lockless l → index_ok v → index_ok (VolumeSpec.run v l).
Proof. intros Hl Hi. apply index_ok_run; [done|]. eapply Forall_impl; [exact Hl|]. by intros [| [|]| | | | | | | | ]. Qed.
Lemma gstep_root g g' : gstep harnessPy g g' → Root (gm g') = Root (gm g).
Proof.
  destruct 1 as [| |m fl s e late m' _ _ _ _ Hs|m f1 f2 p e x i ms n m' ev _ Hs|m f1 f2 p e x i ms n err m1 ev e1 m' _ Hs _ Hr| |m fl p m' _ Hc|m fl e id He|m f1 f2 p e m' _ _ Hr| | | | | | |];
    cbn [gm]; try done.
  - revert Hs. unfold kslot. destruct (Acquire (Slots e) late). by intros [= _ <-].
  - destruct (kstart_inv _ _ _ _ _ _ _ _ _ _ _ Hs) as (e' & _ & [k ->]). done.
  - destruct (kstart_inv _ _ _ _ _ _ _ _ _ _ _ Hs) as (e' & _ & E). apply krelease_root in Hr. by rewrite Hr, E.
  - revert Hc. unfold claim. by intros [= _ <-].
  - unfold kdestroy. by destruct (Kernel.Destroy e id).
  - by eapply krelease_root.
Qed.
Lemma greach_root g g' : greach harnessPy g g' → Root (gm g') = Root (gm g).
Proof. induction 1 as [|g' g'' _ IH Hs]; [done|]. apply gstep_root in Hs. congruence. Qed.
Lemma Sweep_root m now sz m' ev : slots_ok {| gm := m; flights := [] |} → Session.Sweep m now sz = Some (m', ev) → Root m' = Root m.
Proof.
  intros Hok E. destruct (Sweep_steps harnessPy m [] now sz Hok) as (m1 & ev1 & E1 & Q). rewrite E in E1. injection E1 as <- <-.
  exact (greach_root _ _ Q).
Qed.
Lemma SweepKernels_root m now m' ev : slots_ok {| gm := m; flights := [] |} → SweepKernels m now = Some (m', ev) → Root m' = Root m.
Proof.
  intros Hok E. destruct (SweepKernels_steps harnessPy m [] now Hok) as (m1 & ev1 & E1 & Q). rewrite E in E1. injection E1 as <- <-.
  exact (greach_root _ _ Q).
Qed.
(** The sessions part of a beat. *)
Lemma sweeps_return minted d m x : sound minted d → d_sessions d = Some m →
  ∃ m' vs', sweep_sessions m (d_volumes d) x = Some (m', vs') ∧ server_ok {| Sessions := m'; Volumes := vs' |} ∧
    exact_fields m m' ∧ sheap m' = sheap m ∧ Root m' = Root m ∧
    match d_volumes d with
    | Some v => ∃ v', vs' = Some v' ∧ ∃ ids gs, ids ⊆ minted ∧ world_ok (Wd m' v' [] [] ids gs)
    | None => vs' = None
    end.
Proof.
  intros Hd Hm. destruct (sd_server _ _ Hd m Hm) as (S1 & _).
  destruct (Sweep_served harnessPy (srv d m) (b_now x) (b_size x) S1) as (m1 & ev1 & E1 & T1 & F1 & H1).
  destruct (SweepKernels_served harnessPy (after (srv d m) m1 ev1) (b_know x) T1) as (m2 & ev2 & E2 & T2 & F2 & H2).
  cbn [srv Sessions after] in E1, E2, F1, F2, H1, H2.
  exists m2, (on_drop (on_drop (d_volumes d) ev1) ev2). unfold sweep_sessions. rewrite E1. cbn [mbind option_bind]. rewrite E2.
  split; [done|]. split; [exact T2|]. split; [by etransitivity|]. split; [congruence|].
  split; [etransitivity; [by eapply SweepKernels_root, E2; apply T1|by eapply Sweep_root, E1; apply S1]|].
  destruct (d_volumes d) as [v|] eqn:Hv; [|by rewrite !on_drop_nothing].
  destruct (sd_world _ _ Hd m v Hm Hv) as (ids & gs & Hsub & Hw). destruct (sv_vols _ S1 v Hv) as (Hdrop & _).
  destruct (Sweep_runs m v (b_now x) (b_size x) m1 ev1 Hdrop E1) as (v1 & V1 & _ & R1).
  destruct (SweepKernels_runs m1 v1 (b_know x) m2 ev2 (eq_trans (proj2 (proj2 F1)) Hdrop) E2) as (v2 & V2 & _ & R2).
  destruct (R1 [] [] ids gs) as (g1 & W1). destruct (R2 [] [] ids g1) as (g2 & W2).
  rewrite V1, V2. exists v2. split; [done|]. exists ids, g2. split; [done|].
  eapply wreach_ok; [exact W2|]. by eapply wreach_ok.
Qed.
(** What a beat leaves of the daemon, part by part. *)
Lemma sound_parts minted d sess vs mem : sound minted d →
  (is_Some sess ↔ is_Some (d_sessions d)) → (is_Some vs ↔ is_Some (d_volumes d)) → (is_Some mem ↔ is_Some (d_memory d)) →
  (∀ m, sess = Some m → homes_ok m ∧ ∀ id, id ∈ map s_ID (sheap m) → Filepath.simple id) →
  (∀ m, sess = Some m → server_ok {| Sessions := m; Volumes := vs |} ∧ Session.Sema m = d_sema d ∧ Session.Reg m = d_reg d ∧
     ∀ id, id ∈ map s_ID (sheap m) → id ∈ minted) →
  (∀ m v, sess = Some m → vs = Some v → ∃ ids gs, ids ⊆ minted ∧ world_ok (Wd m v [] [] ids gs)) →
  (∀ v, vs = Some v → index_ok v) → (∀ s, mem = Some s → store_ok s) → sound minted (with_parts d sess vs mem).
Proof.
  intros [A1 (s & cfg & B1 & B2 & B3 & B4 & B5) A3 A0 A4 A5 A6] E1 E2 E3 H0 H1 H2 H3 H4. split; cbn; try done.
  exists s, cfg. do 2 (split; [done|]). rewrite B3, B4, B5.
  split; [|split]; by apply bool_decide_ext.
Qed.
Lemma sweep_ok m v x r vs : server_ok {| Sessions := m; Volumes := vs |} → vs = Some v →
  server_ok {| Sessions := m; Volumes := Some (Volume.Sweep v x r) |}.
Proof.
  intros [S1 S2] E. destruct (S2 v E) as (H1 & H2 & H3). split; [done|]. cbn. intros v' [= <-].
  destruct (volume_Sweep_steps v x r) as (l & El & Hl & Hh). split; [done|].
  split; [rewrite El; by apply lockless_index|]. eapply own_unlocks; [by apply unlocks_heap|done].
Qed.
Lemma tick_sound minted d x : sound minted d → (∀ s, d_memory d = Some s → handles_ok s (b_kv x)) →
  ∃ d', tick d x = Some d' ∧ sound minted d'.
Proof.
  intros Hd Hkv. unfold tick.
  assert (Hmem : ∀ s, (λ s, (SweepExpired s (b_kv x)).2) <$> d_memory d = Some s → store_ok s).
  { intros s. destruct (d_memory d) as [s0|] eqn:E; [|done]. intros [= <-]. apply sweep_expired_ok; [by apply Hd|by apply Hkv]. }
  assert (Hsw : ∀ v, index_ok v → index_ok (Volume.Sweep v (b_vol x) (b_vol_root x))).
  { intros v Hi. destruct (volume_Sweep_steps v (b_vol x) (b_vol_root x)) as (l & -> & Hl & _). by apply lockless_index. }
  assert (Hwd : ∀ m v ids gs, world_ok (Wd m v [] [] ids gs) → world_ok (Wd m (Volume.Sweep v (b_vol x) (b_vol_root x)) [] [] ids gs)).
  { intros m v ids gs Hw. destruct (volume_Sweep_steps v (b_vol x) (b_vol_root x)) as (l & -> & Hl & _). by apply lockless_world. }
  destruct (d_sessions d) as [m|] eqn:Hm.
  - destruct (sweeps_return minted d m x Hd Hm) as (m' & vs & -> & T & (F1 & F2 & F3) & Hh & Hroot & Hw). cbn [mbind option_bind].
    eexists. split; [done|]. destruct (sd_server _ _ Hd m Hm) as (S1 & S2 & S3 & S4).
    assert (Evs : is_Some vs ↔ is_Some (d_volumes d)).
    { destruct (d_volumes d); [destruct Hw as (v' & -> & _); by split|by subst vs]. }
    apply sound_parts; rewrite ?fmap_is_Some, ?Hm; try done.
    + intros m2 [= <-]. destruct (sd_homes _ _ Hd m Hm) as [K1 K2]. split; [by eapply homes_same|by rewrite Hh].
    + intros m2 [= <-]. split; [|split; [congruence|split; [congruence|by rewrite Hh]]].
      destruct vs as [v|]; [by eapply sweep_ok|exact T].
    + intros m2 v [= <-]. destruct vs as [v1|]; [|done]. intros [= <-].
      destruct (d_volumes d); [|done]. destruct Hw as (v' & [= <-] & ids & gs & Hsub & Hok). exists ids, gs. split; [done|by apply Hwd].
    + intros v. destruct vs as [v1|] eqn:Ev; [|done]. intros [= <-]. apply Hsw. by apply (sv_vols _ T v1).
  - cbn [mbind option_bind]. eexists. split; [done|]. apply sound_parts; rewrite ?fmap_is_Some, ?Hm; try done.
    intros v. destruct (d_volumes d) as [v1|] eqn:Ev; [|done]. intros [= <-]. by apply Hsw, Hd.
Qed.
Lemma hup_sound minted d doc : sound minted d → sound minted (hup uni_lower d doc).
Proof.
  intros [A1 A2 A3 A0 A4 A5 A6]. split; cbn; try done.
  - destruct A2 as (s & cfg & B1 & B2 & B3 & B4). exists s, cfg. do 2 (split; [done|]). split; [|done]. rewrite B3. by destruct (d_sessions d).
  - intros m. destruct (d_sessions d) as [m0|]; [|done]. cbn. intros [= <-].
    destruct (A3 m0 eq_refl) as ([S1 S2] & B2 & B3 & B4). split; [|done]. split; [|exact S2].
    eapply same_ok; [|exact S1]. split; try done. intros e E. by exists e.
  - intros m. destruct (d_sessions d) as [m0|]; [|done]. cbn. intros [= <-]. exact (A0 m0 eq_refl).
  - intros m v. destruct (d_sessions d) as [m0|]; [|done]. cbn. intros [= <-] Hv.
    destruct (A4 m0 v eq_refl Hv) as (ids & gs & B1 & B2). exists ids, gs. split; [done|].
    eapply quiet_ok; [by apply (quiet_same m0)|done].
Qed.
Lemma booted_sound minted d boot : sound minted d → sound minted (booted d boot).
Proof. by intros [A1 A2 A3 A0 A4 A5 A6]. Qed.
Lemma guest_sound minted d (t : Volume.tree) : sound minted d → sound minted (guest d t).
Proof.
  intros Hd. unfold guest. destruct (d_volumes d) as [v|] eqn:Hv; [|done].
  destruct Hd as [A1 A2 A3 A0 A4 A5 A6]. split; cbn; try done.
  - destruct A2 as (s & cfg & B1 & B2 & B3 & B4 & B5). exists s, cfg. do 3 (split; [done|]). split; [by rewrite B4, Hv|done].
  - intros m Hm. destruct (A3 m Hm) as ([S1 S2] & B). split; [|done]. split; [done|]. cbn. intros v' [= <-].
    destruct (S2 v Hv) as (C1 & C2 & C3). done.
  - intros m v' Hm [= <-]. destruct (A4 m v Hm Hv) as (ids & gs & B1 & B2). exists ids, gs. split; [done|].
    by apply (lockless_world m v [SGuest t]); [by constructor|].
  - intros v' [= <-]. exact (A5 v Hv).
Qed.
Lemma work_sound minted (p : process W DB L) x payload : sound minted (p_d p) → ∃ p', work uni_lower p x payload = Some p' ∧
  sound minted (p_d p') ∧ p_files p' = p_files p ∧ ∀ t, apart t (p_d p) (p_d p').
Proof.
  intros Hd. assert (Hp : ∃ p', Some p = Some p' ∧ sound minted (p_d p') ∧ p_files p' = p_files p ∧ ∀ t, apart t (p_d p) (p_d p')).
  { exists p. do 3 (split; [done|]). intros t. by apply apart_parts. }
  unfold work. destruct (d_queue (p_d p)); [|done]. destruct (decodeJob payload) as [j|]; [|done].
  destruct (sd_lim _ _ Hd) as [Hl H0].
  destruct (submit_spec (Q := InProc (exec_of uni_lower (p_d p) x)) (d_sema (p_d p)) (n_late x) (j_Spec j) Hl)
    as (r & l' & log & E & H1 & H2 & _). cbn [ApiExec.Submit InProc] in E. rewrite E. cbn [mbind option_bind].
  eexists. split; [done|]. split; [by apply sound_run; [|done|congruence]|]. split; [done|]. intros t. apply apart_run.
Qed.

(** ** The files *)

(** What a request of tenant [t] leaves as it was: also the workspace of every session of another tenant. *)
Record spared t (p p' : process W DB L) : Prop := {
  fr_apart : apart t (p_d p) (p_d p');
  fr_files n s q : session_at (p_d p) n = Some s → s_Tenant s ≠ t → under (s_Workspace s) q = true →
    p_files p' !! q = p_files p !! q }.
Lemma spared_same t (p p' : process W DB L) : apart t (p_d p) (p_d p') → p_files p' = p_files p → spared t p p'.
Proof. intros H E. split; [done|]. intros n s q _ _ _. by rewrite E. Qed.
Lemma session_home minted d m n s : sound minted d → d_sessions d = Some m → sheap m !! n = Some s →
  s_Workspace s = Filepath.Join [Root m; s_ID s; "workspace"] ∧ Filepath.simple (s_ID s).
Proof.
  intros Hd Hm Hs. destruct (sd_homes _ _ Hd m Hm) as [H1 H2]. split; [exact (proj1 (Forall_lookup _ _) H1 n s Hs)|].
  apply H2, list_elem_of_fmap_2. by eapply list_elem_of_lookup_2.
Qed.
Lemma spared_events minted (p : process W DB L) d' o m t id ev : sound minted (p_d p) → d_sessions (p_d p) = Some m →
  Filepath.simple id → (∀ n s, sheap m !! n = Some s → s_ID s = id → s_Tenant s = t) →
  Forall (confined (Root m) id) ev → apart t (p_d p) d' →
  spared t p (with_files (with_daemon p d') (file_events o (p_files p) ev)).
Proof.
  intros Hd Hm Hid Ho Hev Hap. split; [done|]. intros n s q Hs Hne Hq. unfold session_at in Hs. rewrite Hm in Hs. cbn in Hs.
  destruct (session_home _ _ _ _ _ Hd Hm Hs) as [Hw Hsid]. cbn.
  apply (file_events_elsewhere o ev (Root m) id (s_ID s)); [done|done| |done|by rewrite <- Hw].
  intros ->. by destruct Hne; eapply Ho.
Qed.
(** An id that opens a session of [t] is that of no other tenant's session. *)
Lemma authed_owner m id token t p n s : slots_ok {| gm := m; flights := [] |} → t ≠ "" → authed m id token t = Ok p →
  sheap m !! n = Some s → s_ID s = id → s_Tenant s = t.
Proof.
  intros Hok Ht Ha Hs Hid. destruct (authed_loc _ _ _ _ _ _ Hok Ha) as (Hlt & Hpid & _).
  destruct (lookup_lt_is_Some_2 _ _ Hlt) as [s' Hs']. rewrite (the_session_id _ _ _ Hs') in Hpid.
  assert (n = p) as ->.
  { apply (NoDup_lookup (map s_ID (sheap m)) n p id); [apply (so_ids _ Hok)| |]; rewrite list_lookup_fmap, ?Hs, ?Hs'; cbn; congruence. }
  by apply (authed_tenant _ _ _ _ _ Ht Ha).
Qed.
Lemma spared_granted minted (p : process W DB L) d' o m t ctx id token ev : sound minted (p_d p) → d_sessions (p_d p) = Some m →
  speaks ctx t → ev = [] ∨ granted (srv (p_d p) m) ctx id token →
  (Filepath.simple id → Forall (confined (Root m) id) ev) → apart t (p_d p) d' →
  spared t p (with_files (with_daemon p d') (file_events o (p_files p) ev)).
Proof.
  intros Hd Hm Hctx [->|(t' & q & Ht & Ha)] Hev Hap; [by apply spared_same|]. destruct (Hctx t' Ht) as [-> Hne].
  destruct (sd_server _ _ Hd m Hm) as (S1 & _). cbn [srv Sessions] in Ha.
  destruct (authed_loc _ _ _ _ _ _ (sv_slots _ S1) Ha) as (Hlt & Hid & _). destruct (lookup_lt_is_Some_2 _ _ Hlt) as [s Hs].
  cbn [srv Sessions] in Hs, Hid. rewrite (the_session_id _ _ _ Hs) in Hid. destruct (session_home _ _ _ _ _ Hd Hm Hs) as [_ Hsim]. rewrite Hid in Hsim.
  apply (spared_events minted p d' o m t id ev); [done..| |by apply Hev|done].
  intros n s' Hn Hid'. exact (authed_owner m id token t q n s' (sv_slots _ S1) Hne Ha Hn Hid').
Qed.

(** A daemon that booted. *)
Lemma boot_sound o d : boot uni_lower o = Some d → files_ok o → sound ∅ d.
Proof.
  intros Hb Hf. pose proof (boot_ready_lemma uni_lower o d Hb) as Hr. split.
  - destruct (rd_sema _ _ _ Hr) as (H1 & _ & H2). done.
  - destruct (rd_routes _ _ _ Hr) as (s & cfg & ER). destruct (rd_enabled _ _ _ Hr) as (H1 & H2 & H3). exists s, cfg.
    rewrite ER. rewrite <- H1, <- H2, <- H3. cbn [Router] in ER. by injection ER as <- _ _.
  - intros m Hm. destruct (rd_sessions _ _ _ Hr m Hm) as (H1 & H2 & H3 & H4). split; [|split; [done|split; [done|]]].
    + split; [by apply fresh_ok|]. cbn. intros v Hv. destruct (rd_volumes _ _ _ Hr v Hv) as [Hi Hu].
      split; [by rewrite H2, Hv|]. split; [done|]. intros q x Hx Hn. by apply (proj1 (Forall_lookup _ _) Hu) in Hx.
    + destruct H1 as (_ & H1 & _). rewrite H1. by intros id ?%elem_of_nil.
  - intros m Hm. destruct (rd_sessions _ _ _ Hr m Hm) as ((_ & H1 & _) & _). unfold homes_ok. rewrite H1.
    split; [constructor|by intros id ?%elem_of_nil].
  - intros m v Hm Hv. destruct (boot_world uni_lower o d m v Hr Hm Hv) as [Hw _]. exists ∅, ∅. split; [done|]. by apply fresh_world_ok.
  - intros v Hv. by apply (rd_volumes _ _ _ Hr v Hv).
  - intros s Hs. by apply (rd_memory _ _ _ Hr s Hs).
Qed.
End daemon.
