(* ===== verification/DaemonSpec.v ===== *)
(** * The daemon serves, and keeps tenants apart

    The composition: whatever requests, ticks and reloads a daemon that booted is given, it
    answers each of them, no slot or lock is lost on the way, and a request changes nothing of a tenant that is
    not its own. *)

From S2P Require Import Prelude GoLib GoStrings GoCodec GoFloat Sched Auth Bolt KV KVSpec KVStore KVWitness Volume VolumeSpec Executor WarmPool Registry ApiExec Kernel KernelSpec Session SessionSlots SessionSpec ApiHttp Queue QueueWire QueueSpec QueueEquiv RateLimit RateLimitSpec ApiKV ApiVolumes ApiSessions ApiBodies SessionVolumes ApiSessionsSpec SessionFrame VolumeFrame ApiFrame Workspace WorkspaceFrame Web Router Health Main Daemon MainSpec DaemonFrame.

Section spec.
Context {W : Type} {SW : Weighted W} {SWS : WeightedSpec W} {DB : Type} {BO : Bolt DB} {BS : BoltSpec DB}.
Context {RC : RecordCodec} {RS : RecordCodecSpec} {L : Type} {BK : Bucket L} {MX : Mux} {MS : MuxSpec} {WR : Wire}.
Context (uni_lower : string → string) (harnessPy : string) (format_g : float → string) (files : embedded).
Implicit Types (d : daemon W DB L) (p : process W DB L) (minted : gset string) (t : string).

(** ** What the outside world grants *)

(** A request: the uuids are new and well-formed, a kernel whose step runs out of time is gone once it was killed
    ([kernel_yields]), the clock reads 1970 or later, and the broker of a remote queue waits in BLPOP as long as it was told ([polls_wait]). *)
Record fair minted (x : seen) : Prop := {
  fair_session : MintID (c_uuid (hc_create (n_create x))) ∉ minted;
  fair_simple : Filepath.simple (MintID (c_uuid (hc_create (n_create x))));
  fair_volume : idRe ("vol_" +:+ v_uuid (n_vol x)) = true;
  fair_kernel : kernel_yields (n_kernel x);
  fair_clock : 0 ≤ now (n_kv x);
  fair_queue : polls_wait (n_submit x) }.
Definition mints (i : input) : gset string :=
  match i with Request x _ => {[MintID (c_uuid (hc_create (n_create x)))]} | _ => ∅ end.
Definition admissible minted p (i : input) : Prop :=
  match i with
  | Request x _ => fair minted x
  | Beat b _ => ∀ s, d_memory (p_d p) = Some s → handles_ok s (b_kv b)
  | _ => True
  end.
Abbreviation reacts := (react uni_lower harnessPy format_g files).
Abbreviation lives := (life uni_lower harnessPy format_g files).
Fixpoint fits minted p (l : list input) : Prop :=
  match l with
  | [] => True
  | i :: l => admissible minted p i ∧ ∀ a p', reacts p i = Some (a, p') → fits (mints i ∪ minted) p' l
  end.

(** The tenant the middleware will find. *)
Definition tenant_of d (q : incoming) : option string :=
  match Middleware.authMiddleware (s_gate (d_server d)) (r_headers (in_req q)) None with
  | Middleware.Next ctx => match Middleware.reqTenant ctx with inl t => Some t | inr _ => None end
  | _ => None
  end.
Lemma reqTenant_nonempty ctx t : Middleware.reqTenant ctx = inl t → t ≠ "".
Proof.
  unfold Middleware.reqTenant, KeyStore.TenantFrom. destruct ctx as [u|]; [|done].
  destruct (String.eqb_spec u ""); [done|]. cbn. by intros [= <-].
Qed.

Lemma tenant_nonempty d q t : tenant_of d q = Some t → t ≠ "".
Proof.
  unfold tenant_of. destruct (Middleware.authMiddleware _ _ _) as [| | |ctx]; try done.
  destruct (Middleware.reqTenant ctx) eqn:E; [|done]. intros [= <-]. by apply reqTenant_nonempty in E.
Qed.
Lemma fair_less minted minted' x : minted ⊆ minted' → fair minted' x → fair minted x.
Proof. intros H []. split; [set_solver|done..]. Qed.

(** ** One request *)
Lemma queue_spec_of d x minted : fair minted x → ApiExec.QueueSpec (queue_of uni_lower d x).
Proof. intros Hf. unfold queue_of. destruct (d_queue d); [apply RemoteQueue_spec, Hf|apply _]. Qed.

Section dispatch.
Context minted p (x : seen) (q : incoming) t (ctx : KeyStore.Context).
Hypothesis Hd : sound minted (p_d p).
Hypothesis Hf : fair minted x.
Hypothesis Hctx : speaks ctx t.
Let minted' := {[MintID (c_uuid (hc_create (n_create x)))]} ∪ minted.
(** A step of the daemon that answers, keeps the invariant and leaves the other tenants alone. *)
Definition serves (o : option (answer * process W DB L)) : Prop :=
  ∃ a p', o = Some (a, p') ∧ sound minted' (p_d p') ∧ spared t p p'.
Lemma serves_some a p' : sound minted' (p_d p') → spared t p p' → serves (Some (a, p')).
Proof. intros. by exists a, p'. Qed.
Lemma serves_old a p' : sound minted (p_d p') → apart t (p_d p) (p_d p') → p_files p' = p_files p → serves (Some (a, p')).
Proof. intros. apply serves_some; [|by apply spared_same]. apply (sound_more minted); [unfold minted'; set_solver|done]. Qed.

Lemma public_serves h : is_open h = true → serves (public format_g files p x h q).
Proof.
  assert (Hdone : ∀ a p', p_d p' = p_d p → p_files p' = p_files p → serves (Some (a, p'))).
  { intros a p' E E'. apply serves_old; rewrite ?E; [done|by apply apart_parts|done]. }
  destruct h; try done; intros _; cbn [public]; try by apply Hdone.
Qed.
Lemma execute_serves limit : serves (execute uni_lower p x limit q).
Proof.
  unfold execute. cbv zeta. destruct (sd_lim _ _ Hd) as [Hl H0].
  match goal with |- context [handleExecute _ _ _ _ _ _ _ _ _ ?body] =>
    destruct (execute_returns (H := queue_of uni_lower (p_d p) x) (QueueSpec0 := queue_spec_of (p_d p) x minted Hf) uni_lower backend_name (exec_of uni_lower (p_d p) x) (d_reg (p_d p))
      (d_sema (p_d p)) (n_late x) (n_flusher x) (in_header q "Accept") (in_query q "stream") body Hl) as (rep & l & log & E & Hl' & Hu)
  end.
  rewrite E. cbn [mbind option_bind]. apply serves_old; cbn [p_d]; [|apply apart_run|done]. apply sound_run; [done|done|congruence].
Qed.
Lemma memory_serves h ps limit : of_memory h = true → is_Some (d_memory (p_d p)) → serves (memory_api p x h ps ctx limit q).
Proof.
  intros Hh [s Hs]. unfold memory_api. rewrite Hs. cbn [mbind option_bind]. cbv zeta.
  assert (Hop : ∀ a o s', op_ok o → op_tenant o = Some t → s' = s ∨ s' = exec_op s o →
    serves (Some (a, with_daemon p (with_memory (p_d p) s')))).
  { intros a o s' Ho Ht E. destruct (memory_op_api minted (p_d p) s o t s' Hd Hs Ho Ht E). by apply serves_old. }
  destruct h; try done.
  - destruct (memory_put_api minted (p_d p) s (n_kv x) (n_statfs x) ctx (param ps "namespace") (param ps "key")
      (read_body limit (in_body q)) (in_header q "X-TTL-Seconds") (in_header q "Content-Type") t Hd Hs Hctx (fair_clock _ _ Hf)).
    by apply serves_old.
  - apply (Hop _ (OGet (n_kv x) t (param ps "namespace") (param ps "key"))); [done|done|]. unfold handleKVGet.
    destruct (Middleware.reqTenant ctx) as [t'|]; [|by left]. destruct (Hctx t' eq_refl) as [-> _]. cbn [exec_op].
    right. destruct (KV.Get _ _ _ _ _) as [[[[[? ?] ?] ?]|?] s']; [|done]. by case_match.
  - apply (Hop _ (ODelete (n_kv x) t (param ps "namespace") (param ps "key"))); [done|done|]. unfold handleKVDelete.
    destruct (Middleware.reqTenant ctx) as [t'|]; [|by left]. destruct (Hctx t' eq_refl) as [-> _]. cbn [exec_op].
    right. by destruct (KV.Delete _ _ _ _ _) as [[]].
  - set (n := if String.eqb (in_query q "limit") "" then 0 else (Atoi (in_query q "limit")).1).
    apply (Hop _ (OList (n_kv x) t (param ps "namespace") (in_query q "prefix") n (in_query q "cursor"))); [done|done|].
    unfold handleKVList.
    destruct (Middleware.reqTenant ctx) as [t'|]; [|by left]. destruct (Hctx t' eq_refl) as [-> _]. cbn [exec_op].
    right. fold n. by destruct (KV.List _ _ _ _ _ _ _) as [[[? ?]|?] s'].
Qed.
Lemma volumes_serves h ps : of_volumes h = true → is_Some (d_volumes (p_d p)) → serves (volumes_api p x h ps ctx q).
Proof.
  intros Hh [v Hv]. unfold volumes_api. rewrite Hv. cbn [mbind option_bind]. cbv zeta.
  destruct (same_volumes minted (p_d p) v t Hd Hv) as [S1 S2].
  destruct h; try done; try by apply serves_old.
  - destruct (handleCreateVolume _ _ _ _) as [r v'] eqn:E.
    destruct (volume_create_api minted (p_d p) v _ ctx _ t r v' Hd Hv Hctx (fair_volume _ _ Hf) E). by apply serves_old.
  - destruct (handleDeleteVolume _ _ _ _) as [r v'] eqn:E.
    destruct (volume_delete_api minted (p_d p) v _ ctx _ t r v' Hd Hv Hctx E). by apply serves_old.
Qed.
Local Abbreviation uuid := (MintID (c_uuid (hc_create (n_create x)))).
Lemma sessions_serves h ps limit : of_sessions h = true → is_Some (d_sessions (p_d p)) →
  serves (sessions_api uni_lower harnessPy p x h ps ctx limit q).
Proof.
  intros Hh [m Hm]. unfold sessions_api. cbv zeta. rewrite Hm. cbn [mbind option_bind]. fold (srv (p_d p) m).
  pose proof (fair_simple _ _ Hf) as Hsim.
  destruct (sd_server _ _ Hd m Hm) as (S1 & _ & _ & S4). destruct (sd_homes _ _ Hd m Hm) as [Hhomes _].
  pose proof (sv_slots _ S1) as Hslots. cbn [srv Sessions] in Hslots.
  assert (Hsame : ∀ a ev, ev = [] ∨ granted (srv (p_d p) m) ctx (param ps "id") (sessionToken q) →
    (Filepath.simple (param ps "id") → Forall (confined (Root m) (param ps "id")) ev) →
    serves (Some (a, with_files (with_daemon p (with_server (p_d p) (srv (p_d p) m))) (file_events (n_os x) (p_files p) ev)))).
  { intros a ev Hg Hc. destruct (same_server minted (p_d p) m t uuid Hd Hm Hsim). apply serves_some; [done|]. by eapply spared_granted. }
  destruct h; try done.
  - destruct (create_api uni_lower harnessPy minted (p_d p) m (create_env x (p_files p) m) ctx (decode_create limit (in_body q)) t
      Hd Hm Hctx (fair_session _ _ Hf) Hsim) as (r & s' & ev & E & H1 & H2). rewrite E. cbn [mbind option_bind]. apply serves_some; [done|].
    assert (Hfresh : uuid ∉ map s_ID (sheap m)) by (intros Hin; by apply (fair_session _ _ Hf), S4).
    apply (spared_events minted p _ (n_os x) m t uuid ev); [done..| | |done].
    + intros n s Hn Hid'. destruct Hfresh. rewrite <- Hid'. apply list_elem_of_fmap_2. by eapply list_elem_of_lookup_2.
    + exact (create_confined uni_lower harnessPy (srv (p_d p) m) (create_env x (p_files p) m) ctx _ r s' ev S1 Hhomes Hfresh Hsim E).
  - destruct (exec_api uni_lower minted (p_d p) m backend_name (Execute uni_lower (d_gv (p_d p)) (n_cold x)) (exec_env x q) ctx (param ps "id")
      (sessionToken q) (decode_exec limit (in_body q)) t uuid Hd Hm Hctx Hsim (fair_kernel _ _ Hf))
      as (r & s' & ran & -> & H1 & H2). cbn [mbind option_bind]. apply serves_some; [done|]. by apply spared_same.
  - apply Hsame; [by left|constructor].
  - destruct (handleSessionFSPut _ _ _ _ _ _ _ _) as [[r s'] ev] eqn:E.
    destruct (put_api minted (p_d p) m _ _ ctx _ _ _ _ t uuid r s' ev Hd Hm Hctx Hsim E).
    apply serves_some; [done|]. eapply spared_granted; [done|done|done|by eapply put_granted| |done].
    intros Hid. exact (put_confined (srv (p_d p) m) _ _ _ _ _ _ _ _ _ _ Hslots Hhomes Hid E).
  - destruct (handleSessionFSDelete _ _ _ _ _ _ _) as [r ev] eqn:E. apply Hsame.
    + pose proof (delete_granted (srv (p_d p) m) (fs_of (p_files p) (n_os x)) (n_enoent x) ctx (param ps "id") (sessionToken q) (in_query q "path")) as H.
      by rewrite E in H.
    + intros Hid. pose proof (delete_confined (srv (p_d p) m) (fs_of (p_files p) (n_os x)) (n_enoent x) ctx (param ps "id") (sessionToken q)
        (in_query q "path") Hslots Hhomes Hid) as H. by rewrite E in H.
  - destruct (destroy_api harnessPy minted (p_d p) m (f_rm (fs_of (p_files p) (n_os x))) ctx (param ps "id") (sessionToken q) t
      uuid Hd Hm Hctx Hsim) as (r & s' & ev & E & H1 & H2). rewrite E. cbn [mbind option_bind]. apply serves_some; [done|].
    eapply spared_granted; [done|done|done|by eapply destroy_granted| |done].
    intros Hid. exact (destroy_confined (srv (p_d p) m) _ _ _ _ _ _ _ Hslots Hhomes Hid E).
Qed.
Lemma dispatch_serves h ps limit : (of_sessions h = true → is_Some (d_sessions (p_d p))) →
  (of_volumes h = true → is_Some (d_volumes (p_d p))) → (of_memory h = true → is_Some (d_memory (p_d p))) →
  serves (dispatch uni_lower harnessPy format_g files p x h ps ctx limit q).
Proof.
  intros E1 E2 E3. destruct h; cbn [dispatch]; first [by apply public_serves|apply execute_serves
    |by apply sessions_serves, E1|by apply volumes_serves, E2|by apply memory_serves, E3].
Qed.
End dispatch.

Lemma through_public {g i now r ctx limit i'} rt : chain_ok rt → is_open (m_handler rt) = true →
  through (L := L) g i now r None None (m_chain rt) = (Reach ctx limit, i') → ctx = None.
Proof. intros [[_ ->]|[? _]] Ho; [by intros [= <- _ _]|congruence]. Qed.
Lemma handle_serves minted p x q t : sound minted (p_d p) → fair minted x →
  (∀ t', tenant_of (p_d p) q = Some t' → t' = t) →
  serves minted p x t (handle uni_lower harnessPy format_g files p x q).
Proof.
  intros Hd Hf Ht. unfold handle. cbv zeta. destruct (serve _ _ _ _ _) as [v i] eqn:Es.
  set (p1 := with_daemon p (with_limiter (p_d p) i)).
  assert (H1 : sound minted (p_d p1)) by (by apply sound_limiter).
  assert (Hdone : ∀ a, serves minted p x t (Some (a, p1))).
  { intros a. apply (serves_old minted p x t None Hd Hf); [done|done|by apply apart_parts|done]. }
  destruct v as [| |r|h ps ctx limit]; try apply Hdone.
  destruct (sd_table _ _ Hd) as (s & cfg & B1 & B2 & B3 & B4 & B5).
  revert Es. unfold serve. destruct (String.eqb _ "OPTIONS"); [done|].
  destruct (find_route _ _ _) as [[rt ps']|] eqn:Ef; [|done]. apply find_sound in Ef as [Hin _]. rewrite B1 in Hin.
  destruct (through _ _ _ _ _ _ _) as [[stop|ctx' limit'] i1] eqn:Et; [done|]. intros [= <- <- <- <- <-].
  pose proof (proj1 (Forall_forall _ _) (table_ok s cfg) rt Hin) as Hc.
  destruct (table_enabled s cfg rt Hin) as (E1 & E2 & E3). rewrite B3 in E1. rewrite B4 in E2. rewrite B5 in E3.
  assert (Hctx : speaks ctx' t).
  { intros t' Hreq. pose proof (reqTenant_nonempty _ _ Hreq). cut (t' = t); [by intros ->|]. apply Ht.
    destruct (is_open (m_handler rt)) eqn:Ho.
    - by rewrite (through_public rt Hc Ho Et) in Hreq.
    - destruct (through_reach _ _ _ _ _ _ _ _ Hc Ho Et) as (_ & _ & Ha & _). unfold tenant_of. by rewrite Ha, Hreq. }
  destruct (dispatch_serves minted p1 x q t ctx' H1 Hf Hctx (m_handler rt) ps' limit') as (a & p' & E & S1 & S2).
  - intros H. by apply E1, bool_decide_eq_true in H.
  - intros H. by apply E2, bool_decide_eq_true in H.
  - intros H. by apply E3, bool_decide_eq_true in H.
  - exists a, p'. split; [exact E|]. split; [done|]. destruct S2 as [[C1 C2 C3 C4] C5]. by split; [split|].
Qed.

(** ** A life *)
Lemma react_sound minted p i : sound minted (p_d p) → admissible minted p i →
  ∃ a p', reacts p i = Some (a, p') ∧ sound (mints i ∪ minted) (p_d p').
Proof.
  intros Hd Ha. destruct i as [x q|x payload|b o|doc|boot|tr|n T]; cbn [react mints].
  - destruct (handle_serves minted p x q (default "" (tenant_of (p_d p) q)) Hd Ha) as (a & p' & -> & H & _).
    { by intros t' ->. }
    cbn. by eexists _, _.
  - destruct (work_sound uni_lower minted p x payload Hd) as (p' & -> & H & _). cbn. eexists _, _. split; [done|].
    by rewrite union_empty_l_L.
  - cbv zeta. destruct (tick_sound harnessPy minted (p_d p) (measured b (p_files p)) Hd Ha) as (d' & -> & H). cbn. eexists _, _. split; [done|].
    by rewrite union_empty_l_L.
  - eexists _, _. split; [done|]. rewrite union_empty_l_L. by apply hup_sound.
  - eexists _, _. split; [done|]. rewrite union_empty_l_L. by apply booted_sound.
  - eexists _, _. split; [done|]. rewrite union_empty_l_L. by apply guest_sound.
  - eexists _, _. split; [done|]. rewrite union_empty_l_L. by destruct (session_at (p_d p) n).
Qed.
Lemma life_sound l : ∀ minted p, sound minted (p_d p) → fits minted p l →
  ∃ answers p' minted', lives p l = Some (answers, p') ∧ List.length answers = List.length l ∧ sound minted' (p_d p') ∧ minted ⊆ minted' ∧
    ∀ l', fits minted p (l ++ l') → fits minted' p' l'.
Proof.
  induction l as [|i l IH]; intros minted p Hd; cbn [fits life].
  { intros _. by exists [], p, minted. }
  intros [Ha Hl]. destruct (react_sound minted p i Hd Ha) as (a & p1 & E & H1). rewrite E. cbn [mbind option_bind].
  destruct (IH _ p1 H1 (Hl a p1 E)) as (answers & p' & minted' & -> & Hlen & H2 & Hsub & H3). cbn [mbind option_bind].
  eexists _, _, minted'. split; [done|]. split; [cbn; by f_equal|]. split; [done|]. split; [set_solver|].
  intros l' [_ H]. apply H3. by apply (H a p1).
Qed.

(** C2: the daemon answers.  From any start-up whose databases on the disk are well-formed, whatever subsystems came up
    and whatever queue driver is configured, and whatever
    requests, turns of the queue's workers, beats of the ticker, reloads, container boots and writes of programs follow, each is answered: no handler dereferences
    a subsystem that is missing, no semaphore panics, no call waits for ever; and when the last one is
    answered every execution slot is free again, the kernel slots in use are exactly those of the sessions
    that have a kernel, a volume is only locked by a session that exists and is of the volume's own tenant, and the
    store is well-formed.  Of the outside it takes ([fits]) that uuids are new and well-formed, that the clock reads 1970 or later,
    that the kernel container of a step that ran out of time ends once it is killed, that BLPOP waits for its timeout, and that a beat sweeps
    databases the store has open; calls of docker and of the file system return. *)
Theorem daemon_serves o T d l : boot uni_lower o = Some d → files_ok o → fits ∅ (launched d T) l →
  ∃ answers p, lives (launched d T) l = Some (answers, p) ∧ List.length answers = List.length l ∧
    inUse (d_sema (p_d p)) = 0 ∧
    (∀ m, d_sessions (p_d p) = Some m →
       Session.Sema m = d_sema (p_d p) ∧ Session.Reg m = d_reg (p_d p) ∧
       (∃ e, Session.Kernels m = Some e ∧ inUse (Slots e) = in_table m) ∧
       ∀ v, d_volumes (p_d p) = Some v → ∀ k q y, vols v !! k = Some q → heap v !! q = Some y → rwHolder y ≠ "" →
         ∃ n s, sessions m !! rwHolder y = Some n ∧ sheap m !! n = Some s ∧ s_Tenant s = Tenant y) ∧
    (∀ s, d_memory (p_d p) = Some s → store_ok s).
Proof.
  intros Hb Hf Hl. destruct (life_sound l ∅ (launched d T)) as (answers & p & minted & E & Hlen & Hd & _ & _);
    [by apply (boot_sound uni_lower o)|done|].
  exists answers, p. do 2 (split; [done|]). split; [apply Hd|]. split; [|apply Hd].
  intros m Hm. destruct (sd_server _ _ Hd m Hm) as ([S1 S2] & S3 & S4 & _). do 2 (split; [done|]). split.
  - destruct (so_count _ S1) as (e & He & _ & Hc). exists e. split; [done|]. cbn in Hc. rewrite Hc. unfold in_flight. cbn. lia.
  - intros v Hv k q y Hk Hq Hn. destruct (sd_world _ _ Hd m v Hm Hv) as (ids & gs & _ & Hw).
    destruct (S2 v Hv) as (_ & _ & Ho). destruct (Ho q y Hq Hn) as (n & s & Hs & Hid & Ht). cbn [srv Sessions] in Hs.
    assert (Hlive : is_Some (sessions m !! rwHolder y)).
    { destruct (wo_holder _ Hw q (rwHolder y)) as [H|[H|H]]; [split; [by exists y|by exists k]|done|done| |];
        by apply elem_of_nil in H. }
    destruct Hlive as [n' Hn']. destruct (so_table _ S1 (rwHolder y) n' Hn') as (s' & Hs' & Hid' & _). cbn in Hs'.
    assert (n' = n) as ->.
    { apply (NoDup_lookup (map s_ID (sheap m)) n' n (rwHolder y)); [apply (so_ids _ S1)| |].
      - rewrite list_lookup_fmap, Hs'. cbn. by rewrite Hid'.
      - rewrite list_lookup_fmap, Hs. cbn. by rewrite Hid. }
    by exists n, s.
Qed.

(** What a request that runs no guarded handler leaves as it was: everything but the limiter and the metrics. *)
Definition untouched (p p' : process W DB L) : Prop :=
  d_sessions (p_d p') = d_sessions (p_d p) ∧ d_volumes (p_d p') = d_volumes (p_d p) ∧ d_memory (p_d p') = d_memory (p_d p) ∧
  p_files p' = p_files p.
Definition guarded p (x : seen) (q : incoming) : bool :=
  match (serve (s_gate (d_server (p_d p))) (d_routes (p_d p)) (d_limiter (p_d p)) (n_now x) (in_req q)).1 with
  | Handled h _ _ _ => negb (is_open h)
  | _ => false
  end.
Lemma unguarded_untouched p x q a p' : guarded p x q = false →
  handle uni_lower harnessPy format_g files p x q = Some (a, p') → untouched p p'.
Proof.
  unfold guarded, handle. cbv zeta. destruct (serve _ _ _ _ _) as [v i]. cbn [fst].
  destruct v as [| |r|h ps ctx limit]; try (by intros _ [= _ <-]). intros Ho%negb_false_iff.
  destruct h; try discriminate Ho; cbn [dispatch public]; try (by intros [= _ <-]).
Qed.
Lemma fits_app l l' : ∀ minted p, fits minted p (l ++ l') → fits minted p l.
Proof.
  induction l as [|i l IH]; intros minted p; [done|]. intros [H1 H2]. split; [done|]. intros a p' E. apply IH. by eapply H2.
Qed.

(** C1: tenants are isolated end to end.  After any life of the daemon (as in C2), a request changes no
    session, no file of a workspace, no volume (its lock included) and no record of a tenant other than the one its key resolves to,
    whichever route it takes, whatever ids, names, paths and bodies it carries, and however it ends; and a request that
    runs no guarded handler (refused by the limiter or for its key, without a route, a preflight, or for a public page) changes none at all, also
    not its own tenant's. *)
Theorem daemon_isolation o T d l x q t answers p : boot uni_lower o = Some d → files_ok o →
  fits ∅ (launched d T) (l ++ [Request x q]) → lives (launched d T) l = Some (answers, p) →
  (∀ t', tenant_of (p_d p) q = Some t' → t' = t) →
  ∃ a p', handle uni_lower harnessPy format_g files p x q = Some (a, p') ∧ spared t p p' ∧
    (guarded p x q = false → untouched p p').
Proof.
  intros Hb Hf Hl Hlife Ht.
  destruct (life_sound l ∅ (launched d T)) as (answers' & p2 & minted & E & _ & Hd & _ & Hnext);
    [by apply (boot_sound uni_lower o)|by eapply fits_app|].
  rewrite E in Hlife. injection Hlife as -> ->. destruct (Hnext _ Hl) as [Hfair _].
  destruct (handle_serves minted p x q t Hd Hfair Ht) as (a & p' & Ea & _ & Hap). exists a, p'.
  split; [done|]. split; [done|]. intros Hg. by eapply unguarded_untouched.
Qed.
End spec.

(** ** A daemon at work *)
#[local] Existing Instance KVWitness.simple_codec.
#[local] Existing Instance KVWitness.simple_codec_spec.
Definition demo_files : embedded := {| f_index := "<html>"; f_llms := ""; f_openapi := ""; f_assets _ := None |}.
Definition demo_step : kxenv := {| kx_uuid := "x"; kx_write := true; kx_lines := [{| a_line := None; a_late := false; a_ms := 0 |}]; kx_killed := None; kx_now := 0 |}.
Definition demo_os : osenv := {|
  os_reads _ := true; os_mkdir := true; os_write := true; os_rm := true; os_made _ := false; os_wrote := None; os_left _ := false; os_now := 5 |}.
Definition demo_submission : submission := {|
  sq_now := 0; sq_ctx := None; sq_xok := true; sq_uuid := "j"; sq_lang := demo_python;
  sq_polls := replicate 61 {| po_now := 0; po_out := PErr; po_ctx := false |} |}.
Definition demo_seen (uuid : string) : seen := {|
  n_now := 0; n_late := false; n_flusher := true; n_cold := ExecutorSpec.demo_env; n_warm := ExecutorSpec.demo_env;
  n_submit := demo_submission; n_create := demo_hc uuid; n_exec_now := 0; n_kernel := demo_step; n_enoent := false;
  n_os := demo_os; n_vol := env0; n_kv := at_ 0; n_statfs := None; n_readFile _ := None; n_runtimes := None |}.
Definition demo_in (m path key body : string) : incoming := {|
  in_req := {| Method := m; Path := path; r_peer := {| RemoteAddr := "203.0.113.9:4711"; X_Real_IP := "" |};
               r_headers := {| Middleware.X_API_Key := key; Middleware.Authorization := "" |} |};
  in_query _ := ""; in_header _ := ""; in_body := body |}.
Definition demo_life : list input := [Request (demo_seen "1") (demo_in "POST" "/v1/sessions" "b" (jtext "{'runtime':'python'}")); Beat demo_beat demo_os].
Abbreviation demo_runs := (life id "harness" (λ _, "0") demo_files).
Definition answer_status (a : answer) : Z :=
  match a with
  | ASession r => status r | AVolume r => status r | AMemory r => status r | ARefused r => status r
  | _ => 0
  end.

Lemma demo_waits : polls_wait demo_submission.
Proof.
  split; [|split; [done|cbn; lia]]. change (sq_polls demo_submission) with (replicate 61 {| po_now := 0; po_out := PErr; po_ctx := false |}).
  generalize (submit_deadline (sq_now demo_submission) (sq_ctx demo_submission)), 61%nat. intros d n.
  induction n as [|[|n] IH]; [exact I|exact I|]. split; [discriminate|exact IH].
Qed.
Lemma demo_fair minted uuid : MintID uuid ∉ minted → contains_char Filepath.slash uuid = false → fair minted (demo_seen uuid).
Proof.
  intros Hm Hu. split; [done| |done|by right|done|apply demo_waits].
  repeat split; done.
Qed.
Lemma demo_fits d : fits id "harness" (λ _, "0") demo_files ∅ (launched d ∅) demo_life.
Proof.
  split; [by apply demo_fair; [set_solver|]|]. intros a p' _. split; [|by intros ? ? _].
  intros s _. apply Forall_nil_2.
Qed.
(** A session is made with one key (201), the ticker beats, and a volume is made with the other (201). *)
Example demo_answers : ∃ d, demo_daemon = Some d ∧
  (λ r, map (λ a, from_option answer_status 0 a) r.1) <$>
    demo_runs (launched d ∅) (demo_life ++ [Request (demo_seen "2") (demo_in "POST" "/v1/volumes" "a" (jtext "{'name':'notes'}"))]) = Some [201; 0; 201].
Proof. eexists. split; [vm_compute; reflexivity|vm_compute; reflexivity]. Qed.
Lemma daemon_serves_witness : ∃ d answers p, demo_daemon = Some d ∧ demo_runs (launched d ∅) demo_life = Some (answers, p) ∧
  List.length answers = 2%nat ∧ inUse (d_sema (p_d p)) = 0.
Proof.
  destruct demo_daemon as [d|] eqn:E; [|exfalso; revert E; vm_compute; discriminate].
  destruct (daemon_serves id "harness" (λ _, "0") demo_files demo_outside ∅ d demo_life E) as (answers & p & H1 & H2 & H3 & _).
  - apply map_Forall_empty.
  - apply demo_fits.
  - by exists d, answers, p.
Defined.
Definition demo_post_volume : incoming := demo_in "POST" "/v1/volumes" "a" (jtext "{'name':'notes'}").
Definition demo_tenant : option string :=
  d ← demo_daemon; '(_, p) ← demo_runs (launched d ∅) demo_life; tenant_of (p_d p) demo_post_volume.
Lemma demo_tenant_key : demo_tenant = Some (KeyStore.deriveTenant "a").
Proof. vm_compute. reflexivity. Qed.
Lemma daemon_isolation_witness : ∃ d answers p a p', demo_daemon = Some d ∧ demo_runs (launched d ∅) demo_life = Some (answers, p) ∧
  handle id "harness" (λ _, "0") demo_files p (demo_seen "2") demo_post_volume = Some (a, p') ∧
  spared (KeyStore.deriveTenant "a") p p'.
Proof.
  pose proof demo_tenant_key as Ht. unfold demo_tenant in Ht.
  destruct demo_daemon as [d|] eqn:E; [|discriminate Ht]. cbn [mbind option_bind] in Ht.
  destruct (demo_runs (launched d ∅) demo_life) as [[answers p]|] eqn:El; [|discriminate Ht]. cbn [mbind option_bind] in Ht.
  destruct (daemon_isolation id "harness" (λ _, "0") demo_files demo_outside ∅ d demo_life (demo_seen "2") demo_post_volume
    (KeyStore.deriveTenant "a") answers p E) as (a & p' & H1 & H2 & _).
  - apply map_Forall_empty.
  - split; [by apply demo_fair; [set_solver|]|]. intros a p' _. split; [intros s _; apply Forall_nil_2|].
    intros a2 p2 _. split; [|done]. apply demo_fair; [|done]. cbn [mints]. rewrite union_empty_l_L, union_empty_r_L.
    by intros ?%elem_of_singleton.
  - exact El.
  - rewrite Ht. by intros t' [= <-].
  - exists d, answers, p, a, p'. done.
Defined.
