(* ===== verification/DaemonPrivacy.v ===== *)
(** * What a tenant reads does not depend on the others

    [agrees u] relates two daemons that tenant [u] cannot tell apart by reading; the requests of other tenants stay
    within it. *)

From S2P Require Import Prelude GoLib GoStrings GoCodec GoFloat Sched Auth Bolt KV KVSpec KVStore KVWitness Volume VolumeSpec Executor WarmPool Registry ApiExec Kernel KernelSpec Session SessionSlots SessionSpec ApiHttp Queue QueueWire QueueSpec QueueEquiv RateLimit RateLimitSpec ApiKV ApiVolumes ApiSessions ApiBodies SessionVolumes ApiSessionsSpec SessionFrame VolumeFrame ApiFrame Workspace WorkspaceFrame Web Router Health Main Daemon MainSpec DaemonFrame DaemonSpec.

(** ** Volumes *)
Section volumes.
Implicit Types (v : Volume.Manager) (u : string).
Definition volumes_agree u v v' : Prop :=
  (∀ id, Volume.Get v' u id = Volume.Get v u id) ∧
  match Volume.List v u, Volume.List v' u with Ok l, Ok l' => l ≡ₚ l' | Err e, Err e' => e = e' | _, _ => False end.

(** The entries of the index that lead to a volume of [u]. *)
Definition entries_of u v : list (string * nat) :=
  List.filter (λ kp, from_option (λ x, String.eqb (Tenant x) u) false (heap v !! kp.2)) (map_to_list (vols v)).
Lemma of_tenant_entries u v : of_tenant u (indexed v) = omap (λ kp, heap v !! kp.2) (entries_of u v).
Proof.
  unfold of_tenant, indexed, entries_of. induction (map_to_list (vols v)) as [|[k p] l IH]; [done|]. cbn.
  destruct (heap v !! p) as [x|] eqn:E; cbn; [|exact IH]. destruct (String.eqb (Tenant x) u); cbn; [|exact IH].
  rewrite E. f_equal. exact IH.
Qed.
Lemma elem_of_entries u v kp : kp ∈ entries_of u v ↔
  vols v !! kp.1 = Some kp.2 ∧ ∃ x, heap v !! kp.2 = Some x ∧ Tenant x = u.
Proof.
  unfold entries_of. rewrite list_elem_of_In, filter_In, <- list_elem_of_In. destruct kp as [k p].
  rewrite elem_of_map_to_list. cbn. destruct (heap v !! p) as [x|]; cbn; [|naive_solver].
  rewrite String.eqb_eq. naive_solver.
Qed.
Lemma entries_NoDup u v : NoDup (entries_of u v).
Proof. apply NoDup_ListNoDup, List.NoDup_filter, NoDup_ListNoDup, NoDup_map_to_list. Qed.

Lemma vspares_entries t u v v' : vspares t v v' → u ≠ t →
  entries_of u v ≡ₚ entries_of u v' ∧ ∀ kp, kp ∈ entries_of u v → heap v' !! kp.2 = heap v !! kp.2.
Proof.
  intros [H1 H2 _] Hu. split.
  - apply NoDup_Permutation; [apply entries_NoDup..|]. intros [k p]. rewrite !elem_of_entries. cbn.
    split; intros (Hk & x & Hx & Ht).
    + destruct (H1 k p x Hk Hx ltac:(congruence)). eauto.
    + destruct (H2 k p x Hk Hx ltac:(congruence)). eauto.
  - intros [k p] (Hk & x & Hx & Ht)%elem_of_entries. cbn in *. rewrite Hx. by apply (H1 k p x Hk Hx); congruence.
Qed.
Lemma infoOf_agree t v v' x : vspares t v v' → Tenant x ≠ t → infoOf v' x = infoOf v x.
Proof. intros H Hx. unfold infoOf, data_size. by rewrite (vp_disk _ _ _ H). Qed.
Lemma vspares_agree t u v v' : vspares t v v' → u ≠ t → index_ok v → index_ok v' → volumes_agree u v v'.
Proof.
  intros H Hu Hi Hi'. split.
  - intros id. unfold Volume.Get, lookup. destruct (tenantRe u) eqn:Ht; [|done]. destruct (idRe id) eqn:Hid; [|done].
    cbn [negb]. assert (E : vols v' !! key u id = vols v !! key u id).
    { apply option_eq. intros p. split; intros Hk.
      - destruct (Hi' _ _ Hk) as (x & Hx & Hkey & Htx & _). apply key_inj in Hkey as [-> ->]; [|done..].
        by apply (vp_new _ _ _ H _ p x).
      - destruct (Hi _ _ Hk) as (x & Hx & Hkey & Htx & _). apply key_inj in Hkey as [-> ->]; [|done..].
        by apply (vp_keep _ _ _ H _ p x). }
    rewrite E. destruct (vols v !! key u id) as [p|] eqn:Hk; [|done]. cbn.
    destruct (Hi _ _ Hk) as (x & Hx & Hkey & Htx & _). apply key_inj in Hkey as [-> ->]; [|done..].
    destruct (vp_keep _ _ _ H _ p x Hk Hx Hu) as [_ Hx']. unfold the_volume. rewrite Hx, Hx'. cbn. f_equal. by apply (infoOf_agree t).
  - unfold Volume.List. destruct (negb (tenantRe u)); [done|]. rewrite !merge_sort_Permutation, !of_tenant_entries.
    destruct (vspares_entries t u v v' H Hu) as [Hp Hh]. rewrite <- Hp.
    assert (E : ∀ l, (∀ kp, kp ∈ l → kp ∈ entries_of u v) →
      map (infoOf v) (omap (λ kp, heap v !! kp.2) l) = map (infoOf v') (omap (λ kp, heap v' !! kp.2) l)).
    { intros l. induction l as [|kp l IH]; intros Hl; [done|]. cbn. pose proof (Hl kp ltac:(by left)) as Hin.
      rewrite (Hh kp Hin). apply elem_of_entries in Hin as (_ & x & Hx & Htx). rewrite Hx. cbn. f_equal.
      - symmetry. apply (infoOf_agree t); [done|congruence].
      - apply IH. intros kp' Hin'. apply Hl. by right. }
    by rewrite E.
Qed.
(** Programs that leave the entries of [u] in the tree alone. *)
Lemma guest_agree u v (t : Volume.tree) : index_ok v → (∀ id, tree_entry t u id = tree_entry (Volume.disk v) u id) →
  volumes_agree u v (Volume.set_disk v t).
Proof.
  intros Hi Ht. assert (E : ∀ y, Tenant y = u → infoOf (Volume.set_disk v t) y = infoOf v y).
  { intros y Hy. unfold infoOf, data_size. cbn. by rewrite Hy, Ht. }
  split.
  - intros id. unfold Volume.Get. change (lookup (Volume.set_disk v t) u id) with (lookup v u id).
    destruct (lookup v u id) as [q|] eqn:Hl; [|done]. cbn. destruct (lookup_spec v u id q Hi Hl) as (y & Hy & Hu & _).
    change (the_volume (Volume.set_disk v t) q) with (the_volume v q). unfold the_volume. rewrite Hy. cbn. by rewrite E.
  - unfold Volume.List. destruct (negb (tenantRe u)); [done|]. change (indexed (Volume.set_disk v t)) with (indexed v).
    assert (El : map (infoOf (Volume.set_disk v t)) (of_tenant u (indexed v)) = map (infoOf v) (of_tenant u (indexed v))); [|by rewrite El].
    apply map_ext_in. intros y Hin. apply E. unfold of_tenant in Hin. by apply filter_In in Hin as [_ Hin%String.eqb_eq].
Qed.
#[export] Instance volumes_agree_trans u : Transitive (volumes_agree u).
Proof.
  intros v1 v2 v3 [A1 A2] [B1 B2]. split; [intros id; by rewrite B1, A1|].
  destruct (Volume.List v1 u), (Volume.List v2 u), (Volume.List v3 u); try done; by etransitivity.
Qed.
End volumes.

(** ** Records *)
Section records.
Context {DB : Type} {BO : Bolt DB} {BS : BoltSpec DB} {RC : RecordCodec} {RS : RecordCodecSpec}.
Implicit Types (s : Store DB) (u : string).
Definition memory_agree u s s' : Prop :=
  (∀ c ns k, (KV.Get s' c u ns k).1 = (KV.Get s c u ns k).1) ∧
  (∀ c ns pfx limit cur, (KV.List s' c u ns pfx limit cur).1 = (KV.List s c u ns pfx limit cur).1).
Lemma getDB_agree t u s s' c : handles_apart t s s' → store_ok s → u ≠ t →
  match getDB s c u, getDB s' c u with
  | (Ok h, s1), (Ok h', s1') => h' = h ∧ file s1' h = file s1 h
  | (Err e, _), (Err e', _) => e' = e
  | _, _ => False
  end.
Proof.
  intros H Hs Hu. unfold getDB. assert (path s' u = path s u) as -> by (unfold path; by rewrite (ha_dir _ _ _ H)).
  destruct (path s u) as [p|] eqn:Hp; [|done]. rewrite (ha_dbs _ _ _ H u Hu).
  assert (Hne : path s t ≠ Ok p) by (intros E; apply Hu; by apply (path_inj s _ _ p (ok_dir _ Hs))).
  destruct (dbs s !! u) as [h|] eqn:Hd.
  - destruct (ok_handles _ Hs _ _ Hd) as [Hp' _]. assert (h = p) as -> by congruence. split; [done|]. by apply H.
  - rewrite (ha_closed _ _ _ H). destruct (KV.closed s); [done|]. destruct (open_ok c); [|done]. cbn [negb].
    destruct (init_ok c); [|done]. cbn [negb]. split; [done|]. unfold file. cbn. rewrite !lookup_insert_eq. cbn. f_equal.
    by apply H.
Qed.
Lemma apart_memory_agree t u s s' : handles_apart t s s' → store_ok s → u ≠ t → memory_agree u s s'.
Proof.
  intros H Hs Hu. split.
  - intros c ns k. pose proof (getDB_agree t u s s' c H Hs Hu) as Hg. unfold KV.Get.
    destruct (negb _); [done|]. destruct (_ || _); [done|].
    destruct (getDB s c u) as [[h|e] s1], (getDB s' c u) as [[h'|e'] s1']; try done; [|by subst].
    destruct Hg as [-> Hf]. unfold file in Hf. rewrite Hf. by destruct (get_tx _ _ _ _).
  - intros c ns pfx limit cur. pose proof (getDB_agree t u s s' c H Hs Hu) as Hg. unfold KV.List.
    destruct (negb _); [done|]. destruct (decodeCursor cur); [|done].
    destruct (getDB s c u) as [[h|e] s1], (getDB s' c u) as [[h'|e'] s1']; try done; [|cbn; by subst].
    destruct Hg as [-> Hf]. unfold file in Hf. by rewrite Hf.
Qed.
End records.

(** ** Sessions *)
Section privacy.
Context {W : Type} {SW : Weighted W} {SWS : WeightedSpec W} {DB : Type} {BO : Bolt DB} {BS : BoltSpec DB}.
Context {RC : RecordCodec} {RS : RecordCodecSpec} {L : Type} {BK : Bucket L} {MX : Mux} {MS : MuxSpec} {WR : Wire}.
Context (uni_lower : string → string) (harnessPy : string) (format_g : float → string) (files : embedded).
Implicit Types (d : daemon W DB L) (m : Session.Manager W) (minted : gset string) (t u : string).

Definition refusal (e : SessErr) : Prop := e = Session.ErrNotFound ∨ e = Session.ErrForbidden.
(** Access to a session gives the same session, or is refused both times: an id of somebody else's session
    is refused in one way, an id of none in the other. *)
Definition sessions_agree u m m' : Prop := ∀ id token,
  (∃ p, authed m id token u = Ok p ∧ authed m' id token u = Ok p ∧ the_session m' p = the_session m p) ∨
  (∃ e e', authed m id token u = Err e ∧ authed m' id token u = Err e' ∧ refusal e ∧ refusal e').
Lemma authed_cases m id token u : (∃ p, authed m id token u = Ok p) ∨ ∃ e, authed m id token u = Err e ∧ refusal e.
Proof.
  unfold authed, refusal. destruct (sessions m !! id) as [p|]; [|eauto]. case_match; [eauto|]. case_match; eauto.
Qed.
Lemma spares_authed t new m m' id token u p : slots_ok {| gm := m; flights := [] |} → spares t new m m' → u ≠ t → u ≠ "" →
  authed m id token u = Ok p → authed m' id token u = Ok p ∧ the_session m' p = the_session m p.
Proof.
  intros Hok Hs Hu Hn. unfold authed. destruct (sessions m !! id) as [q|] eqn:Hq; [|done].
  destruct (so_table _ Hok id q Hq) as (s & Hs1 & _). cbn in Hs1. unfold the_session. rewrite Hs1. cbn.
  destruct (String.eqb token (s_Token s)) eqn:Et; [|done]. cbn [negb].
  destruct (String.eqb_spec u "") as [|_]; [done|]. cbn [negb andb]. destruct (String.eqb_spec (s_Tenant s) u) as [E|]; [|done].
  cbn [negb]. intros [= <-]. assert (Hne : s_Tenant s ≠ t) by congruence.
  rewrite (sp_keep _ _ _ _ Hs id q s Hq Hs1 Hne). destruct (sp_heap _ _ _ _ Hs q s Hs1) as (s' & Hs' & _ & _ & Hsame).
  rewrite (Hsame Hne) in Hs'. rewrite Hs'. cbn. rewrite Et, E, String.eqb_refl. by rewrite Hs1.
Qed.
Lemma spares_authed_back t new m m' id token u p : spares t new m m' → u ≠ t → u ≠ "" →
  slots_ok {| gm := m; flights := [] |} → authed m' id token u = Ok p → authed m id token u = Ok p.
Proof.
  intros Hs Hu Hn Hok. unfold authed. destruct (sessions m' !! id) as [q|] eqn:Hq; [|done].
  destruct (String.eqb token (s_Token (the_session m' q))) eqn:Et; [|done]. cbn [negb].
  destruct (String.eqb_spec u "") as [|_]; [done|]. cbn [negb andb].
  destruct (String.eqb_spec (s_Tenant (the_session m' q)) u) as [E|]; [|done]. cbn [negb]. intros [= <-].
  destruct (sp_new _ _ _ _ Hs id q Hq) as [H|(s & Hs' & Ht)].
  - destruct (so_table _ Hok id q H) as (s & Hs1 & _). cbn in Hs1.
    destruct (sp_heap _ _ _ _ Hs q s Hs1) as (s' & Hs' & _ & Et' & Hsame). rewrite H.
    unfold the_session in *. rewrite Hs' in Et, E. cbn in Et, E. rewrite Hs1. cbn.
    rewrite Hsame in Et by congruence. rewrite Et. cbn. rewrite <- Et', E, String.eqb_refl. done.
  - unfold the_session in E. rewrite Hs' in E. cbn in E. congruence.
Qed.
Lemma spares_agree t new m m' u : slots_ok {| gm := m; flights := [] |} → spares t new m m' → u ≠ t → u ≠ "" →
  sessions_agree u m m'.
Proof.
  intros Hok Hs Hu Hn id token. destruct (authed_cases m id token u) as [[p E]|(e & E & He)].
  - left. exists p. destruct (spares_authed t new m m' id token u p Hok Hs Hu Hn E). done.
  - right. destruct (authed_cases m' id token u) as [[p E']|(e' & E' & He')]; [|by exists e, e'].
    by rewrite (spares_authed_back t new m m' id token u p Hs Hu Hn Hok E') in E.
Qed.
#[export] Instance sessions_agree_trans u : Transitive (sessions_agree u).
Proof.
  intros m1 m2 m3 H1 H2 id token. destruct (H1 id token) as [(p & A1 & A2 & A3)|(e & e' & A1 & A2 & A3 & A4)],
    (H2 id token) as [(p' & B1 & B2 & B3)|(f & f' & B1 & B2 & B3 & B4)]; try congruence.
  - left. exists p. assert (p' = p) as -> by congruence. split; [done|]. split; congruence.
  - right. by exists e, f'.
Qed.

(** ** Daemons *)
Record agrees u d d' : Prop := {
  ag_sessions : option_Forall2 (sessions_agree u) (d_sessions d) (d_sessions d');
  ag_volumes : option_Forall2 (volumes_agree u) (d_volumes d) (d_volumes d');
  ag_memory : option_Forall2 (memory_agree u) (d_memory d) (d_memory d');
  ag_gates : d_server d' = d_server d ∧ d_routes d' = d_routes d }.
Lemma option_Forall2_mono {A} (R R' : A → A → Prop) (o o' : option A) :
  (∀ x y, o = Some x → o' = Some y → R x y → R' x y) → option_Forall2 R o o' → option_Forall2 R' o o'.
Proof. intros H Hf. revert H. destruct Hf as [x y Hxy|]; intros H; constructor. by apply (H x y). Qed.
#[export] Instance agrees_trans u : Transitive (agrees u).
Proof.
  intros d1 d2 d3 [A1 A2 A3 [A4 A5]] [B1 B2 B3 [B4 B5]]. split.
  - destruct A1 as [x y A|]; inversion B1 as [? z B E|]; subst; constructor. by apply (transitivity A B).
  - destruct A2 as [x y A|]; inversion B2 as [? z B E|]; subst; constructor. by apply (transitivity A B).
  - destruct A3 as [x y [A A']|]; inversion B3 as [? z [B B'] E|]; subst; constructor.
    split; intros; [by rewrite B, A|by rewrite B', A'].
  - split; congruence.
Qed.
Lemma agrees_refl minted u d : sound minted d → u ≠ "" → agrees u d d.
Proof.
  intros Hd Hn. split; [| | |done].
  - destruct (d_sessions d) as [m|] eqn:Hm; constructor. destruct (sd_server _ _ Hd m Hm) as ([S1 _] & _).
    apply (spares_agree "" ∅); done.
  - destruct (d_volumes d) as [v|]; constructor. split; [done|]. by destruct (Volume.List v u).
  - by apply all_refl.
Qed.
Lemma apart_agrees minted minted' t u d d' : sound minted d → sound minted' d' → apart t d d' → u ≠ t → u ≠ "" → agrees u d d'.
Proof.
  intros Hd Hd' [A1 A2 A3 A4] Hu Hn. split; [| | |exact A4].
  - eapply option_Forall2_mono, A1. cbn. intros m m' Hm _ [new Hs]. destruct (sd_server _ _ Hd m Hm) as ([S1 _] & _).
    by apply (spares_agree t new).
  - eapply option_Forall2_mono, A2. cbn. intros v v' Hv Hv' Hs.
    apply (vspares_agree t); [done|done|by apply (sd_volumes _ _ Hd)|by apply (sd_volumes _ _ Hd')].
  - eapply option_Forall2_mono, A3. cbn. intros s s' Hs _ [_ Hh]. apply (apart_memory_agree t); [done|by apply (sd_memory _ _ Hd)|done].
Qed.
(** Two processes, with the files: [u]'s sessions have the same in their workspaces. *)
Record agree u (p p' : process W DB L) : Prop := {
  pa_daemon : agrees u (p_d p) (p_d p');
  pa_files n s : session_at (p_d p) n = Some s → s_Tenant s = u → session_at (p_d p') n = Some s ∧
    ∀ q, under (s_Workspace s) q = true → p_files p' !! q = p_files p !! q }.
#[export] Instance agree_trans u : Transitive (agree u).
Proof.
  intros p1 p2 p3 [A1 A2] [B1 B2]. split; [by etransitivity|]. intros n s Hs Hu.
  destruct (A2 n s Hs Hu) as [H1 H2]. destruct (B2 n s H1 Hu) as [H3 H4]. split; [done|]. intros q Hq. by rewrite H4, H2.
Qed.
Lemma agree_same u p p' : agrees u (p_d p) (p_d p') → (∀ n, session_at (p_d p') n = session_at (p_d p) n) →
  p_files p' = p_files p → agree u p p'.
Proof. intros H Hs Hf. split; [done|]. intros n s E _. rewrite Hs, Hf. done. Qed.
Lemma apart_session t d d' n s : apart t d d' → session_at d n = Some s → s_Tenant s ≠ t → session_at d' n = Some s.
Proof.
  intros [A1 _ _ _]. unfold session_at. destruct A1 as [m m' [new Hs]|]; [|done]. cbn. intros Hn Hne.
  destruct (sp_heap _ _ _ _ Hs n s Hn) as (s' & Hs' & _ & _ & E). by rewrite <- (E Hne).
Qed.
Lemma spared_agree minted minted' t u p p' : sound minted (p_d p) → sound minted' (p_d p') → spared t p p' → u ≠ t → u ≠ "" → agree u p p'.
Proof.
  intros Hd Hd' [A B] Hu Hn. split; [by eapply apart_agrees|]. intros n s Hs Ht.
  split; [eapply apart_session; [exact A|done|congruence]|]. intros q Hq. apply (B n s q Hs); [congruence|done].
Qed.

(** ** Answers *)
Definition reads (h : handler) : bool :=
  match h with HSessionFSGet | HListVolumes | HGetVolume | HKVGet | HKVList => true | _ => false end.
Definition denied (r : http sreply) : Prop :=
  r = HErr 404 "session_not_found" None ∨ r = HErr 401 "invalid_session_token" None.
(** Equal, up to the order of volumes of one name, and to the two ways a session is refused. *)
Definition same_answer (a a' : answer) : Prop :=
  match a, a' with
  | ASession r, ASession r' => r = r' ∨ (denied r ∧ denied r')
  | AVolume (HOk c (VList l)), AVolume (HOk c' (VList l')) => c = c' ∧ l ≡ₚ l'
  | _, _ => a = a'
  end.
Lemma same_answer_refl a : same_answer a a.
Proof. destruct a as [| | | | |r|r|r| | |]; cbn; try done; [by left|]. by destruct r as [|? []]. Qed.
Lemma refusal_denied enoent e : refusal e → denied (writeSessErr enoent e).
Proof. intros [->| ->]; [by left|by right]. Qed.
(** What the file system answers about a path depends on what is at and below it. *)
Lemma fs_of_agree T T' o w path : (∀ q, under w q = true → T' !! q = T !! q) → under w path = true →
  f_stat (fs_of T' o) path = f_stat (fs_of T o) path ∧ f_read (fs_of T' o) path = f_read (fs_of T o) path ∧
  f_readdir (fs_of T' o) path = f_readdir (fs_of T o) path.
Proof.
  intros H Hp. cbn. unfold entries_at. rewrite (H path Hp).
  assert (sub path T' = sub path T) as -> by (apply sub_ext; intros q Hq; apply H; by eapply under_trans). done.
Qed.
Lemma fs_get_agree minted u ctx p p' m m' x enoent id token path vs vs' : sound minted (p_d p) → agree u p p' →
  d_sessions (p_d p) = Some m → d_sessions (p_d p') = Some m' → sessions_agree u m m' → Middleware.reqTenant ctx = inl u → u ≠ "" →
  same_answer
    (ASession (handleSessionFSGet {| Sessions := m; Volumes := vs |} (fs_of (p_files p) x) enoent ctx id token path))
    (ASession (handleSessionFSGet {| Sessions := m'; Volumes := vs' |} (fs_of (p_files p') x) enoent ctx id token path)).
Proof.
  intros Hd [_ Hfiles] Hm Hm' H Hctx Hn. cbn [same_answer]. unfold handleSessionFSGet, Stat, ListDir, ReadFile. rewrite Hctx. cbn [Sessions].
  destruct (H id token) as [(n & Ha & Ha' & E)|(e & e' & Ha & Ha' & He & He')].
  2: { right. unfold resolve_path. rewrite Ha, Ha'. cbn. split; by apply refusal_denied. }
  left. assert (Er : resolve_path m' id token u path = resolve_path m id token u path) by (unfold resolve_path; rewrite Ha, Ha'; cbn; by rewrite E).
  rewrite Er. destruct (resolve_path m id token u path) as [[n' q]|e] eqn:Ep; [|done]. cbn.
  destruct (sd_server _ _ Hd m Hm) as ([S1 _] & _). destruct (authed_loc _ _ _ _ _ _ S1 Ha) as (Hlt & Hid & _).
  destruct (lookup_lt_is_Some_2 _ _ Hlt) as [s Hs]. cbn [srv Sessions] in Hs, Hid. rewrite (the_session_id _ _ _ Hs) in Hid.
  destruct (session_home _ _ _ _ _ Hd Hm Hs) as [_ Hsim]. rewrite Hid in Hsim.
  destruct (path_confined m id token u path n' q S1 (proj1 (sd_homes _ _ Hd m Hm)) Hsim Ep) as (_ & _ & Hq & Ha2).
  assert (n' = n) as -> by congruence. rewrite (the_session_id _ _ _ Hs) in Hq.
  destruct (Hfiles n s) as [_ Hf]; [unfold session_at; by rewrite Hm|by apply (authed_tenant _ _ _ _ _ Hn Ha)|].
  destruct (fs_of_agree _ _ x _ q Hf Hq) as (F1 & F2 & F3). cbn in F1, F2, F3. by rewrite F1, F2, F3.
Qed.
Lemma dispatch_agree minted u ctx p p' x h ps limit q : sound minted (p_d p) → agree u p p' → Middleware.reqTenant ctx = inl u → reads h = true →
  option_Forall2 same_answer
    (fst <$> dispatch uni_lower harnessPy format_g files p x h ps ctx limit q)
    (fst <$> dispatch uni_lower harnessPy format_g files p' x h ps ctx limit q).
Proof.
  intros Hd Hag Hctx Hr. pose proof (pa_daemon _ _ _ Hag) as [A1 A2 A3 _]. destruct h; try done; cbn [dispatch].
  - unfold sessions_api. cbv zeta. destruct (d_sessions (p_d p)) as [m|] eqn:Hm, (d_sessions (p_d p')) as [m'|] eqn:Hm'; inversion A1; cbn; constructor.
    by apply (fs_get_agree minted u); try done; apply (reqTenant_nonempty ctx).
  - unfold volumes_api. destruct A2 as [v v' [_ A]|]; cbn; constructor. unfold handleListVolumes. rewrite Hctx.
    destruct (Volume.List v u), (Volume.List v' u); try done. subst. apply same_answer_refl.
  - unfold volumes_api. destruct A2 as [v v' [A _]|]; cbn; constructor. unfold handleGetVolume. rewrite Hctx, A. apply same_answer_refl.
  - unfold memory_api. destruct A3 as [s s' [A _]|]; cbn; constructor. unfold handleKVGet. rewrite Hctx.
    specialize (A (n_kv x) (param ps "namespace") (param ps "key")).
    destruct (KV.Get s _ _ _ _) as [[[[[? ?] ?] ?]|?] ?], (KV.Get s' _ _ _ _) as [r' ?]; cbn in A; subst r'; [|by apply same_answer_refl].
    case_match; apply same_answer_refl.
  - unfold memory_api. destruct A3 as [s s' [_ A]|]; cbn; constructor. unfold handleKVList. rewrite Hctx. cbv zeta.
    match goal with |- context [KV.List s ?c u ?ns ?pfx ?n ?cur] => specialize (A c ns pfx n cur);
      destruct (KV.List s c u ns pfx n cur) as [[[? ?]|?] ?], (KV.List s' c u ns pfx n cur) as [r' ?] end;
      cbn in A; subst r'; apply same_answer_refl.
Qed.

(** ** The limiter *)

(** The refusal of the rate limiter, whose buckets are of addresses, not of tenants. *)
Definition rate_refusal : http unit := HErr 429 "rate_limited" (Some 1).
Lemma through_limiter g now r ms : ∀ (i i' : ipLimiter L) ctx limit,
  (through g i now r ctx limit ms).1 = (through g i' now r ctx limit ms).1 ∨
  (through g i now r ctx limit ms).1 = Stop rate_refusal ∨ (through g i' now r ctx limit ms).1 = Stop rate_refusal.
Proof.
  induction ms as [|[n| | |] ms IH]; intros i i' ctx limit; cbn [through].
  - by left.
  - apply IH.
  - unfold middleware. destruct (get i now _) as [l1 i1], (get i' now _) as [l2 i2].
    destruct (Allow l1 now) as [[] ?], (Allow l2 now) as [[] ?]; cbn [fst]; [apply IH|by right; right|by right; left|by left].
  - destruct (Middleware.authMiddleware g (r_headers r) ctx); try by left. apply IH.
  - destruct (Middleware.requireTenantKey g ctx); try by left. apply IH.
Qed.
Lemma serve_limiter g rs now r (i i' : ipLimiter L) :
  (serve g rs i now r).1 = (serve g rs i' now r).1 ∨
  (serve g rs i now r).1 = Refused rate_refusal ∨ (serve g rs i' now r).1 = Refused rate_refusal.
Proof.
  unfold serve. destruct (String.eqb _ "OPTIONS"); [by left|]. destruct (find_route _ _ _) as [[rt ps]|]; [|by left].
  destruct (through_limiter g now r (m_chain rt) i i' None None) as [H|[H|H]];
    destruct (through g i now r None None (m_chain rt)) as [v1 i1], (through g i' now r None None (m_chain rt)) as [v2 i2]; cbn in H; subst.
  - left. by destruct v2.
  - by right; left.
  - by right; right.
Qed.
(** [q] asks for a read, or for nothing the table has. *)
Definition reading (p : process W DB L) (q : incoming) : Prop :=
  ∀ rt ps, find_route (d_routes (p_d p)) (Method (in_req q)) (Path (in_req q)) = Some (rt, ps) → reads (m_handler rt) = true.
Definition limited (a : answer) : Prop := a = ARefused rate_refusal.
Lemma handle_agree minted u p p' x q a p1 a' p1' : sound minted (p_d p) → agree u p p' → tenant_of (p_d p) q = Some u → reading p q →
  handle uni_lower harnessPy format_g files p x q = Some (a, p1) →
  handle uni_lower harnessPy format_g files p' x q = Some (a', p1') → same_answer a a' ∨ limited a ∨ limited a'.
Proof.
  intros Hd Hag Ht Hr. destruct (pa_daemon _ _ _ Hag) as [_ _ _ [G1 G2]]. unfold handle. cbv zeta. rewrite G1, G2.
  pose proof (serve_limiter (s_gate (d_server (p_d p))) (d_routes (p_d p)) (n_now x) (in_req q) (d_limiter (p_d p)) (d_limiter (p_d p'))) as Hs.
  destruct (serve _ _ (d_limiter (p_d p)) _ _) as [v i] eqn:Ev, (serve _ _ (d_limiter (p_d p')) _ _) as [v' i']. cbn [fst] in Hs.
  destruct Hs as [<-|[->| ->]]; [|by intros [= <- _] _; right; left|by intros _ [= <- _]; right; right].
  destruct v as [| |r|h ps ctx limit]; try (intros [= <- _] [= <- _]; left; apply same_answer_refl).
  set (p2 := with_daemon p (with_limiter (p_d p) i)). set (p2' := with_daemon p' (with_limiter (p_d p') i')). intros E E'. left.
  assert (Hd2 : sound minted (p_d p2)) by (by apply sound_limiter).
  assert (Hag2 : agree u p2 p2') by (destruct Hag as [[B1 B2 B3 B4] B5]; by split; [split|]).
  assert (Hh : reads h = true ∧ Middleware.reqTenant ctx = inl u).
  { destruct (sd_table _ _ Hd) as (s & cfg & B1 & _). revert Ev. unfold serve. destruct (String.eqb _ "OPTIONS"); [done|].
    destruct (find_route _ _ _) as [[rt ps']|] eqn:Ef; [|done]. specialize (Hr _ _ Ef). apply find_sound in Ef as [Hin _]. rewrite B1 in Hin.
    destruct (through _ _ _ _ _ _ _) as [[stop|ctx' limit'] i1] eqn:Et; [done|]. intros [= <- <- <- <- <-]. split; [done|].
    pose proof (proj1 (Forall_forall _ _) (table_ok s cfg) rt Hin) as Hc.
    destruct (through_reach _ _ _ _ _ _ _ _ Hc ltac:(by destruct (m_handler rt)) Et) as (_ & _ & Ha & _).
    revert Ht. unfold tenant_of. rewrite Ha. destruct (Middleware.reqTenant ctx'); [by intros [= ->]|done]. }
  destruct Hh as [Hreads Hctx].
  pose proof (dispatch_agree minted u ctx p2 p2' x h ps limit q Hd2 Hag2 Hctx Hreads) as H. rewrite E, E' in H. cbn in H. by inversion H.
Qed.

(** ** Requests of others *)
Abbreviation reacts := (react uni_lower harnessPy format_g files).
Abbreviation lives := (life uni_lower harnessPy format_g files).
(** What others do: requests with no key, a bad key, or the key of another tenant; the queue's workers, reloads, container boots; programs in
    the sessions of other tenants, and programs that leave [u]'s volumes alone. *)
Definition other u (p : process W DB L) (i : input) : Prop :=
  match i with
  | Request _ q => tenant_of (p_d p) q ≠ Some u
  | Work _ _ | Booted _ | Hup _ => True
  | Program n _ => ∀ s, session_at (p_d p) n = Some s → s_Tenant s ≠ u
  | Guest t => ∀ v, d_volumes (p_d p) = Some v → ∀ id, tree_entry t u id = tree_entry (Volume.disk v) u id
  | Beat _ _ => False
  end.
Fixpoint foreign u (p : process W DB L) (l : list input) : Prop :=
  match l with
  | [] => True
  | i :: l => other u p i ∧ ∀ a p', reacts p i = Some (a, p') → foreign u p' l
  end.
Lemma program_agree minted u (p : process W DB L) n T : sound minted (p_d p) → u ≠ "" →
  (∀ s, session_at (p_d p) n = Some s → s_Tenant s ≠ u) →
  agree u p match session_at (p_d p) n with Some s => with_files p (program (p_files p) (s_Workspace s) T) | None => p end.
Proof.
  intros Hd Hn Ho. pose proof (agrees_refl minted u (p_d p) Hd Hn) as Hr. destruct (session_at (p_d p) n) as [s|] eqn:Hs; [|by apply agree_same].
  split; [exact Hr|]. intros n' s' Hs' Hu. split; [done|]. intros q Hq. cbn. apply program_lookup.
  unfold session_at in Hs, Hs'. destruct (d_sessions (p_d p)) as [m|] eqn:Hm; [|done]. cbn in Hs, Hs'.
  destruct (session_home _ _ _ _ _ Hd Hm Hs) as [Hw Hsid], (session_home _ _ _ _ _ Hd Hm Hs') as [Hw' Hsid'].
  assert (Hne : s_ID s ≠ s_ID s').
  { intros E. apply (Ho s eq_refl). rewrite <- Hu. destruct (sd_server _ _ Hd m Hm) as ([S1 _] & _).
    assert (n = n') as ->; [|congruence].
    apply (NoDup_lookup (map s_ID (sheap m)) n n' (s_ID s)); [apply (so_ids _ S1)| |]; rewrite list_lookup_fmap, ?Hs, ?Hs'; cbn; congruence. }
  rewrite Hw' in Hq. rewrite Hw.
  exact (proj1 (foreign_workspace (Root m) (s_ID s) (s_ID s') _ q Hsid Hsid' Hne (proj1 (workspace_home (Root m) (s_ID s) Hsid)) Hq)).
Qed.
Lemma work_sessions (p : process W DB L) x payload p' : work uni_lower p x payload = Some p' → ∀ n, session_at (p_d p') n = session_at (p_d p) n.
Proof.
  unfold work. destruct (d_queue (p_d p)); [|by intros [= <-]]. destruct (decodeJob payload) as [j|]; [|by intros [= <-]].
  destruct (Run_local _ _ _ _) as [[[r l] log]|]; [|done]. cbn. intros [= <-] n. unfold session_at. cbn. by destruct (d_sessions (p_d p)).
Qed.
Lemma other_agree u minted p i a p' : u ≠ "" → sound minted (p_d p) → admissible minted p i → other u p i →
  reacts p i = Some (a, p') → agree u p p'.
Proof.
  intros Hn Hd Ha Ho E. pose proof (agrees_refl minted u (p_d p) Hd Hn) as Hr.
  destruct i as [x q|x payload|b o|doc|boot|tr|n T]; cbn [react other admissible] in *; try done.
  - destruct (handle_serves uni_lower harnessPy format_g files minted p x q (default "" (tenant_of (p_d p) q)) Hd Ha)
      as (a' & p1 & Eh & Hs & Hap); [by intros t' ->|]. rewrite Eh in E. cbn in E. injection E as _ <-.
    eapply spared_agree; [exact Hd|exact Hs|exact Hap| |done]. destruct (tenant_of (p_d p) q) as [t|]; cbn; [congruence|done].
  - destruct (work_sound uni_lower minted p x payload Hd) as (p1 & Ew & Hs & Hf & Hap). rewrite Ew in E. cbn in E. injection E as _ <-.
    apply agree_same; [|intros n; apply (work_sessions p x payload p1 Ew n)|done]. apply (apart_agrees minted minted ""); done.
  - injection E as _ <-. apply agree_same; [|intros n; unfold session_at; cbn; by destruct (d_sessions (p_d p))|done].
    destruct Hr as [B1 B2 B3 B4]. split; [|exact B2|exact B3|done]. cbn. destruct (d_sessions (p_d p)) as [m|]; constructor. by inversion B1.
  - injection E as _ <-. apply agree_same; [destruct Hr as [B1 B2 B3 B4]; by split|done|done].
  - injection E as _ <-. apply agree_same; [|intros n; unfold guest; by destruct (d_volumes (p_d p))|done].
    cbn [p_d with_daemon]. unfold guest. destruct (d_volumes (p_d p)) as [v|] eqn:Hv; [|done]. destruct Hr as [B1 B2 B3 B4].
    split; [exact B1| |exact B3|done]. cbn. rewrite Hv. constructor. apply guest_agree; [by apply (sd_volumes _ _ Hd)|by apply Ho].
  - injection E as _ <-. by apply (program_agree minted).
Qed.
Lemma foreign_agree u l : u ≠ "" → ∀ minted p answers p', sound minted (p_d p) →
  fits uni_lower harnessPy format_g files minted p l → foreign u p l →
  lives p l = Some (answers, p') → agree u p p'.
Proof.
  intros Hn. induction l as [|i l IH]; intros minted p answers p' Hd; cbn [fits foreign life].
  { intros _ _ [= _ <-]. apply agree_same; [by eapply agrees_refl|done|done]. }
  intros [Ha Hl] [Hi Hf].
  destruct (react_sound uni_lower harnessPy format_g files minted p i Hd Ha) as (a & p1 & E & H1). rewrite E. cbn [mbind option_bind].
  destruct (lives p1 l) as [[as2 p2]|] eqn:E2; [|done]. cbn [mbind option_bind]. intros [= _ <-].
  etransitivity; [by eapply other_agree|]. eapply IH; [exact H1|by eapply Hl|by eapply Hf|exact E2].
Qed.

(** C3: what a tenant reads is its own.  After any life of the daemon (as in C2), let others do what they will: make any requests,
    have jobs run by the queue's workers, let their programs change the files of their own sessions and volumes.  A request of tenant [u]
    for a read (a file or directory of a session, its volumes, one volume, a record, a listing of keys) then gets
    the answer it would have got before, whatever ids, names and paths it asks for; the files of the workspaces are
    those that requests and programs left there.  Three things may differ: either answer may be the 429 of the rate limiter, whose buckets belong to addresses;
    the order of volumes that have one name; and whether the id of a session that is not [u]'s is
    refused as unknown or as forbidden.  A workspace is taken to hold files and directories only: through a symbolic link that a
    program left there the file calls go anywhere. *)
Theorem reads_private o T d l l' answers answers' p p' u x q :
  boot uni_lower o = Some d → files_ok o → fits uni_lower harnessPy format_g files ∅ (launched d T) (l ++ l' ++ [Request x q]) →
  lives (launched d T) l = Some (answers, p) → foreign u p l' → lives p l' = Some (answers', p') →
  tenant_of (p_d p) q = Some u → reading p q →
  ∃ a p1 a' p1', handle uni_lower harnessPy format_g files p x q = Some (a, p1) ∧
    handle uni_lower harnessPy format_g files p' x q = Some (a', p1') ∧ (same_answer a a' ∨ limited a ∨ limited a').
Proof.
  intros Hb Hf Hl Hlife Hforeign Hlife' Ht Hr.
  destruct (life_sound uni_lower harnessPy format_g files l ∅ (launched d T)) as (answers2 & p2 & minted & E & _ & Hd & _ & Hnext);
    [by apply (boot_sound uni_lower o)|by eapply fits_app|].
  rewrite E in Hlife. injection Hlife as -> ->. specialize (Hnext _ Hl).
  destruct (life_sound uni_lower harnessPy format_g files l' minted p) as (answers3 & p3 & minted' & E' & _ & Hd' & Hsub & Hnext');
    [done|by eapply fits_app|].
  rewrite E' in Hlife'. injection Hlife' as -> ->. destruct (Hnext' _ Hnext) as [Hfair _]. cbn in Hfair.
  assert (Hu : u ≠ "") by (by eapply tenant_nonempty).
  destruct (handle_serves uni_lower harnessPy format_g files minted p x q u Hd) as (a & p1 & Ea & _); [by eapply fair_less|congruence|].
  destruct (handle_serves uni_lower harnessPy format_g files minted' p' x q (default "" (tenant_of (p_d p') q)) Hd' Hfair) as (a' & p1' & Ea' & _);
    [by intros t' ->|].
  exists a, p1, a', p1'. split; [done|]. split; [done|].
  eapply handle_agree; [exact Hd| |exact Ht|exact Hr|exact Ea|exact Ea'].
  by apply (foreign_agree u l' Hu minted p answers' p' Hd); [eapply fits_app|..].
Qed.
End privacy.

(** ** A daemon at work *)
#[local] Existing Instance KVWitness.simple_codec.
#[local] Existing Instance KVWitness.simple_codec_spec.
Definition demo_list : incoming := demo_in "GET" "/v1/volumes" "b" "".
Definition demo_others : list input := [Request (demo_seen "2") demo_post_volume].
Definition demo_reader : option (option string * bool) :=
  d ← demo_daemon; '(_, p) ← demo_runs (launched d ∅) demo_life;
  Some (tenant_of (p_d p) demo_list,
    match find_route (d_routes (p_d p)) "GET" "/v1/volumes" with Some (rt, _) => reads (m_handler rt) | None => true end).
Lemma demo_reader_b : demo_reader = Some (Some (KeyStore.deriveTenant "b"), true).
Proof. vm_compute. reflexivity. Qed.
Lemma demo_long_fits d : fits id "harness" (λ _, "0") demo_files ∅ (launched d ∅) (demo_life ++ demo_others ++ [Request (demo_seen "3") demo_list]).
Proof.
  split; [by apply demo_fair; [set_solver|]|]. intros a1 p1 _. split; [intros s _; apply Forall_nil_2|].
  intros a2 p2 _. split; [apply demo_fair; [|done]|].
  { cbn [mints]. rewrite union_empty_l_L, union_empty_r_L. by intros ?%elem_of_singleton. }
  intros a3 p3 _. split; [|done]. apply demo_fair; [|done]. cbn [mints]. rewrite union_empty_l_L, union_empty_r_L.
  by intros [?%elem_of_singleton|?%elem_of_singleton]%elem_of_union.
Qed.
(** One tenant has a session; the other makes a volume; the first lists its volumes. *)
Lemma reads_private_witness : ∃ d answers p answers' p' a p1 a' p1', demo_daemon = Some d ∧
  demo_runs (launched d ∅) demo_life = Some (answers, p) ∧ demo_runs p demo_others = Some (answers', p') ∧
  handle id "harness" (λ _, "0") demo_files p (demo_seen "3") demo_list = Some (a, p1) ∧
  handle id "harness" (λ _, "0") demo_files p' (demo_seen "3") demo_list = Some (a', p1') ∧
  (same_answer a a' ∨ limited a ∨ limited a').
Proof.
  pose proof demo_tenant_key as Ht. unfold demo_tenant in Ht. pose proof demo_reader_b as Hb. unfold demo_reader in Hb.
  destruct demo_daemon as [d|] eqn:E; [|discriminate Ht]. cbn [mbind option_bind] in Ht, Hb.
  destruct (demo_runs (launched d ∅) demo_life) as [[answers p]|] eqn:El; [|discriminate Ht]. cbn [mbind option_bind] in Ht, Hb.
  injection Hb as Hb Hr. pose proof (demo_long_fits d) as Hfits.
  destruct (life_sound id "harness" (λ _, "0") demo_files demo_life ∅ (launched d ∅)) as (a1 & p1 & minted & E1 & _ & Hs & _ & Hn);
    [by apply (boot_sound id demo_outside)|by eapply fits_app|]. rewrite El in E1. injection E1 as <- <-.
  destruct (life_sound id "harness" (λ _, "0") demo_files demo_others minted p) as (answers' & p' & _ & E2 & _);
    [done|eapply fits_app; by apply Hn|].
  destruct (reads_private id "harness" (λ _, "0") demo_files demo_outside ∅ d demo_life demo_others answers answers' p p'
    (KeyStore.deriveTenant "b") (demo_seen "3") demo_list E (map_Forall_empty _) Hfits El) as (a & q1 & a' & q1' & H).
  - split; [|done]. cbn [other]. rewrite Ht. vm_compute. discriminate.
  - exact E2.
  - exact Hb.
  - intros rt ps Hf. cbn in Hf. rewrite Hf in Hr. exact Hr.
  - exists d, answers, p, answers', p', a, q1, a', q1'. by repeat (split; [assumption || reflexivity|]); apply H.
Defined.
